(** * Ticketing application: sessions, authentication gate, users, events
      and ticket purchase

    A shallow embedding of the Express/TypeScript backend
    (services, middleware, controllers and routes), and of the validation
    and token storage utilities of the frontend, with the properties of the
    session ledger, the authentication gate, the users, the events and the
    purchase transaction.

    Conventions of the embedding

    - A PostgreSQL table is a list of rows in insertion order, except the
      [events] table, which is a finite map on its primary key.  A
      [SELECT ... LIMIT 1] without [ORDER BY] returns the first row of the
      list that matches; an [ORDER BY] is a merge sort, and the order in
      which it puts the rows that it does not tell apart is one of those
      that PostgreSQL leaves open.
    - JavaScript numbers that hold identifiers, counts and quantities are
      integers ([Z]); a [DECIMAL(10,2)] price is a number of cents; a [Date]
      is a number of milliseconds, invalid beyond the last time value.  The
      parameter that a [WHERE] clause compares with an id is not checked
      against the range of [INTEGER]: where a result depends on it, a theorem
      about an id that the request chooses supposes that it is one.
    - One clock serves [new Date()] and [CURRENT_TIMESTAMP], as when the
      server and the database run in UTC: the [TIMESTAMP] columns keep no
      time zone.
    - An [async] method is a computation in the monad [M]: it reads and
      writes the [World] (database, open transaction, clock) and either
      returns a value or throws a [JsError].
    - Every [pool.query] / [client.query] may fail: the world carries a
      fault plan, a function from the index of the query to the error the
      driver throws there, if any.  Every access to [localStorage] may
      throw in the same way.
    - The constraints of the schema that the operations can meet are part
      of the statements: the types and the [CHECK]s of the columns of
      [users], [events] and [sessions] that a request fills, the foreign
      keys and the [VARCHAR(255)] title of [tickets], the uniqueness of
      [users.email], the actions [ON DELETE] of the foreign keys.  A value
      that its column refuses for its type or its length is refused before
      a row is formed; a row that a constraint refuses has taken its id
      from the sequence, which is not given back.
    - Strings are sequences of ASCII characters; where a result depends on
      it, a theorem supposes that a string of the request has no other.

    Left out: the rate limiters in front of the routers (they answer 429
    by the clock), the pool of connections (twenty at most; [pool.connect()]
    runs before the [try] block of a purchase and touches nothing, and a
    connection that is not had in time is a failure of the query that asks
    for it), the support tickets (services/ticketService.ts), the listing of
    the users, and the JSON of the user kept by the token storage. *)

From stdpp Require Import base option list gmap strings pretty sorting.
From Stdlib Require Import ZArith Lia Ascii DecimalString DecimalPos.

Local Open Scope Z_scope.

(** ** JavaScript strings *)

Module Js.

(** [s.substring(n)] *)
Fixpoint drop (n : nat) (s : string) : string :=
  match n, s with
  | O, _ => s
  | S n', String _ s' => drop n' s'
  | S _, EmptyString => EmptyString
  end.

(** [s.startsWith(p)] *)
Definition startsWith (s p : string) : bool := String.prefix p s.

(** [s.includes(needle)] *)
Fixpoint includes (s needle : string) : bool :=
  String.prefix needle s ||
  match s with
  | EmptyString => false
  | String _ s' => includes s' needle
  end.

(** [s.replace(pat, rep)] with a string pattern: the first occurrence only. *)
Fixpoint replace (s pat rep : string) : string :=
  if String.prefix pat s then rep +:+ drop (String.length pat) s
  else match s with
       | EmptyString => EmptyString
       | String c s' => String c (replace s' pat rep)
       end.

(** Truthiness of a string: [""] is falsy. *)
Definition truthy (s : string) : bool := negb (bool_decide (s = "")).

(** [s.endsWith(p)] *)
Definition endsWith (s p : string) : bool :=
  String.prefix (String.rev p) (String.rev s).

Definition is_digit (c : Ascii.ascii) : bool :=
  (48 <=? Ascii.nat_of_ascii c)%nat && (Ascii.nat_of_ascii c <=? 57)%nat.

Fixpoint digits_go (s : string) (acc : option Z) : option Z :=
  match s with
  | String c s' =>
      if is_digit c
      then digits_go s' (Some (10 * default 0 acc + Z.of_nat (Ascii.nat_of_ascii c - 48)))
      else acc
  | EmptyString => acc
  end.

(** The white space that [parseInt] skips, among the ASCII characters. *)
Definition is_blank (c : Ascii.ascii) : bool :=
  (Ascii.nat_of_ascii c =? 32)%nat ||
  ((9 <=? Ascii.nat_of_ascii c)%nat && (Ascii.nat_of_ascii c <=? 13)%nat).

Fixpoint skip_blanks (s : string) : string :=
  match s with
  | String c s' => if is_blank c then skip_blanks s' else s
  | EmptyString => s
  end.

(** An optional sign in front of what [digits] reads. *)
Definition signed (digits : string -> option Z) (s : string) : option Z :=
  match s with
  | String "-"%char s1 => Z.opp <$> digits s1
  | String "+"%char s1 => digits s1
  | _ => digits s
  end.

Definition decimal (s : string) : option Z := digits_go s None.

(** [parseInt(s, 10)]: leading white space is skipped; then an optional
    sign and the longest prefix of decimal digits, [None] (NaN) when there is
    none. *)
Definition parseInt (s : string) : option Z := signed decimal (skip_blanks s).

Definition hex_digit (c : Ascii.ascii) : option Z :=
  let n := Ascii.nat_of_ascii c in
  if is_digit c then Some (Z.of_nat (n - 48))
  else if (97 <=? n)%nat && (n <=? 102)%nat then Some (Z.of_nat (n - 87))
  else if (65 <=? n)%nat && (n <=? 70)%nat then Some (Z.of_nat (n - 55))
  else None.

Fixpoint hex_go (s : string) (acc : option Z) : option Z :=
  match s with
  | String c s' =>
      match hex_digit c with
      | Some v => hex_go s' (Some (16 * default 0 acc + v))
      | None => acc
      end
  | EmptyString => acc
  end.

Definition hex_or_decimal (s : string) : option Z :=
  match s with
  | String "0"%char (String "x"%char s') => hex_go s' None
  | String "0"%char (String "X"%char s') => hex_go s' None
  | _ => digits_go s None
  end.

(** [parseInt(s)] without a radix: as [parseInt(s, 10)], except that after
    the sign a prefix [0x] or [0X] announces hexadecimal digits. *)
Definition parseInt_no_radix (s : string) : option Z :=
  signed hex_or_decimal (skip_blanks s).

(** The largest time value of a [Date], in milliseconds. *)
Definition max_time : Z := 8640000000000000.

(** [new Date(v)] for a number [v]: an Invalid Date ([None]) beyond
    [max_time] on either side. *)
Definition new_Date (v : Z) : option Z :=
  if Z.abs v <=? max_time then Some v else None.

(** [v || null] for an optional string: [undefined] and [""] give [null]. *)
Definition or_null (v : option string) : option string :=
  match v with
  | Some s => if truthy s then Some s else None
  | None => None
  end.

(** A number in a template literal: [`${z}`] *)
Definition show (z : Z) : string := NilZero.string_of_int (Z.to_int z).

(** An [Error] object: the gate tells errors apart by [name], the
    controllers by substrings of [message]. *)
Record JsError := mkError { name : string; message : string }.

Definition Error (msg : string) : JsError := mkError "Error" msg.

End Js.

Import Js.

(** ** Rows of the persisted schema *)

Inductive UserRole := RoleUser | RoleAdmin.

Inductive EventStatus := Upcoming | Live | Completed | Cancelled.

Inductive TicketStatus :=
  TOpen | TInProgress | TResolved | TClosed | TPurchased | TCancelled.

Inductive TicketType := Support | EventTicket.

Definition role_name (r : UserRole) : string :=
  match r with RoleUser => "user" | RoleAdmin => "admin" end.

Definition status_name (s : EventStatus) : string :=
  match s with
  | Upcoming => "upcoming"
  | Live => "live"
  | Completed => "completed"
  | Cancelled => "cancelled"
  end.

#[global] Instance UserRole_eq_dec : EqDecision UserRole.
Proof. solve_decision. Defined.

#[global] Instance EventStatus_eq_dec : EqDecision EventStatus.
Proof. solve_decision. Defined.

Record User := mkUser {
  u_id : Z;
  u_email : string;
  u_password_hash : string;
  u_first_name : option string;
  u_last_name : option string;
  u_role : UserRole;
  u_is_active : bool;
  u_created_at : Z;
  u_updated_at : Z
}.

Record Event := mkEvent {
  e_id : Z;
  e_title : string;
  e_description : option string;
  e_venue : option string;
  e_event_date : Z;
  total_tickets : Z;
  available_tickets : Z;
  price : Z;
  e_image_url : option string;
  e_status : EventStatus;
  e_created_by : option Z;
  e_created_at : Z;
  e_updated_at : Z
}.

Record Ticket := mkTicket {
  t_event_id : option Z;
  t_user_id : option Z;
  t_title : string;
  t_status : TicketStatus;
  t_ticket_type : TicketType;
  quantity : Z;
  purchase_price : option Z;
  purchase_date : option Z
}.

Record Session := mkSession {
  s_user_id : Z;
  token_hash : string;
  expires_at : Z;
  is_revoked : bool;
  revoked_at : option Z;
  device_info : option string;
  ip_address : option string;
  s_created_at : Z;
  last_used_at : Z
}.

Record Db := mkDb {
  users : list User;
  users_seq : Z;
  events : gmap Z Event;
  events_seq : Z;
  tickets : list Ticket;
  sessions : list Session
}.

Definition set_users (us : list User) (d : Db) : Db :=
  mkDb us (users_seq d) (events d) (events_seq d) (tickets d) (sessions d).

Definition set_events (es : gmap Z Event) (d : Db) : Db :=
  mkDb (users d) (users_seq d) es (events_seq d) (tickets d) (sessions d).

Definition set_tickets (ts : list Ticket) (d : Db) : Db :=
  mkDb (users d) (users_seq d) (events d) (events_seq d) ts (sessions d).

Definition set_sessions (ss : list Session) (d : Db) : Db :=
  mkDb (users d) (users_seq d) (events d) (events_seq d) (tickets d) ss.

(** The values of a [TIMESTAMP] column start in 4713 BC; they end after the
    last time value of a [Date]. *)
Definition timestamp_fits (t : Z) : bool := -210866803200000 <=? t.

(** ** The world and the monad of [async] methods *)

Record World := mkWorld {
  db : Db;
  (** the database as it was at [BEGIN], while a transaction is open *)
  txn : option Db;
  (** number of queries sent so far *)
  queries : nat;
  (** the error the driver throws at the n-th query, if any *)
  faults : nat -> option JsError;
  (** [new Date()] and [CURRENT_TIMESTAMP], in milliseconds: one clock *)
  now : Z
}.

Inductive Result (A : Type) :=
  | Ok (a : A)
  | Throw (e : JsError).

Arguments Ok {A} a.
Arguments Throw {A} e.

Definition M (A : Type) : Type := World -> Result A * World.

Definition ret {A} (a : A) : M A := fun w => (Ok a, w).

Definition throw {A} (e : JsError) : M A := fun w => (Throw e, w).

Definition bind {A B} (m : M A) (k : A -> M B) : M B := fun w =>
  match m w with
  | (Ok a, w') => k a w'
  | (Throw e, w') => (Throw e, w')
  end.

(** [try { m } catch (error) { h error }] *)
Definition try_catch {A} (m : M A) (h : JsError -> M A) : M A := fun w =>
  match m w with
  | (Ok a, w') => (Ok a, w')
  | (Throw e, w') => h e w'
  end.

Notation "'let!' x := m 'in' k" := (bind m (fun x => k))
  (at level 10, x name, m at level 100, k at level 200).

Definition with_db (d : Db) (w : World) : World :=
  mkWorld d (txn w) (queries w) (faults w) (now w).

Definition with_txn (t : option Db) (w : World) : World :=
  mkWorld (db w) t (queries w) (faults w) (now w).

Definition tick (w : World) : World :=
  mkWorld (db w) (txn w) (S (queries w)) (faults w) (now w).

(** One statement sent to PostgreSQL.  [run] is the effect of the statement
    on the database at the current timestamp; it may itself raise an SQL
    error, in which case it leaves the rows as they were. *)
Definition query {A} (run : Db -> Z -> Result A * Db) : M A := fun w =>
  match faults w (queries w) with
  | Some e => (Throw e, tick w)
  | None =>
      let '(r, d) := run (db w) (now w) in
      (r, with_db d (tick w))
  end.

(** [client.query("BEGIN")] *)
Definition BEGIN : M unit := fun w =>
  match faults w (queries w) with
  | Some e => (Throw e, tick w)
  | None => (Ok tt, with_txn (Some (db w)) (tick w))
  end.

(** [client.query("COMMIT")] *)
Definition COMMIT : M unit := fun w =>
  match faults w (queries w) with
  | Some e => (Throw e, tick w)
  | None => (Ok tt, with_txn None (tick w))
  end.

(** [client.query("ROLLBACK")]: the open transaction, if any, is undone.
    The server undoes an open transaction also when the connection is
    lost, so the rollback is not subject to the fault plan. *)
Definition ROLLBACK : M unit := fun w =>
  match txn w with
  | Some d0 => (Ok tt, with_txn None (with_db d0 w))
  | None => (Ok tt, w)
  end.

(** [new Date()] *)
Definition Date_now : M Z := fun w => (Ok (now w), w).

(** ** Libraries and configuration

    The cryptographic libraries are not part of the repository; the
    development is parametric in them. *)

Record AuthPayload := mkAuthPayload {
  userId : Z;
  email : string;
  role : UserRole
}.

Record JwtPayload := mkJwtPayload {
  jwt_userId : Z;
  jwt_email : string;
  jwt_role : UserRole;
  iat : option Z;
  exp : option Z
}.

Class Libraries := {
  (** [crypto.createHash("sha256").update(token).digest("hex")] *)
  sha256_hex : string -> string;
  (** [jwt.verify(token, JWT_SECRET)] at a given time: the payload, or the
      error the library throws *)
  jwt_verify : string -> Z -> Result JwtPayload;
  (** [jwt.sign(payload, JWT_SECRET, { expiresIn })] at a given time *)
  jwt_sign : AuthPayload -> string -> Z -> string;
  (** [bcrypt.hash(password, saltRounds)] *)
  bcrypt_hash : string -> Z -> string;
  (** [bcrypt.compare(password, hash)] *)
  bcrypt_compare : string -> string -> bool;
  (** [process.env.JWT_EXPIRES_IN || "7d"] *)
  JWT_EXPIRES_IN : string;
  (** [process.env.ADMIN_REGISTRATION_SECRET] *)
  ADMIN_REGISTRATION_SECRET : option string
}.

(** ** HTTP requests and responses *)

Record PublicUser := mkPublicUser {
  pu_id : Z;
  pu_email : string;
  pu_first_name : option string;
  pu_last_name : option string;
  pu_role : UserRole;
  pu_is_active : bool;
  pu_created_at : Z;
  pu_updated_at : Z
}.

Inductive Json :=
  | ErrorBody (error msg : string)
  | MessageBody (msg : string)
  | AuthBody (msg : string) (data : PublicUser) (token : string)
  | EventBody (msg : string) (data : option Event).

Record Response := mkResponse { status : Z; json : Json }.

(** What a request tells of the client that sent it: the [User-Agent],
    [X-Forwarded-For] and [X-Real-IP] headers, [req.ip] and
    [req.socket.remoteAddress]; [None] is [undefined]. *)
Record Client := mkClient {
  user_agent : option string;
  x_forwarded_for : option string;
  x_real_ip : option string;
  ip : option string;
  remoteAddress : option string
}.

(** A request with a body of type [B]: the [Authorization] and
    [x-admin-secret] headers, the route parameter, the identity attached by
    the gate, the body, the client. *)
Record Request (B : Type) := mkRequest {
  authorization : option string;
  x_admin_secret : option string;
  param : string;
  user : option AuthPayload;
  body : B;
  client : Client
}.

Arguments mkRequest {B}.
Arguments authorization {B}.
Arguments x_admin_secret {B}.
Arguments param {B}.
Arguments user {B}.
Arguments body {B}.
Arguments client {B}.

(** What a middleware does with a request: it answers, or it calls
    [next()] with the request, possibly changed. *)
Inductive Gate (B : Type) :=
  | Respond (r : Response)
  | Next (req : Request B).

Arguments Respond {B} r.
Arguments Next {B} req.

(** ** services/sessionService.ts *)

Module SessionService.
Section WithLibraries.
Context `{Libraries}.

Record CreateSessionDto := mkCreateSessionDto {
  dto_user_id : Z;
  dto_token_hash : string;
  (** [None] is an Invalid Date *)
  dto_expires_at : option Z;
  dto_device_info : option string;
  dto_ip_address : option string
}.

Definition hashToken (token : string) : string := sha256_hex token.

(** [ip_address VARCHAR(45)].  The addresses come from [getDeviceInfo] and
    end with no space, so that none is cut to fit. *)
Definition ip_fits (a : option string) : bool :=
  match a with
  | Some a => (String.length a <=? 45)%nat
  | None => true
  end.

(** [user_id INTEGER REFERENCES users(id)] *)
Definition user_known (uid : Z) (d : Db) : bool :=
  existsb (fun u => bool_decide (u_id u = uid)) (users d).

Definition createSession (data : CreateSessionDto) : M Session :=
  let tokenHash := hashToken (dto_token_hash data) in
  query (fun d t =>
    match dto_expires_at data with
    | None => (Throw (Error "invalid input syntax for type timestamp"), d)
    | Some e =>
        if negb (timestamp_fits e)
        then (Throw (Error "timestamp out of range"), d)
        else if negb (ip_fits (or_null (dto_ip_address data)))
        then (Throw (Error "value too long for type character varying(45)"), d)
        else if negb (user_known (dto_user_id data) d)
        then (Throw (Error ("insert or update on table sessions violates foreign key " +:+
                            "constraint sessions_user_id_fkey")), d)
        else
          let row := mkSession (dto_user_id data) tokenHash e false None
                       (or_null (dto_device_info data))
                       (or_null (dto_ip_address data)) t t in
          (Ok row, set_sessions (sessions d ++ [row]) d)
    end).

Definition has_hash (h : string) (s : Session) : bool :=
  bool_decide (token_hash s = h).

Definition findSessionByToken (token : string) : M (option Session) :=
  let tokenHash := hashToken token in
  query (fun d _ => (Ok (head (List.filter (has_hash tokenHash) (sessions d))), d)).

Definition isTokenValid (token : string) : M bool :=
  let! session := findSessionByToken token in
  match session with
  | None => ret false
  | Some session =>
      if is_revoked session then ret false
      else
        let! t := Date_now in
        if expires_at session <? t then ret false else ret true
  end.

(** [WHERE token_hash = $1 AND is_revoked = false] *)
Definition live_with_hash (h : string) (s : Session) : bool :=
  has_hash h s && negb (is_revoked s).

Definition revoke_row (t : Z) (s : Session) : Session :=
  mkSession (s_user_id s) (token_hash s) (expires_at s) true (Some t)
    (device_info s) (ip_address s) (s_created_at s) (last_used_at s).

Definition touch_row (t : Z) (s : Session) : Session :=
  mkSession (s_user_id s) (token_hash s) (expires_at s) (is_revoked s)
    (revoked_at s) (device_info s) (ip_address s) (s_created_at s) t.

(** [UPDATE sessions SET ... WHERE cond RETURNING id]: the rows that match
    are changed in place; the result lists them. *)
Definition update_where (cond : Session -> bool) (f : Session -> Session)
    (ss : list Session) : list Session :=
  map (fun s => if cond s then f s else s) ss.

Definition revokeToken (token : string) : M bool :=
  let tokenHash := hashToken token in
  let! rows := query (fun d t =>
    (Ok (List.filter (live_with_hash tokenHash) (sessions d)),
     set_sessions (update_where (live_with_hash tokenHash) (revoke_row t) (sessions d)) d)) in
  ret (0 <? Z.of_nat (length rows)).

Definition live_of_user (uid : Z) (s : Session) : bool :=
  bool_decide (s_user_id s = uid) && negb (is_revoked s).

Definition revokeAllUserSessions (uid : Z) : M Z :=
  let! rows := query (fun d t =>
    (Ok (List.filter (live_of_user uid) (sessions d)),
     set_sessions (update_where (live_of_user uid) (revoke_row t) (sessions d)) d)) in
  ret (Z.of_nat (length rows)).

Definition updateLastUsed (token : string) : M unit :=
  let tokenHash := hashToken token in
  query (fun d t =>
    (Ok tt,
     set_sessions (update_where (live_with_hash tokenHash) (touch_row t) (sessions d)) d)).

Definition thirty_days : Z := 30 * 24 * 60 * 60 * 1000.

(** [expires_at < CURRENT_TIMESTAMP OR (is_revoked = true AND
    revoked_at < CURRENT_TIMESTAMP - INTERVAL '30 days')]; a comparison with
    a NULL [revoked_at] is not true. *)
Definition stale (t : Z) (s : Session) : bool :=
  (expires_at s <? t) ||
  (is_revoked s &&
   match revoked_at s with
   | Some r => r <? t - thirty_days
   | None => false
   end).

Definition cleanupExpiredSessions : M Z :=
  let! rows := query (fun d t =>
    (Ok (List.filter (stale t) (sessions d)),
     set_sessions (List.filter (fun s => negb (stale t s)) (sessions d)) d)) in
  ret (Z.of_nat (length rows)).

(** [WHERE user_id = $1 AND is_revoked = false AND expires_at >
    CURRENT_TIMESTAMP] *)
Definition active_of_user (uid t : Z) (s : Session) : bool :=
  bool_decide (s_user_id s = uid) && negb (is_revoked s) && (t <? expires_at s).

(** [ORDER BY last_used_at DESC] *)
Definition recently_used (a b : Session) : Prop := last_used_at b <= last_used_at a.

#[global] Instance recently_used_dec a b : Decision (recently_used a b).
Proof. unfold recently_used. apply _. Defined.

Definition getUserSessions (uid : Z) : M (list Session) :=
  query (fun d t =>
    (Ok (merge_sort recently_used (List.filter (active_of_user uid t) (sessions d))), d)).

End WithLibraries.
End SessionService.

(** ** middleware/auth.ts *)

Module Middleware.
Section WithLibraries.
Context `{Libraries}.

Definition unauthorized (msg : string) : Response :=
  mkResponse 401 (ErrorBody "Unauthorized" msg).

(** [req.user = { userId, email, role }] *)
Definition attach {B} (req : Request B) (u : AuthPayload) : Request B :=
  mkRequest (authorization req) (x_admin_secret req) (param req) (Some u) (body req)
    (client req).

(** The token the gate reads in the [Authorization] header. *)
Definition extract_token (authHeader : string) : string :=
  if startsWith authHeader "Bearer " then drop 7 authHeader else authHeader.

(** The body of the [try] block of [authenticate]. *)
Definition authenticate_try {B} (req : Request B) : M (Gate B) :=
  match authorization req with
  | None => ret (Respond (unauthorized "No token provided"))
  | Some authHeader =>
      if negb (truthy authHeader)
      then ret (Respond (unauthorized "No token provided"))
      else
        let token := extract_token authHeader in
        if negb (truthy token)
        then ret (Respond (unauthorized "Invalid token format"))
        else
          let! t := Date_now in
          match jwt_verify token t with
          | Throw error =>
              if bool_decide (name error = "TokenExpiredError")
              then ret (Respond (unauthorized "Token expired"))
              else if bool_decide (name error = "JsonWebTokenError")
              then ret (Respond (unauthorized "Invalid token"))
              else throw error
          | Ok decoded =>
              let! isValid := SessionService.isTokenValid token in
              if negb isValid
              then ret (Respond (unauthorized "Token has been revoked"))
              else
                let! _ := SessionService.updateLastUsed token in
                ret (Next (attach req
                  (mkAuthPayload (jwt_userId decoded) (jwt_email decoded) (jwt_role decoded))))
          end
  end.

(** [authenticate(req, res, next)]: whatever is thrown inside the [try]
    block is answered with 500. *)
Definition authenticate {B} (req : Request B) (w : World) : Gate B * World :=
  match authenticate_try req w with
  | (Ok g, w') => (g, w')
  | (Throw _, w') =>
      (Respond (mkResponse 500
         (ErrorBody "Internal server error" "Token verification failed")), w')
  end.

(** [authorize(...allowedRoles)] *)
Definition authorize {B} (allowedRoles : list string) (req : Request B)
    (w : World) : Gate B * World :=
  match user req with
  | None =>
      (Respond (mkResponse 401 (ErrorBody "Unauthorized" "Authentication required")), w)
  | Some u =>
      if negb (bool_decide (role_name (role u) ∈ allowedRoles))
      then (Respond (mkResponse 403 (ErrorBody "Forbidden" "Insufficient permissions")), w)
      else (Next req, w)
  end.

(** [generateToken(payload)], signed at time [t] *)
Definition generateToken (payload : AuthPayload) (t : Z) : string :=
  jwt_sign payload JWT_EXPIRES_IN t.

End WithLibraries.
End Middleware.

(** ** utils/validation.ts

    Strings are sequences of ASCII characters: [toLowerCase] acts on
    [A]-[Z], the white space of [trim] and of the class [\s] is the space
    and the characters 9 to 13. *)

Module Validation.

Definition code (c : ascii) : nat := nat_of_ascii c.

Definition is_space (c : ascii) : bool :=
  (code c =? 32)%nat || ((9 <=? code c)%nat && (code c <=? 13)%nat).

(** the class [[\x00-\x1F\x7F]] *)
Definition is_control (c : ascii) : bool :=
  (code c <? 32)%nat || (code c =? 127)%nat.

Definition lower (c : ascii) : ascii :=
  if (65 <=? code c)%nat && (code c <=? 90)%nat
  then ascii_of_nat (code c + 32) else c.

Definition chars (s : string) : list ascii := String.list_ascii_of_string s.

Definition str (l : list ascii) : string := String.string_of_list_ascii l.

Definition toLowerCase (s : string) : string := str (map lower (chars s)).

Fixpoint trim_start (l : list ascii) : list ascii :=
  match l with
  | c :: l' => if is_space c then trim_start l' else l
  | [] => []
  end.

(** [s.trim()] *)
Definition trim (s : string) : string :=
  str (rev (trim_start (rev (trim_start (chars s))))).

Record Validity := mkValidity {
  valid : bool;
  sanitized : option string;
  v_message : option string
}.

Definition invalid (msg : string) : Validity := mkValidity false None (Some msg).

(** [/^[^\s@]+@[^\s@]+\.[^\s@]+$/.test(email)]: one [@], no white space, a
    local part, and a domain with a dot that is neither its first nor its
    last character. *)
Definition plain (c : ascii) : bool :=
  negb (is_space c) && negb (bool_decide (c = "@"%char)).

Fixpoint split_at_sign (l : list ascii) : option (list ascii * list ascii) :=
  match l with
  | [] => None
  | c :: l' =>
      if bool_decide (c = "@"%char) then Some ([], l')
      else match split_at_sign l' with
           | Some (a, b) => Some (c :: a, b)
           | None => None
           end
  end.

Definition inner (l : list ascii) : list ascii :=
  match l with
  | [] => []
  | _ :: l' => removelast l'
  end.

Definition isValidEmail (email : string) : bool :=
  match split_at_sign (chars email) with
  | Some (loc, dom) =>
      negb (bool_decide (loc = [])) && forallb plain loc && forallb plain dom &&
      existsb (fun c => bool_decide (c = "."%char)) (inner dom)
  | None => false
  end.

Definition sanitizeInput (input : string) : string :=
  trim (str (List.filter (fun c => negb (is_control c)) (chars input))).

(** [!password || password.length < 8], then [password.length > 128] *)
Definition isValidPassword (password : option string) : Validity :=
  match password with
  | None => invalid "Password must be at least 8 characters long"
  | Some p =>
      if (String.length p <? 8)%nat
      then invalid "Password must be at least 8 characters long"
      else if (128 <? String.length p)%nat
      then invalid "Password must be less than 128 characters"
      else mkValidity true None None
  end.

Definition validateAndSanitizeEmail (email : option string) : Validity :=
  match email with
  | None => invalid "Email is required"
  | Some e =>
      if negb (truthy e) then invalid "Email is required"
      else
        let sanitized := sanitizeInput (toLowerCase e) in
        if negb (truthy sanitized) then invalid "Email cannot be empty"
        else if (255 <? String.length sanitized)%nat then invalid "Email is too long"
        else if negb (isValidEmail sanitized) then invalid "Invalid email format"
        else mkValidity true (Some sanitized) None
  end.

Definition validateStringLength (value : option string) (minLength maxLength : nat)
    (fieldName : string) : Validity :=
  match value with
  | None => invalid (fieldName +:+ " is required")
  | Some v =>
      if negb (truthy v) || (String.length (trim v) =? 0)%nat
      then invalid (fieldName +:+ " is required")
      else
        let trimmed := trim v in
        if (String.length trimmed <? minLength)%nat
        then invalid (fieldName +:+ " must be at least " +:+ pretty minLength +:+ " characters")
        else if (maxLength <? String.length trimmed)%nat
        then invalid (fieldName +:+ " must be less than " +:+ pretty maxLength +:+ " characters")
        else mkValidity true None None
  end.

End Validation.

(** ** The driver: parameters of a statement

    [pool.query(text, values)] prepares [text] and binds [values]; the
    server refuses the bind when the number of values differs from the
    number of parameters of the statement. *)

Module Pg.

Inductive SqlValue :=
  | VText (s : string)
  | VInt (z : Z)
  | VBool (b : bool)
  | VNull.

(** The highest [$n] that occurs in an SQL text. *)
Fixpoint placeholders_go (s : string) (best : nat) : nat :=
  match s with
  | EmptyString => best
  | String c s' =>
      if bool_decide (c = "$"%char)
      then match digits_go s' None with
           | Some n => placeholders_go s' (Nat.max best (Z.to_nat n))
           | None => placeholders_go s' best
           end
      else placeholders_go s' best
  end.

Definition placeholders (sql : string) : nat := placeholders_go sql O.

Definition bind_error (supplied required : nat) : JsError :=
  Error ("bind message supplies " +:+ pretty supplied +:+
         " parameters, but prepared statement requires " +:+ pretty required).

Definition checked_bind {A} (sql : string) (values : list SqlValue)
    (run : Db -> Z -> Result A * Db) : Db -> Z -> Result A * Db := fun d t =>
  if (placeholders sql =? length values)%nat then run d t
  else (Throw (bind_error (length values) (placeholders sql)), d).

(** [v || null] as a parameter *)
Definition text_or_null (v : option string) : SqlValue :=
  match or_null v with
  | Some s => VText s
  | None => VNull
  end.

Definition nullable_text (v : SqlValue) : option string :=
  match v with
  | VText s => Some s
  | _ => None
  end.

(** The [role] column: [DEFAULT 'user' CHECK (role IN ('user', 'admin'))]. *)
Definition role_of_values (rest : list SqlValue) : option UserRole :=
  match rest with
  | [] => Some RoleUser
  | [VText r] =>
      if bool_decide (r = "admin") then Some RoleAdmin
      else if bool_decide (r = "user") then Some RoleUser
      else None
  | _ => None
  end.

Definition has_email (e : string) (u : User) : bool := bool_decide (u_email u = e).

(** A value assigned to a [VARCHAR(n)] column: a value of more than [n]
    characters is refused, unless what exceeds [n] is made of spaces, which
    are then cut off. *)
Definition varchar (n : nat) (s : string) : option string :=
  if (String.length s <=? n)%nat then Some s
  else
    let l := String.list_ascii_of_string s in
    if forallb (fun c => bool_decide (c = " "%char)) (skipn n l)
    then Some (String.string_of_list_ascii (firstn n l))
    else None.

(** The same for a column that may be [NULL]. *)
Definition varchar_or_null (n : nat) (v : SqlValue) : option (option string) :=
  match v with
  | VText s => Some <$> varchar n s
  | _ => Some None
  end.

Definition too_long (n : string) : JsError :=
  Error ("value too long for type character varying(" +:+ n +:+ ")").

(** [nextval] of the sequence of [users.id]: a statement that is refused
    when its row is checked has taken its id all the same. *)
Definition skip_user_id (d : Db) : Db :=
  mkDb (users d) (users_seq d + 1) (events d) (events_seq d) (tickets d) (sessions d).

(** [INSERT INTO users (email, password_hash, first_name, last_name [, role])
    VALUES (...) RETURNING ...]: the id comes from the sequence, [is_active]
    and the timestamps from their defaults; [email] and [password_hash] are
    [VARCHAR(255)], the names [VARCHAR(100)]; [email] is [UNIQUE].  A value
    that is too long is refused when the statement is planned, before an id
    is taken; the [CHECK] of the role and the uniqueness of the address are
    tested on the row, whose id is lost when they fail. *)
Definition insert_user (sql : string) (values : list SqlValue) : M User :=
  query (checked_bind sql values (fun d t =>
    match values with
    | VText e :: VText h :: fn :: ln :: rest =>
        match varchar 255 e, varchar 255 h with
        | Some e, Some h =>
            match varchar_or_null 100 fn, varchar_or_null 100 ln with
            | Some fn, Some ln =>
                match role_of_values rest with
                | None =>
                    (Throw (Error "new row for relation users violates check constraint"),
                     skip_user_id d)
                | Some r =>
                    if existsb (has_email e) (users d)
                    then (Throw (Error "duplicate key value violates unique constraint users_email_key"),
                          skip_user_id d)
                    else
                      let row := mkUser (users_seq d + 1) e h fn ln r true t t in
                      (Ok row,
                       mkDb (users d ++ [row]) (users_seq d + 1) (events d) (events_seq d)
                            (tickets d) (sessions d))
                end
            | _, _ => (Throw (too_long "100"), d)
            end
        | _, _ => (Throw (too_long "255"), d)
        end
    | _ => (Throw (Error "null value violates not-null constraint"), skip_user_id d)
    end)).

End Pg.

(** ** services/authService.ts *)

Module AuthService.
Section WithLibraries.
Context `{Libraries}.

Record RegisterDto := mkRegisterDto {
  r_email : string;
  r_password : string;
  r_first_name : option string;
  r_last_name : option string
}.

Record LoginDto := mkLoginDto {
  l_email : string;
  l_password : string
}.

(** The result of [getDeviceInfo(req)]. *)
Record DeviceInfo := mkDeviceInfo {
  di_device_info : option string;
  di_ip_address : option string
}.

(** [s.split(",")[0]] *)
Fixpoint first_part (s : string) : string :=
  match s with
  | EmptyString => EmptyString
  | String c s' => if bool_decide (c = ","%char) then EmptyString else String c (first_part s')
  end.

(** [a || b] for optional strings *)
Definition or_else (a b : option string) : option string :=
  match or_null a with
  | Some s => Some s
  | None => b
  end.

(** [getDeviceInfo(req)]: the user agent, and the first address among the
    first entry of [X-Forwarded-For], [X-Real-IP], [req.ip] and the address
    of the socket. *)
Definition getDeviceInfo {B} (req : Request B) : DeviceInfo :=
  let c := client req in
  let deviceInfo := or_null (user_agent c) in
  let ipAddress :=
    or_else ((fun h => Validation.trim (first_part h)) <$> x_forwarded_for c)
      (or_else (x_real_ip c) (or_else (ip c) (or_null (remoteAddress c)))) in
  mkDeviceInfo deviceInfo ipAddress.

(** [s.slice(0, -1)] *)
Definition slice_init (s : string) : string :=
  String.string_of_list_ascii (removelast (String.list_ascii_of_string s)).

(** [getExpirationDate()]: [None] is an Invalid Date, made from a NaN or
    from a number beyond the time values of a [Date].  The sum is computed
    in double precision by the code, on integers here: for a clock that is
    itself a time value, the two agree on whether the result is a time value,
    and on the result when it is one (the products are multiples of a power
    of two large enough to be exact up to twice [max_time], and rounding
    never brings a number beyond 2^53 back under [max_time]). *)
Definition getExpirationDate : M (option Z) :=
  let expiresIn := JWT_EXPIRES_IN in
  let! t := Date_now in
  if endsWith expiresIn "d" then
    ret (parseInt_no_radix (slice_init expiresIn) ≫=
         fun days => new_Date (t + days * 24 * 60 * 60 * 1000))
  else if endsWith expiresIn "h" then
    ret (parseInt_no_radix (slice_init expiresIn) ≫=
         fun hours => new_Date (t + hours * 60 * 60 * 1000))
  else if endsWith expiresIn "m" then
    ret (parseInt_no_radix (slice_init expiresIn) ≫=
         fun minutes => new_Date (t + minutes * 60 * 1000))
  else if endsWith expiresIn "s" then
    ret (parseInt_no_radix (slice_init expiresIn) ≫=
         fun seconds => new_Date (t + seconds * 1000))
  else ret (new_Date (t + 7 * 24 * 60 * 60 * 1000)).

Definition public (u : User) : PublicUser :=
  mkPublicUser (u_id u) (u_email u) (u_first_name u) (u_last_name u) (u_role u)
    (u_is_active u) (u_created_at u) (u_updated_at u).

(** The end shared by [register], [registerAdmin] and [login]: sign a token
    for the user, record its session, return both.  The row that comes
    back from the store has a role ([DEFAULT 'user']), so the default of
    [user.role || ...] in the payload is never taken. *)
Definition issue (u : User) (dev : DeviceInfo) : M (PublicUser * string) :=
  let payload := mkAuthPayload (u_id u) (u_email u) (u_role u) in
  let! t := Date_now in
  let token := Middleware.generateToken payload t in
  let! expiresAt := getExpirationDate in
  let! _ := SessionService.createSession
    (SessionService.mkCreateSessionDto (u_id u) token expiresAt
       (di_device_info dev) (di_ip_address dev)) in
  ret (public u, token).

Definition register_sql : string :=
  "INSERT INTO users (email, password_hash, first_name, last_name)
       VALUES ($1, $2, $3, $4)
       RETURNING id, email, first_name, last_name, role, is_active, created_at, updated_at".

Definition register (data : RegisterDto) (dev : DeviceInfo) : M (PublicUser * string) :=
  let! existingUser := query (fun d _ =>
    (Ok (List.filter (Pg.has_email (r_email data)) (users d)), d)) in
  if (0 <? length existingUser)%nat
  then throw (Error "User with this email already exists")
  else
    let saltRounds := 10 in
    let passwordHash := bcrypt_hash (r_password data) saltRounds in
    let! u := Pg.insert_user register_sql
      [Pg.VText (r_email data); Pg.VText passwordHash;
       Pg.text_or_null (r_first_name data); Pg.text_or_null (r_last_name data)] in
    issue u dev.

Definition registerAdmin_sql : string :=
  "INSERT INTO users (email, password_hash, first_name, last_name, role)
       VALUES ($1, $2, $3, $4, $5)
       RETURNING id, email, first_name, last_name, role, is_active, created_at, updated_at".

Definition is_admin_with_email (e : string) (u : User) : bool :=
  Pg.has_email e u && bool_decide (u_role u = RoleAdmin).

Definition registerAdmin (data : RegisterDto) (dev : DeviceInfo) : M (PublicUser * string) :=
  let! existingAdmin := query (fun d _ =>
    (Ok (List.filter (is_admin_with_email (r_email data)) (users d)), d)) in
  if (0 <? length existingAdmin)%nat
  then throw (Error "Admin with this email already exists")
  else
    let saltRounds := 10 in
    let passwordHash := bcrypt_hash (r_password data) saltRounds in
    let! u := Pg.insert_user registerAdmin_sql
      [Pg.VText (r_email data); Pg.VText passwordHash;
       Pg.text_or_null (r_first_name data); Pg.text_or_null (r_last_name data)] in
    issue u dev.

Definition login (data : LoginDto) (dev : DeviceInfo) : M (PublicUser * string) :=
  let! rows := query (fun d _ =>
    (Ok (List.filter (Pg.has_email (l_email data)) (users d)), d)) in
  match rows with
  | [] => throw (Error "Invalid email or password")
  | u :: _ =>
      if negb (u_is_active u) then throw (Error "User account is inactive")
      else
        let isValidPassword := bcrypt_compare (l_password data) (u_password_hash u) in
        if negb isValidPassword then throw (Error "Invalid email or password")
        else issue u dev
  end.

Definition logout (token : string) : M unit :=
  let! _ := SessionService.revokeToken token in
  ret tt.

Definition logoutAll (uid : Z) : M unit :=
  let! _ := SessionService.revokeAllUserSessions uid in
  ret tt.

End WithLibraries.
End AuthService.

(** ** services/userService.ts *)

Module UserService.
Section WithLibraries.
Context `{Libraries}.

Record UpdateUserDto := mkUpdateUserDto {
  up_email : option string;
  up_password : option string;
  up_first_name : option string;
  up_last_name : option string;
  up_role : option UserRole;
  up_is_active : option bool
}.

Definition has_id (id : Z) (u : User) : bool := bool_decide (u_id u = id).

Definition getUserById (id : Z) : M (option PublicUser) :=
  query (fun d _ =>
    (Ok (AuthService.public <$> head (List.filter (has_id id) (users d))), d)).

(** The [SET] list built by [updateUser], applied to one row. *)
Definition apply_update (data : UpdateUserDto) (t : Z) (u : User) : User :=
  mkUser (u_id u)
    (default (u_email u) (up_email data))
    (default (u_password_hash u) ((fun p => bcrypt_hash p 10) <$> up_password data))
    (from_option Some (u_first_name u) (up_first_name data))
    (from_option Some (u_last_name u) (up_last_name data))
    (default (u_role u) (up_role data))
    (default (u_is_active u) (up_is_active data))
    (u_created_at u) t.

Definition no_updates (data : UpdateUserDto) : bool :=
  bool_decide (up_email data = None) && bool_decide (up_password data = None) &&
  bool_decide (up_first_name data = None) && bool_decide (up_last_name data = None) &&
  bool_decide (up_role data = None) && bool_decide (up_is_active data = None).

Definition updateUser (id : Z) (data : UpdateUserDto) : M (option PublicUser) :=
  let! _ :=
    match up_email data with
    | Some e =>
        let! existingUser := query (fun d _ =>
          (Ok (List.filter (fun u => Pg.has_email e u && negb (has_id id u)) (users d)), d)) in
        if (0 <? length existingUser)%nat
        then throw (Error "Email already taken by another user")
        else ret tt
    | None => ret tt
    end in
  if no_updates data then getUserById id
  else
    query (fun d t =>
      (Ok (AuthService.public <$>
             head (map (apply_update data t) (List.filter (has_id id) (users d)))),
       set_users (map (fun u => if has_id id u then apply_update data t u else u) (users d)) d)).

Record CreateUserDto := mkCreateUserDto {
  cu_email : string;
  cu_password : string;
  cu_first_name : option string;
  cu_last_name : option string;
  cu_role : option UserRole
}.

Definition createUser_sql : string :=
  "INSERT INTO users (email, password_hash, first_name, last_name, role)
       VALUES ($1, $2, $3, $4, $5)
       RETURNING id, email, first_name, last_name, role, is_active, created_at, updated_at".

Definition createUser (data : CreateUserDto) : M PublicUser :=
  let! existingUser := query (fun d _ =>
    (Ok (List.filter (Pg.has_email (cu_email data)) (users d)), d)) in
  if (0 <? length existingUser)%nat
  then throw (Error "User with this email already exists")
  else
    let saltRounds := 10 in
    let passwordHash := bcrypt_hash (cu_password data) saltRounds in
    let! u := Pg.insert_user createUser_sql
      [Pg.VText (cu_email data); Pg.VText passwordHash;
       Pg.text_or_null (cu_first_name data); Pg.text_or_null (cu_last_name data);
       Pg.VText (role_name (default RoleUser (cu_role data)))] in
    ret (AuthService.public u).

(** [tickets.user_id ... ON DELETE SET NULL] *)
Definition orphan (id : Z) (t : Ticket) : Ticket :=
  if bool_decide (t_user_id t = Some id)
  then mkTicket (t_event_id t) None (t_title t) (t_status t) (t_ticket_type t)
         (quantity t) (purchase_price t) (purchase_date t)
  else t.

(** [DELETE FROM users WHERE id = $1].  The schema decides what follows the
    row: the sessions of the user go with it ([ON DELETE CASCADE]), the
    tickets lose their purchaser ([ON DELETE SET NULL]), and an event that
    names the user in [created_by] (a plain [REFERENCES users(id)]) makes
    the statement fail. *)
Definition delete_user (id : Z) (d : Db) (t : Z) : Result bool * Db :=
  if negb (existsb (has_id id) (users d)) then (Ok false, d)
  else if bool_decide (map_Exists (fun _ e => e_created_by e = Some id) (events d))
  then (Throw (Error "update or delete on table users violates foreign key constraint events_created_by_fkey on table events"), d)
  else (Ok true,
        mkDb (List.filter (fun u => negb (has_id id u)) (users d)) (users_seq d)
             (events d) (events_seq d)
             (map (orphan id) (tickets d))
             (List.filter (fun s => negb (bool_decide (s_user_id s = id))) (sessions d))).

(** [result.rowCount ? result.rowCount > 0 : false] *)
Definition deleteUser (id : Z) : M bool := query (delete_user id).

End WithLibraries.
End UserService.

(** ** controllers/authController.ts *)

Module AuthController.
Section WithLibraries.
Context `{Libraries}.

Import Validation.

(** The JSON body of the registration and login requests; a field that is
    absent is [None]. *)
Record Credentials := mkCredentials {
  c_email : option string;
  c_password : option string;
  c_first_name : option string;
  c_last_name : option string;
  secret : option string
}.

Definition validation_error (v : Validity) (fallback : string) : Response :=
  mkResponse 400 (ErrorBody "Validation error" (default fallback (v_message v))).

(** What the [catch] of [register] and [registerAdmin] answers. *)
Definition registration_failure (fallback : string) (error : JsError) : Response :=
  let statusCode := if includes (message error) "already exists" then 409 else 500 in
  mkResponse statusCode
    (ErrorBody (if statusCode =? 409 then "Conflict" else "Internal server error")
               (if truthy (message error) then message error else fallback)).

(** The services are given [req] and call [getDeviceInfo(req)] themselves;
    here they are given what it returns. *)
Definition device {B} (req : Request B) : AuthService.DeviceInfo :=
  AuthService.getDeviceInfo req.

(** [register] and [registerAdmin] are the same method up to the service
    they call and the messages they answer with. *)
Definition registration (service : AuthService.RegisterDto -> AuthService.DeviceInfo ->
                                   M (PublicUser * string))
    (success failure : string) (req : Request Credentials) (w : World) : Response * World :=
  let data := body req in
  let emailValidation := validateAndSanitizeEmail (c_email data) in
  if negb (valid emailValidation) then (validation_error emailValidation "Invalid email", w)
  else
    let passwordValidation := isValidPassword (c_password data) in
    if negb (valid passwordValidation)
    then (validation_error passwordValidation "Invalid password", w)
    else
      let firstNameValidation := validateStringLength (c_first_name data) 1 100 "First name" in
      if negb (valid firstNameValidation) then (validation_error firstNameValidation "", w)
      else
        let lastNameValidation := validateStringLength (c_last_name data) 1 100 "Last name" in
        if negb (valid lastNameValidation) then (validation_error lastNameValidation "", w)
        else
          let sanitizedData :=
            AuthService.mkRegisterDto (default "" (sanitized emailValidation))
              (default "" (c_password data)) (c_first_name data) (c_last_name data) in
          match service sanitizedData (device req) w with
          | (Ok (u, token), w') => (mkResponse 201 (AuthBody success u token), w')
          | (Throw error, w') => (registration_failure failure error, w')
          end.

Definition register : Request Credentials -> World -> Response * World :=
  registration AuthService.register "User registered successfully" "Failed to register user".

Definition registerAdmin : Request Credentials -> World -> Response * World :=
  registration AuthService.registerAdmin "Admin registered successfully"
    "Failed to register admin".

Definition login (req : Request Credentials) (w : World) : Response * World :=
  let data := body req in
  let emailValidation := validateAndSanitizeEmail (c_email data) in
  if negb (valid emailValidation) then (validation_error emailValidation "Invalid email", w)
  else
    match c_password data with
    | None => (mkResponse 400 (ErrorBody "Validation error" "Password is required"), w)
    | Some password =>
        if negb (truthy password) || (String.length (trim password) =? 0)%nat
        then (mkResponse 400 (ErrorBody "Validation error" "Password is required"), w)
        else
          let sanitizedData :=
            AuthService.mkLoginDto (default "" (sanitized emailValidation)) password in
          match AuthService.login sanitizedData (device req) w with
          | (Ok (u, token), w') => (mkResponse 200 (AuthBody "Login successful" u token), w')
          | (Throw error, w') =>
              let statusCode :=
                if includes (message error) "Invalid" || includes (message error) "inactive"
                then 401 else 500 in
              (mkResponse statusCode
                 (ErrorBody (if statusCode =? 401 then "Unauthorized" else "Internal server error")
                            (if truthy (message error) then message error else "Failed to login")),
               w')
          end
    end.

(** [req.headers.authorization?.replace("Bearer ", "") || ""] *)
Definition logout_token {B} (req : Request B) : string :=
  match authorization req with
  | Some h => replace h "Bearer " ""
  | None => ""
  end.

Definition logout {B} (req : Request B) (w : World) : Response * World :=
  let token := logout_token req in
  match AuthService.logout token w with
  | (Ok _, w') => (mkResponse 200 (MessageBody "Logout successful"), w')
  | (Throw error, w') =>
      (mkResponse 500
         (ErrorBody "Internal server error"
            (if truthy (message error) then message error else "Failed to logout")), w')
  end.

End WithLibraries.
End AuthController.

(** ** services/eventService.ts *)

Module EventService.

Record CreateEventDto := mkCreateEventDto {
  c_title : string;
  c_description : option string;
  c_venue : option string;
  (** [None]: the field is absent *)
  c_event_date : option Z;
  c_total_tickets : Z;
  c_price : Z;
  c_image_url : option string;
  c_status : option EventStatus
}.

Record UpdateEventDto := mkUpdateEventDto {
  up_title : option string;
  up_description : option string;
  up_venue : option string;
  up_event_date : option Z;
  up_total_tickets : option Z;
  up_available_tickets : option Z;
  up_price : option Z;
  up_image_url : option string;
  up_status : option EventStatus
}.

(** The [CHECK] constraints of the [events] table. *)
Definition checks (e : Event) : bool :=
  (0 <=? total_tickets e) && (0 <=? available_tickets e) && (0 <=? price e).

Definition check_violation : JsError :=
  Error "new row for relation events violates check constraint".

(** [createdBy || null] *)
Definition id_or_null (v : option Z) : option Z :=
  match v with
  | Some i => if i =? 0 then None else Some i
  | None => None
  end.

(** The values of an [INTEGER] column. *)
Definition int4 (z : Z) : bool := (-2147483648 <=? z) && (z <=? 2147483647).

(** The values of a [DECIMAL(10, 2)] column, in cents. *)
Definition decimal_10_2 (cents : Z) : bool := Z.abs cents <? 10000000000.

(** A value bound to a [VARCHAR(n)] column that may be [NULL]. *)
Definition varchar_opt (n : nat) (v : option string) : option (option string) :=
  match v with
  | Some s => Some <$> Pg.varchar n s
  | None => Some None
  end.

(** [created_by INTEGER REFERENCES users(id)] *)
Definition creator_known (createdBy : option Z) (d : Db) : bool :=
  match createdBy with
  | Some i => existsb (fun u => bool_decide (u_id u = i)) (users d)
  | None => true
  end.

(** [nextval] of the sequence of [events.id]: a statement that is refused
    when its row is checked has taken its id all the same. *)
Definition skip_event_id (d : Db) : Db :=
  mkDb (users d) (users_seq d) (events d) (events_seq d + 1) (tickets d) (sessions d).

(** [VALUES ($1, $2, $3, $4, $5, $5, $6, $7, $8, $9)]: the fifth value fills
    both [total_tickets] and [available_tickets].  A value that does not fit
    the type of its column ([VARCHAR(255)] for the title and the venue,
    [VARCHAR(500)] for the image, [INTEGER], [DECIMAL(10, 2)]) is refused
    before an id is taken; the row is then checked ([event_date] is
    [NOT NULL], the [CHECK]s, the primary key, the foreign key of
    [created_by]), and its id is lost when a check fails. *)
Definition insert_event (data : CreateEventDto) (createdBy : option Z)
    (d : Db) (t : Z) : Result Event * Db :=
    match Pg.varchar 255 (c_title data) with
    | None => (Throw (Pg.too_long "255"), d)
    | Some title =>
    match varchar_opt 255 (or_null (c_venue data)) with
    | None => (Throw (Pg.too_long "255"), d)
    | Some venue =>
    match varchar_opt 500 (or_null (c_image_url data)) with
    | None => (Throw (Pg.too_long "500"), d)
    | Some image_url =>
        if negb (int4 (c_total_tickets data))
        then (Throw (Error "value is out of range for type integer"), d)
        else if negb (decimal_10_2 (c_price data))
        then (Throw (Error "numeric field overflow"), d)
        else
          match c_event_date data with
          | None =>
              (Throw (Error "null value in column event_date violates not-null constraint"),
               skip_event_id d)
          | Some event_date =>
              if negb (timestamp_fits event_date)
              then (Throw (Error "timestamp out of range"), d)
              else
              let id := events_seq d + 1 in
              let row := mkEvent id title (or_null (c_description data))
                           venue event_date
                           (c_total_tickets data) (c_total_tickets data) (c_price data)
                           image_url (default Upcoming (c_status data))
                           (id_or_null createdBy) t t in
              if negb (checks row) then (Throw check_violation, skip_event_id d)
              else if bool_decide (is_Some (events d !! id))
              then (Throw (Error "duplicate key value violates unique constraint events_pkey"),
                    skip_event_id d)
              else if negb (creator_known (id_or_null createdBy) d)
              then (Throw (Error ("insert or update on table events violates foreign key " +:+
                                  "constraint events_created_by_fkey")),
                    skip_event_id d)
              else (Ok row, mkDb (users d) (users_seq d) (<[id := row]> (events d)) id
                                 (tickets d) (sessions d))
          end
    end end end.

Definition createEvent (data : CreateEventDto) (createdBy : option Z) : M Event :=
  query (insert_event data createdBy).

Definition getEventById (id : Z) : M (option Event) :=
  query (fun d _ => (Ok (events d !! id), d)).

(** One element of the [updates] array of [updateEvent]: a column and the
    value bound to its placeholder. *)
Inductive Assignment :=
  | SetTitle (v : string)
  | SetDescription (v : string)
  | SetVenue (v : string)
  | SetEventDate (v : Z)
  | SetTotalTickets (v : Z)
  | SetAvailableTickets (v : Z)
  | SetPrice (v : Z)
  | SetImageUrl (v : string)
  | SetStatus (v : EventStatus).

Definition column (a : Assignment) : string :=
  match a with
  | SetTitle _ => "title"
  | SetDescription _ => "description"
  | SetVenue _ => "venue"
  | SetEventDate _ => "event_date"
  | SetTotalTickets _ => "total_tickets"
  | SetAvailableTickets _ => "available_tickets"
  | SetPrice _ => "price"
  | SetImageUrl _ => "image_url"
  | SetStatus _ => "status"
  end.

(** What a [VARCHAR(n)] column keeps of a value that it accepts. *)
Definition kept (n : nat) (v : string) : string := default v (Pg.varchar n v).

(** The value fits the type of its column. *)
Definition fits (a : Assignment) : bool :=
  match a with
  | SetTitle v => bool_decide (is_Some (Pg.varchar 255 v))
  | SetDescription _ => true
  | SetVenue v => bool_decide (is_Some (Pg.varchar 255 v))
  | SetEventDate v => timestamp_fits v
  | SetTotalTickets v => int4 v
  | SetAvailableTickets v => int4 v
  | SetPrice v => decimal_10_2 v
  | SetImageUrl v => bool_decide (is_Some (Pg.varchar 500 v))
  | SetStatus _ => true
  end.

Definition assign (a : Assignment) (e : Event) : Event :=
  match a with
  | SetTitle v =>
      mkEvent (e_id e) (kept 255 v) (e_description e) (e_venue e) (e_event_date e)
        (total_tickets e) (available_tickets e) (price e) (e_image_url e) (e_status e) (e_created_by e)
        (e_created_at e) (e_updated_at e)
  | SetDescription v =>
      mkEvent (e_id e) (e_title e) (Some v) (e_venue e) (e_event_date e) (total_tickets e)
        (available_tickets e) (price e) (e_image_url e) (e_status e) (e_created_by e)
        (e_created_at e) (e_updated_at e)
  | SetVenue v =>
      mkEvent (e_id e) (e_title e) (e_description e) (Some (kept 255 v)) (e_event_date e)
        (total_tickets e) (available_tickets e) (price e) (e_image_url e) (e_status e) (e_created_by e)
        (e_created_at e) (e_updated_at e)
  | SetEventDate v =>
      mkEvent (e_id e) (e_title e) (e_description e) (e_venue e) v (total_tickets e)
        (available_tickets e) (price e) (e_image_url e) (e_status e) (e_created_by e)
        (e_created_at e) (e_updated_at e)
  | SetTotalTickets v =>
      mkEvent (e_id e) (e_title e) (e_description e) (e_venue e) (e_event_date e) v
        (available_tickets e) (price e) (e_image_url e) (e_status e) (e_created_by e)
        (e_created_at e) (e_updated_at e)
  | SetAvailableTickets v =>
      mkEvent (e_id e) (e_title e) (e_description e) (e_venue e) (e_event_date e)
        (total_tickets e) v (price e) (e_image_url e) (e_status e) (e_created_by e)
        (e_created_at e) (e_updated_at e)
  | SetPrice v =>
      mkEvent (e_id e) (e_title e) (e_description e) (e_venue e) (e_event_date e)
        (total_tickets e) (available_tickets e) v (e_image_url e) (e_status e) (e_created_by e)
        (e_created_at e) (e_updated_at e)
  | SetImageUrl v =>
      mkEvent (e_id e) (e_title e) (e_description e) (e_venue e) (e_event_date e)
        (total_tickets e) (available_tickets e) (price e) (Some (kept 500 v)) (e_status e)
        (e_created_by e) (e_created_at e) (e_updated_at e)
  | SetStatus v =>
      mkEvent (e_id e) (e_title e) (e_description e) (e_venue e) (e_event_date e)
        (total_tickets e) (available_tickets e) (price e) (e_image_url e) v (e_created_by e)
        (e_created_at e) (e_updated_at e)
  end.

(** [updated_at = CURRENT_TIMESTAMP] *)
Definition touch (t : Z) (e : Event) : Event :=
  mkEvent (e_id e) (e_title e) (e_description e) (e_venue e) (e_event_date e)
    (total_tickets e) (available_tickets e) (price e) (e_image_url e) (e_status e)
    (e_created_by e) (e_created_at e) t.

(** [UPDATE events SET <updates>, updated_at = CURRENT_TIMESTAMP WHERE id = $n
    RETURNING *].  PostgreSQL refuses a [SET] list that names a column
    twice; the new row must satisfy the [CHECK] constraints; no row with
    this id gives an empty result. *)
Definition update_event (id : Z) (updates : list Assignment)
    (d : Db) (t : Z) : Result (option Event) * Db :=
  if negb (bool_decide (NoDup (map column updates)))
  then (Throw (Error "multiple assignments to same column"), d)
  else
    match events d !! id with
    | None => (Ok None, d)
    | Some e =>
        let row := touch t (foldl (fun e a => assign a e) e updates) in
        if checks row then (Ok (Some row), set_events (<[id := row]> (events d)) d)
        else (Throw check_violation, d)
    end.

(** The same statement with values bound from the request: a value that
    does not fit the type of its column is refused when the statement is
    bound, whether or not a row has the id. *)
Definition update_bound (id : Z) (updates : list Assignment)
    (d : Db) (t : Z) : Result (option Event) * Db :=
  if negb (bool_decide (NoDup (map column updates)))
  then (Throw (Error "multiple assignments to same column"), d)
  else if negb (forallb fits updates)
  then (Throw (Error "value does not fit the type of its column"), d)
  else update_event id updates d t.

(** [if (data.f !== undefined) { updates.push(...) }] *)
Definition pushed {A} (f : A -> Assignment) (v : option A) : list Assignment :=
  match v with
  | Some a => [f a]
  | None => []
  end.

Definition updateEvent (id : Z) (data : UpdateEventDto) : M (option Event) :=
  let updates :=
    pushed SetTitle (up_title data) ++ pushed SetDescription (up_description data) ++
    pushed SetVenue (up_venue data) ++ pushed SetEventDate (up_event_date data) in
  let! updates :=
    match up_total_tickets data with
    | Some newTotal =>
        let! currentEvent := getEventById id in
        match currentEvent with
        | None => throw (Error "Event not found")
        | Some currentEvent =>
            let currentTotal := total_tickets currentEvent in
            let currentAvailable := available_tickets currentEvent in
            let adjustment := newTotal - currentTotal in
            let newAvailable := Z.max 0 (currentAvailable + adjustment) in
            ret (updates ++ [SetTotalTickets newTotal; SetAvailableTickets newAvailable])
        end
    | None => ret updates
    end in
  let updates :=
    updates ++ pushed SetAvailableTickets (up_available_tickets data) ++
    pushed SetPrice (up_price data) ++ pushed SetImageUrl (up_image_url data) ++
    pushed SetStatus (up_status data) in
  if (length updates =? 0)%nat then getEventById id
  else query (update_bound id updates).

Definition not_enough (available requested : Z) : JsError :=
  Error ("Not enough tickets available. Available: " +:+ show available +:+
         ", Requested: " +:+ show requested).

Definition wrong_status (s : EventStatus) : JsError :=
  Error ("Cannot purchase tickets for " +:+ status_name s +:+ " event").

Definition purchasable (s : EventStatus) : bool :=
  bool_decide (s = Upcoming) || bool_decide (s = Live).

Definition ticket_title (event : Event) (i : Z) : string :=
  e_title event +:+ " - Ticket " +:+ show (i + 1).

Definition purchased_ticket (eventId userId : Z) (event : Event) (i t : Z) : Ticket :=
  mkTicket (Some eventId) (Some userId) (ticket_title event i) TPurchased EventTicket 1
    (Some (price event)) (Some t).

Definition user_exists (userId : Z) (d : Db) : bool :=
  existsb (fun u => bool_decide (u_id u = userId)) (users d).

(** [INSERT INTO tickets (event_id, user_id, title, status, ticket_type,
    quantity, purchase_price, purchase_date) VALUES ($1, $2, $3, 'purchased',
    'event', 1, $4, CURRENT_TIMESTAMP)]: both foreign keys must exist and the
    title must fit [VARCHAR(255)]. *)
Definition insert_ticket (eventId userId : Z) (event : Event) (i : Z)
    (d : Db) (t : Z) : Result unit * Db :=
  if negb (bool_decide (is_Some (events d !! eventId))) || negb (user_exists userId d)
  then (Throw (Error "insert on table tickets violates foreign key constraint"), d)
  else if (255 <? String.length (ticket_title event i))%nat
  then (Throw (Error "value too long for type character varying(255)"), d)
  else (Ok tt, set_tickets (tickets d ++ [purchased_ticket eventId userId event i t]) d).

(** [for (let i = 0; i < quantity; i++) { await client.query(INSERT ...) }]:
    [n] iterations are left, the counter is [i]. *)
Fixpoint insert_tickets (n : nat) (i : Z) (eventId userId : Z) (event : Event) : M unit :=
  match n with
  | O => ret tt
  | S n' =>
      let! _ := query (insert_ticket eventId userId event i) in
      insert_tickets n' (i + 1) eventId userId event
  end.

(** The body of the [try] block of [purchaseTickets]. *)
Definition purchase_try (eventId quantity userId : Z) : M (option Event) :=
  let! _ := BEGIN in
  (* SELECT * FROM events WHERE id = $1 FOR UPDATE *)
  let! eventResult := query (fun d _ => (Ok (events d !! eventId), d)) in
  match eventResult with
  | None => throw (Error "Event not found")
  | Some event =>
      if available_tickets event <? quantity
      then throw (not_enough (available_tickets event) quantity)
      else if negb (purchasable (e_status event))
      then throw (wrong_status (e_status event))
      else
        let newAvailable := available_tickets event - quantity in
        let! _ := query (update_event eventId [SetAvailableTickets newAvailable]) in
        let! _ := insert_tickets (Z.to_nat quantity) 0 eventId userId event in
        let! _ := COMMIT in
        let! updatedEvent := getEventById eventId in
        ret updatedEvent
  end.

(** [purchaseTickets(eventId, quantity, userId)]: [try { ... } catch (error)
    { await client.query("ROLLBACK"); throw error; }] *)
Definition purchaseTickets (eventId quantity userId : Z) : M (option Event) :=
  try_catch (purchase_try eventId quantity userId)
    (fun error => let! _ := ROLLBACK in throw error).

(** [DELETE FROM events WHERE id = $1]; the tickets of the event go with
    it ([tickets.event_id ... ON DELETE CASCADE]). *)
Definition delete_event (id : Z) (d : Db) (t : Z) : Result bool * Db :=
  match events d !! id with
  | None => (Ok false, d)
  | Some _ =>
      (Ok true,
       set_tickets
         (List.filter (fun tk => negb (bool_decide (t_event_id tk = Some id))) (tickets d))
         (set_events (delete id (events d)) d))
  end.

Definition deleteEvent (id : Z) : M bool := query (delete_event id).

(** The query string of [GET /api/events]; the dates are timestamps
    already, an absent or empty field is [None]. *)
Record EventQueryParams := mkEventQueryParams {
  q_status : option string;
  q_venue : option string;
  q_from_date : option Z;
  q_to_date : option Z;
  q_limit : option Z;
  q_offset : option Z
}.

(** The [WHERE] clause built by [listEvents]: one condition per field that
    is truthy, joined by [AND]. *)
Definition matches (params : EventQueryParams) (e : Event) : bool :=
  match or_null (q_status params) with
  | Some s => bool_decide (status_name (e_status e) = s)
  | None => true
  end &&
  match or_null (q_venue params) with
  | Some v => bool_decide (e_venue e = Some v)
  | None => true
  end &&
  match q_from_date params with
  | Some t => t <=? e_event_date e
  | None => true
  end &&
  match q_to_date params with
  | Some t => e_event_date e <=? t
  | None => true
  end.

(** The rows of the table. *)
Definition all_events (d : Db) : list Event := (map_to_list (events d)).*2.

(** [ORDER BY event_date ASC] *)
Definition earlier (a b : Event) : Prop := e_event_date a <= e_event_date b.

#[global] Instance earlier_dec a b : Decision (earlier a b).
Proof. unfold earlier. apply _. Defined.

(** [n || fallback] for a number: [undefined], [NaN] and [0] give the
    fallback. *)
Definition number_or (v : option Z) (fallback : Z) : Z :=
  match v with
  | Some n => if n =? 0 then fallback else n
  | None => fallback
  end.

(** [SELECT * FROM events <where> ORDER BY event_date ASC LIMIT $n OFFSET $m];
    PostgreSQL refuses a negative [LIMIT] or [OFFSET].  Rows of the same
    date come in the order of the sort; PostgreSQL leaves their order
    open. *)
Definition select_page (params : EventQueryParams) (limit offset : Z)
    (d : Db) (t : Z) : Result (list Event) * Db :=
  if limit <? 0 then (Throw (Error "LIMIT must not be negative"), d)
  else if offset <? 0 then (Throw (Error "OFFSET must not be negative"), d)
  else
    (Ok (take (Z.to_nat limit)
           (skipn (Z.to_nat offset)
              (merge_sort earlier (List.filter (matches params) (all_events d))))), d).

Definition listEvents (params : EventQueryParams) : M (list Event * Z) :=
  (* SELECT COUNT( * ) FROM events <where> *)
  let! total := query (fun d _ =>
    (Ok (Z.of_nat (length (List.filter (matches params) (all_events d)))), d)) in
  let limit := number_or (q_limit params) 50 in
  let offset := number_or (q_offset params) 0 in
  let! rows := query (select_page params limit offset) in
  ret (rows, total).

End EventService.

(** ** controllers/eventController.ts *)

Module EventController.

Record PurchaseTicketDto := mkPurchaseTicketDto {
  p_quantity : option Z
}.

Definition bad_request (msg : string) : Response :=
  mkResponse 400 (ErrorBody "Validation error" msg).

Definition internal (error : JsError) (fallback : string) : Response :=
  mkResponse 500
    (ErrorBody "Internal server error"
       (if truthy (message error) then message error else fallback)).

(** What the [catch] of [purchaseTickets] answers. *)
Definition purchase_failure (error : JsError) : Response :=
  let statusCode :=
    if includes (message error) "not found" then 404
    else if includes (message error) "available" then 400 else 500 in
  mkResponse statusCode
    (ErrorBody (if statusCode =? 404 then "Not found"
                else if statusCode =? 400 then "Bad request" else "Internal server error")
               (if truthy (message error) then message error
                else "Failed to purchase tickets")).

Definition purchaseTickets (req : Request PurchaseTicketDto) (w : World) : Response * World :=
  let eventId := parseInt (param req) in
  let userId := userId <$> user req in
  match userId with
  | None => (mkResponse 401 (ErrorBody "Unauthorized" "Authentication required"), w)
  | Some userId =>
      if userId =? 0
      then (mkResponse 401 (ErrorBody "Unauthorized" "Authentication required"), w)
      else
        match eventId with
        | None => (bad_request "Invalid event ID", w)
        | Some eventId =>
            match p_quantity (body req) with
            | None => (bad_request "Quantity must be at least 1", w)
            | Some quantity =>
                if quantity <? 1 then (bad_request "Quantity must be at least 1", w)
                else
                  match EventService.purchaseTickets eventId quantity userId w with
                  | (Ok event, w') =>
                      (mkResponse 200
                         (EventBody ("Successfully purchased " +:+ show quantity +:+
                                     " ticket(s)") event), w')
                  | (Throw error, w') => (purchase_failure error, w')
                  end
            end
        end
  end.

Definition createEvent (req : Request EventService.CreateEventDto) (w : World)
    : Response * World :=
  let data := body req in
  let createdBy := userId <$> user req in
  if negb (truthy (EventService.c_title data)) ||
     negb (truthy (Validation.trim (EventService.c_title data)))
  then (bad_request "Title is required", w)
  else if bool_decide (EventService.c_event_date data = None)
  then (bad_request "Event date is required", w)
  else if EventService.c_total_tickets data <? 1
  then (bad_request "Total tickets must be at least 1", w)
  else if EventService.c_price data <? 0
  then (bad_request "Price must be 0 or greater", w)
  else
    match EventService.createEvent data createdBy w with
    | (Ok event, w') =>
        (mkResponse 201 (EventBody "Event created successfully" (Some event)), w')
    | (Throw error, w') => (internal error "Failed to create event", w')
    end.

Definition updateEvent (req : Request EventService.UpdateEventDto) (w : World)
    : Response * World :=
  match parseInt (param req) with
  | None => (bad_request "Invalid event ID", w)
  | Some id =>
      match EventService.updateEvent id (body req) w with
      | (Ok None, w') => (mkResponse 404 (ErrorBody "Not found" "Event not found"), w')
      | (Ok (Some event), w') =>
          (mkResponse 200 (EventBody "Event updated successfully" (Some event)), w')
      | (Throw error, w') => (internal error "Failed to update event", w')
      end
  end.

Definition getEvent {B} (req : Request B) (w : World) : Response * World :=
  match parseInt (param req) with
  | None => (bad_request "Invalid event ID", w)
  | Some id =>
      match EventService.getEventById id w with
      | (Ok None, w') => (mkResponse 404 (ErrorBody "Not found" "Event not found"), w')
      | (Ok (Some event), w') =>
          (mkResponse 200 (EventBody "Event retrieved successfully" (Some event)), w')
      | (Throw error, w') => (internal error "Failed to get event", w')
      end
  end.

Definition deleteEvent {B} (req : Request B) (w : World) : Response * World :=
  match parseInt (param req) with
  | None => (bad_request "Invalid event ID", w)
  | Some id =>
      match EventService.deleteEvent id w with
      | (Ok false, w') => (mkResponse 404 (ErrorBody "Not found" "Event not found"), w')
      | (Ok true, w') => (mkResponse 200 (MessageBody "Event deleted successfully"), w')
      | (Throw error, w') => (internal error "Failed to delete event", w')
      end
  end.

End EventController.

(** ** routes/authRoutes.ts and routes/eventRoutes.ts *)

Module Routes.
Section WithLibraries.
Context `{Libraries}.

Definition Handler (B : Type) : Type := Request B -> World -> Response * World.

Definition Guard (B : Type) : Type := Request B -> World -> Gate B * World.

(** [router.post(path, g1, ..., gn, handler)]: the guards run in order; the
    first that answers ends the request. *)
Fixpoint route {B} (guards : list (Guard B)) (handler : Handler B) : Handler B :=
  match guards with
  | [] => handler
  | g :: guards' => fun req w =>
      match g req w with
      | (Respond r, w') => (r, w')
      | (Next req', w') => route guards' handler req' w'
      end
  end.

Definition forbidden (msg : string) : Response :=
  mkResponse 403 (ErrorBody "Forbidden" msg).

Definition without_secret (c : AuthController.Credentials) : AuthController.Credentials :=
  AuthController.mkCredentials (AuthController.c_email c) (AuthController.c_password c)
    (AuthController.c_first_name c) (AuthController.c_last_name c) None.

(** [req.body.secret || req.headers["x-admin-secret"]] *)
Definition provided_secret (req : Request AuthController.Credentials) : option string :=
  match or_null (AuthController.secret (body req)) with
  | Some s => Some s
  | None => x_admin_secret req
  end.

Definition protectAdminRegistration : Guard AuthController.Credentials := fun req w =>
  match or_null ADMIN_REGISTRATION_SECRET with
  | None => (Respond (forbidden "Admin registration is disabled"), w)
  | Some ADMIN_SECRET =>
      match or_null (provided_secret req) with
      | None => (Respond (forbidden "Invalid admin registration secret"), w)
      | Some providedSecret =>
          if negb (bool_decide (providedSecret = ADMIN_SECRET))
          then (Respond (forbidden "Invalid admin registration secret"), w)
          else
            (Next (mkRequest (authorization req) (x_admin_secret req) (param req) (user req)
                     (without_secret (body req)) (client req)), w)
      end
  end.

(** [router.post("/register", ...)] *)
Definition post_register : Handler AuthController.Credentials :=
  route [] AuthController.register.

(** [router.post("/register-admin", protectAdminRegistration, ...)] *)
Definition post_register_admin : Handler AuthController.Credentials :=
  route [protectAdminRegistration] AuthController.registerAdmin.

(** [router.post("/login", ...)] *)
Definition post_login : Handler AuthController.Credentials :=
  route [] AuthController.login.

(** [router.post("/logout", (req, res) => authController.logout(req, res))] *)
Definition post_logout : Handler unit :=
  route [] AuthController.logout.

(** [router.post("/", authenticate, authorize("admin"), ...)] *)
Definition post_event : Handler EventService.CreateEventDto :=
  route [Middleware.authenticate; Middleware.authorize ["admin"]] EventController.createEvent.

(** [router.put("/:id", authenticate, authorize("admin"), ...)] *)
Definition put_event : Handler EventService.UpdateEventDto :=
  route [Middleware.authenticate; Middleware.authorize ["admin"]] EventController.updateEvent.

(** [router.post("/:eventId/purchase", authenticate, ...)] *)
Definition post_purchase : Handler EventController.PurchaseTicketDto :=
  route [Middleware.authenticate] EventController.purchaseTickets.

(** [router.delete("/:id", authenticate, authorize("admin"), ...)] *)
Definition delete_event : Handler unit :=
  route [Middleware.authenticate; Middleware.authorize ["admin"]] EventController.deleteEvent.

End WithLibraries.
End Routes.

(** ** controllers/userController.ts *)

Module UserController.
Section WithLibraries.
Context `{Libraries}.

(** What the user controller answers: an error or a message, or a message
    with the user in [data]. *)
Inductive Reply :=
  | Plain (r : Response)
  | WithUser (code : Z) (msg : string) (data : PublicUser).

Definition code_of (r : Reply) : Z :=
  match r with
  | Plain r => status r
  | WithUser code _ _ => code
  end.

Definition validation_error (msg : string) : Reply :=
  Plain (mkResponse 400 (ErrorBody "Validation error" msg)).

Definition not_found : Reply :=
  Plain (mkResponse 404 (ErrorBody "Not found" "User not found")).

Definition forbidden (msg : string) : Reply :=
  Plain (mkResponse 403 (ErrorBody "Forbidden" msg)).

(** The [catch] blocks: [error.message.includes(word) ? 409 : 500]. *)
Definition failure (word fallback : string) (error : JsError) : Reply :=
  let statusCode := if includes (message error) word then 409 else 500 in
  Plain (mkResponse statusCode
    (ErrorBody (if statusCode =? 409 then "Conflict" else "Internal server error")
       (if truthy (message error) then message error else fallback))).

(** [req.user?.role !== "admin"] *)
Definition not_admin {B} (req : Request B) : bool :=
  negb (bool_decide (role <$> user req = Some RoleAdmin)).

Record CreateUserBody := mkCreateUserBody {
  b_email : option string;
  b_password : option string;
  b_first_name : option string;
  b_last_name : option string;
  b_role : option UserRole
}.

Definition createUser (req : Request CreateUserBody) (w : World) : Reply * World :=
  let data := body req in
  match or_null (b_email data) with
  | None => (validation_error "Email is required", w)
  | Some email =>
      if negb (truthy (Validation.trim email))
      then (validation_error "Email is required", w)
      else
        match or_null (b_password data) with
        | None => (validation_error "Password must be at least 6 characters", w)
        | Some password =>
            if (String.length password <? 6)%nat
            then (validation_error "Password must be at least 6 characters", w)
            else
              match UserService.createUser
                      (UserService.mkCreateUserDto email password
                         (b_first_name data) (b_last_name data) (b_role data)) w with
              | (Ok u, w') => (WithUser 201 "User created successfully" u, w')
              | (Throw error, w') => (failure "already exists" "Failed to create user" error, w')
              end
        end
  end.

Definition getUser {B} (req : Request B) (w : World) : Reply * World :=
  match parseInt (param req) with
  | None => (validation_error "Invalid user ID", w)
  | Some id =>
      match UserService.getUserById id w with
      | (Ok None, w') => (not_found, w')
      | (Ok (Some u), w') => (WithUser 200 "User retrieved successfully" u, w')
      | (Throw error, w') =>
          (Plain (mkResponse 500 (ErrorBody "Internal server error"
             (if truthy (message error) then message error else "Failed to get user"))), w')
      end
  end.

Definition updateUser (req : Request UserService.UpdateUserDto) (w : World) : Reply * World :=
  match parseInt (param req) with
  | None => (validation_error "Invalid user ID", w)
  | Some id =>
      let data := body req in
      (* Non-admins cannot change role or is_active, even for themselves *)
      if not_admin req && negb (bool_decide (UserService.up_role data = None))
      then (forbidden "Only admins can change user roles", w)
      else if not_admin req && negb (bool_decide (UserService.up_is_active data = None))
      then (forbidden "Only admins can change user active status", w)
      else
        match UserService.updateUser id data w with
        | (Ok None, w') => (not_found, w')
        | (Ok (Some u), w') => (WithUser 200 "User updated successfully" u, w')
        | (Throw error, w') => (failure "taken" "Failed to update user" error, w')
        end
  end.

Definition deleteUser {B} (req : Request B) (w : World) : Reply * World :=
  match parseInt (param req) with
  | None => (validation_error "Invalid user ID", w)
  | Some id =>
      match UserService.deleteUser id w with
      | (Ok false, w') => (not_found, w')
      | (Ok true, w') => (Plain (mkResponse 200 (MessageBody "User deleted successfully")), w')
      | (Throw error, w') =>
          (Plain (mkResponse 500 (ErrorBody "Internal server error"
             (if truthy (message error) then message error else "Failed to delete user"))), w')
      end
  end.

End WithLibraries.
End UserController.

(** ** routes/userRoutes.ts *)

Module UserRoutes.
Section WithLibraries.
Context `{Libraries}.

Definition Handler (B : Type) : Type := Request B -> World -> UserController.Reply * World.

(** The guards of a user route, then its handler. *)
Fixpoint route {B} (guards : list (Routes.Guard B)) (handler : Handler B) : Handler B :=
  match guards with
  | [] => handler
  | g :: guards' => fun req w =>
      match g req w with
      | (Respond r, w') => (UserController.Plain r, w')
      | (Next req', w') => route guards' handler req' w'
      end
  end.

(** [userId !== requesterId] for [parseInt(req.params.id, 10)] and
    [req.user?.userId]: [NaN] and [undefined] differ from everything. *)
Definition same_user (userId requesterId : option Z) : bool :=
  match userId, requesterId with
  | Some a, Some b => bool_decide (a = b)
  | _, _ => false
  end.

(** The inline check of [GET /:id] and [PUT /:id]: users reach their own
    profile, admins reach any. *)
Definition own_profile {B} (msg : string) : Routes.Guard B := fun req w =>
  let id := parseInt (param req) in
  let requesterId := userId <$> user req in
  if UserController.not_admin req && negb (same_user id requesterId)
  then (Respond (mkResponse 403 (ErrorBody "Forbidden" msg)), w)
  else (Next req, w).

(** [router.use(authenticate)] comes before every route of the file. *)

(** [router.get("/:id", ...)] *)
Definition get_user : Handler unit :=
  route [Middleware.authenticate; own_profile "You can only view your own profile"]
    UserController.getUser.

(** [router.post("/", authorize("admin"), ...)] *)
Definition post_user : Handler UserController.CreateUserBody :=
  route [Middleware.authenticate; Middleware.authorize ["admin"]] UserController.createUser.

(** [router.put("/:id", ...)] *)
Definition put_user : Handler UserService.UpdateUserDto :=
  route [Middleware.authenticate; own_profile "You can only update your own profile"]
    UserController.updateUser.

(** [router.delete("/:id", authorize("admin"), ...)] *)
Definition delete_user : Handler unit :=
  route [Middleware.authenticate; Middleware.authorize ["admin"]] UserController.deleteUser.

End WithLibraries.
End UserRoutes.

(** ** frontend: utils/validation.ts *)

Module FrontendValidation.

Import Validation.

(** [/^[^\s@]+@[^\s@]+\.[^\s@]+$/.test(email)]: the expression of the
    backend. *)
Definition isValidEmail (email : string) : bool := Validation.isValidEmail email.

(** [!email || email.trim().length === 0], then [email.length > 255], then
    the format; the address itself is not changed. *)
Definition validateEmail (email : option string) : Validity :=
  match email with
  | None => invalid "Email is required"
  | Some e =>
      if negb (truthy e) || (String.length (trim e) =? 0)%nat
      then invalid "Email is required"
      else if (255 <? String.length e)%nat then invalid "Email is too long"
      else if negb (isValidEmail e) then invalid "Invalid email format"
      else mkValidity true None None
  end.

End FrontendValidation.

(** ** frontend: utils/tokenStorage.ts

    [localStorage] is a map from keys to strings; each access may throw (the
    storage is disabled, or full). *)

Module TokenStorage.

Record Browser := mkBrowser {
  items : gmap string string;
  (** the accesses made so far, and those that throw *)
  accesses : nat;
  failing : nat -> bool
}.

Definition storage_error : JsError := mkError "SecurityError" "The operation is insecure.".

Definition access {A} (run : gmap string string -> A * gmap string string)
    (b : Browser) : Result A * Browser :=
  if failing b (accesses b)
  then (Throw storage_error, mkBrowser (items b) (S (accesses b)) (failing b))
  else
    let '(a, m) := run (items b) in
    (Ok a, mkBrowser m (S (accesses b)) (failing b)).

Definition getItem (k : string) : Browser -> Result (option string) * Browser :=
  access (fun m => (m !! k, m)).

Definition setItem (k v : string) : Browser -> Result unit * Browser :=
  access (fun m => (tt, <[k := v]> m)).

Definition removeItem (k : string) : Browser -> Result unit * Browser :=
  access (fun m => (tt, delete k m)).

Definition TOKEN_KEY : string := "auth_token".
Definition USER_KEY : string := "auth_user".

(** [token.split(".")] *)
Fixpoint split_dots (l : list ascii) : list (list ascii) :=
  match l with
  | [] => [[]]
  | c :: l' =>
      if bool_decide (c = "."%char) then [] :: split_dots l'
      else match split_dots l' with
           | part :: parts => (c :: part) :: parts
           | [] => [[c]]
           end
  end.

(** the class [[A-Za-z0-9_-]] *)
Definition is_base64url (c : ascii) : bool :=
  let n := nat_of_ascii c in
  ((65 <=? n)%nat && (n <=? 90)%nat) || ((97 <=? n)%nat && (n <=? 122)%nat) ||
  ((48 <=? n)%nat && (n <=? 57)%nat) || (n =? 95)%nat || (n =? 45)%nat.

(** [part.length === 0] throws, and so does a part that does not match
    [/^[A-Za-z0-9_-]+$/]; the [catch] returns [false]. *)
Definition valid_part (part : list ascii) : bool :=
  negb (length part =? 0)%nat && forallb is_base64url part.

Definition isValidTokenFormat (token : string) : bool :=
  if negb (truthy token) then false
  else
    let parts := split_dots (String.list_ascii_of_string token) in
    if negb (length parts =? 3)%nat then false
    else forallb valid_part parts.

(** [try { localStorage.removeItem(TOKEN_KEY); localStorage.removeItem(USER_KEY); }
    catch { }] *)
Definition clear (b : Browser) : Browser :=
  match removeItem TOKEN_KEY b with
  | (Ok _, b1) => snd (removeItem USER_KEY b1)
  | (Throw _, b1) => b1
  end.

Definition getToken (b : Browser) : option string * Browser :=
  match getItem TOKEN_KEY b with
  | (Throw _, b1) => (None, clear b1)
  | (Ok None, b1) => (None, b1)
  | (Ok (Some token), b1) =>
      if truthy token && isValidTokenFormat token then (Some token, b1)
      else if truthy token then
        (* If token is invalid, remove it *)
        match removeItem TOKEN_KEY b1 with
        | (Throw _, b2) => (None, clear b2)
        | (Ok _, b2) =>
            match removeItem USER_KEY b2 with
            | (Throw _, b3) => (None, clear b3)
            | (Ok _, b3) => (None, b3)
            end
        end
      else (None, b1)
  end.

Definition setToken (token : string) (b : Browser) : Browser :=
  if negb (isValidTokenFormat token) then b
  else
    match setItem TOKEN_KEY token b with
    | (Ok _, b1) => b1
    | (Throw _, b1) =>
        (* clear old data and try again *)
        match removeItem TOKEN_KEY b1 with
        | (Throw _, b2) => b2
        | (Ok _, b2) =>
            match removeItem USER_KEY b2 with
            | (Throw _, b3) => b3
            | (Ok _, b3) => snd (setItem TOKEN_KEY token b3)
            end
        end
    end.

Definition removeToken (b : Browser) : Browser := clear b.

End TokenStorage.

(** ** Concurrent purchases

    Several calls of [purchaseTickets] run at once, each on its own
    connection.  A call advances by the statements of the source; between
    two of its statements any other call may advance.  PostgreSQL gives the
    two facts the model rests on: [SELECT ... FOR UPDATE] returns the
    committed row and waits while another transaction holds the lock of
    this row; what a transaction writes is seen by the others at its
    [COMMIT] only, and the lock is released at [COMMIT] or [ROLLBACK]. *)

Module Concurrent.

(** The arguments of one call [purchaseTickets(eventId, quantity, userId)]. *)
Record Purchase := mkPurchase {
  on_event : Z;
  units : Z;
  buyer : Z
}.

(** Where a call stands. *)
Inductive Stage :=
  (** [BEGIN] sent; the locking [SELECT] has not returned yet *)
  | Waiting
  (** the [SELECT ... FOR UPDATE] returned this row: the call holds its lock *)
  | Locked (event : Event)
  (** both checks passed, the [UPDATE] and the [INSERT]s are done inside the
      transaction *)
  | Written (event : Event)
  (** [COMMIT] done *)
  | Succeeded
  (** an error was thrown and the [catch] block has rolled back *)
  | Failed (error : JsError).

Record Call := mkCall { request : Purchase; stage : Stage }.

Record System := mkSystem {
  (** the committed database *)
  store : Db;
  calls : list Call
}.

(** The row whose lock a call holds. *)
Definition holds (c : Call) : option Z :=
  match stage c with
  | Locked _ | Written _ => Some (on_event (request c))
  | _ => None
  end.

Definition locked_rows (cs : list Call) : list Z := omap holds cs.

(** [UPDATE events SET available_tickets = $1, updated_at = CURRENT_TIMESTAMP
    WHERE id = $2] with the value computed from the row that was read, and
    the [quantity] rows of the loop, as they reach the database at
    [COMMIT]. *)
Definition committed (p : Purchase) (event : Event) (t : Z) (d : Db) : Db :=
  set_tickets
    (tickets d ++
     map (fun j => EventService.purchased_ticket (on_event p) (buyer p) event j t)
       (seqZ 0 (units p)))
    (set_events
       (alter (fun current =>
                 EventService.touch t
                   (EventService.assign
                      (EventService.SetAvailableTickets (available_tickets event - units p))
                      current))
          (on_event p) (events d)) d).

(** The steps that the calls can take.  A statement that the database
    refuses (a foreign key, a length, a connection that the pool does not
    give in time) is a [fault] step, which is possible wherever a call is
    not over: the relation tells which states can be reached, not which
    steps a call is sure to take. *)
Inductive step : System -> System -> Prop :=
  (** the locking [SELECT] finds the row, and no other call holds its lock *)
  | select_found d l1 l2 p event :
      events d !! on_event p = Some event ->
      on_event p ∉ locked_rows (l1 ++ l2) ->
      step (mkSystem d (l1 ++ mkCall p Waiting :: l2))
           (mkSystem d (l1 ++ mkCall p (Locked event) :: l2))
  (** [eventResult.rows.length === 0] *)
  | select_missing d l1 l2 p :
      events d !! on_event p = None ->
      step (mkSystem d (l1 ++ mkCall p Waiting :: l2))
           (mkSystem d (l1 ++ mkCall p (Failed (Error "Event not found")) :: l2))
  (** [event.available_tickets < quantity] *)
  | refuse_capacity d l1 l2 p event :
      available_tickets event < units p ->
      step (mkSystem d (l1 ++ mkCall p (Locked event) :: l2))
           (mkSystem d (l1 ++ mkCall p
              (Failed (EventService.not_enough (available_tickets event) (units p))) :: l2))
  (** the status is neither upcoming nor live *)
  | refuse_status d l1 l2 p event :
      units p <= available_tickets event ->
      EventService.purchasable (e_status event) = false ->
      step (mkSystem d (l1 ++ mkCall p (Locked event) :: l2))
           (mkSystem d (l1 ++ mkCall p
              (Failed (EventService.wrong_status (e_status event))) :: l2))
  (** the [UPDATE] and the loop of [INSERT]s, inside the transaction *)
  | write d l1 l2 p event :
      units p <= available_tickets event ->
      EventService.purchasable (e_status event) = true ->
      step (mkSystem d (l1 ++ mkCall p (Locked event) :: l2))
           (mkSystem d (l1 ++ mkCall p (Written event) :: l2))
  (** [COMMIT] *)
  | commit d l1 l2 p event t :
      step (mkSystem d (l1 ++ mkCall p (Written event) :: l2))
           (mkSystem (committed p event t d) (l1 ++ mkCall p Succeeded :: l2))
  (** any statement may fail (the connection, a constraint): the [catch]
      block rolls back *)
  | fault d l1 l2 p s error :
      s <> Succeeded -> (forall e, s <> Failed e) ->
      step (mkSystem d (l1 ++ mkCall p s :: l2))
           (mkSystem d (l1 ++ mkCall p (Failed error) :: l2)).

(** The units bought by the calls that succeeded on an event. *)
Fixpoint sold (eid : Z) (cs : list Call) : Z :=
  match cs with
  | [] => 0
  | c :: cs' =>
      (match stage c with
       | Succeeded => if bool_decide (on_event (request c) = eid) then units (request c) else 0
       | _ => 0
       end) + sold eid cs'
  end.

(** The ticket rows of an event. *)
Definition ticket_rows (eid : Z) (d : Db) : Z :=
  Z.of_nat (length (List.filter (fun t => bool_decide (t_event_id t = Some eid)) (tickets d))).

(** The start: every call is waiting and asks for at least one unit, as
    the controller makes sure. *)
Definition initial (cs : list Call) : Prop :=
  Forall (fun c => stage c = Waiting /\ 1 <= units (request c)) cs.

End Concurrent.

Import Concurrent.

(** ** A small installation

    Stand-ins for the libraries and a database with one user and one event,
    on which the embedding can be run. *)

Module Scenario.

Definition alice_token : string := "alice.jwt".

Definition libraries : Libraries := {|
  sha256_hex s := "sha256(" +:+ s +:+ ")";
  jwt_verify token t :=
    if bool_decide (token = alice_token)
    then Ok (mkJwtPayload 7 "alice@example.com" RoleUser (Some 0) (Some 604800))
    else Throw (mkError "JsonWebTokenError" "jwt malformed");
  jwt_sign payload expiresIn t :=
    if userId payload =? 7 then alice_token else "other.jwt";
  bcrypt_hash p rounds := "bcrypt(" +:+ p +:+ ")";
  bcrypt_compare p h := bool_decide (h = "bcrypt(" +:+ p +:+ ")");
  JWT_EXPIRES_IN := "7d";
  ADMIN_REGISTRATION_SECRET := Some "let-me-in"
|}.

(** The same libraries, with tokens that live ninety days.  A token is
    made of its payload and of the second at which it is signed, as
    [jwt.sign] makes it ([iat] is in seconds and there is no [jti]); it is
    verified until it expires. *)
Definition ninety_days : Libraries := {|
  sha256_hex s := "sha256(" +:+ s +:+ ")";
  jwt_verify token t :=
    if bool_decide (token = "alice.jwt@1")
    then if t / 1000 <? 1 + 90 * 86400
         then Ok (mkJwtPayload 7 "alice@example.com" RoleUser (Some 1) (Some (1 + 90 * 86400)))
         else Throw (mkError "TokenExpiredError" "jwt expired")
    else Throw (mkError "JsonWebTokenError" "jwt malformed");
  jwt_sign payload expiresIn t :=
    if userId payload =? 7 then "alice.jwt@" +:+ show (t / 1000) else "other.jwt";
  bcrypt_hash p rounds := "bcrypt(" +:+ p +:+ ")";
  bcrypt_compare p h := bool_decide (h = "bcrypt(" +:+ p +:+ ")");
  JWT_EXPIRES_IN := "90d";
  ADMIN_REGISTRATION_SECRET := Some "let-me-in"
|}.

Definition alice : User :=
  mkUser 7 "alice@example.com" "bcrypt(Password123)" (Some "Alice") (Some "Liddell")
    RoleUser true 0 0.

Definition concert (available : Z) (s : EventStatus) : Event :=
  mkEvent 1 "Concert" None None 5000 5 available 2500 None s None 0 0.

Definition database (available : Z) (s : EventStatus) : Db :=
  mkDb [alice] 7 {[ 1 := concert available s ]} 1 [] [].

Definition no_faults : nat -> option JsError := fun _ => None.

Definition connection_lost : JsError := Error "Connection terminated unexpectedly".

(** The driver fails at the [n]-th query and only there. *)
Definition fault_at (n : nat) : nat -> option JsError := fun k =>
  if (k =? n)%nat then Some connection_lost else None.

Definition world (d : Db) (f : nat -> option JsError) (t : Z) : World :=
  mkWorld d None 0 f t.

(** A client that is reached directly. *)
Definition browser : Client :=
  mkClient (Some "Mozilla/5.0") None None (Some "203.0.113.7") (Some "203.0.113.7").

Definition bearer {B} (token : string) (b : B) : Request B :=
  mkRequest (Some ("Bearer " +:+ token)) None "1" None b browser.

Definition anonymous {B} (b : B) : Request B :=
  mkRequest None None "1" None b browser.

Definition alice_login : AuthController.Credentials :=
  AuthController.mkCredentials (Some "Alice@Example.com") (Some "Password123") None None None.

(** The world after Alice has logged in at time 1000. *)
Definition logged_in : World :=
  snd (Routes.post_login (H := libraries) (anonymous alice_login)
         (world (database 5 Upcoming) no_faults 1000)).

(** The same database at a later time, under a given fault plan. *)
Definition later (w : World) (f : nat -> option JsError) (t : Z) : World :=
  mkWorld (db w) None 0 f t.

Definition deactivate : UserService.UpdateUserDto :=
  UserService.mkUpdateUserDto None None None None None (Some false).

End Scenario.

(** * Vocabulary of the properties *)

(** ** Purchases *)

(** The rows that the loop of a purchase inserts for the units [i] to
    [i + n - 1]. *)
Definition new_tickets (eventId userId : Z) (event : Event) (t : Z) (i n : Z) : list Ticket :=
  map (fun j => EventService.purchased_ticket eventId userId event j t) (seqZ i n).

(** The event row after the [UPDATE] of a purchase of [quantity] units. *)
Definition decremented (event : Event) (quantity t : Z) : Event :=
  EventService.touch t
    (EventService.assign
       (EventService.SetAvailableTickets (available_tickets event - quantity)) event).

(** The database once a purchase is committed. *)
Definition purchased (eventId quantity userId : Z) (event : Event) (t : Z) (d : Db) : Db :=
  set_tickets (tickets d ++ new_tickets eventId userId event t 0 quantity)
    (set_events (<[eventId := decremented event quantity t]> (events d)) d).

(** ** The ledger and the gate *)

(** Every ledger row of the token hash [h] is revoked. *)
Definition all_revoked (h : string) (ss : list Session) : Prop :=
  Forall (fun s => token_hash s = h -> is_revoked s = true) ss.

(** What the ledger check answers on a row found, at time [t]. *)
Definition honoured (t : Z) (s : option Session) : bool :=
  match s with
  | None => false
  | Some s => negb (is_revoked s) && negb (expires_at s <? t)
  end.

(** What happens to the ledger between the revocation and a later
    request, for the token hash [h]: sessions are recorded for other
    tokens, tokens and users are logged out, requests are let through the
    gate, stale rows are swept, rows are deleted with their user, and the
    rest of the world (the other tables, the clock, the fault plan) changes
    freely. *)
Inductive ledger_step `{Libraries} (h : string) : World -> World -> Prop :=
  | step_create data w r w' :
      SessionService.createSession data w = (r, w') ->
      SessionService.hashToken (SessionService.dto_token_hash data) <> h ->
      ledger_step h w w'
  | step_revoke token w r w' :
      SessionService.revokeToken token w = (r, w') -> ledger_step h w w'
  | step_revoke_all uid w r w' :
      SessionService.revokeAllUserSessions uid w = (r, w') -> ledger_step h w w'
  | step_touch token w r w' :
      SessionService.updateLastUsed token w = (r, w') -> ledger_step h w w'
  | step_cleanup w r w' :
      SessionService.cleanupExpiredSessions w = (r, w') -> ledger_step h w w'
  | step_delete keep w w' :
      sessions (db w') = List.filter keep (sessions (db w)) -> ledger_step h w w'
  | step_elsewhere w w' :
      sessions (db w') = sessions (db w) -> ledger_step h w w'.

(** What the [catch] of the gate answers. *)
Definition verification_failed : Response :=
  mkResponse 500 (ErrorBody "Internal server error" "Token verification failed").

(** The identity that the gate attaches to the request. *)
Definition identity (decoded : JwtPayload) : AuthPayload :=
  mkAuthPayload (jwt_userId decoded) (jwt_email decoded) (jwt_role decoded).

(** ** The inventory *)

(** [0 <= available_tickets <= total_tickets] on every event row. *)
Definition inventory_ok (d : Db) : Prop :=
  map_Forall (fun _ e => 0 <= available_tickets e <= total_tickets e) (events d).

(** What the [CHECK] constraints alone give. *)
Definition inventory_nonneg (d : Db) : Prop :=
  map_Forall (fun _ e => 0 <= available_tickets e /\ 0 <= total_tickets e) (events d).

(** The assignments that touch neither count. *)
Definition neutral (a : EventService.Assignment) : Prop :=
  match a with
  | EventService.SetTotalTickets _ | EventService.SetAvailableTickets _ => False
  | _ => True
  end.

(** The [updates] array that [updateEvent] sends, given the row it read:
    the columns pushed before the two counts, the adjustment of the counts
    when [total_tickets] is given, [available_tickets] when it is given,
    the columns pushed after. *)
Definition leading (data : EventService.UpdateEventDto) : list EventService.Assignment :=
  EventService.pushed EventService.SetTitle (EventService.up_title data) ++
  EventService.pushed EventService.SetDescription (EventService.up_description data) ++
  EventService.pushed EventService.SetVenue (EventService.up_venue data) ++
  EventService.pushed EventService.SetEventDate (EventService.up_event_date data).

Definition trailing (data : EventService.UpdateEventDto) : list EventService.Assignment :=
  EventService.pushed EventService.SetPrice (EventService.up_price data) ++
  EventService.pushed EventService.SetImageUrl (EventService.up_image_url data) ++
  EventService.pushed EventService.SetStatus (EventService.up_status data).

Definition adjustment (data : EventService.UpdateEventDto) (current : option Event)
    : list EventService.Assignment :=
  match EventService.up_total_tickets data, current with
  | Some newTotal, Some currentEvent =>
      [EventService.SetTotalTickets newTotal;
       EventService.SetAvailableTickets
         (Z.max 0 (available_tickets currentEvent + (newTotal - total_tickets currentEvent)))]
  | _, _ => []
  end.

Definition updates_of (data : EventService.UpdateEventDto) (current : option Event)
    : list EventService.Assignment :=
  (leading data ++ adjustment data current) ++
  EventService.pushed EventService.SetAvailableTickets (EventService.up_available_tickets data) ++
  trailing data.

(** ** Concurrent purchases *)

(** What a call knows of the database is true of it: the row it has read
    under the lock is still the committed row, and a call that has written
    has checked the capacity against it. *)
Definition call_ok (d : Db) (c : Call) : Prop :=
  0 <= units (request c) /\
  match stage c with
  | Locked event => events d !! on_event (request c) = Some event
  | Written event =>
      events d !! on_event (request c) = Some event /\
      units (request c) <= available_tickets event
  | _ => True
  end.

(** What holds of every state that the calls can reach from the database
    [d0]. *)
Record invariant (d0 : Db) (s : System) : Prop := mkInvariant {
  (** a row is locked by one call at most *)
  inv_locks : NoDup (locked_rows (calls s));
  inv_calls : Forall (call_ok (store s)) (calls s);
  (** what is left and what was sold add up to what there was *)
  inv_events : forall eid ev0,
    events d0 !! eid = Some ev0 ->
    exists ev,
      events (store s) !! eid = Some ev /\
      available_tickets ev + sold eid (calls s) = available_tickets ev0 /\
      (0 <= available_tickets ev0 -> 0 <= available_tickets ev);
  (** one row per unit sold *)
  inv_tickets : forall eid,
    ticket_rows eid (store s) = ticket_rows eid d0 + sold eid (calls s)
}.

(** ** Sessions *)

(** The milliseconds of the units that [getExpirationDate] knows. *)
Definition unit_ms (c : ascii) : option Z :=
  if bool_decide (c = "d"%char) then Some (24 * 60 * 60 * 1000)
  else if bool_decide (c = "h"%char) then Some (60 * 60 * 1000)
  else if bool_decide (c = "m"%char) then Some (60 * 1000)
  else if bool_decide (c = "s"%char) then Some 1000
  else None.

(** ** Users *)

(** No two users share an id or an address, and the sequence of the ids is
    ahead of every id. *)
Definition users_ok (d : Db) : Prop :=
  NoDup (map u_id (users d)) /\ NoDup (map u_email (users d)) /\
  Forall (fun u => u_id u <= users_seq d) (users d).

(** The values of a registration fit the columns of [users]: the address
    and the hash of the password have 255 characters at most, and the names,
    if any, are accepted by [VARCHAR(100)]. *)
Definition fits_users `{Libraries} (data : AuthService.RegisterDto) : Prop :=
  (String.length (AuthService.r_email data) <= 255)%nat /\
  (String.length (bcrypt_hash (AuthService.r_password data) 10) <= 255)%nat /\
  is_Some (Pg.varchar_or_null 100 (Pg.text_or_null (AuthService.r_first_name data))) /\
  is_Some (Pg.varchar_or_null 100 (Pg.text_or_null (AuthService.r_last_name data))).

(** A string of ASCII characters: on these the functions of [Validation]
    are those of JavaScript ([toLowerCase], [trim], [length] and the class
    [\s] also act on characters above 127, in ways that are not modelled). *)
Definition is_ascii (s : string) : Prop :=
  Forall (fun c => (Validation.code c < 128)%nat) (Validation.chars s).

(** ** Privileges *)

(** The tables that the gate never writes. *)
Definition same_records (d d' : Db) : Prop :=
  users d' = users d /\ users_seq d' = users_seq d /\
  events d' = events d /\ events_seq d' = events_seq d /\
  tickets d' = tickets d.

(** The request carries no token that the library verifies for an admin
    at the time of the world. *)
Definition no_admin_token `{Libraries} (auth : option string) (w : World) : Prop :=
  forall header decoded,
    auth = Some header ->
    jwt_verify (Middleware.extract_token header) (now w) = Ok decoded ->
    jwt_role decoded = RoleUser.

(** The answers of a route that turns a request away. *)
Definition turned_away (code : Z) : Prop := code = 401 \/ code = 403 \/ code = 500.

(** ** The listing of the events *)

(** The same filters, for the page of [limit] rows after [offset] rows. *)
Definition page_of (params : EventService.EventQueryParams) (limit offset : Z)
    : EventService.EventQueryParams :=
  EventService.mkEventQueryParams (EventService.q_status params) (EventService.q_venue params)
    (EventService.q_from_date params) (EventService.q_to_date params)
    (Some limit) (Some offset).

(** ** Serial purchases *)

(** The purchases of a log (the call, the row it read, the time of its
    commit) run one after the other, each alone: each finds its event as
    the row it read, with enough tickets and a status that allows the
    purchase, and leaves what a purchase alone leaves. *)
Inductive serial : Db -> list (Purchase * Event * Z) -> Db -> Prop :=
  | serial_done d : serial d [] d
  | serial_next d p ev t log d' :
      events d !! on_event p = Some ev ->
      units p <= available_tickets ev ->
      EventService.purchasable (e_status ev) = true ->
      serial (purchased (on_event p) (units p) (buyer p) ev t d) log d' ->
      serial d ((p, ev, t) :: log) d'.

(** The purchases of the calls that succeeded. *)
Definition succeeded_call (c : Call) : option Purchase :=
  match stage c with
  | Succeeded => Some (request c)
  | _ => None
  end.

Definition succeeded (cs : list Call) : list Purchase := omap succeeded_call cs.

(** A call that has written has checked the status of the row it read. *)
Definition written_checked (c : Call) : Prop :=
  match stage c with
  | Written ev => EventService.purchasable (e_status ev) = true
  | _ => True
  end.

(** * Properties *)

(** ** Running one statement *)

Lemma query_fault {A} (run : Db -> Z -> Result A * Db) w e :
  faults w (queries w) = Some e -> query run w = (Throw e, tick w).
Proof. intros Hf. unfold query. by rewrite Hf. Qed.

Lemma query_run {A} (run : Db -> Z -> Result A * Db) w :
  faults w (queries w) = None ->
  query run w = (fst (run (db w) (now w)), with_db (snd (run (db w) (now w))) (tick w)).
Proof. intros Hf. unfold query. rewrite Hf. by destruct (run (db w) (now w)). Qed.

(** A statement that only reads leaves the database as it was, whether it
    fails or not. *)
Lemma query_read_db {A} (f : Db -> Z -> Result A) w r w' :
  query (fun d t => (f d t, d)) w = (r, w') -> db w' = db w.
Proof.
  unfold query. destruct (faults w (queries w)); intros [= <- <-]; reflexivity.
Qed.

(** ** Registration of an administrator *)

Lemma registerAdmin_sql_placeholders :
  Pg.placeholders AuthService.registerAdmin_sql = 5%nat.
Proof. reflexivity. Qed.

Lemma register_sql_placeholders :
  Pg.placeholders AuthService.register_sql = 4%nat.
Proof. reflexivity. Qed.

(** The [INSERT] of [registerAdmin] binds four values to five parameters:
    the statement is refused and no row is written. *)
Lemma registerAdmin_insert_refused (e h : string) (fn ln : Pg.SqlValue) w :
  exists err,
    Pg.insert_user AuthService.registerAdmin_sql [Pg.VText e; Pg.VText h; fn; ln] w
    = (Throw err, tick w).
Proof.
  unfold Pg.insert_user, query, Pg.checked_bind.
  destruct (faults w (queries w)) as [err|]; [by exists err|].
  rewrite registerAdmin_sql_placeholders. simpl.
  by eexists.
Qed.

Lemma registerAdmin_throws `{Libraries} data dev w :
  exists e w', AuthService.registerAdmin data dev w = (Throw e, w') /\ db w' = db w.
Proof.
  unfold AuthService.registerAdmin, bind.
  destruct (query _ w) as [[rows|e] w1] eqn:Hq.
  - apply query_read_db in Hq.
    destruct (0 <? length rows)%nat.
    + unfold throw. eauto.
    + destruct (registerAdmin_insert_refused (AuthService.r_email data)
                  (bcrypt_hash (AuthService.r_password data) 10)
                  (Pg.text_or_null (AuthService.r_first_name data))
                  (Pg.text_or_null (AuthService.r_last_name data)) w1) as [err Herr].
      rewrite Herr. exists err, (tick w1). split; [done|]. by rewrite <- Hq.
  - apply query_read_db in Hq. eauto.
Qed.

Lemma registration_failure_status fallback error :
  status (AuthController.registration_failure fallback error) = 409 \/
  status (AuthController.registration_failure fallback error) = 500.
Proof.
  unfold AuthController.registration_failure.
  destruct (includes (message error) "already exists"); simpl; auto.
Qed.

(** C10. Whatever the input, [AuthService.registerAdmin] throws and leaves the
    database as it was; so [POST /api/auth/register-admin] never answers 201:
    it answers 403 (secret), 400 (validation), 409 or 500, and no user is
    created. *)
Theorem registerAdmin_never_creates `{Libraries} :
  (forall data dev w,
     exists e w', AuthService.registerAdmin data dev w = (Throw e, w') /\ db w' = db w) /\
  (forall req w,
     let r := Routes.post_register_admin req w in
     (status (fst r) = 400 \/ status (fst r) = 403 \/
      status (fst r) = 409 \/ status (fst r) = 500) /\
     db (snd r) = db w).
Proof.
  split; [intros; apply registerAdmin_throws|].
  intros req w. cbv zeta. unfold Routes.post_register_admin. cbn [Routes.route].
  unfold Routes.protectAdminRegistration.
  destruct (or_null ADMIN_REGISTRATION_SECRET); [|simpl; auto].
  destruct (or_null (Routes.provided_secret req)); [|simpl; auto].
  case_bool_decide; simpl; [|auto].
  unfold AuthController.registerAdmin, AuthController.registration. simpl.
  repeat match goal with
  | |- context [if negb (Validation.valid ?v) then _ else _] =>
      destruct (Validation.valid v); simpl; [|auto]
  end.
  match goal with
  | |- context [AuthService.registerAdmin ?d ?dev ?w0] =>
      destruct (registerAdmin_throws d dev w0) as (e & w' & -> & Hdb)
  end.
  simpl. split; [|done].
  destruct (registration_failure_status "Failed to register admin" e); auto.
Qed.

(** ** Logout *)

Lemma revokeToken_run `{Libraries} token w :
  faults w (queries w) = None ->
  SessionService.revokeToken token w =
  (Ok (0 <? Z.of_nat (length (List.filter
          (SessionService.live_with_hash (SessionService.hashToken token))
          (sessions (db w))))),
   with_db (set_sessions
              (SessionService.update_where
                 (SessionService.live_with_hash (SessionService.hashToken token))
                 (SessionService.revoke_row (now w)) (sessions (db w))) (db w))
           (tick w)).
Proof.
  intros Hf. unfold SessionService.revokeToken, bind.
  rewrite query_run by done. reflexivity.
Qed.

Lemma revokeToken_fault `{Libraries} token w e :
  faults w (queries w) = Some e ->
  SessionService.revokeToken token w = (Throw e, tick w).
Proof.
  intros Hf. unfold SessionService.revokeToken, bind.
  by rewrite query_fault with (e := e).
Qed.

(** What the logout route does on every request.  [POST /api/auth/logout]
    is routed to the controller with no [authenticate] in front.  Every
    request, whatever its [Authorization] header, is answered 200 once the
    ledger update has run: the rows of the token read in the header (the
    header without its first ["Bearer "], or the empty string) that are not
    yet revoked become revoked.  Only a failure of that update is answered
    otherwise, with 500.  So the first half of C9 holds: a request with an
    honoured token revokes it and is answered 200. *)
Lemma logout_route_answers `{Libraries} (req : Request unit) w :
  Routes.post_logout req w =
  match faults w (queries w) with
  | None =>
      (mkResponse 200 (MessageBody "Logout successful"),
       with_db (set_sessions
                  (SessionService.update_where
                     (SessionService.live_with_hash
                        (SessionService.hashToken (AuthController.logout_token req)))
                     (SessionService.revoke_row (now w)) (sessions (db w))) (db w))
               (tick w))
  | Some error =>
      (mkResponse 500
         (ErrorBody "Internal server error"
            (if truthy (message error) then message error else "Failed to logout")),
       tick w)
  end.
Proof.
  unfold Routes.post_logout. cbn [Routes.route].
  unfold AuthController.logout, AuthService.logout, bind.
  destruct (faults w (queries w)) as [e|] eqn:Hf.
  - by rewrite revokeToken_fault with (e := e).
  - by rewrite revokeToken_run.
Qed.

(** C9, on the code.  A request with no [Authorization] header at all, and
    a request whose token the library does not verify, are answered 200 by
    the logout route, and the [UPDATE] of the ledger has been sent for them;
    the gate, had it been put in front of the route as it is in front of the
    other routes that require authentication, answers both with 401 and
    sends nothing. *)
Theorem logout_without_token_is_200 :
  let w := Scenario.world (Scenario.database 5 Upcoming) Scenario.no_faults 1000 in
  let anonymous : Request unit := Scenario.anonymous tt in
  let forged : Request unit := Scenario.bearer "forged.jwt" tt in
  let logout (req : Request unit) := Routes.post_logout (H := Scenario.libraries) req w in
  let gate (req : Request unit) := Middleware.authenticate (H := Scenario.libraries) req w in
  authorization anonymous = None /\
  fst (logout anonymous) = mkResponse 200 (MessageBody "Logout successful") /\
  queries (snd (logout anonymous)) = 1%nat /\
  fst (gate anonymous) = Respond (Middleware.unauthorized "No token provided") /\
  queries (snd (gate anonymous)) = 0%nat /\
  fst (logout forged) = mkResponse 200 (MessageBody "Logout successful") /\
  queries (snd (logout forged)) = 1%nat /\
  fst (gate forged) = Respond (Middleware.unauthorized "Invalid token") /\
  queries (snd (gate forged)) = 0%nat.
Proof. vm_compute. done. Qed.

(** ** Status codes of a purchase that fails *)

Lemma includes_skip (c0 : ascii) (needle s rest : string) :
  Forall (fun c => c <> c0) (String.list_ascii_of_string s) ->
  includes (s +:+ rest) (String c0 needle) = includes rest (String c0 needle).
Proof.
  induction s as [|c s IH]; simpl; [done|].
  intros Hall. inversion Hall as [|? ? Hc Hs]; subst.
  destruct (ascii_dec c0 c) as [->|_]; [done|].
  simpl. by apply IH.
Qed.

Lemma includes_none (c0 : ascii) (needle s : string) :
  Forall (fun c => c <> c0) (String.list_ascii_of_string s) ->
  includes s (String c0 needle) = false.
Proof.
  induction s as [|c s IH]; simpl; [done|].
  intros Hall. inversion Hall as [|? ? Hc Hs]; subst.
  destruct (ascii_dec c0 c) as [->|_]; [done|].
  simpl. by apply IH.
Qed.

Lemma string_of_uint_chars (c0 : ascii) (d : Decimal.uint) :
  (57 < nat_of_ascii c0)%nat ->
  Forall (fun c => c <> c0) (String.list_ascii_of_string (NilEmpty.string_of_uint d)).
Proof.
  intros Hc. induction d; simpl; [constructor|..];
    (constructor; [intros <-; vm_compute in Hc; lia|done]).
Qed.

(** The decimal form of a number has no letter in it. *)
Lemma show_chars (c0 : ascii) (z : Z) :
  (57 < nat_of_ascii c0)%nat ->
  Forall (fun c => c <> c0) (String.list_ascii_of_string (show z)).
Proof.
  intros Hc. unfold show, NilZero.string_of_int, NilZero.string_of_uint.
  destruct (Z.to_int z) as [d|d]; destruct d; simpl;
    repeat (constructor; [intros <-; vm_compute in Hc; lia|]);
    try apply string_of_uint_chars; try done.
Qed.

Lemma not_found_is_404 :
  EventController.purchase_failure (Error "Event not found") =
  mkResponse 404 (ErrorBody "Not found" "Event not found").
Proof. reflexivity. Qed.

Lemma not_enough_message available requested :
  includes (message (EventService.not_enough available requested)) "not found" = false /\
  includes (message (EventService.not_enough available requested)) "available" = true.
Proof.
  split; [|reflexivity].
  unfold EventService.not_enough. cbn [message Error].
  assert (Ha := show_chars "n" available ltac:(vm_compute; lia)).
  assert (Hr := show_chars "n" requested ltac:(vm_compute; lia)).
  revert Ha Hr. generalize (show available) (show requested). intros sa sr Ha Hr.
  change (includes (sa +:+ ", Requested: " +:+ sr) "not found" = false).
  rewrite (includes_skip "n" "ot found" sa) by done.
  change (includes sr "not found" = false).
  by apply includes_none.
Qed.

(** ** The purchase transaction *)

Lemma set_tickets_same d : set_tickets (tickets d ++ []) d = d.
Proof. destruct d. unfold set_tickets. simpl. by rewrite app_nil_r. Qed.

Lemma insert_tickets_spec eid uid ev n : forall i w r w',
  EventService.insert_tickets n i eid uid ev w = (r, w') ->
  txn w' = txn w /\ faults w' = faults w /\ now w' = now w /\
  (r = Ok tt ->
   db w' = set_tickets (tickets (db w) ++ new_tickets eid uid ev (now w) i (Z.of_nat n)) (db w) /\
   queries w' = (queries w + n)%nat).
Proof.
  induction n as [|n IH]; intros i w r w'; simpl.
  - intros [= <- <-]. repeat split; auto.
    unfold new_tickets. rewrite seqZ_nil by lia. simpl. by rewrite set_tickets_same.
  - unfold bind, query.
    destruct (faults w (queries w)) as [e|] eqn:Hf.
    { intros [= <- <-]. repeat split; done. }
    unfold EventService.insert_ticket.
    match goal with |- context [if ?c then _ else _] => destruct c end.
    { intros [= <- <-]. repeat split; done. }
    match goal with |- context [if ?c then _ else _] => destruct c end.
    { intros [= <- <-]. repeat split; done. }
    intros Hrest. apply IH in Hrest as (Ht & Hfl & Hn & Hok).
    simpl in *. split; [done|]. split; [done|]. split; [done|].
    intros ->. destruct (Hok eq_refl) as [Hdb Hq]. split; [|lia].
    rewrite Hdb. unfold new_tickets, set_tickets.
    rewrite (seqZ_cons i (Z.of_nat (S n))) by lia.
    replace (Z.pred (Z.of_nat (S n))) with (Z.of_nat n) by lia.
    replace (Z.succ i) with (i + 1) by lia.
    cbn [map tickets users users_seq events events_seq sessions].
    by rewrite <- app_assoc.
Qed.

Lemma insert_tickets_ok eid uid ev n : forall i w,
  (forall k, (k < n)%nat -> faults w (queries w + k)%nat = None) ->
  is_Some (events (db w) !! eid) ->
  EventService.user_exists uid (db w) = true ->
  (forall j, i <= j < i + Z.of_nat n ->
     (String.length (EventService.ticket_title ev j) <= 255)%nat) ->
  exists w', EventService.insert_tickets n i eid uid ev w = (Ok tt, w').
Proof.
  induction n as [|n IH]; intros i w Hf Hev Hu Hlen; simpl.
  - by eexists.
  - unfold bind, query.
    assert (Hf0 : faults w (queries w) = None)
      by (rewrite <- (Nat.add_0_r (queries w)); apply Hf; lia).
    rewrite Hf0.
    unfold EventService.insert_ticket.
    rewrite bool_decide_eq_true_2 by done. rewrite Hu. simpl.
    destruct (255 <? String.length (EventService.ticket_title ev i))%nat eqn:Hl.
    { apply Nat.ltb_lt in Hl. specialize (Hlen i ltac:(lia)). lia. }
    apply IH.
    + intros k Hk. cbn [queries tick faults with_db].
      rewrite <- (Hf (S k)) by lia. f_equal. lia.
    + done.
    + done.
    + intros j Hj. apply Hlen. lia.
Qed.

Lemma seqZ_to_nat i q : seqZ i (Z.of_nat (Z.to_nat q)) = seqZ i q.
Proof.
  destruct (decide (0 <= q)).
  - by rewrite Z2Nat.id.
  - rewrite !seqZ_nil; [done|lia|lia].
Qed.

(** How the [try] block of a purchase ends.  Either it throws with the
    transaction still open on the database of the start (or not even
    begun), or the transaction is committed; in this case only the reading
    of the event that follows [COMMIT] can still throw. *)
Lemma purchase_try_outcome eventId q userId w r w' :
  txn w = None ->
  EventService.purchase_try eventId q userId w = (r, w') ->
  now w' = now w /\ faults w' = faults w /\
  ((exists e, r = Throw e /\
      ((txn w' = None /\ db w' = db w) \/ txn w' = Some (db w))) \/
   (exists event,
      events (db w) !! eventId = Some event /\
      q <= available_tickets event /\
      EventService.purchasable (e_status event) = true /\
      txn w' = None /\
      db w' = purchased eventId q userId event (now w) (db w) /\
      (r = Ok (Some (decremented event q (now w))) \/
       exists e, r = Throw e /\ faults w (queries w + 4 + Z.to_nat q)%nat = Some e))).
Proof.
  intros Htx. unfold EventService.purchase_try, bind, BEGIN, throw, ret.
  destruct (faults w (queries w)) as [e|] eqn:F0.
  { intros [= <- <-]. simpl. split; [done|]. split; [done|]. left. eauto 6. }
  unfold query at 1. cbn [faults queries with_txn tick db now txn].
  destruct (faults w (S (queries w))) as [e|] eqn:F1.
  { intros [= <- <-]. simpl. split; [done|]. split; [done|]. left. eauto 6. }
  destruct (events (db w) !! eventId) as [event|] eqn:Hev; cycle 1.
  { intros [= <- <-]. simpl. split; [done|]. split; [done|]. left. eauto 6. }
  destruct (available_tickets event <? q) eqn:Hcap.
  { intros [= <- <-]. simpl. split; [done|]. split; [done|]. left. eauto 6. }
  destruct (EventService.purchasable (e_status event)) eqn:Hst; cycle 1.
  { intros [= <- <-]. simpl. split; [done|]. split; [done|]. left. eauto 6. }
  apply Z.ltb_ge in Hcap. cbn [negb].
  unfold query at 1. cbn [faults queries with_txn with_db tick db now txn].
  destruct (faults w (S (S (queries w)))) as [e|] eqn:F2.
  { intros [= <- <-]. simpl. split; [done|]. split; [done|]. left. eauto 6. }
  unfold EventService.update_event.
  rewrite bool_decide_eq_true_2 by (apply NoDup_singleton).
  cbn [negb]. rewrite Hev.
  cbn [foldl]. fold (decremented event q (now w)).
  destruct (EventService.checks (decremented event q (now w))) eqn:Hck; cycle 1.
  { intros [= <- <-]. simpl. split; [done|]. split; [done|]. left. eauto 6. }
  match goal with
  | |- context [EventService.insert_tickets ?n ?i ?a ?b ?c ?w0] =>
      destruct (EventService.insert_tickets n i a b c w0) as [[[]|e] w3] eqn:Hins;
      apply insert_tickets_spec in Hins as (Ht3 & Hf3 & Hn3 & Hok3);
      cbn [faults queries with_txn with_db tick db now txn] in Ht3, Hf3, Hn3, Hok3
  end; cycle 1.
  { intros [= <- <-]. split; [done|]. split; [done|]. left. eauto 6. }
  destruct (Hok3 eq_refl) as [Hdb3 Hq3]. clear Hok3.
  unfold COMMIT. rewrite Hf3, Hq3.
  replace (S (S (S (queries w))) + Z.to_nat q)%nat
    with (queries w + 3 + Z.to_nat q)%nat by lia.
  destruct (faults w (queries w + 3 + Z.to_nat q)%nat) as [e|] eqn:F3.
  { intros [= <- <-]. simpl. split; [done|]. split; [done|]. left.
    exists e. split; [done|]. right. done. }
  unfold EventService.getEventById, query.
  cbn [faults queries with_txn with_db tick db now txn].
  rewrite Hf3, Hq3.
  replace (S (S (S (S (queries w))) + Z.to_nat q))%nat
    with (queries w + 4 + Z.to_nat q)%nat by lia.
  assert (Hpur : db w3 = purchased eventId q userId event (now w) (db w)).
  { rewrite Hdb3. unfold purchased, new_tickets. by rewrite seqZ_to_nat. }
  destruct (faults w (queries w + 4 + Z.to_nat q)%nat) as [e|] eqn:F4.
  - intros [= <- <-]. cbn [faults queries with_txn with_db tick db now txn].
    split; [done|]. split; [done|]. right. exists event.
    repeat (split; [done|]). right. by exists e.
  - intros [= <- <-]. cbn [faults queries with_txn with_db tick db now txn ret].
    split; [done|]. split; [done|]. right. exists event.
    repeat (split; [done|]). left.
    rewrite Hpur. unfold purchased. simpl. by rewrite lookup_insert_eq.
Qed.

(** How a purchase ends: it throws and the database is as it was, or the
    purchase is committed whole; in the second case the call returns the
    updated event, unless the reading of the event after [COMMIT] fails. *)
Lemma purchase_outcome eventId q userId w r w' :
  txn w = None ->
  EventService.purchaseTickets eventId q userId w = (r, w') ->
  txn w' = None /\ now w' = now w /\ faults w' = faults w /\
  ((exists e, r = Throw e /\ db w' = db w) \/
   (exists event,
      events (db w) !! eventId = Some event /\
      q <= available_tickets event /\
      EventService.purchasable (e_status event) = true /\
      db w' = purchased eventId q userId event (now w) (db w) /\
      (r = Ok (Some (decremented event q (now w))) \/
       exists e, r = Throw e /\ faults w (queries w + 4 + Z.to_nat q)%nat = Some e))).
Proof.
  intros Htx. unfold EventService.purchaseTickets, try_catch.
  destruct (EventService.purchase_try eventId q userId w) as [[v|e] w1] eqn:Htry;
    apply purchase_try_outcome in Htry as (Hn & Hf & Hcase); try done.
  - intros [= <- <-].
    destruct Hcase as [(e & ? & _)|(event & ? & ? & ? & ? & ? & Hr)]; [done|].
    repeat (split; [done|]). right. exists event. repeat (split; [done|]). done.
  - unfold bind, ROLLBACK, throw.
    destruct Hcase as [(e' & [= <-] & [[Ht Hd]|Ht])|(event & ? & ? & ? & Ht & ? & Hr)].
    + rewrite Ht. intros [= <- <-]. repeat (split; [done|]). left. eauto.
    + rewrite Ht. intros [= <- <-]. simpl. repeat (split; [done|]). left. eauto.
    + rewrite Ht. intros [= <- <-]. repeat (split; [done|]).
      right. exists event. repeat (split; [done|]). done.
Qed.

(** A purchase that fails before the reading that follows [COMMIT] leaves
    the database exactly as it was. *)
Lemma purchase_failure_rolls_back eventId q userId w e w' :
  txn w = None ->
  faults w (queries w + 4 + Z.to_nat q)%nat = None ->
  EventService.purchaseTickets eventId q userId w = (Throw e, w') ->
  db w' = db w /\ txn w' = None.
Proof.
  intros Htx Hre Hrun.
  apply purchase_outcome in Hrun as (Ht & _ & _ & Hcase); [|done].
  split; [|done].
  destruct Hcase as [(? & _ & ?)|(event & _ & _ & _ & _ & [?|(e' & _ & He')])];
    [done|done|congruence].
Qed.

(** The three business failures leave the database as it was, whatever the
    fault plan. *)
Lemma purchase_refused_unchanged eventId q userId w r w' :
  txn w = None ->
  EventService.purchaseTickets eventId q userId w = (r, w') ->
  match events (db w) !! eventId with
  | None => True
  | Some event =>
      available_tickets event < q \/ EventService.purchasable (e_status event) = false
  end ->
  db w' = db w /\ exists e, r = Throw e.
Proof.
  intros Htx Hrun Hbad.
  apply purchase_outcome in Hrun as (_ & _ & _ & Hcase); [|done].
  destruct Hcase as [(e & ? & ?)|(event & Hev & Hq & Hst & _)]; [eauto|].
  rewrite Hev in Hbad. destruct Hbad; [lia|congruence].
Qed.

Lemma purchase_try_ok eventId q userId w event :
  txn w = None ->
  events (db w) !! eventId = Some event ->
  q <= available_tickets event ->
  EventService.purchasable (e_status event) = true ->
  EventService.checks event = true ->
  EventService.user_exists userId (db w) = true ->
  (forall j, 0 <= j < q ->
     (String.length (EventService.ticket_title event j) <= 255)%nat) ->
  (forall k, (k < 5 + Z.to_nat q)%nat -> faults w (queries w + k)%nat = None) ->
  exists w', EventService.purchase_try eventId q userId w =
             (Ok (Some (decremented event q (now w))), w').
Proof.
  intros Htx Hev Hq Hst Hck Hu Hlen Hf.
  assert (F0 : faults w (queries w) = None)
    by (rewrite <- (Nat.add_0_r (queries w)); apply Hf; lia).
  assert (F1 : faults w (S (queries w)) = None)
    by (rewrite <- (Nat.add_1_r (queries w)); apply Hf; lia).
  assert (F2 : faults w (S (S (queries w))) = None)
    by (replace (S (S (queries w))) with (queries w + 2)%nat by lia; apply Hf; lia).
  unfold EventService.purchase_try, bind, BEGIN, throw, ret.
  rewrite F0. unfold query at 1. cbn [faults queries with_txn tick db now txn].
  rewrite F1, Hev.
  rewrite (proj2 (Z.ltb_ge _ _)) by lia. rewrite Hst. cbn [negb].
  unfold query at 1. cbn [faults queries with_txn with_db tick db now txn].
  rewrite F2. unfold EventService.update_event.
  rewrite bool_decide_eq_true_2 by (apply NoDup_singleton).
  cbn [negb foldl]. rewrite Hev. fold (decremented event q (now w)).
  assert (Hck' : EventService.checks (decremented event q (now w)) = true).
  { unfold EventService.checks in *. simpl.
    apply andb_prop in Hck as [Hck Hp]. apply andb_prop in Hck as [Ht _].
    rewrite Ht, Hp. rewrite (proj2 (Z.leb_le _ _)) by lia. done. }
  rewrite Hck'.
  match goal with
  | |- context [EventService.insert_tickets ?n ?i ?a ?b ?c ?w0] =>
      destruct (insert_tickets_ok a b c n i w0) as [w3 Hins]
  end.
  { intros k Hk. cbn [faults queries with_txn with_db tick db now txn].
    replace (S (S (S (queries w))) + k)%nat with (queries w + (3 + k))%nat by lia.
    apply Hf. lia. }
  { cbn [db with_db tick with_txn set_events events]. rewrite lookup_insert_eq. eauto. }
  { done. }
  { intros j Hj. apply Hlen. lia. }
  rewrite Hins.
  apply insert_tickets_spec in Hins as (Ht3 & Hf3 & Hn3 & Hok3).
  cbn [faults queries with_txn with_db tick db now txn] in Ht3, Hf3, Hn3, Hok3.
  destruct (Hok3 eq_refl) as [Hdb3 Hq3]. clear Hok3.
  unfold COMMIT. rewrite Hf3, Hq3.
  replace (S (S (S (queries w))) + Z.to_nat q)%nat
    with (queries w + (3 + Z.to_nat q))%nat by lia.
  rewrite Hf by lia.
  unfold EventService.getEventById, query.
  cbn [faults queries with_txn with_db tick db now txn].
  rewrite Hf3, Hq3.
  replace (S (S (S (S (queries w))) + Z.to_nat q))%nat
    with (queries w + (4 + Z.to_nat q))%nat by lia.
  rewrite Hf by lia.
  eexists. f_equal. f_equal.
  rewrite Hdb3. simpl. by rewrite lookup_insert_eq.
Qed.

(** What the service throws for the three business failures, when the
    first two statements ([BEGIN] and the locking [SELECT]) run. *)
Lemma purchase_refusal eventId q userId w :
  txn w = None ->
  faults w (queries w) = None ->
  faults w (S (queries w)) = None ->
  match events (db w) !! eventId with
  | None =>
      exists w', EventService.purchaseTickets eventId q userId w =
                 (Throw (Error "Event not found"), w') /\ db w' = db w
  | Some event =>
      if available_tickets event <? q
      then exists w', EventService.purchaseTickets eventId q userId w =
                      (Throw (EventService.not_enough (available_tickets event) q), w') /\
                      db w' = db w
      else if EventService.purchasable (e_status event) then True
      else exists w', EventService.purchaseTickets eventId q userId w =
                      (Throw (EventService.wrong_status (e_status event)), w') /\
                      db w' = db w
  end.
Proof.
  intros Htx F0 F1.
  destruct (events (db w) !! eventId) as [event|] eqn:Hev;
    [destruct (available_tickets event <? q) eqn:Hc;
      [|destruct (EventService.purchasable (e_status event)) eqn:Hs; [done|]]|];
    unfold EventService.purchaseTickets, try_catch, EventService.purchase_try,
      bind, BEGIN, throw, ret, ROLLBACK;
    rewrite F0; unfold query at 1; cbn [faults queries with_txn tick db now txn];
    rewrite F1, Hev, ?Hc, ?Hs; simpl; eauto.
Qed.

Lemma capacity_error_is_400 available requested :
  EventController.purchase_failure (EventService.not_enough available requested) =
  mkResponse 400
    (ErrorBody "Bad request"
       ("Not enough tickets available. Available: " +:+ show available +:+
        ", Requested: " +:+ show requested)).
Proof.
  unfold EventController.purchase_failure.
  destruct (not_enough_message available requested) as [-> ->].
  reflexivity.
Qed.

Lemma status_error_is_500 (s : EventStatus) :
  EventController.purchase_failure (EventService.wrong_status s) =
  mkResponse 500
    (ErrorBody "Internal server error"
       ("Cannot purchase tickets for " +:+ status_name s +:+ " event")).
Proof. by destruct s. Qed.

(** C3, on the code.  An authenticated purchase of one ticket for an event
    that is completed (and has tickets left) is answered 500 with the error
    label of an internal fault; the same request for a missing event is
    answered 404 and for an event with too few tickets 400. *)
Theorem purchase_of_completed_event_is_500 :
  let req (id : string) :=
    mkRequest None None id (Some (mkAuthPayload 7 "alice@example.com" RoleUser))
      (EventController.mkPurchaseTicketDto (Some 1)) Scenario.browser in
  let w (available : Z) (s : EventStatus) :=
    Scenario.world (Scenario.database available s) Scenario.no_faults 1000 in
  fst (EventController.purchaseTickets (req "1") (w 5 Completed)) =
    mkResponse 500
      (ErrorBody "Internal server error" "Cannot purchase tickets for completed event") /\
  fst (EventController.purchaseTickets (req "1") (w 5 Cancelled)) =
    mkResponse 500
      (ErrorBody "Internal server error" "Cannot purchase tickets for cancelled event") /\
  fst (EventController.purchaseTickets (req "2") (w 5 Upcoming)) =
    mkResponse 404 (ErrorBody "Not found" "Event not found") /\
  fst (EventController.purchaseTickets (req "1") (w 0 Upcoming)) =
    mkResponse 400
      (ErrorBody "Bad request" "Not enough tickets available. Available: 0, Requested: 1").
Proof. vm_compute. done. Qed.

(** C1, on the code.  The connection fails at the eighth statement of a
    purchase of three tickets, the reading of the event that follows
    [COMMIT]: the call throws, yet the three tickets are in the table and
    the inventory went from 5 to 2.  Through the route (two statements of
    the gate come first) the request is answered 500 and the purchase is
    kept all the same. *)
Theorem purchase_fault_after_commit_is_kept :
  let w := Scenario.world (Scenario.database 5 Upcoming) (Scenario.fault_at 7) 1000 in
  let r := EventService.purchaseTickets 1 3 7 w in
  let req :=
    Scenario.bearer Scenario.alice_token (EventController.mkPurchaseTicketDto (Some 3)) in
  let answer :=
    Routes.post_purchase (H := Scenario.libraries) req
      (Scenario.later Scenario.logged_in (Scenario.fault_at 9) 2000) in
  fst r = Throw Scenario.connection_lost /\
  available_tickets <$> events (db w) !! 1 = Some 5 /\
  available_tickets <$> events (db (snd r)) !! 1 = Some 2 /\
  tickets (db w) = [] /\
  length (tickets (db (snd r))) = 3%nat /\
  fst answer =
    mkResponse 500
      (ErrorBody "Internal server error" "Connection terminated unexpectedly") /\
  available_tickets <$> events (db (snd answer)) !! 1 = Some 2 /\
  length (tickets (db (snd answer))) = 3%nat.
Proof. vm_compute. done. Qed.

(** C4. A purchase of [q >= 1] units.  Whenever the call returns, the event
    existed with at least [q] tickets left and was upcoming or live; the
    value returned is the updated row of the event, whose
    [available_tickets] is lower by exactly [q]; the table of tickets has
    gained exactly [q] rows, each with quantity 1, the price of the event,
    the event and the purchaser; the users and the sessions are as they
    were; and the transaction is committed: none is left open, so that no
    [ROLLBACK] can take the purchase back.  And the call does return on
    such an event, for an existing user, when the store does not fail. *)
Theorem purchase_success eventId q userId w :
  txn w = None ->
  1 <= q ->
  (forall r w',
     EventService.purchaseTickets eventId q userId w = (Ok r, w') ->
     exists event updated new,
       events (db w) !! eventId = Some event /\
       q <= available_tickets event /\
       EventService.purchasable (e_status event) = true /\
       r = Some updated /\
       txn w' = None /\
       db (snd (ROLLBACK w')) = db w' /\
       users (db w') = users (db w) /\
       sessions (db w') = sessions (db w) /\
       events (db w') = <[eventId := updated]> (events (db w)) /\
       available_tickets updated = available_tickets event - q /\
       total_tickets updated = total_tickets event /\
       tickets (db w') = tickets (db w) ++ new /\
       Z.of_nat (length new) = q /\
       Forall (fun t => quantity t = 1 /\ purchase_price t = Some (price event) /\
                        t_event_id t = Some eventId /\ t_user_id t = Some userId) new) /\
  (forall event,
     events (db w) !! eventId = Some event ->
     q <= available_tickets event ->
     EventService.purchasable (e_status event) = true ->
     EventService.checks event = true ->
     EventService.user_exists userId (db w) = true ->
     (forall j, 0 <= j < q ->
        (String.length (EventService.ticket_title event j) <= 255)%nat) ->
     (forall k, (k < 5 + Z.to_nat q)%nat -> faults w (queries w + k)%nat = None) ->
     exists updated w',
       EventService.purchaseTickets eventId q userId w = (Ok (Some updated), w')).
Proof.
  intros Htx Hq1. split.
  - intros r w' Hrun.
    apply purchase_outcome in Hrun as (Htx' & _ & _ & Hcase); [|done].
    destruct Hcase as [(? & ? & _)|(event & Hev & Hq & Hst & Hdb & Hr)]; [done|].
    destruct Hr as [[= ->]|(? & ? & _)]; [|done].
    exists event, (decremented event q (now w)),
      (new_tickets eventId userId event (now w) 0 q).
    unfold ROLLBACK. rewrite Htx'. cbn [snd].
    rewrite Hdb. unfold purchased, new_tickets. simpl.
    repeat (split; [done|]). split.
    + rewrite length_map, length_seqZ. lia.
    + apply Forall_forall. intros t Ht.
      apply list_elem_of_In, in_map_iff in Ht as (j & <- & _). done.
  - intros event Hev Hq Hst Hck Hu Hlen Hf.
    destruct (purchase_try_ok eventId q userId w event) as [w' Htry]; try done.
    exists (decremented event q (now w)), w'.
    unfold EventService.purchaseTickets, try_catch. by rewrite Htry.
Qed.

Lemma purchase_success_witness :
  let w := Scenario.world (Scenario.database 5 Upcoming) Scenario.no_faults 1000 in
  (forall r w',
     EventService.purchaseTickets 1 3 7 w = (Ok r, w') ->
     exists event updated new,
       events (db w) !! 1 = Some event /\
       3 <= available_tickets event /\
       EventService.purchasable (e_status event) = true /\
       r = Some updated /\
       txn w' = None /\
       db (snd (ROLLBACK w')) = db w' /\
       users (db w') = users (db w) /\
       sessions (db w') = sessions (db w) /\
       events (db w') = <[1 := updated]> (events (db w)) /\
       available_tickets updated = available_tickets event - 3 /\
       total_tickets updated = total_tickets event /\
       tickets (db w') = tickets (db w) ++ new /\
       Z.of_nat (length new) = 3 /\
       Forall (fun t => quantity t = 1 /\ purchase_price t = Some (price event) /\
                        t_event_id t = Some 1 /\ t_user_id t = Some 7) new) /\
  (forall event,
     events (db w) !! 1 = Some event ->
     3 <= available_tickets event ->
     EventService.purchasable (e_status event) = true ->
     EventService.checks event = true ->
     EventService.user_exists 7 (db w) = true ->
     (forall j, 0 <= j < 3 ->
        (String.length (EventService.ticket_title event j) <= 255)%nat) ->
     (forall k, (k < 5 + Z.to_nat 3)%nat -> faults w (queries w + k)%nat = None) ->
     exists updated w',
       EventService.purchaseTickets 1 3 7 w = (Ok (Some updated), w')).
Proof.
  apply (purchase_success 1 3 7
           (Scenario.world (Scenario.database 5 Upcoming) Scenario.no_faults 1000)).
  - reflexivity.
  - lia.
Defined.

(** On the small installation the purchase of three tickets returns the
    event with two tickets left. *)
Lemma purchase_returns_on_scenario :
  fst (EventService.purchaseTickets 1 3 7
         (Scenario.world (Scenario.database 5 Upcoming) Scenario.no_faults 1000))
  = Ok (Some (decremented (Scenario.concert 5 Upcoming) 3 1000)).
Proof. vm_compute. reflexivity. Qed.

(** ** The session ledger *)

Lemma isTokenValid_run `{Libraries} token w :
  faults w (queries w) = None ->
  SessionService.isTokenValid token w =
  (Ok (honoured (now w)
         (head (List.filter (SessionService.has_hash (SessionService.hashToken token))
                  (sessions (db w))))),
   with_db (db w) (tick w)).
Proof.
  intros Hf. unfold SessionService.isTokenValid, SessionService.findSessionByToken, bind.
  rewrite query_run by done. cbn [fst snd].
  destruct (head _) as [s|]; [|done].
  unfold honoured. destruct (is_revoked s); [done|].
  unfold Date_now, ret. cbn [now with_db tick negb andb].
  by destruct (expires_at s <? now w).
Qed.

Lemma isTokenValid_fault `{Libraries} token w e :
  faults w (queries w) = Some e ->
  SessionService.isTokenValid token w = (Throw e, tick w).
Proof.
  intros Hf. unfold SessionService.isTokenValid, SessionService.findSessionByToken, bind.
  by rewrite query_fault with (e := e).
Qed.

Lemma head_filter_all_revoked h ss s :
  all_revoked h ss ->
  head (List.filter (SessionService.has_hash h) ss) = Some s ->
  is_revoked s = true.
Proof.
  intros Hall Hhd.
  assert (Hin : In s (List.filter (SessionService.has_hash h) ss)).
  { destruct (List.filter _ ss); simplify_eq/=. by left. }
  apply filter_In in Hin as [Hin Hh].
  unfold SessionService.has_hash in Hh. apply bool_decide_eq_true in Hh.
  unfold all_revoked in Hall. rewrite Forall_forall in Hall.
  apply Hall; [by apply list_elem_of_In|done].
Qed.

(** The ledger check fails for a token whose rows are all revoked, whatever
    their expiry. *)
Lemma all_revoked_not_honoured h ss t :
  all_revoked h ss ->
  honoured t (head (List.filter (SessionService.has_hash h) ss)) = false.
Proof.
  intros Hall. destruct (head _) as [s|] eqn:Hhd; [|done].
  unfold honoured. by rewrite (head_filter_all_revoked h ss s).
Qed.

Lemma update_where_revoke_all_revoked h t ss :
  all_revoked h
    (SessionService.update_where (SessionService.live_with_hash h)
       (SessionService.revoke_row t) ss).
Proof.
  unfold all_revoked, SessionService.update_where.
  apply Forall_forall. intros s Hs.
  apply list_elem_of_In, in_map_iff in Hs as (s0 & <- & _).
  unfold SessionService.live_with_hash, SessionService.has_hash.
  destruct (bool_decide (token_hash s0 = h)) eqn:Hh; simpl.
  - destruct (is_revoked s0) eqn:Hr; simpl; auto.
  - apply bool_decide_eq_false in Hh. done.
Qed.

(** An update that keeps the hash of each row and never clears
    [is_revoked] keeps the invariant. *)
Lemma update_where_all_revoked h cond f ss :
  (forall s, token_hash (f s) = token_hash s) ->
  (forall s, is_revoked s = true -> is_revoked (f s) = true) ->
  all_revoked h ss ->
  all_revoked h (SessionService.update_where cond f ss).
Proof.
  intros Hh Hr Hall. unfold all_revoked, SessionService.update_where in *.
  rewrite Forall_forall in *. intros s Hs.
  apply list_elem_of_In, in_map_iff in Hs as (s0 & <- & Hin).
  apply list_elem_of_In in Hin. specialize (Hall s0 Hin).
  destruct (cond s0); [|done].
  rewrite Hh. auto.
Qed.

Lemma filter_all_revoked h keep ss :
  all_revoked h ss -> all_revoked h (List.filter keep ss).
Proof.
  unfold all_revoked. rewrite !Forall_forall. intros Hall s Hs.
  apply list_elem_of_In, filter_In in Hs as [Hin _].
  apply Hall. by apply list_elem_of_In.
Qed.

Lemma ledger_step_all_revoked `{Libraries} h w w' :
  ledger_step h w w' ->
  all_revoked h (sessions (db w)) -> all_revoked h (sessions (db w')).
Proof.
  intros Hstep Hall. destruct Hstep as
    [data w r w' Hrun Hne|token w r w' Hrun|uid w r w' Hrun|token w r w' Hrun
    |w r w' Hrun|keep w w' Heq|w w' Heq].
  - unfold SessionService.createSession, query in Hrun.
    destruct (faults w (queries w)); [by simplify_eq|].
    destruct (SessionService.dto_expires_at data); [|by simplify_eq].
    destruct (negb (timestamp_fits _)); [by simplify_eq|].
    destruct (negb (SessionService.ip_fits _)); [by simplify_eq|].
    destruct (negb (SessionService.user_known _ _)); simplify_eq; [done|].
    simpl. unfold all_revoked in *. apply Forall_app. split; [done|].
    apply Forall_singleton. simpl. done.
  - unfold SessionService.revokeToken, bind, query, ret in Hrun.
    destruct (faults w (queries w)); simplify_eq; [done|]. simpl.
    apply update_where_all_revoked; auto.
  - unfold SessionService.revokeAllUserSessions, bind, query, ret in Hrun.
    destruct (faults w (queries w)); simplify_eq; [done|]. simpl.
    apply update_where_all_revoked; auto.
  - unfold SessionService.updateLastUsed, query in Hrun.
    destruct (faults w (queries w)); simplify_eq; [done|]. simpl.
    apply update_where_all_revoked; auto.
  - unfold SessionService.cleanupExpiredSessions, bind, query, ret in Hrun.
    destruct (faults w (queries w)); simplify_eq; [done|]. simpl.
    by apply filter_all_revoked.
  - rewrite Heq. by apply filter_all_revoked.
  - by rewrite Heq.
Qed.

Lemma ledger_steps_all_revoked `{Libraries} h w w' :
  rtc (ledger_step h) w w' ->
  all_revoked h (sessions (db w)) -> all_revoked h (sessions (db w')).
Proof.
  induction 1 as [|w1 w2 w3 Hstep _ IH]; [done|].
  intros Hall. apply IH. by apply (ledger_step_all_revoked h w1 w2).
Qed.

Lemma revokeToken_all_revoked `{Libraries} token w b w' :
  SessionService.revokeToken token w = (Ok b, w') ->
  all_revoked (SessionService.hashToken token) (sessions (db w')).
Proof.
  unfold SessionService.revokeToken, bind, query, ret.
  destruct (faults w (queries w)); [done|].
  intros [= _ <-]. simpl. apply update_where_revoke_all_revoked.
Qed.

Lemma no_live_row_after_revoke h t ss :
  List.filter (SessionService.live_with_hash h)
    (SessionService.update_where (SessionService.live_with_hash h)
       (SessionService.revoke_row t) ss) = [].
Proof.
  induction ss as [|s ss IH]; [done|].
  unfold SessionService.update_where in *. cbn [map List.filter].
  destruct (SessionService.live_with_hash h s) eqn:Hlive.
  - unfold SessionService.live_with_hash at 1. simpl. rewrite andb_false_r. exact IH.
  - rewrite Hlive. exact IH.
Qed.

(** Revoking is idempotent: a second [revokeToken] of the same token
    changes no row and returns [false]. *)
Lemma revoke_twice_returns_false `{Libraries} token w b w1 :
  SessionService.revokeToken token w = (Ok b, w1) ->
  faults w1 (queries w1) = None ->
  fst (SessionService.revokeToken token w1) = Ok false.
Proof.
  intros Hrev Hf. rewrite revokeToken_run by done. cbn [fst].
  unfold SessionService.revokeToken, bind, query, ret in Hrev.
  destruct (faults w (queries w)); [done|].
  injection Hrev as _ <-. cbn [db with_db set_sessions sessions].
  by rewrite no_live_row_after_revoke.
Qed.

(** ** The authentication gate *)

(** The gate on a request that carries a token: its whole decision. *)
Lemma authenticate_with_token `{Libraries} {B} (req : Request B) w header :
  authorization req = Some header ->
  truthy header = true ->
  truthy (Middleware.extract_token header) = true ->
  Middleware.authenticate req w =
  let token := Middleware.extract_token header in
  match jwt_verify token (now w) with
  | Throw error =>
      if bool_decide (name error = "TokenExpiredError")
      then (Respond (Middleware.unauthorized "Token expired"), w)
      else if bool_decide (name error = "JsonWebTokenError")
      then (Respond (Middleware.unauthorized "Invalid token"), w)
      else (Respond verification_failed, w)
  | Ok decoded =>
      match faults w (queries w) with
      | Some _ => (Respond verification_failed, tick w)
      | None =>
          if honoured (now w)
               (head (List.filter (SessionService.has_hash (SessionService.hashToken token))
                        (sessions (db w))))
          then
            match faults w (S (queries w)) with
            | Some _ => (Respond verification_failed, tick (tick w))
            | None =>
                (Next (Middleware.attach req (identity decoded)),
                 with_db (set_sessions
                            (SessionService.update_where
                               (SessionService.live_with_hash (SessionService.hashToken token))
                               (SessionService.touch_row (now w)) (sessions (db w)))
                            (db w))
                         (tick (tick w)))
            end
          else (Respond (Middleware.unauthorized "Token has been revoked"), tick w)
      end
  end.
Proof.
  intros Hh Hth Htt. cbv zeta.
  unfold Middleware.authenticate, Middleware.authenticate_try.
  rewrite Hh, Hth, Htt. cbn [negb].
  unfold bind at 1. unfold Date_now at 1.
  destruct (jwt_verify (Middleware.extract_token header) (now w)) as [decoded|error].
  - unfold bind.
    destruct (faults w (queries w)) as [e|] eqn:Hf.
    + by rewrite isTokenValid_fault with (e := e).
    + rewrite isTokenValid_run by done.
      destruct (honoured _ _); cbn [negb]; [|done].
      unfold SessionService.updateLastUsed, query, ret.
      cbn [faults queries with_db tick db now txn].
      by destruct (faults w (S (queries w))).
  - repeat case_bool_decide; done.
Qed.

(** A request without a usable header is answered 401 and nothing is
    read. *)
Lemma authenticate_without_token `{Libraries} {B} (req : Request B) w :
  match authorization req with
  | None => True
  | Some header => truthy header = false \/ truthy (Middleware.extract_token header) = false
  end ->
  exists msg, Middleware.authenticate req w = (Respond (Middleware.unauthorized msg), w).
Proof.
  unfold Middleware.authenticate, Middleware.authenticate_try.
  destruct (authorization req) as [header|]; [|by eexists].
  intros [Ht|Ht].
  - rewrite Ht. by eexists.
  - destruct (truthy header); [|by eexists]. rewrite Ht. by eexists.
Qed.

(** The gate lets a request through only if both checks pass: the token
    verifies and the ledger honours it. *)
Lemma gate_needs_both_checks `{Libraries} {B} (req req' : Request B) w :
  fst (Middleware.authenticate req w) = Next req' ->
  exists header decoded,
    authorization req = Some header /\
    jwt_verify (Middleware.extract_token header) (now w) = Ok decoded /\
    fst (SessionService.isTokenValid (Middleware.extract_token header) w) = Ok true.
Proof.
  intros Hnext.
  destruct (authorization req) as [header|] eqn:Hh; cycle 1.
  { destruct (authenticate_without_token req w) as [msg Hm]; [by rewrite Hh|].
    by rewrite Hm in Hnext. }
  destruct (truthy header) eqn:Hth; cycle 1.
  { destruct (authenticate_without_token req w) as [msg Hm]; [rewrite Hh; auto|].
    by rewrite Hm in Hnext. }
  destruct (truthy (Middleware.extract_token header)) eqn:Htt; cycle 1.
  { destruct (authenticate_without_token req w) as [msg Hm]; [rewrite Hh; auto|].
    by rewrite Hm in Hnext. }
  rewrite (authenticate_with_token req w header) in Hnext by done. cbv zeta in Hnext.
  exists header.
  destruct (jwt_verify _ _) as [decoded|error]; cycle 1.
  { repeat case_bool_decide; done. }
  exists decoded. split; [done|]. split; [done|].
  destruct (faults w (queries w)) eqn:Hf; [done|].
  rewrite isTokenValid_run by done.
  destruct (honoured _ _); [done|done].
Qed.

Lemma prefix_app (p s : string) : String.prefix p (p +:+ s) = true.
Proof.
  induction p as [|a p IH]; simpl; [by destruct s|].
  by destruct (ascii_dec a a).
Qed.

Lemma drop_app (p s : string) : drop (String.length p) (p +:+ s) = s.
Proof. induction p as [|a p IH]; simpl; done. Qed.

(** The header [Bearer <token>] presents [<token>]. *)
Lemma extract_bearer token :
  Middleware.extract_token ("Bearer " +:+ token) = token.
Proof.
  unfold Middleware.extract_token, startsWith.
  rewrite prefix_app. apply (drop_app "Bearer " token).
Qed.

(** Where the code does what C5 says.  After [revokeToken t] has run, and
    whatever happens to the ledger afterwards short of recording the very
    same token again, a request that presents [t] is never let through; it
    is answered 401 as soon as the gate itself works, that is when the token
    library throws none but its two named errors and the ledger can be read.
    The ledger check fails whatever the expiry of the rows. *)
Lemma revoked_token_is_rejected `{Libraries} {B} token w0 b w1 w
    (req : Request B) header :
  SessionService.revokeToken token w0 = (Ok b, w1) ->
  rtc (ledger_step (SessionService.hashToken token)) w1 w ->
  authorization req = Some header ->
  Middleware.extract_token header = token ->
  (forall req', fst (Middleware.authenticate req w) <> Next req') /\
  fst (SessionService.isTokenValid token w) <> Ok true /\
  (faults w (queries w) = None ->
   (forall error, jwt_verify token (now w) = Throw error ->
      name error = "TokenExpiredError" \/ name error = "JsonWebTokenError") ->
   exists msg, fst (Middleware.authenticate req w) = Respond (Middleware.unauthorized msg)).
Proof.
  intros Hrev Hsteps Hh Htok.
  assert (Hall : all_revoked (SessionService.hashToken token) (sessions (db w))).
  { eapply ledger_steps_all_revoked; [done|]. by eapply revokeToken_all_revoked. }
  assert (Hledger : fst (SessionService.isTokenValid token w) <> Ok true).
  { destruct (faults w (queries w)) as [e|] eqn:Hf.
    - by rewrite isTokenValid_fault with (e := e).
    - rewrite isTokenValid_run by done. simpl.
      by rewrite all_revoked_not_honoured. }
  split; [|split; [done|]].
  - intros req' Hnext.
    apply gate_needs_both_checks in Hnext as (header' & decoded & Hh' & _ & Hv).
    assert (header' = header) as -> by congruence.
    by rewrite Htok in Hv.
  - intros Hf Hjwt.
    destruct (truthy header) eqn:Hth; cycle 1.
    { destruct (authenticate_without_token req w) as [msg Hm]; [rewrite Hh; auto|].
      rewrite Hm. by exists msg. }
    destruct (truthy (Middleware.extract_token header)) eqn:Htt; cycle 1.
    { destruct (authenticate_without_token req w) as [msg Hm]; [rewrite Hh; auto|].
      rewrite Hm. by exists msg. }
    rewrite (authenticate_with_token req w header) by done. cbv zeta.
    rewrite Htok.
    destruct (jwt_verify token (now w)) as [decoded|error] eqn:Hv.
    + rewrite Hf, all_revoked_not_honoured by done. by eexists.
    + destruct (Hjwt error eq_refl) as [Hn|Hn]; rewrite Hn; simpl; by eexists.
Qed.

Lemma revoked_token_is_rejected_witness :
  let w1 := snd (SessionService.revokeToken (H := Scenario.libraries)
                   Scenario.alice_token Scenario.logged_in) in
  let w := Scenario.later w1 Scenario.no_faults 5000 in
  let req : Request unit := Scenario.bearer Scenario.alice_token tt in
  (forall req', fst (Middleware.authenticate (H := Scenario.libraries) req w) <> Next req') /\
  fst (SessionService.isTokenValid (H := Scenario.libraries) Scenario.alice_token w)
    <> Ok true /\
  (faults w (queries w) = None ->
   (forall error,
      jwt_verify (Libraries := Scenario.libraries) Scenario.alice_token (now w) = Throw error ->
      name error = "TokenExpiredError" \/ name error = "JsonWebTokenError") ->
   exists msg, fst (Middleware.authenticate (H := Scenario.libraries) req w)
               = Respond (Middleware.unauthorized msg)).
Proof.
  apply (revoked_token_is_rejected (H := Scenario.libraries) Scenario.alice_token
           Scenario.logged_in true
           (snd (SessionService.revokeToken (H := Scenario.libraries)
                   Scenario.alice_token Scenario.logged_in))
           (Scenario.later
              (snd (SessionService.revokeToken (H := Scenario.libraries)
                      Scenario.alice_token Scenario.logged_in))
              Scenario.no_faults 5000)
           (Scenario.bearer Scenario.alice_token tt)
           ("Bearer " +:+ Scenario.alice_token)).
  - vm_compute. reflexivity.
  - eapply rtc_l; [|apply rtc_refl]. apply step_elsewhere. reflexivity.
  - reflexivity.
  - vm_compute. reflexivity.
Defined.

(** C5, on the code.  Alice logs in, logs out, and logs in again within
    the same second: [jwt.sign] returns the token of the first login, and the
    ledger gets a second row for its hash, which is not revoked.  The gate
    then reads one row of that hash, whichever the server returns first:
    with the revoked row first the token is refused, with the rows the other
    way round it is let through.  And once the hourly sweep has removed the
    revoked row, thirty days later, the token that was revoked is let
    through whatever the order, for the sixty days it has left. *)
Theorem revoked_token_is_admitted_again :
  let token := "alice.jwt@1" in
  let hash := SessionService.hashToken (H := Scenario.ninety_days) token in
  let login := Routes.post_login (H := Scenario.ninety_days)
                 (Scenario.anonymous Scenario.alice_login) in
  let req : Request unit := Scenario.bearer token tt in
  let gate w := fst (Middleware.authenticate (H := Scenario.ninety_days) req w) in
  let admitted :=
    Next (Middleware.attach req (mkAuthPayload 7 "alice@example.com" RoleUser)) in
  let refused := Respond (Middleware.unauthorized "Token has been revoked") in
  let day := 86400000 in
  let w0 := Scenario.world (Scenario.database 5 Upcoming) Scenario.no_faults 1000 in
  let w1 := Scenario.later (snd (login w0)) Scenario.no_faults 1200 in
  let logout := Routes.post_logout (H := Scenario.ninety_days) req w1 in
  let w2 := Scenario.later (snd logout) Scenario.no_faults 1900 in
  let w3 := Scenario.later (snd (login w2)) Scenario.no_faults 2000 in
  let swapped := with_db (set_sessions (rev (sessions (db w3))) (db w3)) w3 in
  let sweep := SessionService.cleanupExpiredSessions
                 (Scenario.later w3 Scenario.no_faults (31 * day)) in
  let w4 := Scenario.later (snd sweep) Scenario.no_faults (31 * day + 1000) in
  json (fst (login w0)) =
    AuthBody "Login successful" (AuthService.public Scenario.alice) token /\
  gate w1 = admitted /\
  fst logout = mkResponse 200 (MessageBody "Logout successful") /\
  fst (SessionService.revokeToken (H := Scenario.ninety_days) token w1) = Ok true /\
  gate w2 = refused /\
  json (fst (login w2)) =
    AuthBody "Login successful" (AuthService.public Scenario.alice) token /\
  map (fun s => (token_hash s, is_revoked s)) (sessions (db w3)) =
    [(hash, true); (hash, false)] /\
  gate w3 = refused /\
  gate swapped = admitted /\
  fst sweep = Ok 1 /\
  map (fun s => (token_hash s, is_revoked s)) (sessions (db w4)) = [(hash, false)] /\
  gate w4 = admitted.
Proof. vm_compute. done. Qed.

Lemma truthy_true (s : string) : truthy s = true <-> s <> "".
Proof.
  unfold truthy. rewrite negb_true_iff, bool_decide_eq_false. done.
Qed.

Lemma extract_token_truthy header :
  Middleware.extract_token header <> "" -> truthy header = true.
Proof.
  intros Hne. apply truthy_true. intros ->. by apply Hne.
Qed.

(** C8, as the code has it.  The gate awaits the update of [last_used_at]
    inside its [try] block.  For a request whose token verifies and is
    honoured by the ledger: when the update fails, the gate answers 500 and
    the request does not reach its handler; when the update runs, the
    request proceeds with the identity attached. *)
Theorem touch_failure_is_answered_500 `{Libraries} {B} (req : Request B) w header decoded :
  authorization req = Some header ->
  Middleware.extract_token header <> "" ->
  jwt_verify (Middleware.extract_token header) (now w) = Ok decoded ->
  fst (SessionService.isTokenValid (Middleware.extract_token header) w) = Ok true ->
  match faults w (S (queries w)) with
  | Some _ => fst (Middleware.authenticate req w) = Respond verification_failed
  | None =>
      fst (Middleware.authenticate req w) = Next (Middleware.attach req (identity decoded))
  end.
Proof.
  intros Hh Hne Hv Hl.
  rewrite (authenticate_with_token req w header); try done; cycle 1.
  { by apply extract_token_truthy. }
  { by apply truthy_true. }
  cbv zeta. rewrite Hv.
  destruct (faults w (queries w)) as [e|] eqn:Hf.
  { by rewrite isTokenValid_fault with (e := e) in Hl. }
  rewrite isTokenValid_run in Hl by done. simpl in Hl.
  injection Hl as ->.
  by destruct (faults w (S (queries w))).
Qed.

Lemma touch_failure_is_answered_500_witness :
  let w := Scenario.later Scenario.logged_in (Scenario.fault_at 1) 2000 in
  let req : Request unit := Scenario.bearer Scenario.alice_token tt in
  match faults w (S (queries w)) with
  | Some _ =>
      fst (Middleware.authenticate (H := Scenario.libraries) req w)
      = Respond verification_failed
  | None =>
      fst (Middleware.authenticate (H := Scenario.libraries) req w)
      = Next (Middleware.attach req
                (identity (mkJwtPayload 7 "alice@example.com" RoleUser (Some 0) (Some 604800))))
  end.
Proof.
  apply (touch_failure_is_answered_500 (H := Scenario.libraries)
           (Scenario.bearer Scenario.alice_token tt)
           (Scenario.later Scenario.logged_in (Scenario.fault_at 1) 2000)
           ("Bearer " +:+ Scenario.alice_token)).
  - reflexivity.
  - vm_compute. discriminate.
  - vm_compute. reflexivity.
  - vm_compute. reflexivity.
Defined.

(** C8, as stated, fails: the same request on the same ledger is let
    through when the update of [last_used_at] runs and answered 500 when it
    fails. *)
Lemma touch_failure_changes_outcome :
  let req : Request unit := Scenario.bearer Scenario.alice_token tt in
  let identified :=
    Middleware.attach req (mkAuthPayload 7 "alice@example.com" RoleUser) in
  fst (Middleware.authenticate (H := Scenario.libraries) req
         (Scenario.later Scenario.logged_in Scenario.no_faults 2000))
  = Next identified /\
  fst (Middleware.authenticate (H := Scenario.libraries) req
         (Scenario.later Scenario.logged_in (Scenario.fault_at 1) 2000))
  = Respond verification_failed /\
  fst (Middleware.authenticate (H := Scenario.libraries) req
         (Scenario.later Scenario.logged_in (Scenario.fault_at 1) 2000))
  <> Next identified.
Proof. vm_compute. repeat split; congruence. Qed.

(** ** Inactive users *)

Lemma login_inactive `{Libraries} data dev w u rest :
  List.filter (Pg.has_email (AuthService.l_email data)) (users (db w)) = u :: rest ->
  u_is_active u = false ->
  exists e w',
    AuthService.login data dev w = (Throw e, w') /\ db w' = db w /\
    (faults w (queries w) = None -> e = Error "User account is inactive").
Proof.
  intros Hrows Hin. unfold AuthService.login, bind, query.
  destruct (faults w (queries w)) as [e|].
  - exists e, (tick w). done.
  - rewrite Hrows, Hin. simpl. eexists _, _. done.
Qed.

Lemma sanitized_is_valid email e :
  Validation.sanitized (Validation.validateAndSanitizeEmail email) = Some e ->
  Validation.validateAndSanitizeEmail email = Validation.mkValidity true (Some e) None.
Proof.
  unfold Validation.validateAndSanitizeEmail.
  destruct email as [v|]; [|done].
  repeat match goal with
  | |- context [if ?c then _ else _] => destruct c; [done|]
  end.
  simpl. by intros [= ->].
Qed.

(** The gate reads the ledger and the token only: the [users] table, and
    so [is_active], has no part in its decision. *)
Lemma gate_ignores_users `{Libraries} {B} (req : Request B) w (us : list User) :
  fst (Middleware.authenticate req (with_db (set_users us (db w)) w)) =
  fst (Middleware.authenticate req w).
Proof.
  destruct (authorization req) as [header|] eqn:Hh; cycle 1.
  { unfold Middleware.authenticate, Middleware.authenticate_try. by rewrite Hh. }
  destruct (truthy header) eqn:Hth; cycle 1.
  { unfold Middleware.authenticate, Middleware.authenticate_try. by rewrite Hh, Hth. }
  destruct (truthy (Middleware.extract_token header)) eqn:Htt; cycle 1.
  { unfold Middleware.authenticate, Middleware.authenticate_try. by rewrite Hh, Hth, Htt. }
  rewrite !(authenticate_with_token req _ header) by done. cbv zeta.
  cbn [faults queries with_db tick db now txn set_users sessions].
  destruct (jwt_verify _ _); [|by repeat case_bool_decide].
  destruct (faults w (queries w)); [done|].
  destruct (honoured _ _); [|done].
  by destruct (faults w (S (queries w))).
Qed.

(** C6, as the code has it.  A login for the email of a user whose
    [is_active] is false never answers 200 and records no session; it
    answers 401 "User account is inactive" when the request is well formed
    and the store answers.  The gate, for its part, does not read the
    [users] table: whether the user of a token is active makes no
    difference to it. *)
Theorem inactive_user_cannot_log_in `{Libraries}
    (req : Request AuthController.Credentials) w e u rest :
  Validation.sanitized
    (Validation.validateAndSanitizeEmail (AuthController.c_email (body req))) = Some e ->
  List.filter (Pg.has_email e) (users (db w)) = u :: rest ->
  u_is_active u = false ->
  status (fst (Routes.post_login req w)) <> 200 /\
  db (snd (Routes.post_login req w)) = db w /\
  (forall password,
     AuthController.c_password (body req) = Some password ->
     Validation.trim password <> "" ->
     faults w (queries w) = None ->
     fst (Routes.post_login req w) =
     mkResponse 401 (ErrorBody "Unauthorized" "User account is inactive")) /\
  (forall B (req' : Request B) (us : list User),
     fst (Middleware.authenticate req' (with_db (set_users us (db w)) w)) =
     fst (Middleware.authenticate req' w)).
Proof.
  intros Hs Hrows Hin.
  apply sanitized_is_valid in Hs.
  assert (Hrun : forall password,
    exists err w',
      AuthService.login (AuthService.mkLoginDto e password) (AuthController.device req) w
      = (Throw err, w') /\ db w' = db w /\
      (faults w (queries w) = None -> err = Error "User account is inactive")).
  { intros password. by eapply login_inactive. }
  unfold Routes.post_login. cbn [Routes.route]. unfold AuthController.login.
  rewrite Hs. cbn [Validation.valid Validation.sanitized negb default]. unfold id.
  split; [|split; [|split]].
  - destruct (AuthController.c_password (body req)) as [password|]; [|done].
    destruct (negb (truthy password) || _); [done|].
    destruct (Hrun password) as (err & w' & -> & _). simpl.
    by destruct (includes (message err) "Invalid" || includes (message err) "inactive").
  - destruct (AuthController.c_password (body req)) as [password|]; [|done].
    destruct (negb (truthy password) || _); [done|].
    by destruct (Hrun password) as (err & w' & -> & ? & _).
  - intros password -> Htrim Hf.
    assert (Hp : truthy password = true).
    { apply truthy_true. intros ->. by apply Htrim. }
    assert (Hl : (String.length (Validation.trim password) =? 0)%nat = false).
    { apply Nat.eqb_neq. destruct (Validation.trim password); [done|simpl; lia]. }
    rewrite Hp, Hl. simpl.
    destruct (Hrun password) as (err & w' & -> & _ & Herr).
    by rewrite (Herr Hf).
  - intros B req' us. apply gate_ignores_users.
Qed.

Lemma inactive_user_cannot_log_in_witness :
  let w := Scenario.later
             (snd (UserService.updateUser (H := Scenario.libraries) 7 Scenario.deactivate
                     Scenario.logged_in))
             Scenario.no_faults 3000 in
  let req := Scenario.anonymous Scenario.alice_login in
  status (fst (Routes.post_login (H := Scenario.libraries) req w)) <> 200 /\
  db (snd (Routes.post_login (H := Scenario.libraries) req w)) = db w /\
  (forall password,
     AuthController.c_password (body req) = Some password ->
     Validation.trim password <> "" ->
     faults w (queries w) = None ->
     fst (Routes.post_login (H := Scenario.libraries) req w) =
     mkResponse 401 (ErrorBody "Unauthorized" "User account is inactive")) /\
  (forall B (req' : Request B) (us : list User),
     fst (Middleware.authenticate (H := Scenario.libraries) req'
            (with_db (set_users us (db w)) w)) =
     fst (Middleware.authenticate (H := Scenario.libraries) req' w)).
Proof.
  apply (inactive_user_cannot_log_in (H := Scenario.libraries)
           (Scenario.anonymous Scenario.alice_login)
           (Scenario.later
              (snd (UserService.updateUser (H := Scenario.libraries) 7 Scenario.deactivate
                      Scenario.logged_in))
              Scenario.no_faults 3000)
           "alice@example.com"
           (mkUser 7 "alice@example.com" "bcrypt(Password123)" (Some "Alice")
              (Some "Liddell") RoleUser false 0 1000)
           []).
  - vm_compute. reflexivity.
  - vm_compute. reflexivity.
  - reflexivity.
Defined.

(** C6, as stated, fails: Alice logs in, an administrator sets her
    [is_active] to false, and a request that bears her token is still let
    through the gate. *)
Lemma deactivated_user_token_passes_gate :
  let w := Scenario.later
             (snd (UserService.updateUser (H := Scenario.libraries) 7 Scenario.deactivate
                     Scenario.logged_in))
             Scenario.no_faults 3000 in
  let req : Request unit := Scenario.bearer Scenario.alice_token tt in
  map (fun u => (u_id u, u_is_active u)) (users (db w)) = [(7, false)] /\
  fst (Middleware.authenticate (H := Scenario.libraries) req w) =
  Next (Middleware.attach req (mkAuthPayload 7 "alice@example.com" RoleUser)).
Proof. vm_compute. done. Qed.

(** ** The inventory invariant *)

Lemma assign_neutral a e :
  neutral a ->
  total_tickets (EventService.assign a e) = total_tickets e /\
  available_tickets (EventService.assign a e) = available_tickets e.
Proof. by destruct a. Qed.

Lemma foldl_neutral l : forall e,
  Forall neutral l ->
  total_tickets (foldl (fun e a => EventService.assign a e) e l) = total_tickets e /\
  available_tickets (foldl (fun e a => EventService.assign a e) e l) = available_tickets e.
Proof.
  induction l as [|a l IH]; intros e Hall; [done|].
  inversion Hall as [|? ? Ha Hl]; subst. simpl.
  destruct (IH (EventService.assign a e) Hl) as [-> ->].
  by apply assign_neutral.
Qed.

Lemma pushed_neutral {A} (f : A -> EventService.Assignment) (v : option A) :
  (forall a, neutral (f a)) -> Forall neutral (EventService.pushed f v).
Proof. intros Hf. destruct v; simpl; auto. Qed.

Lemma checks_nonneg e :
  EventService.checks e = true -> 0 <= total_tickets e /\ 0 <= available_tickets e.
Proof.
  unfold EventService.checks. intros Hc.
  apply andb_prop in Hc as [Hc _]. apply andb_prop in Hc as [Ht Ha].
  split; by apply Z.leb_le.
Qed.

(** The [UPDATE] of an event keeps the invariant when the new counts of the
    row do. *)
Lemma update_event_inventory (P : Event -> Prop) id updates d t :
  (forall e, events d !! id = Some e -> P e ->
     EventService.checks
       (EventService.touch t (foldl (fun e a => EventService.assign a e) e updates)) = true ->
     P (EventService.touch t (foldl (fun e a => EventService.assign a e) e updates))) ->
  map_Forall (fun _ e => P e) (events d) ->
  map_Forall (fun _ e => P e) (events (snd (EventService.update_event id updates d t))).
Proof.
  intros Hrow Hinv. unfold EventService.update_event.
  destruct (negb _); [done|].
  destruct (events d !! id) as [e|] eqn:He; [|done].
  destruct (EventService.checks _) eqn:Hc; [|done].
  simpl. apply map_Forall_insert_2; [|done].
  apply Hrow; [done| |done]. by apply (Hinv id e).
Qed.

Lemma query_inventory {A} (P : Db -> Prop) (run : Db -> Z -> Result A * Db) w :
  (forall t, P (db w) -> P (snd (run (db w) t))) ->
  P (db w) -> P (db (snd (query run w))).
Proof.
  intros Hrun Hinv. unfold query.
  destruct (faults w (queries w)); [done|].
  specialize (Hrun (now w) Hinv). by destruct (run (db w) (now w)).
Qed.

(** What the [INSERT] of an event does: refused, it leaves every row as it
    was and takes one id at most; accepted, it adds one row, under the next
    id, which no row had. *)
Lemma insert_event_outcome data createdBy d t r d' :
  EventService.insert_event data createdBy d t = (r, d') ->
  users d' = users d /\ users_seq d' = users_seq d /\
  tickets d' = tickets d /\ sessions d' = sessions d /\
  match r with
  | Throw _ =>
      events d' = events d /\
      (events_seq d' = events_seq d \/ events_seq d' = events_seq d + 1)
  | Ok row =>
      events d !! (events_seq d + 1) = None /\
      events d' = <[events_seq d + 1 := row]> (events d) /\
      events_seq d' = events_seq d + 1 /\
      e_id row = events_seq d + 1 /\
      Pg.varchar 255 (EventService.c_title data) = Some (e_title row) /\
      total_tickets row = EventService.c_total_tickets data /\
      available_tickets row = EventService.c_total_tickets data /\
      price row = EventService.c_price data /\
      e_status row = default Upcoming (EventService.c_status data) /\
      e_created_by row = EventService.id_or_null createdBy /\
      EventService.creator_known (EventService.id_or_null createdBy) d = true /\
      EventService.checks row = true
  end.
Proof.
  unfold EventService.insert_event.
  destruct (Pg.varchar 255 _) as [title|]; [|intros [= <- <-]; cbn; auto 10].
  destruct (EventService.varchar_opt 255 _) as [venue|]; [|intros [= <- <-]; cbn; auto 10].
  destruct (EventService.varchar_opt 500 _) as [image|]; [|intros [= <- <-]; cbn; auto 10].
  destruct (negb (EventService.int4 _)); [intros [= <- <-]; cbn; auto 10|].
  destruct (negb (EventService.decimal_10_2 _)); [intros [= <- <-]; cbn; auto 10|].
  destruct (EventService.c_event_date data) as [date|]; [|intros [= <- <-]; cbn; auto 10].
  destruct (negb (timestamp_fits date)); [intros [= <- <-]; cbn; auto 10|].
  cbv zeta.
  destruct (EventService.checks _) eqn:Hc; cbn [negb]; [|intros [= <- <-]; cbn; auto 10].
  case_bool_decide as Hkey; [intros [= <- <-]; cbn; auto 10|].
  destruct (EventService.creator_known _ d) eqn:Hk; cbn [negb];
    [|intros [= <- <-]; cbn; auto 10].
  intros [= <- <-]. cbn.
  rewrite <- eq_None_not_Some in Hkey. repeat (split; [done|]). done.
Qed.

Lemma createEvent_inventory data createdBy w :
  inventory_ok (db w) ->
  inventory_ok (db (snd (EventService.createEvent data createdBy w))).
Proof.
  intros Hinv. unfold EventService.createEvent.
  apply (query_inventory inventory_ok); [|done].
  intros t _.
  destruct (EventService.insert_event data createdBy (db w) t) as [[row|e] d'] eqn:Hrun;
    apply insert_event_outcome in Hrun as (_ & _ & _ & _ & Hcase); cbn [snd].
  - destruct Hcase as (_ & Hev & _ & _ & _ & Ht & Ha & _ & _ & _ & _ & Hc).
    apply checks_nonneg in Hc as [Htot _].
    unfold inventory_ok. rewrite Hev. apply map_Forall_insert_2; [lia|done].
  - destruct Hcase as [Hev _]. unfold inventory_ok. by rewrite Hev.
Qed.

Lemma purchase_inventory eventId q userId w :
  txn w = None -> 0 <= q ->
  inventory_ok (db w) ->
  inventory_ok (db (snd (EventService.purchaseTickets eventId q userId w))).
Proof.
  intros Htx Hq Hinv.
  destruct (EventService.purchaseTickets eventId q userId w) as [r w'] eqn:Hrun.
  apply purchase_outcome in Hrun as (_ & _ & _ & Hcase); [|done].
  destruct Hcase as [(e & _ & Hdb)|(event & Hev & Hle & _ & Hdb & _)];
    cbn [snd]; rewrite Hdb; [done|].
  unfold inventory_ok, purchased. simpl.
  apply map_Forall_insert_2; [|done].
  specialize (Hinv eventId event Hev). simpl in *. lia.
Qed.

Lemma controller_purchase_inventory req w :
  txn w = None ->
  inventory_ok (db w) ->
  inventory_ok (db (snd (EventController.purchaseTickets req w))).
Proof.
  intros Htx Hinv. unfold EventController.purchaseTickets.
  destruct (userId <$> user req) as [uid|]; [|done].
  destruct (uid =? 0); [done|].
  destruct (parseInt (param req)) as [eventId|]; [|done].
  destruct (EventController.p_quantity (body req)) as [q|]; [|done].
  destruct (q <? 1) eqn:Hq; [done|].
  apply Z.ltb_ge in Hq.
  pose proof (purchase_inventory eventId q uid w Htx ltac:(lia) Hinv) as Hp.
  by destruct (EventService.purchaseTickets eventId q uid w) as [[ev|e] w'].
Qed.

Lemma leading_neutral data : Forall neutral (leading data).
Proof. unfold leading. repeat (apply Forall_app; split); by apply pushed_neutral. Qed.

Lemma trailing_neutral data : Forall neutral (trailing data).
Proof. unfold trailing. repeat (apply Forall_app; split); by apply pushed_neutral. Qed.

(** The counts of a row after the assignments of an update that does not
    give [available_tickets]. *)
Lemma updates_of_counts data e :
  EventService.up_available_tickets data = None ->
  let e' := foldl (fun e a => EventService.assign a e) e (updates_of data (Some e)) in
  match EventService.up_total_tickets data with
  | Some newTotal =>
      total_tickets e' = newTotal /\
      available_tickets e' = Z.max 0 (available_tickets e + (newTotal - total_tickets e))
  | None =>
      total_tickets e' = total_tickets e /\ available_tickets e' = available_tickets e
  end.
Proof.
  intros Hav. cbv zeta. unfold updates_of. rewrite Hav. cbn [EventService.pushed app].
  rewrite !foldl_app.
  destruct (foldl_neutral (leading data) e (leading_neutral data)) as [Ht1 Ha1].
  unfold adjustment.
  destruct (EventService.up_total_tickets data) as [newTotal|]; cbn [foldl].
  - match goal with
    | |- context [foldl ?f ?e2 (trailing data)] =>
        destruct (foldl_neutral (trailing data) e2 (trailing_neutral data)) as [-> ->]
    end.
    done.
  - match goal with
    | |- context [foldl ?f ?e2 (trailing data)] =>
        destruct (foldl_neutral (trailing data) e2 (trailing_neutral data)) as [-> ->]
    end.
    by rewrite Ht1, Ha1.
Qed.

(** A statement that is bound is refused and changes nothing, or is the
    statement itself. *)
Lemma update_bound_cases id updates d t :
  (exists e, EventService.update_bound id updates d t = (Throw e, d)) \/
  (forallb EventService.fits updates = true /\
   EventService.update_bound id updates d t = EventService.update_event id updates d t).
Proof.
  unfold EventService.update_bound.
  destruct (negb (bool_decide _)); [left; eauto|].
  destruct (forallb EventService.fits updates); cbn [negb]; [right; done|left; eauto].
Qed.

Ltac statement_is_bound :=
  match goal with
  | |- context [EventService.update_bound ?i ?u ?d ?t] =>
      destruct (update_bound_cases i u d t) as [[? ->]|[_ ->]]
  end.

(** [updateEvent] leaves the database as it was or runs one [UPDATE]. *)
Lemma updateEvent_run id data w r w' :
  EventService.updateEvent id data w = (r, w') ->
  db w' = db w \/
  exists t,
    db w' =
    snd (EventService.update_event id (updates_of data (events (db w) !! id)) (db w) t).
Proof.
  unfold EventService.updateEvent, updates_of, leading, trailing, adjustment, bind,
    EventService.getEventById, query, ret, throw.
  destruct (EventService.up_total_tickets data) as [newTotal|].
  - destruct (faults w (queries w)); [intros [= <- <-]; by left|].
    destruct (events (db w) !! id) as [currentEvent|] eqn:Hev;
      [|intros [= <- <-]; by left].
    match goal with |- context [(length ?l =? 0)%nat] => destruct (length l =? 0)%nat end;
      cbn [faults queries with_db tick db now txn];
      (destruct (faults w (S (queries w))); [intros [= <- <-]; by left|]).
    + intros [= <- <-]. by left.
    + match goal with
      | |- context [EventService.update_bound ?i ?u ?d ?t] =>
          destruct (update_bound_cases i u d t) as [[e ->]|[_ ->]]
      end; [intros [= <- <-]; by left|].
      destruct (EventService.update_event _ _ _ _) as [r0 d] eqn:Hup.
      intros [= <- <-]. right. exists (now w). by rewrite Hup.
  - rewrite app_nil_r.
    match goal with |- context [(length ?l =? 0)%nat] => destruct (length l =? 0)%nat end;
      (destruct (faults w (queries w)); [intros [= <- <-]; by left|]).
    + intros [= <- <-]. by left.
    + match goal with
      | |- context [EventService.update_bound ?i ?u ?d ?t] =>
          destruct (update_bound_cases i u d t) as [[e ->]|[_ ->]]
      end; [intros [= <- <-]; left; by destruct w|].
      destruct (EventService.update_event _ _ _ _) as [r0 d] eqn:Hup.
      intros [= <- <-]. right. exists (now w).
      destruct (events (db w) !! id); by rewrite Hup.
Qed.

Lemma updateEvent_db id data w :
  db (snd (EventService.updateEvent id data w)) = db w \/
  exists t,
    db (snd (EventService.updateEvent id data w)) =
    snd (EventService.update_event id (updates_of data (events (db w) !! id)) (db w) t).
Proof.
  destruct (EventService.updateEvent id data w) as [r w'] eqn:Hrun.
  by apply updateEvent_run in Hrun.
Qed.

Lemma updateEvent_inventory id data w :
  EventService.up_available_tickets data = None ->
  inventory_ok (db w) ->
  inventory_ok (db (snd (EventService.updateEvent id data w))).
Proof.
  intros Hav Hinv.
  destruct (updateEvent_db id data w) as [->|[t ->]]; [done|].
  apply (update_event_inventory
           (fun e => 0 <= available_tickets e <= total_tickets e)); [|done].
  intros e He Hok Hck. apply checks_nonneg in Hck as [Ht _]. revert Ht.
  rewrite He. pose proof (updates_of_counts data e Hav) as Hc. cbv zeta in Hc.
  cbn [EventService.touch total_tickets available_tickets].
  destruct (EventService.up_total_tickets data); destruct Hc as [-> ->]; lia.
Qed.

(** Whatever the update, the counts stay non-negative: this is all the
    [CHECK] constraints ask. *)
Lemma updateEvent_nonneg id data w :
  inventory_nonneg (db w) ->
  inventory_nonneg (db (snd (EventService.updateEvent id data w))).
Proof.
  intros Hinv.
  destruct (updateEvent_db id data w) as [->|[t ->]]; [done|].
  apply (update_event_inventory
           (fun e => 0 <= available_tickets e /\ 0 <= total_tickets e)); [|done].
  intros e _ _ Hck. apply checks_nonneg in Hck. tauto.
Qed.

(** C7, as the code has it.  From a database that satisfies
    [0 <= available_tickets <= total_tickets] on every event, the invariant
    still holds after the creation of an event, after a purchase (through
    the controller, or through the service with a quantity that is not
    negative), and after an update that does not give [available_tickets],
    among them the updates that change [total_tickets].  After an update
    that gives [available_tickets] the counts are known to be non-negative
    only. *)
Theorem inventory_invariant_preserved w :
  txn w = None ->
  inventory_ok (db w) ->
  (forall data createdBy,
     inventory_ok (db (snd (EventService.createEvent data createdBy w)))) /\
  (forall req, inventory_ok (db (snd (EventController.purchaseTickets req w)))) /\
  (forall eventId q userId, 0 <= q ->
     inventory_ok (db (snd (EventService.purchaseTickets eventId q userId w)))) /\
  (forall id data, EventService.up_available_tickets data = None ->
     inventory_ok (db (snd (EventService.updateEvent id data w)))) /\
  (forall id data, inventory_nonneg (db (snd (EventService.updateEvent id data w)))).
Proof.
  intros Htx Hinv. split; [|split; [|split; [|split]]].
  - intros. by apply createEvent_inventory.
  - intros. by apply controller_purchase_inventory.
  - intros. by apply purchase_inventory.
  - intros. by apply updateEvent_inventory.
  - intros. apply updateEvent_nonneg.
    intros k e He. specialize (Hinv k e He). simpl in *. lia.
Qed.

Lemma inventory_invariant_preserved_witness :
  let w := Scenario.world (Scenario.database 5 Upcoming) Scenario.no_faults 1000 in
  (forall data createdBy,
     inventory_ok (db (snd (EventService.createEvent data createdBy w)))) /\
  (forall req, inventory_ok (db (snd (EventController.purchaseTickets req w)))) /\
  (forall eventId q userId, 0 <= q ->
     inventory_ok (db (snd (EventService.purchaseTickets eventId q userId w)))) /\
  (forall id data, EventService.up_available_tickets data = None ->
     inventory_ok (db (snd (EventService.updateEvent id data w)))) /\
  (forall id data, inventory_nonneg (db (snd (EventService.updateEvent id data w)))).
Proof.
  apply (inventory_invariant_preserved
           (Scenario.world (Scenario.database 5 Upcoming) Scenario.no_faults 1000)).
  - reflexivity.
  - apply map_Forall_singleton. simpl. lia.
Defined.

(** C7, as stated, fails: an update that gives [available_tickets] stores
    the value as it is.  On an event with 5 tickets in all, an update to 10
    available tickets is accepted and leaves [available_tickets] above
    [total_tickets]. *)
Lemma direct_available_breaks_invariant :
  let w := Scenario.world (Scenario.database 5 Upcoming) Scenario.no_faults 1000 in
  let data :=
    EventService.mkUpdateEventDto None None None None None (Some 10) None None None in
  inventory_ok (db w) /\
  (available_tickets <$> events (db (snd (EventService.updateEvent 1 data w))) !! 1,
   total_tickets <$> events (db (snd (EventService.updateEvent 1 data w))) !! 1)
  = (Some 10, Some 5) /\
  ~ inventory_ok (db (snd (EventService.updateEvent 1 data w))).
Proof.
  cbv zeta. split; [|split].
  - apply map_Forall_singleton. simpl. lia.
  - vm_compute. reflexivity.
  - intros Hbad. pose proof (Hbad 1) as H1. vm_compute in H1.
    destruct (H1 _ eq_refl) as [_ H2]. by apply H2.
Qed.

(** ** Concurrent purchases: the invariant of the runs *)

Lemma sold_app eid l1 l2 : sold eid (l1 ++ l2) = sold eid l1 + sold eid l2.
Proof. induction l1 as [|c l1 IH]; simpl; [done|]. rewrite IH. lia. Qed.

Lemma sold_nonneg eid cs :
  Forall (fun c => 0 <= units (request c)) cs -> 0 <= sold eid cs.
Proof.
  induction 1 as [|c cs Hc _ IH]; simpl; [done|].
  destruct (stage c); try lia. case_bool_decide; lia.
Qed.

Lemma sold_initial eid cs : initial cs -> sold eid cs = 0.
Proof.
  induction 1 as [|c cs [Hc _] _ IH]; simpl; [done|]. by rewrite Hc, IH.
Qed.

Lemma locked_rows_middle l1 c l2 :
  locked_rows (l1 ++ c :: l2) =
  locked_rows l1 ++ option_list (holds c) ++ locked_rows l2.
Proof.
  unfold locked_rows. rewrite omap_app. simpl. by destruct (holds c).
Qed.

Lemma locked_rows_initial cs : initial cs -> locked_rows cs = [].
Proof.
  induction 1 as [|c cs [Hc _] _ IH]; [done|].
  unfold locked_rows in *. simpl. unfold holds at 1. by rewrite Hc.
Qed.

Lemma invariant_initial d0 cs : initial cs -> invariant d0 (mkSystem d0 cs).
Proof.
  intros Hinit. split; simpl.
  - rewrite locked_rows_initial by done. constructor.
  - eapply Forall_impl; [exact Hinit|]. intros c [Hc Hq].
    unfold call_ok. rewrite Hc. split; [lia|done].
  - intros eid ev0 Hev. exists ev0. rewrite sold_initial by done.
    split; [done|]. split; [lia|done].
  - intros eid. rewrite sold_initial by done. lia.
Qed.

(** A call changes stage without touching the database, the lock it holds
    (if any) being kept or released, and without succeeding. *)
Lemma invariant_local d0 d l1 l2 p s s' :
  invariant d0 (mkSystem d (l1 ++ mkCall p s :: l2)) ->
  s <> Succeeded -> s' <> Succeeded ->
  (holds (mkCall p s') = holds (mkCall p s) \/ holds (mkCall p s') = None) ->
  (call_ok d (mkCall p s) -> call_ok d (mkCall p s')) ->
  invariant d0 (mkSystem d (l1 ++ mkCall p s' :: l2)).
Proof.
  intros [Hl Hc He Ht] Hs Hs' Hholds Hok. simpl in *.
  assert (Hsold : forall eid,
    sold eid (l1 ++ mkCall p s' :: l2) = sold eid (l1 ++ mkCall p s :: l2)).
  { intros eid. rewrite !sold_app. simpl. by destruct s, s'. }
  split; simpl.
  - rewrite locked_rows_middle in *. destruct Hholds as [->| ->]; [done|].
    simpl. apply NoDup_app in Hl as (H1 & H2 & H3).
    apply NoDup_app in H3 as (_ & _ & H3).
    apply NoDup_app. split; [done|]. split; [|done].
    intros x Hx1 Hx2. apply (H2 x Hx1). apply elem_of_app. by right.
  - apply Forall_app in Hc as [H1 H2]. apply Forall_cons in H2 as [H2 H3].
    apply Forall_app. split; [done|]. apply Forall_cons. auto.
  - intros eid ev0 Hev. rewrite Hsold. by apply He.
  - intros eid. rewrite Hsold. by apply Ht.
Qed.

Lemma invariant_select d0 d l1 l2 p event :
  invariant d0 (mkSystem d (l1 ++ mkCall p Waiting :: l2)) ->
  events d !! on_event p = Some event ->
  on_event p ∉ locked_rows (l1 ++ l2) ->
  invariant d0 (mkSystem d (l1 ++ mkCall p (Locked event) :: l2)).
Proof.
  intros [Hl Hc He Ht] Hev Hfree. simpl in *.
  assert (Hsold : forall eid,
    sold eid (l1 ++ mkCall p (Locked event) :: l2) = sold eid (l1 ++ mkCall p Waiting :: l2)).
  { intros eid. by rewrite !sold_app. }
  split; simpl.
  - rewrite locked_rows_middle in *. simpl in *.
    unfold locked_rows in Hfree. rewrite omap_app in Hfree.
    apply NoDup_app in Hl as (H1 & H2 & H3).
    apply not_elem_of_app in Hfree as [Hf1 Hf2].
    apply NoDup_app. split; [done|]. split.
    + intros x Hx1 Hx2. apply elem_of_cons in Hx2 as [->|Hx2]; [done|].
      by apply (H2 x).
    + by apply NoDup_cons.
  - apply Forall_app in Hc as [H1 H2]. apply Forall_cons in H2 as [[Hq _] H3].
    apply Forall_app. split; [done|]. apply Forall_cons. split; [|done].
    by split.
  - intros eid ev0 Hev0. rewrite Hsold. by apply He.
  - intros eid. rewrite Hsold. by apply Ht.
Qed.

Lemma filter_map_all {A B} (f : B -> bool) (g : A -> B) (b : bool) (l : list A) :
  (forall x, f (g x) = b) ->
  List.filter f (map g l) = if b then map g l else [].
Proof.
  intros Hf. induction l as [|x l IH]; simpl; [by destruct b|].
  rewrite Hf, IH. by destruct b.
Qed.

Lemma ticket_rows_committed eid p event t d :
  0 <= units p ->
  ticket_rows eid (committed p event t d) =
  ticket_rows eid d + (if bool_decide (on_event p = eid) then units p else 0).
Proof.
  intros Hq. unfold ticket_rows, committed. simpl.
  rewrite List.filter_app, length_app, Nat2Z.inj_add. f_equal.
  rewrite (filter_map_all _ _ (bool_decide (on_event p = eid))).
  - case_bool_decide; [|done]. rewrite length_map, length_seqZ. lia.
  - intros j. simpl. apply bool_decide_ext. split; congruence.
Qed.

Lemma events_committed_eq p event t d :
  events d !! on_event p = Some event ->
  events (committed p event t d) !! on_event p =
  Some (decremented event (units p) t).
Proof.
  intros Hev. unfold committed. simpl. rewrite lookup_alter_eq, Hev. done.
Qed.

Lemma events_committed_ne eid p event t d :
  on_event p <> eid ->
  events (committed p event t d) !! eid = events d !! eid.
Proof.
  intros Hne. unfold committed. simpl. by rewrite lookup_alter_ne.
Qed.

(** For a row that one call has read and locked, the database after its
    [COMMIT] is the database that a purchase alone produces. *)
Lemma committed_purchased p event t d :
  events d !! on_event p = Some event ->
  committed p event t d = purchased (on_event p) (units p) (buyer p) event t d.
Proof.
  intros Hev. unfold committed, purchased, new_tickets, decremented.
  f_equal. f_equal. apply map_eq. intros k.
  destruct (decide (on_event p = k)) as [<-|Hne].
  - by rewrite lookup_alter_eq, lookup_insert_eq, Hev.
  - by rewrite lookup_alter_ne, lookup_insert_ne.
Qed.

Lemma invariant_commit d0 d l1 l2 p event t :
  invariant d0 (mkSystem d (l1 ++ mkCall p (Written event) :: l2)) ->
  invariant d0 (mkSystem (committed p event t d) (l1 ++ mkCall p Succeeded :: l2)).
Proof.
  intros [Hl Hc He Ht]. simpl in *.
  assert (Hmine : call_ok d (mkCall p (Written event))).
  { apply Forall_app in Hc as [_ H2]. by apply Forall_cons in H2 as [H2 _]. }
  destruct Hmine as (Hq & Hev & Hcap). simpl in *.
  assert (Hsold : forall eid,
    sold eid (l1 ++ mkCall p Succeeded :: l2) =
    sold eid (l1 ++ mkCall p (Written event) :: l2) +
    (if bool_decide (on_event p = eid) then units p else 0)).
  { intros eid. rewrite !sold_app. simpl. lia. }
  rewrite locked_rows_middle in Hl. simpl in Hl.
  apply NoDup_app in Hl as (H1 & H2 & H3).
  apply NoDup_cons in H3 as [H3 H4].
  split; cbn [store calls].
  - rewrite locked_rows_middle. simpl.
    apply NoDup_app. split; [done|]. split; [|done].
    intros x Hx1 Hx2. apply (H2 x Hx1). by right.
  - assert (Hothers : forall c,
      c ∈ l1 ++ l2 -> call_ok d c -> call_ok (committed p event t d) c).
    { intros c Hin [Hcq Hcs]. split; [done|].
      assert (Hne : forall x, holds c = Some x -> on_event p <> x).
      { intros x Hx Heq. subst x. apply elem_of_app in Hin as [Hin|Hin].
        - apply (H2 (on_event p)); [|by left].
          unfold locked_rows. apply list_elem_of_omap. by exists c.
        - apply H3. unfold locked_rows. apply list_elem_of_omap. by exists c. }
      unfold holds in Hne.
      destruct (stage c); try done;
        rewrite events_committed_ne; auto. }
    apply Forall_app in Hc as [Hc1 Hc2]. apply Forall_cons in Hc2 as [_ Hc2].
    apply Forall_app. split; [|apply Forall_cons; split; [by split|]].
    + apply Forall_forall. intros c Hin. apply Hothers.
      * apply elem_of_app. by left.
      * rewrite Forall_forall in Hc1. by apply Hc1.
    + apply Forall_forall. intros c Hin. apply Hothers.
      * apply elem_of_app. by right.
      * rewrite Forall_forall in Hc2. by apply Hc2.
  - intros eid ev0 Hev0. destruct (He eid ev0 Hev0) as (ev & Hlk & Hsum & Hpos).
    rewrite Hsold. case_bool_decide as Heq.
    + subst eid. assert (ev = event) as -> by congruence.
      exists (decremented event (units p) t).
      split; [by apply events_committed_eq|]. simpl. split; lia.
    + exists ev. rewrite events_committed_ne by done. split; [done|]. split; [lia|done].
  - intros eid. rewrite Hsold, ticket_rows_committed by done. rewrite Ht. lia.
Qed.

Lemma invariant_step d0 s s' : step s s' -> invariant d0 s -> invariant d0 s'.
Proof.
  intros Hstep Hinv.
  destruct Hstep as
    [d l1 l2 p event Hev Hfree|d l1 l2 p Hev|d l1 l2 p event Hcap
    |d l1 l2 p event Hcap Hst|d l1 l2 p event Hcap Hst|d l1 l2 p event t
    |d l1 l2 p s error Hs Hf].
  - by apply invariant_select.
  - eapply invariant_local; [exact Hinv|done|done|by right|].
    intros [Hq _]. by split.
  - eapply invariant_local; [exact Hinv|done|done|by right|].
    intros [Hq _]. by split.
  - eapply invariant_local; [exact Hinv|done|done|by right|].
    intros [Hq _]. by split.
  - eapply invariant_local; [exact Hinv|done|done|by left|].
    intros [Hq Hev]. split; [done|]. simpl in *. by split.
  - by apply invariant_commit.
  - eapply invariant_local; [exact Hinv|done|done|by right|].
    intros [Hq _]. by split.
Qed.

Lemma invariant_run d0 s s' : rtc step s s' -> invariant d0 s -> invariant d0 s'.
Proof.
  induction 1 as [|s1 s2 s3 Hstep _ IH]; [done|].
  intros Hinv. apply IH. by apply (invariant_step d0 s1 s2).
Qed.

Lemma invariant_reachable d0 cs s :
  initial cs -> rtc step (mkSystem d0 cs) s -> invariant d0 s.
Proof.
  intros Hinit Hrun. eapply invariant_run; [exact Hrun|]. by apply invariant_initial.
Qed.

(** Every behaviour of the sequential [purchaseTickets] is a run of one
    call in the concurrent model. *)
Lemma purchase_is_a_run eventId q userId w r w' :
  txn w = None ->
  EventService.purchaseTickets eventId q userId w = (r, w') ->
  exists s',
    rtc step (mkSystem (db w) [mkCall (mkPurchase eventId q userId) Waiting])
             (mkSystem (db w') [mkCall (mkPurchase eventId q userId) s']).
Proof.
  intros Htx Hrun.
  apply purchase_outcome in Hrun as (_ & _ & _ & Hcase); [|done].
  destruct Hcase as [(e & _ & ->)|(event & Hev & Hq & Hst & -> & _)].
  - exists (Failed e). apply rtc_once.
    by apply (fault (db w) [] [] (mkPurchase eventId q userId) Waiting e).
  - exists Succeeded.
    rewrite <- (committed_purchased (mkPurchase eventId q userId)) by done.
    eapply rtc_l.
    { apply (select_found (db w) [] [] (mkPurchase eventId q userId) event); [done|].
      simpl. apply not_elem_of_nil. }
    eapply rtc_l.
    { by apply (write (db w) [] [] (mkPurchase eventId q userId) event). }
    apply rtc_once.
    apply (commit (db w) [] [] (mkPurchase eventId q userId) event (now w)).
Qed.

Lemma sold_two eid l1 c1 l2 c2 l3 :
  Forall (fun c => 0 <= units (request c)) (l1 ++ c1 :: l2 ++ c2 :: l3) ->
  stage c1 = Succeeded -> stage c2 = Succeeded ->
  on_event (request c1) = eid -> on_event (request c2) = eid ->
  units (request c1) + units (request c2) <= sold eid (l1 ++ c1 :: l2 ++ c2 :: l3).
Proof.
  intros Hall H1 H2 He1 He2.
  apply Forall_app in Hall as [Ha Hall]. apply Forall_cons in Hall as [_ Hall].
  apply Forall_app in Hall as [Hb Hall]. apply Forall_cons in Hall as [_ Hc].
  rewrite sold_app. simpl. rewrite sold_app. simpl.
  rewrite H1, H2, !bool_decide_eq_true_2 by done.
  pose proof (sold_nonneg eid l1 Ha). pose proof (sold_nonneg eid l2 Hb).
  pose proof (sold_nonneg eid l3 Hc). lia.
Qed.

(** C2. Any number of purchase calls, each for at least one unit, run
    concurrently from a database in which an event has [k >= 0] tickets
    left.  In every state that any interleaving of their statements can
    reach: the event still has a row, its [available_tickets] is not
    negative, the units of the calls that succeeded on it add up to what
    left the inventory, hence to [k] at most, one ticket row was added per
    unit sold, and no two calls that succeeded bought more than [k] between
    them. *)
Theorem no_overselling d0 cs s eid ev0 :
  initial cs ->
  events d0 !! eid = Some ev0 ->
  0 <= available_tickets ev0 ->
  rtc step (mkSystem d0 cs) s ->
  exists ev,
    events (store s) !! eid = Some ev /\
    0 <= available_tickets ev /\
    sold eid (calls s) = available_tickets ev0 - available_tickets ev /\
    sold eid (calls s) <= available_tickets ev0 /\
    ticket_rows eid (store s) - ticket_rows eid d0 = sold eid (calls s) /\
    (forall l1 c1 l2 c2 l3,
       calls s = l1 ++ c1 :: l2 ++ c2 :: l3 ->
       stage c1 = Succeeded -> stage c2 = Succeeded ->
       on_event (request c1) = eid -> on_event (request c2) = eid ->
       units (request c1) + units (request c2) <= available_tickets ev0).
Proof.
  intros Hinit Hev0 Hk Hrun.
  destruct (invariant_reachable d0 cs s Hinit Hrun) as [_ Hc He Ht].
  destruct (He eid ev0 Hev0) as (ev & Hev & Hsum & Hpos).
  specialize (Hpos Hk). specialize (Ht eid).
  exists ev. repeat (split; [first [done|lia]|]).
  intros l1 c1 l2 c2 l3 Hcalls H1 H2 He1 He2.
  assert (Hq : Forall (fun c => 0 <= units (request c)) (calls s)).
  { eapply Forall_impl; [exact Hc|]. by intros c [? _]. }
  rewrite Hcalls in Hq.
  pose proof (sold_two eid l1 c1 l2 c2 l3 Hq H1 H2 He1 He2) as Htwo.
  rewrite <- Hcalls in Htwo. lia.
Qed.

Lemma no_overselling_witness :
  let d0 := Scenario.database 2 Upcoming in
  let ev0 := Scenario.concert 2 Upcoming in
  let two := mkPurchase 1 2 7 in
  let one := mkPurchase 1 1 7 in
  let s := mkSystem (committed two ev0 1000 d0)
             [mkCall two Succeeded; mkCall one (Failed (EventService.not_enough 0 1))] in
  exists ev,
    events (store s) !! 1 = Some ev /\
    0 <= available_tickets ev /\
    sold 1 (calls s) = available_tickets ev0 - available_tickets ev /\
    sold 1 (calls s) <= available_tickets ev0 /\
    ticket_rows 1 (store s) - ticket_rows 1 d0 = sold 1 (calls s) /\
    (forall l1 c1 l2 c2 l3,
       calls s = l1 ++ c1 :: l2 ++ c2 :: l3 ->
       stage c1 = Succeeded -> stage c2 = Succeeded ->
       on_event (request c1) = 1 -> on_event (request c2) = 1 ->
       units (request c1) + units (request c2) <= available_tickets ev0).
Proof.
  apply (no_overselling (Scenario.database 2 Upcoming)
           [mkCall (mkPurchase 1 2 7) Waiting; mkCall (mkPurchase 1 1 7) Waiting]
           (mkSystem
              (committed (mkPurchase 1 2 7) (Scenario.concert 2 Upcoming) 1000
                 (Scenario.database 2 Upcoming))
              [mkCall (mkPurchase 1 2 7) Succeeded;
               mkCall (mkPurchase 1 1 7) (Failed (EventService.not_enough 0 1))])
           1 (Scenario.concert 2 Upcoming)).
  - repeat constructor; simpl; lia.
  - reflexivity.
  - simpl. lia.
  - eapply rtc_l.
    { apply (select_found (Scenario.database 2 Upcoming) []
               [mkCall (mkPurchase 1 1 7) Waiting] (mkPurchase 1 2 7)
               (Scenario.concert 2 Upcoming)); [reflexivity|].
      simpl. apply not_elem_of_nil. }
    eapply rtc_l.
    { apply (write (Scenario.database 2 Upcoming) []
               [mkCall (mkPurchase 1 1 7) Waiting] (mkPurchase 1 2 7)
               (Scenario.concert 2 Upcoming)); [simpl; lia|reflexivity]. }
    eapply rtc_l.
    { apply (commit (Scenario.database 2 Upcoming) []
               [mkCall (mkPurchase 1 1 7) Waiting] (mkPurchase 1 2 7)
               (Scenario.concert 2 Upcoming) 1000). }
    eapply rtc_l.
    { apply (select_found _ [mkCall (mkPurchase 1 2 7) Succeeded] []
               (mkPurchase 1 1 7)
               (decremented (Scenario.concert 2 Upcoming) 2 1000)); [reflexivity|].
      simpl. apply not_elem_of_nil. }
    apply rtc_once.
    apply (refuse_capacity _ [mkCall (mkPurchase 1 2 7) Succeeded] []
             (mkPurchase 1 1 7) (decremented (Scenario.concert 2 Upcoming) 2 1000)).
    simpl. lia.
Defined.

(** ** The scenarios of the specification, run on the embedding *)

(** Scenario B: with 5 tickets left, a purchase of 3 succeeds and leaves 2
    with three ticket rows; a second purchase of 3 is answered 400 with the
    counts, and 2 tickets are still left. *)
Lemma scenario_B :
  let buy := Scenario.bearer Scenario.alice_token (EventController.mkPurchaseTicketDto (Some 3)) in
  let first := Routes.post_purchase (H := Scenario.libraries) buy Scenario.logged_in in
  let second := Routes.post_purchase (H := Scenario.libraries) buy (snd first) in
  status (fst first) = 200 /\
  available_tickets <$> events (db (snd first)) !! 1 = Some 2 /\
  length (tickets (db (snd first))) = 3%nat /\
  fst second =
    mkResponse 400
      (ErrorBody "Bad request" "Not enough tickets available. Available: 2, Requested: 3") /\
  available_tickets <$> events (db (snd second)) !! 1 = Some 2 /\
  length (tickets (db (snd second))) = 3%nat.
Proof. vm_compute. done. Qed.

(** Logout, then the same token: 200, then 401. *)
Lemma scenario_logout :
  let out := Routes.post_logout (H := Scenario.libraries)
               (Scenario.bearer Scenario.alice_token tt) Scenario.logged_in in
  let buy := Scenario.bearer Scenario.alice_token (EventController.mkPurchaseTicketDto (Some 1)) in
  status (fst out) = 200 /\
  fst (Routes.post_purchase (H := Scenario.libraries) buy (snd out)) =
    Middleware.unauthorized "Token has been revoked".
Proof. vm_compute. done. Qed.

(** * Further properties *)

(** ** The session ledger: the sessions of a user, logout everywhere, cleanup *)

Lemma recently_used_total : Total SessionService.recently_used.
Proof. intros a b. unfold SessionService.recently_used. lia. Qed.

Lemma recently_used_trans : Transitive SessionService.recently_used.
Proof. intros a b c. unfold SessionService.recently_used. lia. Qed.

Lemma active_is_honoured uid t s :
  SessionService.active_of_user uid t s =
  bool_decide (s_user_id s = uid) && honoured t (Some s) && negb (expires_at s =? t).
Proof.
  unfold SessionService.active_of_user, honoured.
  destruct (bool_decide (s_user_id s = uid)), (is_revoked s); simpl; try done.
  destruct (Z.ltb_spec t (expires_at s)), (Z.ltb_spec (expires_at s) t),
    (Z.eqb_spec (expires_at s) t); simpl; try done; lia.
Qed.

(** X1. The list of a user's sessions holds each row of the ledger that
    belongs to the user, is honoured by the ledger check and does not expire
    at this very instant, once each, the most recently used first; the
    ledger is left as it is.  A failure of the query is thrown. *)
Theorem getUserSessions_lists_honoured `{Libraries} uid w :
  match faults w (queries w) with
  | Some e => SessionService.getUserSessions uid w = (Throw e, tick w)
  | None =>
      exists l,
        SessionService.getUserSessions uid w = (Ok l, with_db (db w) (tick w)) /\
        StronglySorted (fun a b => last_used_at b <= last_used_at a) l /\
        l ≡ₚ List.filter
               (fun s => bool_decide (s_user_id s = uid) && honoured (now w) (Some s) &&
                         negb (expires_at s =? now w))
               (sessions (db w))
  end.
Proof.
  destruct (faults w (queries w)) as [e|] eqn:Hf.
  - unfold SessionService.getUserSessions. by apply query_fault.
  - eexists. split; [|split].
    + unfold SessionService.getUserSessions. rewrite query_run by done. simpl. reflexivity.
    + pose proof recently_used_trans. pose proof recently_used_total.
      apply (StronglySorted_merge_sort SessionService.recently_used).
    + rewrite merge_sort_Permutation.
      erewrite filter_ext; [reflexivity|]. intros s. apply active_is_honoured.
Qed.

Lemma revoked_not_active uid t ss :
  Forall (fun s => s_user_id s = uid -> is_revoked s = true) ss ->
  List.filter (SessionService.active_of_user uid t) ss = [].
Proof.
  induction 1 as [|s ss Hs _ IH]; simpl; [done|].
  rewrite IH. unfold SessionService.active_of_user.
  case_bool_decide as Hu; simpl; [|done]. by rewrite (Hs Hu).
Qed.

Lemma revoke_all_rows uid t ss :
  Forall (fun s => s_user_id s = uid -> is_revoked s = true)
    (SessionService.update_where (SessionService.live_of_user uid)
       (SessionService.revoke_row t) ss).
Proof.
  unfold SessionService.update_where. apply Forall_forall. intros s' Hin.
  apply list_elem_of_In, in_map_iff in Hin as (s & <- & _).
  unfold SessionService.live_of_user.
  destruct (bool_decide (s_user_id s = uid)) eqn:Hu, (is_revoked s) eqn:Hr; simpl; try done.
  intros Hs. apply bool_decide_eq_false in Hu. done.
Qed.

Lemma revoke_all_others uid t ss :
  Forall2 (fun s s' =>
             s_user_id s' = s_user_id s /\ token_hash s' = token_hash s /\
             expires_at s' = expires_at s /\
             (s_user_id s <> uid -> s' = s))
    ss
    (SessionService.update_where (SessionService.live_of_user uid)
       (SessionService.revoke_row t) ss).
Proof.
  induction ss as [|s ss IH]; simpl; constructor; [|done].
  unfold SessionService.live_of_user.
  case_bool_decide as Hu; simpl; [|done].
  destruct (is_revoked s); simpl; repeat split; try done.
Qed.

(** X2. Logging a user out everywhere revokes every session of the user
    and counts those that were still unrevoked; the sessions of the other
    users, and the other tables, are left as they are; no token whose ledger
    rows all belong to the user is honoured afterwards, at any time, and the
    list of the user's sessions is empty.  A failure of the statement is
    thrown and changes nothing. *)
Theorem revokeAll_revokes_every_session `{Libraries} uid w :
  match faults w (queries w) with
  | Some e =>
      SessionService.revokeAllUserSessions uid w = (Throw e, tick w) /\
      AuthService.logoutAll uid w = (Throw e, tick w)
  | None =>
      exists w',
        SessionService.revokeAllUserSessions uid w =
          (Ok (Z.of_nat (length (List.filter
                 (fun s => bool_decide (s_user_id s = uid) && negb (is_revoked s))
                 (sessions (db w))))), w') /\
        AuthService.logoutAll uid w = (Ok tt, w') /\
        Forall (fun s => s_user_id s = uid -> is_revoked s = true) (sessions (db w')) /\
        Forall2 (fun s s' =>
                   s_user_id s' = s_user_id s /\ token_hash s' = token_hash s /\
                   expires_at s' = expires_at s /\
                   (s_user_id s <> uid -> s' = s))
          (sessions (db w)) (sessions (db w')) /\
        users (db w') = users (db w) /\ events (db w') = events (db w) /\
        tickets (db w') = tickets (db w) /\
        (forall token t,
           Forall (fun s => token_hash s = SessionService.hashToken token -> s_user_id s = uid)
             (sessions (db w)) ->
           honoured t (head (List.filter
                               (SessionService.has_hash (SessionService.hashToken token))
                               (sessions (db w')))) = false) /\
        (forall w2, sessions (db w2) = sessions (db w') ->
           faults w2 (queries w2) = None ->
           fst (SessionService.getUserSessions uid w2) = Ok [])
  end.
Proof.
  destruct (faults w (queries w)) as [e|] eqn:Hf.
  - unfold AuthService.logoutAll, SessionService.revokeAllUserSessions, bind.
    by rewrite query_fault with (e := e).
  - eexists.
    unfold AuthService.logoutAll, SessionService.revokeAllUserSessions, bind.
    rewrite query_run by done. cbn [fst snd ret].
    split; [reflexivity|]. split; [reflexivity|].
    destruct w as [d tx q f t]; simpl.
    pose proof (revoke_all_rows uid t (sessions d)) as Hall.
    pose proof (revoke_all_others uid t (sessions d)) as Hoth.
    split; [done|]. split; [done|]. split; [by destruct d|].
    split; [by destruct d|]. split; [by destruct d|]. split.
    + intros token t' Hown. apply all_revoked_not_honoured.
      unfold all_revoked.
      revert Hall Hoth Hown.
      generalize (SessionService.update_where (SessionService.live_of_user uid)
                    (SessionService.revoke_row t) (sessions d)).
      generalize (sessions d). intros ss ss' Hall Hoth. revert Hall.
      induction Hoth as [|s s' ss ss' (Hu & Hh & _ & _) _ IH]; intros Hall Hown; [done|].
      inversion Hall; subst. inversion Hown; subst. constructor; [|by apply IH].
      intros Ht. rewrite Hh in Ht. rewrite Hu in *. auto.
    + intros w2 Hs Hf2. unfold SessionService.getUserSessions.
      rewrite query_run by done. simpl. rewrite Hs. simpl.
      by rewrite revoked_not_active.
Qed.

Lemma filter_split_length {A} (f : A -> bool) (l : list A) :
  (length (List.filter f l) + length (List.filter (fun x => negb (f x)) l))%nat = length l.
Proof. induction l as [|x l IH]; simpl; [done|]. destruct (f x); simpl; lia. Qed.

Lemma filter_idem {A} (f : A -> bool) (l : list A) :
  List.filter f (List.filter f l) = List.filter f l.
Proof.
  induction l as [|x l IH]; simpl; [done|].
  destruct (f x) eqn:Hx; simpl; [|done]. by rewrite Hx, IH.
Qed.

Lemma filter_none {A} (f : A -> bool) (l : list A) :
  List.filter f (List.filter (fun x => negb (f x)) l) = [].
Proof.
  induction l as [|x l IH]; simpl; [done|].
  destruct (f x) eqn:Hx; simpl; [done|]. by rewrite Hx.
Qed.

Lemma filter_sublist {A} (f : A -> bool) (l : list A) : sublist (List.filter f l) l.
Proof.
  induction l as [|x l IH]; simpl; [constructor|].
  destruct (f x); by constructor.
Qed.

(** What makes a row stale at the timestamp [t] of the statement. *)
Lemma stale_spec t s :
  SessionService.stale t s = true <->
  expires_at s < t \/
  (is_revoked s = true /\ exists r, revoked_at s = Some r /\ r < t - SessionService.thirty_days).
Proof.
  unfold SessionService.stale. rewrite orb_true_iff, andb_true_iff, Z.ltb_lt.
  split; (intros [?|[Hr Hat]]; [by left|right; split; [done|]]).
  - destruct (revoked_at s) as [r|]; [|done]. apply Z.ltb_lt in Hat. eauto.
  - destruct Hat as (r & -> & Hlt). by apply Z.ltb_lt.
Qed.

(** X3. The sweep of the ledger removes rows only, and stale rows only.
    What it counts and what it leaves add up to what there was, and the rows
    left keep their order.  A row goes exactly when its expiry is before the
    timestamp of the statement, or when it was revoked more than thirty days
    before it: so a row that is not revoked and has not expired by that
    timestamp is left, and no row that is left has expired by it.  The other
    tables are untouched, and a second sweep at the same timestamp removes
    nothing.  A failure of the statement is thrown and changes nothing.
    The timestamp is [CURRENT_TIMESTAMP], with which the statement compares
    the expiry as the column holds it. *)
Theorem cleanup_sweeps_stale_sessions w :
  match faults w (queries w) with
  | Some e => SessionService.cleanupExpiredSessions w = (Throw e, tick w)
  | None =>
      exists n w',
        SessionService.cleanupExpiredSessions w = (Ok n, w') /\
        n + Z.of_nat (length (sessions (db w'))) = Z.of_nat (length (sessions (db w))) /\
        sublist (sessions (db w')) (sessions (db w)) /\
        (forall s, s ∈ sessions (db w) ->
           s ∈ sessions (db w') <->
           ~ (expires_at s < now w \/
              (is_revoked s = true /\
               exists r, revoked_at s = Some r /\ r < now w - SessionService.thirty_days))) /\
        (forall s, s ∈ sessions (db w) -> is_revoked s = false -> now w <= expires_at s ->
           s ∈ sessions (db w')) /\
        (forall s, s ∈ sessions (db w') -> s ∈ sessions (db w) /\ now w <= expires_at s) /\
        users (db w') = users (db w) /\ events (db w') = events (db w) /\
        tickets (db w') = tickets (db w) /\
        (forall w2, sessions (db w2) = sessions (db w') -> now w2 = now w ->
           faults w2 (queries w2) = None ->
           exists w3, SessionService.cleanupExpiredSessions w2 = (Ok 0, w3) /\
                      sessions (db w3) = sessions (db w2))
  end.
Proof.
  destruct (faults w (queries w)) as [e|] eqn:Hf.
  - unfold SessionService.cleanupExpiredSessions, bind. by rewrite query_fault with (e := e).
  - eexists _, _.
    unfold SessionService.cleanupExpiredSessions, bind.
    rewrite query_run by done. cbn [fst snd ret].
    split; [reflexivity|].
    destruct w as [d tx q f t]. cbn [db now with_db tick queries faults] in *.
    assert (sessions (set_sessions
              (List.filter (fun s => negb (SessionService.stale t s)) (sessions d)) d)
            = List.filter (fun s => negb (SessionService.stale t s)) (sessions d)) as ->
      by by destruct d.
    assert (Hkept : forall s, s ∈ sessions d ->
              s ∈ List.filter (fun s => negb (SessionService.stale t s)) (sessions d) <->
              ~ (expires_at s < t \/
                 (is_revoked s = true /\
                  exists r, revoked_at s = Some r /\ r < t - SessionService.thirty_days))).
    { intros s Hin. rewrite <- stale_spec, list_elem_of_In, filter_In, <- list_elem_of_In.
      rewrite negb_true_iff, not_true_iff_false. tauto. }
    split; [|split; [|split; [|split; [|split; [|split; [|split; [|split]]]]]]].
    + pose proof (filter_split_length (SessionService.stale t) (sessions d)). lia.
    + apply filter_sublist.
    + exact Hkept.
    + intros s Hin Hr Hexp. apply Hkept; [done|]. intros [?|[? _]]; [lia|congruence].
    + intros s Hin.
      assert (s ∈ sessions d) as Hin'
        by (apply list_elem_of_In, filter_In in Hin as [Hin _]; by apply list_elem_of_In).
      split; [done|]. apply (Hkept s Hin') in Hin.
      destruct (Z.le_gt_cases t (expires_at s)); [done|]. destruct Hin. left. lia.
    + by destruct d.
    + by destruct d.
    + by destruct d.
    + intros w2 Hs2 Ht2 Hf2. eexists. rewrite query_run by done. cbn [fst snd].
      split.
      * rewrite Hs2, Ht2, filter_none. reflexivity.
      * destruct w2 as [d2 tx2 q2 f2 t2]. cbn [db now with_db tick] in *. subst t2.
        destruct d2; cbn [sessions set_sessions] in *. rewrite Hs2. apply filter_idem.
Qed.

(** ** The lifetime of a session *)

Lemma append_cons a (s t : string) : String a s +:+ t = String a (s +:+ t).
Proof. reflexivity. Qed.

Lemma append_nil (t : string) : "" +:+ t = t.
Proof. reflexivity. Qed.

Lemma digits_go_acc (d : Decimal.uint) (rest : string) : forall acc : positive,
  digits_go (NilEmpty.string_of_uint d +:+ rest) (Some (Z.pos acc)) =
  digits_go rest (Some (Z.pos (Pos.of_uint_acc d acc))).
Proof.
  induction d as [|d IH|d IH|d IH|d IH|d IH|d IH|d IH|d IH|d IH|d IH]; intros acc;
    cbn [NilEmpty.string_of_uint Pos.of_uint_acc];
    rewrite ?append_cons, ?append_nil; [done|..];
    cbn [digits_go]; change (is_digit _) with true; cbn [default];
    rewrite <- IH; do 2 f_equal; unfold id;
    match goal with
    | |- context [Z.of_nat ?n] =>
        let v := eval vm_compute in (Z.of_nat n) in change (Z.of_nat n) with v
    end; lia.
Qed.

Lemma digits_go_uint (d : Decimal.uint) (rest : string) (acc0 : option Z) :
  default 0 acc0 = 0 ->
  d <> Decimal.Nil ->
  digits_go (NilEmpty.string_of_uint d +:+ rest) acc0 =
  digits_go rest (Some (Z.of_N (Pos.of_uint d))).
Proof.
  revert acc0.
  induction d as [|d IH|d IH|d IH|d IH|d IH|d IH|d IH|d IH|d IH|d IH]; intros acc0 H0 Hd;
    [done|..];
    cbn [NilEmpty.string_of_uint Pos.of_uint]; rewrite append_cons;
    cbn [digits_go]; change (is_digit _) with true; rewrite H0;
    try (change (Z.of_N (N.pos ?p)) with (Z.pos p); rewrite <- digits_go_acc; done).
  assert (d = Decimal.Nil \/ d <> Decimal.Nil) as [->|Hn]
    by (destruct d; [left|right..]; done); [done|].
  by apply IH.
Qed.

Lemma to_uint_nonnil p : Pos.to_uint p <> Decimal.Nil.
Proof.
  intros Hp. pose proof (DecimalPos.Unsigned.of_to p) as Hof. rewrite Hp in Hof. done.
Qed.

Lemma digits_go_stop c rest acc : is_digit c = false -> digits_go (String c rest) acc = acc.
Proof. intros Hc. simpl. by rewrite Hc. Qed.

Lemma digits_of_pos p c rest acc0 :
  default 0 acc0 = 0 -> is_digit c = false ->
  digits_go (NilZero.string_of_uint (Pos.to_uint p) +:+ String c rest) acc0 = Some (Z.pos p).
Proof.
  intros H0 Hc. pose proof (to_uint_nonnil p) as Hn.
  replace (NilZero.string_of_uint (Pos.to_uint p))
    with (NilEmpty.string_of_uint (Pos.to_uint p))
    by (by destruct (Pos.to_uint p)).
  rewrite digits_go_uint by done. rewrite DecimalPos.Unsigned.of_to.
  by rewrite digits_go_stop.
Qed.

Lemma first_is_digit p :
  exists c s, NilZero.string_of_uint (Pos.to_uint p) = String c s /\ is_digit c = true.
Proof.
  pose proof (to_uint_nonnil p) as Hn.
  destruct (Pos.to_uint p); [done|..]; eexists _, _; (split; [reflexivity|done]).
Qed.

Lemma digits_go_append_stop (s : string) (c : ascii) : forall acc,
  is_digit c = false ->
  digits_go (s +:+ String c "") acc = digits_go s acc.
Proof.
  induction s as [|a s IH]; intros acc Hc.
  - rewrite append_nil. by rewrite digits_go_stop.
  - rewrite append_cons. cbn [digits_go]. destruct (is_digit a); [by apply IH|done].
Qed.

(** The digits that [show] writes for a positive number are read back. *)
Lemma digits_of_shown p :
  digits_go (NilZero.string_of_uint (Pos.to_uint p)) None = Some (Z.pos p).
Proof.
  rewrite <- (digits_go_append_stop _ "d") by done. by apply digits_of_pos.
Qed.

Lemma second_is_digit p :
  exists c s,
    NilZero.string_of_uint (Pos.to_uint p) = String c s /\ is_digit c = true /\
    match s with
    | String b _ => is_digit b = true
    | EmptyString => True
    end.
Proof.
  pose proof (to_uint_nonnil p) as Hn.
  destruct (Pos.to_uint p) as [|d|d|d|d|d|d|d|d|d|d]; [done|..];
    eexists _, _; (split; [reflexivity|]); (split; [done|]); by destruct d.
Qed.

(** On a string that starts with a digit, and goes on with a digit if it
    goes on, both readings take the decimal digits. *)
Lemma digits_are_read (c : ascii) (s : string) :
  is_digit c = true ->
  match s with
  | String b _ => is_digit b = true
  | EmptyString => True
  end ->
  parseInt (String c s) = digits_go (String c s) None /\
  parseInt_no_radix (String c s) = digits_go (String c s) None.
Proof.
  intros Hc Hb.
  destruct c as [[] [] [] [] [] [] [] []]; try discriminate Hc; split; try reflexivity.
  destruct s as [|b s]; [reflexivity|].
  destruct b as [[] [] [] [] [] [] [] []]; try discriminate Hb; reflexivity.
Qed.

(** What [parseInt] reads is what the template literal wrote, with a radix
    and without. *)
Lemma parseInt_show (n : Z) : parseInt (show n) = Some n /\ parseInt_no_radix (show n) = Some n.
Proof.
  unfold show. destruct n as [|p|p]; cbn [Z.to_int NilZero.string_of_int].
  - split; reflexivity.
  - destruct (second_is_digit p) as (c & s & Hs & Hc & Hb).
    destruct (digits_are_read c s Hc Hb) as [H10 H0].
    rewrite Hs, H10, H0, <- Hs. split; apply digits_of_shown.
  - destruct (second_is_digit p) as (c & s & Hs & Hc & Hb).
    destruct (digits_are_read c s Hc Hb) as [H10 H0].
    assert (parseInt (String "-" (NilZero.string_of_uint (Pos.to_uint p))) =
            Z.opp <$> parseInt (NilZero.string_of_uint (Pos.to_uint p))) as ->.
    { rewrite Hs. destruct c as [[] [] [] [] [] [] [] []]; try discriminate Hc; reflexivity. }
    assert (parseInt_no_radix (String "-" (NilZero.string_of_uint (Pos.to_uint p))) =
            Z.opp <$> parseInt_no_radix (NilZero.string_of_uint (Pos.to_uint p))) as ->.
    { rewrite Hs. destruct c as [[] [] [] [] [] [] [] []]; try discriminate Hc; reflexivity. }
    rewrite Hs, H10, H0, <- Hs, digits_of_shown. split; reflexivity.
Qed.

Lemma rev_app_append (s t : string) : forall acc,
  String.rev_app (s +:+ t) acc = String.rev_app t (String.rev_app s acc).
Proof. induction s as [|a s IH]; intros acc; [done|]. rewrite append_cons. simpl. apply IH. Qed.

Lemma rev_snoc (s : string) (c : ascii) :
  String.rev (s +:+ String c "") = String c (String.rev s).
Proof. unfold String.rev. by rewrite rev_app_append. Qed.

Lemma list_ascii_append (s t : string) :
  String.list_ascii_of_string (s +:+ t) =
  String.list_ascii_of_string s ++ String.list_ascii_of_string t.
Proof. induction s as [|a s IH]; [done|]. rewrite append_cons. simpl. by rewrite IH. Qed.

Lemma slice_init_snoc (s : string) (c : ascii) :
  AuthService.slice_init (s +:+ String c "") = s.
Proof.
  unfold AuthService.slice_init. rewrite list_ascii_append. simpl.
  rewrite removelast_last. apply String.string_of_list_ascii_of_string.
Qed.

Lemma prefix_one (a c : ascii) (x : string) :
  String.prefix (String a "") (String c x) = bool_decide (a = c).
Proof. simpl. destruct (ascii_dec a c); case_bool_decide; try done; by destruct x. Qed.

(** X4. The lifetime of a session follows the configured lifetime of the
    token: for a number followed by [d], [h], [m] or [s], and a clock that is
    a time value of a [Date], the session expires that many days, hours,
    minutes or seconds after the clock when this is a time value of a [Date]
    again; otherwise the expiry is an Invalid Date. *)
Theorem expiration_follows_configuration `{Libraries} w n c ms :
  unit_ms c = Some ms ->
  JWT_EXPIRES_IN = show n +:+ String c "" ->
  Z.abs (now w) <= max_time ->
  AuthService.getExpirationDate w =
  (Ok (if Z.abs (now w + n * ms) <=? max_time then Some (now w + n * ms) else None), w).
Proof.
  intros Hu Hc _. unfold AuthService.getExpirationDate, bind, Date_now, endsWith.
  rewrite Hc, rev_snoc, slice_init_snoc, (proj2 (parseInt_show n)).
  change (String.rev "d") with "d". change (String.rev "h") with "h".
  change (String.rev "m") with "m". change (String.rev "s") with "s".
  rewrite !prefix_one. unfold ret, new_Date. cbn [mbind option_bind].
  assert ((c = "d"%char /\ ms = 24 * 60 * 60 * 1000) \/ (c = "h"%char /\ ms = 60 * 60 * 1000) \/
          (c = "m"%char /\ ms = 60 * 1000) \/ (c = "s"%char /\ ms = 1000)) as Hcases.
  { unfold unit_ms in Hu. repeat case_bool_decide; simplify_eq; auto. }
  destruct Hcases as [[-> ->]|[[-> ->]|[[-> ->]|[-> ->]]]];
    rewrite ?bool_decide_eq_false_2 by done; rewrite bool_decide_eq_true_2 by done;
    cbv beta;
    match goal with
    | |- (Ok (if Z.abs ?a <=? _ then _ else _), _) =
         (Ok (if Z.abs ?b <=? _ then _ else _), _) =>
        replace a with b by lia
    end; reflexivity.
Qed.

Lemma expiration_follows_configuration_witness :
  AuthService.getExpirationDate (H := Scenario.libraries)
    (Scenario.world (Scenario.database 5 Upcoming) Scenario.no_faults 1000) =
  (Ok (if Z.abs (1000 + 7 * 86400000) <=? max_time then Some (1000 + 7 * 86400000) else None),
   Scenario.world (Scenario.database 5 Upcoming) Scenario.no_faults 1000).
Proof.
  apply (expiration_follows_configuration (H := Scenario.libraries)
           (Scenario.world (Scenario.database 5 Upcoming) Scenario.no_faults 1000)
           7 "d"%char 86400000); [reflexivity|reflexivity|].
  vm_compute. discriminate.
Defined.

(** ** Login *)

Lemma getExpirationDate_reads `{Libraries} w :
  exists r, forall w', now w' = now w -> AuthService.getExpirationDate w' = (Ok r, w').
Proof.
  unfold AuthService.getExpirationDate, bind, Date_now, ret.
  destruct (endsWith JWT_EXPIRES_IN "d").
  { eexists. intros w' ->. reflexivity. }
  destruct (endsWith JWT_EXPIRES_IN "h").
  { eexists. intros w' ->. reflexivity. }
  destruct (endsWith JWT_EXPIRES_IN "m").
  { eexists. intros w' ->. reflexivity. }
  destruct (endsWith JWT_EXPIRES_IN "s").
  { eexists. intros w' ->. reflexivity. }
  eexists. intros w' ->. reflexivity.
Qed.

(** The session row that [issue] records for a user and a token: the
    address fits its column and the user is in the table. *)
Lemma issue_run `{Libraries} u dev w r w' :
  AuthService.issue u dev w = (r, w') ->
  let token := jwt_sign (mkAuthPayload (u_id u) (u_email u) (u_role u)) JWT_EXPIRES_IN (now w) in
  match r with
  | Ok (p, tok) =>
      p = AuthService.public u /\ tok = token /\
      faults w (queries w) = None /\
      exists expiry,
        fst (AuthService.getExpirationDate w) = Ok (Some expiry) /\
        w' = with_db (set_sessions
                        (sessions (db w) ++
                         [mkSession (u_id u) (SessionService.hashToken token) expiry false None
                            (or_null (AuthService.di_device_info dev))
                            (or_null (AuthService.di_ip_address dev)) (now w) (now w)])
                        (db w)) (tick w) /\
        SessionService.ip_fits (or_null (AuthService.di_ip_address dev)) = true /\
        SessionService.user_known (u_id u) (db w) = true /\
        timestamp_fits expiry = true
  | Throw e => w' = tick w
  end.
Proof.
  unfold AuthService.issue, bind. cbn [Date_now].
  destruct (getExpirationDate_reads w) as [expiry Hexp].
  rewrite (Hexp w eq_refl). cbn [fst].
  unfold SessionService.createSession, Middleware.generateToken, query.
  cbn [SessionService.dto_expires_at SessionService.dto_user_id SessionService.dto_token_hash
       SessionService.dto_device_info SessionService.dto_ip_address].
  destruct (faults w (queries w)) as [e|] eqn:Hf.
  - intros [= <- <-]. done.
  - destruct expiry as [expiry|]; [|intros [= <- <-]; by destruct w, db0].
    destruct (timestamp_fits expiry) eqn:Hts; cbn [negb];
      [|intros [= <- <-]; by destruct w, db0].
    destruct (SessionService.ip_fits _) eqn:Hip; cbn [negb];
      [|intros [= <- <-]; by destruct w, db0].
    destruct (SessionService.user_known _ _) eqn:Hknown; cbn [negb];
      [|intros [= <- <-]; by destruct w, db0].
    unfold ret. intros [= <- <-]. repeat split; eauto 10.
Qed.

(** What a login that succeeds has done. *)
Lemma login_ok `{Libraries} data dev w u token w' :
  AuthService.login data dev w = (Ok (u, token), w') ->
  exists row expiry,
    head (List.filter (Pg.has_email (AuthService.l_email data)) (users (db w))) = Some row /\
    u = AuthService.public row /\
    u_is_active row = true /\
    bcrypt_compare (AuthService.l_password data) (u_password_hash row) = true /\
    token = jwt_sign (mkAuthPayload (u_id row) (u_email row) (u_role row))
              JWT_EXPIRES_IN (now w) /\
    fst (AuthService.getExpirationDate w) = Ok (Some expiry) /\
    w' = with_db
           (set_sessions
              (sessions (db w) ++
               [mkSession (u_id row) (SessionService.hashToken token) expiry false None
                  (or_null (AuthService.di_device_info dev))
                  (or_null (AuthService.di_ip_address dev)) (now w) (now w)])
              (db w))
           (tick (tick w)).
Proof.
  unfold AuthService.login, bind, query.
  destruct (faults w (queries w)) as [e|] eqn:Hf; [done|].
  destruct (List.filter _ (users (db w))) as [|row rest] eqn:Hrows; [done|].
  destruct (u_is_active row) eqn:Hact; [|done]. cbn [negb].
  destruct (bcrypt_compare _ _) eqn:Hpw; [|done]. cbn [negb].
  intros Hissue. apply issue_run in Hissue. cbn zeta in Hissue.
  destruct Hissue as (-> & -> & Hf1 & expiry & Hexp & -> & _).
  destruct (getExpirationDate_reads w) as [r Hr].
  rewrite (Hr w eq_refl). rewrite Hr in Hexp by reflexivity.
  exists row, expiry.
  destruct w as [d tx q f t], d. cbn in *.
  repeat (split; [done|]). done.
Qed.

(** X5. A login that succeeds was asked for the first user that has the
    address, this user is active and the password matches the stored hash;
    the token is signed for this user at the time of the call; one
    unrevoked session is recorded for the hash of the token, with the
    lifetime of the configuration, and nothing else changes. *)
Theorem login_records_one_session `{Libraries} data dev w u token w' :
  AuthService.login data dev w = (Ok (u, token), w') ->
  exists row expiry,
    head (List.filter (Pg.has_email (AuthService.l_email data)) (users (db w))) = Some row /\
    u = AuthService.public row /\
    u_is_active row = true /\
    bcrypt_compare (AuthService.l_password data) (u_password_hash row) = true /\
    token = jwt_sign (mkAuthPayload (u_id row) (u_email row) (u_role row))
              JWT_EXPIRES_IN (now w) /\
    fst (AuthService.getExpirationDate w) = Ok (Some expiry) /\
    sessions (db w') =
      sessions (db w) ++
      [mkSession (u_id row) (SessionService.hashToken token) expiry false None
         (or_null (AuthService.di_device_info dev))
         (or_null (AuthService.di_ip_address dev)) (now w) (now w)] /\
    users (db w') = users (db w) /\ events (db w') = events (db w) /\
    tickets (db w') = tickets (db w) /\
    now w' = now w /\ queries w' = S (S (queries w)).
Proof.
  intros Hlogin.
  apply login_ok in Hlogin as (row & expiry & Hrow & Hu & Hact & Hpw & Htok & Hexp & ->).
  exists row, expiry.
  repeat (split; [done|]).
  destruct w as [d tx q f t], d. cbn.
  repeat (split; [done|]). done.
Qed.

Lemma login_records_one_session_witness :
  let data := AuthService.mkLoginDto "alice@example.com" "Password123" in
  let dev := AuthService.mkDeviceInfo None None in
  let w := Scenario.world (Scenario.database 5 Upcoming) Scenario.no_faults 1000 in
  let w' := snd (AuthService.login (H := Scenario.libraries) data dev w) in
  exists row expiry,
    head (List.filter (Pg.has_email (AuthService.l_email data)) (users (db w))) = Some row /\
    AuthService.public Scenario.alice = AuthService.public row /\
    u_is_active row = true /\
    bcrypt_compare (Libraries := Scenario.libraries)
      (AuthService.l_password data) (u_password_hash row) = true /\
    Scenario.alice_token =
      jwt_sign (Libraries := Scenario.libraries)
        (mkAuthPayload (u_id row) (u_email row) (u_role row))
        (JWT_EXPIRES_IN (Libraries := Scenario.libraries)) (now w) /\
    fst (AuthService.getExpirationDate (H := Scenario.libraries) w) = Ok (Some expiry) /\
    sessions (db w') =
      sessions (db w) ++
      [mkSession (u_id row)
         (SessionService.hashToken (H := Scenario.libraries) Scenario.alice_token)
         expiry false None
         (or_null (AuthService.di_device_info dev))
         (or_null (AuthService.di_ip_address dev)) (now w) (now w)] /\
    users (db w') = users (db w) /\ events (db w') = events (db w) /\
    tickets (db w') = tickets (db w) /\
    now w' = now w /\ queries w' = S (S (queries w)).
Proof.
  apply (login_records_one_session (H := Scenario.libraries)
           (AuthService.mkLoginDto "alice@example.com" "Password123")
           (AuthService.mkDeviceInfo None None)
           (Scenario.world (Scenario.database 5 Upcoming) Scenario.no_faults 1000)
           (AuthService.public Scenario.alice) Scenario.alice_token
           (snd (AuthService.login (H := Scenario.libraries)
                   (AuthService.mkLoginDto "alice@example.com" "Password123")
                   (AuthService.mkDeviceInfo None None)
                   (Scenario.world (Scenario.database 5 Upcoming) Scenario.no_faults 1000)))).
  vm_compute. reflexivity.
Defined.

Lemma head_filter_fresh h ss row :
  Forall (fun s => token_hash s <> h) ss ->
  token_hash row = h ->
  head (List.filter (SessionService.has_hash h) (ss ++ [row])) = Some row.
Proof.
  intros Hfresh Hrow. induction Hfresh as [|s ss Hs _ IH]; simpl.
  - unfold SessionService.has_hash. by rewrite bool_decide_eq_true_2.
  - unfold SessionService.has_hash at 1. by rewrite bool_decide_eq_false_2.
Qed.

(** X6. The token that a login returns is let through the gate: when the
    library verifies the token it signed, no older session has the same
    hash, and the lifetime of the configuration has not run out, a request
    that carries the token as a bearer is passed on with the identity of the
    token, as long as the ledger is as the login left it and its two queries
    succeed. *)
Theorem issued_token_is_admitted `{Libraries} {B} data dev w u token w'
    (req : Request B) decoded w2 :
  AuthService.login data dev w = (Ok (u, token), w') ->
  Forall (fun s => token_hash s <> SessionService.hashToken token) (sessions (db w)) ->
  token <> "" ->
  authorization req = Some ("Bearer " +:+ token) ->
  sessions (db w2) = sessions (db w') ->
  jwt_verify token (now w2) = Ok decoded ->
  (forall expiry, fst (AuthService.getExpirationDate w) = Ok (Some expiry) ->
                  now w2 <= expiry) ->
  faults w2 (queries w2) = None ->
  faults w2 (S (queries w2)) = None ->
  fst (Middleware.authenticate req w2) = Next (Middleware.attach req (identity decoded)).
Proof.
  intros Hlogin Hfresh Htoken Hauth Hledger Hverify Hlife Hf0 Hf1.
  destruct (login_ok data dev w u token w' Hlogin)
    as (row & expiry & _ & _ & _ & _ & _ & Hexp & ->).
  assert (sessions (db w2) =
          sessions (db w) ++
          [mkSession (u_id row) (SessionService.hashToken token) expiry false None
             (or_null (AuthService.di_device_info dev))
             (or_null (AuthService.di_ip_address dev)) (now w) (now w)]) as Hs
    by (rewrite Hledger; by destruct w as [d tx q f t], d).
  rewrite (authenticate_with_token req w2 _ Hauth).
  - rewrite extract_bearer. cbn zeta. rewrite Hverify, Hf0, Hs.
    rewrite head_filter_fresh by done.
    unfold honoured. cbn [is_revoked expires_at negb andb].
    pose proof (Hlife expiry Hexp) as Hle.
    destruct (Z.ltb_spec expiry (now w2)); [lia|]. cbn [negb]. by rewrite Hf1.
  - done.
  - rewrite extract_bearer. by apply truthy_true.
Qed.

Lemma issued_token_is_admitted_witness :
  let data := AuthService.mkLoginDto "alice@example.com" "Password123" in
  let dev := AuthService.mkDeviceInfo None None in
  let w := Scenario.world (Scenario.database 5 Upcoming) Scenario.no_faults 1000 in
  let req : Request unit := Scenario.bearer Scenario.alice_token tt in
  let w2 := Scenario.later (snd (AuthService.login (H := Scenario.libraries) data dev w))
              Scenario.no_faults 2000 in
  fst (Middleware.authenticate (H := Scenario.libraries) req w2) =
  Next (Middleware.attach req
          (identity (mkJwtPayload 7 "alice@example.com" RoleUser (Some 0) (Some 604800)))).
Proof.
  apply (issued_token_is_admitted (H := Scenario.libraries)
           (AuthService.mkLoginDto "alice@example.com" "Password123")
           (AuthService.mkDeviceInfo None None)
           (Scenario.world (Scenario.database 5 Upcoming) Scenario.no_faults 1000)
           (AuthService.public Scenario.alice) Scenario.alice_token
           (snd (AuthService.login (H := Scenario.libraries)
                   (AuthService.mkLoginDto "alice@example.com" "Password123")
                   (AuthService.mkDeviceInfo None None)
                   (Scenario.world (Scenario.database 5 Upcoming) Scenario.no_faults 1000)))
           (Scenario.bearer Scenario.alice_token tt)
           (mkJwtPayload 7 "alice@example.com" RoleUser (Some 0) (Some 604800))
           (Scenario.later
              (snd (AuthService.login (H := Scenario.libraries)
                      (AuthService.mkLoginDto "alice@example.com" "Password123")
                      (AuthService.mkDeviceInfo None None)
                      (Scenario.world (Scenario.database 5 Upcoming) Scenario.no_faults 1000)))
              Scenario.no_faults 2000)).
  - vm_compute. reflexivity.
  - vm_compute. constructor.
  - done.
  - reflexivity.
  - reflexivity.
  - reflexivity.
  - intros expiry. vm_compute. intros [= <-]. done.
  - reflexivity.
  - reflexivity.
Defined.

Lemma sanitized_valid email e :
  Validation.sanitized (Validation.validateAndSanitizeEmail email) = Some e ->
  Validation.valid (Validation.validateAndSanitizeEmail email) = true.
Proof. intros He. by rewrite (sanitized_is_valid _ _ He). Qed.

Lemma trim_nonempty_truthy p :
  Validation.trim p <> "" ->
  negb (truthy p) || (String.length (Validation.trim p) =? 0)%nat = false.
Proof.
  intros Hp. destruct p as [|a p]; [done|]. simpl negb. simpl orb.
  destruct (Validation.trim (String a p)); [done|done].
Qed.

(** X7. A login with an address that no user has and a login with a wrong
    password for an active user are answered alike: 401 with the same
    message, after the one query that looks the address up, and nothing is
    written. *)
Theorem login_failures_look_alike `{Libraries}
    (req : Request AuthController.Credentials) w e password :
  Validation.sanitized
    (Validation.validateAndSanitizeEmail (AuthController.c_email (body req))) = Some e ->
  AuthController.c_password (body req) = Some password ->
  Validation.trim password <> "" ->
  faults w (queries w) = None ->
  match head (List.filter (Pg.has_email e) (users (db w))) with
  | None => True
  | Some u => u_is_active u = true /\ bcrypt_compare password (u_password_hash u) = false
  end ->
  Routes.post_login req w =
  (mkResponse 401 (ErrorBody "Unauthorized" "Invalid email or password"),
   with_db (db w) (tick w)).
Proof.
  intros He Hp Htrim Hf Hrow.
  unfold Routes.post_login. cbn [Routes.route]. unfold AuthController.login.
  rewrite (sanitized_valid _ _ He), He, Hp. cbn [negb].
  rewrite (trim_nonempty_truthy _ Htrim). cbn [default AuthService.l_email].
  unfold AuthService.login, bind. rewrite query_run by done. cbn [fst snd].
  cbn [AuthService.l_email AuthService.l_password].
  unfold id.
  destruct (List.filter (Pg.has_email e) (users (db w))) as [|u rest]; [done|].
  cbn [head] in Hrow. destruct Hrow as [-> ->]. done.
Qed.

Lemma login_failures_look_alike_witness :
  let w := Scenario.world (Scenario.database 5 Upcoming) Scenario.no_faults 1000 in
  let wrong := AuthController.mkCredentials (Some "Alice@Example.com") (Some "password")
                 None None None in
  let unknown := AuthController.mkCredentials (Some "bob@example.com") (Some "Password123")
                   None None None in
  Routes.post_login (H := Scenario.libraries) (Scenario.anonymous wrong) w =
    (mkResponse 401 (ErrorBody "Unauthorized" "Invalid email or password"),
     with_db (db w) (tick w)) /\
  Routes.post_login (H := Scenario.libraries) (Scenario.anonymous unknown) w =
    (mkResponse 401 (ErrorBody "Unauthorized" "Invalid email or password"),
     with_db (db w) (tick w)).
Proof.
  split.
  - apply (login_failures_look_alike (H := Scenario.libraries)
             (Scenario.anonymous
                (AuthController.mkCredentials (Some "Alice@Example.com") (Some "password")
                   None None None))
             (Scenario.world (Scenario.database 5 Upcoming) Scenario.no_faults 1000)
             "alice@example.com" "password").
    + reflexivity.
    + reflexivity.
    + vm_compute. discriminate.
    + reflexivity.
    + vm_compute. split; reflexivity.
  - apply (login_failures_look_alike (H := Scenario.libraries)
             (Scenario.anonymous
                (AuthController.mkCredentials (Some "bob@example.com") (Some "Password123")
                   None None None))
             (Scenario.world (Scenario.database 5 Upcoming) Scenario.no_faults 1000)
             "bob@example.com" "Password123").
    + reflexivity.
    + reflexivity.
    + vm_compute. discriminate.
    + reflexivity.
    + vm_compute. exact I.
Defined.

(** ** The users table *)

Lemma placeholders_eq_dec sql (values : list Pg.SqlValue) :
  (Pg.placeholders sql =? length values)%nat = true \/
  (Pg.placeholders sql =? length values)%nat = false.
Proof. destruct (Pg.placeholders sql =? length values)%nat; auto. Qed.

Lemma users_ok_same d d' :
  users d' = users d -> users_seq d' = users_seq d -> users_ok d -> users_ok d'.
Proof. unfold users_ok. by intros -> ->. Qed.

Lemma existsb_has_email e us :
  existsb (Pg.has_email e) us = false -> e ∉ map u_email us.
Proof.
  induction us as [|u us IH]; simpl; [intros _; apply not_elem_of_nil|].
  intros Hx. apply orb_false_iff in Hx as [Hu Hx].
  unfold Pg.has_email in Hu. apply bool_decide_eq_false in Hu.
  apply not_elem_of_cons. split; [congruence|auto].
Qed.

(** What the [INSERT] of a user does: refused, it leaves every row as it
    was and takes one id at most; accepted, it adds one row, under the next
    id, with an address that no row had. *)
Lemma insert_user_outcome sql values w r w' :
  Pg.insert_user sql values w = (r, w') ->
  events (db w') = events (db w) /\ events_seq (db w') = events_seq (db w) /\
  tickets (db w') = tickets (db w) /\ sessions (db w') = sessions (db w) /\
  txn w' = txn w /\ now w' = now w /\ faults w' = faults w /\ queries w' = S (queries w) /\
  match r with
  | Throw _ =>
      users (db w') = users (db w) /\
      (users_seq (db w') = users_seq (db w) \/ users_seq (db w') = users_seq (db w) + 1)
  | Ok row =>
      faults w (queries w) = None /\
      users (db w') = users (db w) ++ [row] /\
      users_seq (db w') = users_seq (db w) + 1 /\
      u_id row = users_seq (db w) + 1 /\
      existsb (Pg.has_email (u_email row)) (users (db w)) = false /\
      u_is_active row = true /\
      u_created_at row = now w /\ u_updated_at row = now w /\
      exists e h fn ln rest,
        values = Pg.VText e :: Pg.VText h :: fn :: ln :: rest /\
        Pg.varchar 255 e = Some (u_email row) /\
        Pg.varchar 255 h = Some (u_password_hash row) /\
        Pg.varchar_or_null 100 fn = Some (u_first_name row) /\
        Pg.varchar_or_null 100 ln = Some (u_last_name row) /\
        Pg.role_of_values rest = Some (u_role row)
  end.
Proof.
  unfold Pg.insert_user, query, Pg.checked_bind.
  destruct (faults w (queries w)) eqn:Hf; [intros [= <- <-]; cbn; auto 12|].
  destruct (placeholders_eq_dec sql values) as [Hp|Hp]; rewrite Hp;
    [|intros [= <- <-]; cbn; auto 12].
  destruct values as [|[e| | |] [|[h| | |] [|fn [|ln rest]]]];
    try (intros [= <- <-]; cbn; auto 12).
  destruct (Pg.varchar 255 e) as [e'|] eqn:He; [|intros [= <- <-]; cbn; auto 12].
  destruct (Pg.varchar 255 h) as [h'|] eqn:Hh; [|intros [= <- <-]; cbn; auto 12].
  destruct (Pg.varchar_or_null 100 fn) as [fn'|] eqn:Hfn; [|intros [= <- <-]; cbn; auto 12].
  destruct (Pg.varchar_or_null 100 ln) as [ln'|] eqn:Hln; [|intros [= <- <-]; cbn; auto 12].
  destruct (Pg.role_of_values rest) as [role|] eqn:Hrole; [|intros [= <- <-]; cbn; auto 12].
  destruct (existsb (Pg.has_email e') (users (db w))) eqn:Hex;
    [intros [= <- <-]; cbn; auto 12|].
  intros [= <- <-]. cbn. repeat (split; [done|]). eauto 12.
Qed.

Lemma users_ok_skip d d' :
  users d' = users d ->
  users_seq d' = users_seq d \/ users_seq d' = users_seq d + 1 ->
  users_ok d -> users_ok d'.
Proof.
  unfold users_ok. intros -> Hseq (Hid & Hem & Hle). repeat (split; [done|]).
  eapply Forall_impl; [exact Hle|]. simpl. intros. lia.
Qed.

Lemma insert_user_users_ok sql values w :
  users_ok (db w) -> users_ok (db (snd (Pg.insert_user sql values w))).
Proof.
  intros Hok.
  destruct (Pg.insert_user sql values w) as [[row|e] w'] eqn:Hrun;
    apply insert_user_outcome in Hrun as (_ & _ & _ & _ & _ & _ & _ & _ & Hcase);
    cbn [snd].
  2:{ destruct Hcase as [Hu Hs]. by apply (users_ok_skip (db w)). }
  destruct Hcase as (_ & Hu & Hs & Hrow & Hex & _).
  destruct Hok as (Hid & Hem & Hseq). unfold users_ok. rewrite Hu, Hs.
  rewrite !map_app. cbn [map].
  split; [|split].
  - apply NoDup_app. split; [done|]. split; [|apply NoDup_singleton].
    intros i Hi Hi'. apply list_elem_of_singleton in Hi'. subst i.
    apply list_elem_of_In, in_map_iff in Hi as (u0 & Hu0 & Hin).
    apply list_elem_of_In in Hin.
    rewrite Forall_forall in Hseq. specialize (Hseq u0 Hin). lia.
  - apply NoDup_app. split; [done|]. split; [|apply NoDup_singleton].
    intros x Hx Hx'. apply list_elem_of_singleton in Hx'. subst x.
    by apply existsb_has_email in Hex.
  - apply Forall_app. split.
    + eapply Forall_impl; [exact Hseq|]. simpl. intros. lia.
    + constructor; [|done]. lia.
Qed.

Lemma issue_users `{Libraries} u dev w :
  users (db (snd (AuthService.issue u dev w))) = users (db w) /\
  users_seq (db (snd (AuthService.issue u dev w))) = users_seq (db w).
Proof.
  destruct (AuthService.issue u dev w) as [r w'] eqn:Hi. apply issue_run in Hi.
  cbn zeta in Hi. destruct r as [[p tok]|e].
  - destruct Hi as (_ & _ & _ & expiry & _ & -> & _). by destruct w, db0.
  - subst w'. done.
Qed.

Lemma register_users_ok `{Libraries} data dev w :
  users_ok (db w) -> users_ok (db (snd (AuthService.register data dev w))).
Proof.
  intros Hok. unfold AuthService.register, bind.
  destruct (query _ w) as [[rows|e] w1] eqn:Hq; apply query_read_db in Hq;
    [|cbn [snd]; by rewrite Hq].
  destruct (0 <? length rows)%nat; [unfold throw; cbn [snd]; by rewrite Hq|].
  rewrite <- Hq in Hok.
  pose proof (insert_user_users_ok AuthService.register_sql
    [Pg.VText (AuthService.r_email data);
     Pg.VText (bcrypt_hash (AuthService.r_password data) 10);
     Pg.text_or_null (AuthService.r_first_name data);
     Pg.text_or_null (AuthService.r_last_name data)] w1 Hok) as Hins.
  destruct (Pg.insert_user _ _ w1) as [[u|e] w2]; [|done].
  cbn [snd] in Hins. destruct (issue_users u dev w2) as [Hu Hs].
  by apply (users_ok_same (db w2)).
Qed.

Lemma createUser_users_ok `{Libraries} data w :
  users_ok (db w) -> users_ok (db (snd (UserService.createUser data w))).
Proof.
  intros Hok. unfold UserService.createUser, bind.
  destruct (query _ w) as [[rows|e] w1] eqn:Hq; apply query_read_db in Hq;
    [|cbn [snd]; by rewrite Hq].
  destruct (0 <? length rows)%nat; [unfold throw; cbn [snd]; by rewrite Hq|].
  rewrite <- Hq in Hok.
  pose proof (insert_user_users_ok UserService.createUser_sql
    [Pg.VText (UserService.cu_email data);
     Pg.VText (bcrypt_hash (UserService.cu_password data) 10);
     Pg.text_or_null (UserService.cu_first_name data);
     Pg.text_or_null (UserService.cu_last_name data);
     Pg.VText (role_name (default RoleUser (UserService.cu_role data)))] w1 Hok) as Hins.
  by destruct (Pg.insert_user _ _ w1) as [[u|e] w2].
Qed.

Lemma filter_map_NoDup {A B} `{EqDecision B} (f : A -> B) (keep : A -> bool) (l : list A) :
  NoDup (map f l) -> NoDup (map f (List.filter keep l)).
Proof.
  induction l as [|x l IH]; simpl; [done|].
  intros Hnd. apply NoDup_cons in Hnd as [Hx Hnd].
  destruct (keep x); simpl; [|by apply IH].
  apply NoDup_cons. split; [|by apply IH].
  intros Hin. apply Hx.
  apply list_elem_of_In, in_map_iff in Hin as (y & Hy & Hin).
  apply filter_In in Hin as [Hin _].
  apply list_elem_of_In, in_map_iff. eauto.
Qed.

Lemma deleteUser_users_ok `{Libraries} id w :
  users_ok (db w) -> users_ok (db (snd (UserService.deleteUser id w))).
Proof.
  intros Hok. unfold UserService.deleteUser, query.
  destruct (faults w (queries w)); [done|].
  unfold UserService.delete_user.
  destruct (negb _); [by destruct w|].
  destruct (bool_decide _); [by destruct w|].
  destruct w as [d tx q f t]. cbn [snd db with_db tick] in *.
  destruct Hok as (Hid & Hem & Hseq). unfold users_ok. cbn [users users_seq].
  split; [by apply filter_map_NoDup|]. split; [by apply filter_map_NoDup|].
  apply Forall_forall. intros u Hu. apply list_elem_of_In, filter_In in Hu as [Hu _].
  rewrite Forall_forall in Hseq. by apply Hseq, list_elem_of_In.
Qed.

Lemma apply_update_id `{Libraries} data t u : u_id (UserService.apply_update data t u) = u_id u.
Proof. done. Qed.

Lemma update_rows_ids `{Libraries} id data t us :
  map u_id (map (fun u => if UserService.has_id id u
                          then UserService.apply_update data t u else u) us) =
  map u_id us.
Proof.
  rewrite map_map. apply map_ext. intros u. by destruct (UserService.has_id id u).
Qed.

Lemma update_rows_emails `{Libraries} id data t us :
  NoDup (map u_id us) -> NoDup (map u_email us) ->
  (forall e, UserService.up_email data = Some e ->
     forall u, u ∈ us -> u_email u = e -> u_id u = id) ->
  NoDup (map u_email (map (fun u => if UserService.has_id id u
                                    then UserService.apply_update data t u else u) us)).
Proof.
  set (g := fun u => if UserService.has_id id u
                     then UserService.apply_update data t u else u).
  destruct (UserService.up_email data) as [e|] eqn:He.
  - intros Hid Hem Hfree. specialize (Hfree e eq_refl).
    assert (forall u, u_email (g u) = if UserService.has_id id u then e else u_email u) as Hg.
    { intros u. unfold g. destruct (UserService.has_id id u); [|done].
      unfold UserService.apply_update. simpl. by rewrite He. }
    induction us as [|u us IH]; simpl; [constructor|].
    simpl in Hid, Hem.
    apply NoDup_cons in Hid as [Hu_id Hid]. apply NoDup_cons in Hem as [Hu_em Hem].
    apply NoDup_cons. split.
    + intros Hin. apply list_elem_of_In in Hin. rewrite map_map in Hin.
      apply in_map_iff in Hin as (v & Hv & Hin). apply list_elem_of_In in Hin.
      rewrite !Hg in Hv. unfold UserService.has_id in Hv.
      case_bool_decide as Hvid; case_bool_decide as Huid.
      * apply Hu_id. apply list_elem_of_In, in_map_iff. exists v.
        split; [congruence|by apply list_elem_of_In].
      * apply Huid. apply Hfree; [left|]. done.
      * apply Hvid. apply Hfree; [by right|done].
      * apply Hu_em. apply list_elem_of_In, in_map_iff. exists v.
        split; [done|by apply list_elem_of_In].
    + apply IH; [done|done|]. intros v Hv. apply Hfree. by right.
  - intros _ Hem _. rewrite map_map.
    erewrite map_ext; [exact Hem|]. intros u. unfold g.
    destruct (UserService.has_id id u); [|done].
    unfold UserService.apply_update. simpl. by rewrite He.
Qed.

Lemma no_other_user e id us :
  (0 <? length (List.filter (fun u => Pg.has_email e u && negb (UserService.has_id id u)) us))%nat
    = false ->
  forall u, u ∈ us -> u_email u = e -> u_id u = id.
Proof.
  intros Hlen u Hin He.
  destruct (List.filter _ us) as [|x l] eqn:Hfil; [|done].
  destruct (decide (u_id u = id)) as [|Hne]; [done|]. exfalso.
  assert (In u (List.filter (fun u => Pg.has_email e u && negb (UserService.has_id id u)) us))
    as Hu.
  { apply filter_In. split; [by apply list_elem_of_In|].
    unfold Pg.has_email, UserService.has_id.
    rewrite bool_decide_eq_true_2 by done. by rewrite bool_decide_eq_false_2. }
  by rewrite Hfil in Hu.
Qed.

Lemma updateUser_users_ok `{Libraries} id data w :
  users_ok (db w) -> users_ok (db (snd (UserService.updateUser id data w))).
Proof.
  intros Hok. unfold UserService.updateUser, bind.
  assert (forall w1, db w1 = db w ->
            (forall e, UserService.up_email data = Some e ->
               forall u, u ∈ users (db w) -> u_email u = e -> u_id u = id) ->
            users_ok (db (snd
              ((if UserService.no_updates data then UserService.getUserById id
                else query (fun d t =>
                  (Ok (AuthService.public <$>
                         head (map (UserService.apply_update data t)
                                 (List.filter (UserService.has_id id) (users d)))),
                   set_users (map (fun u => if UserService.has_id id u
                                            then UserService.apply_update data t u else u)
                                (users d)) d))) w1)))) as Hrest.
  { intros w1 Hdb Hfree. destruct (UserService.no_updates data).
    - unfold UserService.getUserById.
      destruct (query _ w1) as [r w2] eqn:Hq. apply query_read_db in Hq.
      cbn [snd]. by rewrite Hq, Hdb.
    - unfold query. destruct (faults w1 (queries w1)); [cbn [snd tick db]; by rewrite Hdb|].
      cbn [snd]. destruct w1 as [d1 tx q f t]. cbn [db with_db tick] in *. subst d1.
      destruct Hok as (Hid & Hem & Hseq). unfold users_ok.
      destruct (db w) as [us useq evs eseq tks ss]. cbn [users users_seq set_users] in *.
      split; [by rewrite update_rows_ids|]. split; [by apply update_rows_emails|].
      apply Forall_forall. intros u Hu. apply list_elem_of_In, in_map_iff in Hu as (v & <- & Hv).
      rewrite Forall_forall in Hseq. apply list_elem_of_In in Hv. specialize (Hseq v Hv).
      by destruct (UserService.has_id id v). }
  destruct (UserService.up_email data) as [e|] eqn:He.
  - destruct (query _ w) as [[rows|err] w1] eqn:Hq.
    + pose proof Hq as Hrows. apply query_read_db in Hq.
      unfold query in Hrows. destruct (faults w (queries w)); [done|].
      injection Hrows as <- _.
      destruct (0 <? length _)%nat eqn:Hlen; [unfold throw; cbn [snd]; by rewrite Hq|].
      unfold ret. apply Hrest; [done|].
      intros e' [= <-]. by apply no_other_user.
    + apply query_read_db in Hq. cbn [snd]. by rewrite Hq.
  - unfold ret. apply Hrest; [done|]. intros e' [=].
Qed.

(** X8. No two users share an id or an address: registration, the
    creation of a user by an admin, the update of a user (which may change
    the address) and the deletion of a user keep the ids distinct, the
    addresses distinct and the sequence ahead of the ids, whether they
    succeed or fail. *)
Theorem users_stay_distinct `{Libraries} w :
  users_ok (db w) ->
  (forall data dev, users_ok (db (snd (AuthService.register data dev w)))) /\
  (forall data, users_ok (db (snd (UserService.createUser data w)))) /\
  (forall id data, users_ok (db (snd (UserService.updateUser id data w)))) /\
  (forall id, users_ok (db (snd (UserService.deleteUser id w)))).
Proof.
  intros Hok. split; [|split; [|split]].
  - intros data dev. by apply register_users_ok.
  - intros data. by apply createUser_users_ok.
  - intros id data. by apply updateUser_users_ok.
  - intros id. by apply deleteUser_users_ok.
Qed.

Lemma users_stay_distinct_witness :
  let w := Scenario.world (Scenario.database 5 Upcoming) Scenario.no_faults 1000 in
  (forall data dev,
     users_ok (db (snd (AuthService.register (H := Scenario.libraries) data dev w)))) /\
  (forall data, users_ok (db (snd (UserService.createUser (H := Scenario.libraries) data w)))) /\
  (forall id data,
     users_ok (db (snd (UserService.updateUser (H := Scenario.libraries) id data w)))) /\
  (forall id, users_ok (db (snd (UserService.deleteUser id w)))).
Proof.
  apply (users_stay_distinct (H := Scenario.libraries)
           (Scenario.world (Scenario.database 5 Upcoming) Scenario.no_faults 1000)).
  unfold users_ok. simpl. split; [|split].
  - apply NoDup_singleton.
  - apply NoDup_singleton.
  - repeat constructor. simpl. lia.
Defined.

(** ** Registration *)

Lemma filter_has_email_nil e us :
  existsb (Pg.has_email e) us = false -> List.filter (Pg.has_email e) us = [].
Proof.
  induction us as [|u us IH]; simpl; [done|].
  intros Hx. apply orb_false_iff in Hx as [-> Hx]. auto.
Qed.

Lemma filter_has_email_app e us row :
  u_email row = e ->
  (0 <? length (List.filter (Pg.has_email e) (us ++ [row])))%nat = true.
Proof.
  intros He. rewrite List.filter_app, length_app. simpl.
  unfold Pg.has_email. rewrite bool_decide_eq_true_2 by done. simpl.
  apply Nat.ltb_lt. lia.
Qed.

Lemma issue_fault `{Libraries} u dev w e :
  faults w (queries w) = Some e -> AuthService.issue u dev w = (Throw e, tick w).
Proof.
  intros Hf. unfold AuthService.issue, bind. cbn [Date_now].
  destruct (getExpirationDate_reads w) as [expiry Hexp].
  rewrite (Hexp w eq_refl). unfold SessionService.createSession.
  by rewrite query_fault with (e := e).
Qed.

Lemma varchar_fits n s : (String.length s <= n)%nat -> Pg.varchar n s = Some s.
Proof. intros Hn. unfold Pg.varchar. by destruct (Nat.leb_spec (String.length s) n); [|lia]. Qed.

(** The [INSERT] of a user whose values fit, whose role is known and whose
    address is free. *)
Lemma insert_user_run sql e h fn ln rest fn' ln' r w :
  faults w (queries w) = None ->
  Pg.placeholders sql = length (Pg.VText e :: Pg.VText h :: fn :: ln :: rest) ->
  (String.length e <= 255)%nat ->
  (String.length h <= 255)%nat ->
  Pg.varchar_or_null 100 fn = Some fn' ->
  Pg.varchar_or_null 100 ln = Some ln' ->
  Pg.role_of_values rest = Some r ->
  existsb (Pg.has_email e) (users (db w)) = false ->
  Pg.insert_user sql (Pg.VText e :: Pg.VText h :: fn :: ln :: rest) w =
  (Ok (mkUser (users_seq (db w) + 1) e h fn' ln' r true (now w) (now w)),
   with_db (mkDb (users (db w) ++
                    [mkUser (users_seq (db w) + 1) e h fn' ln' r true (now w) (now w)])
                 (users_seq (db w) + 1) (events (db w)) (events_seq (db w))
                 (tickets (db w)) (sessions (db w)))
           (tick w)).
Proof.
  intros Hf Hp He Hh Hfn Hln Hr Hex.
  unfold Pg.insert_user. rewrite query_run by done. unfold Pg.checked_bind.
  rewrite Hp, Nat.eqb_refl, (varchar_fits 255 e), (varchar_fits 255 h), Hfn, Hln, Hr, Hex by done.
  reflexivity.
Qed.

(** X9. Registration is not undone when the session cannot be recorded:
    if the two statements on the users succeed (the address is free, the
    values fit their columns, the store answers) and the insertion of the
    session fails, the call throws, yet the user is there, with the role
    [user], and no session; the same registration is then refused because
    the address is taken. *)
Theorem registration_is_not_atomic `{Libraries} data dev w e :
  faults w (queries w) = None ->
  faults w (S (queries w)) = None ->
  faults w (S (S (queries w))) = Some e ->
  existsb (Pg.has_email (AuthService.r_email data)) (users (db w)) = false ->
  fits_users data ->
  exists row w',
    AuthService.register data dev w = (Throw e, w') /\
    users (db w') = users (db w) ++ [row] /\
    u_email row = AuthService.r_email data /\
    u_role row = RoleUser /\ u_is_active row = true /\
    sessions (db w') = sessions (db w) /\
    forall dev2 w2, db w2 = db w' -> faults w2 (queries w2) = None ->
      fst (AuthService.register data dev2 w2) =
      Throw (Error "User with this email already exists").
Proof.
  intros Hf0 Hf1 Hf2 Hfree (Hemail & Hhash & [fn Hfn] & [ln Hln]).
  unfold AuthService.register, bind.
  rewrite query_run by done. cbn [fst snd].
  rewrite (filter_has_email_nil _ _ Hfree). change (0 <? length (@nil User))%nat with false.
  cbv iota beta.
  rewrite (insert_user_run _ _ _ _ _ _ fn ln RoleUser); try done;
    try (by rewrite register_sql_placeholders).
  rewrite issue_fault with (e := e) by done.
  eexists _, _. split; [reflexivity|].
  cbn [db with_db tick users sessions u_email u_role u_is_active].
  repeat (split; [done|]).
  intros dev2 w2 Hdb Hf. rewrite query_run by done. cbn [fst snd]. rewrite Hdb.
  cbn [db with_db tick users].
  by rewrite filter_has_email_app.
Qed.

Lemma registration_is_not_atomic_witness :
  let data := AuthService.mkRegisterDto "bob@example.com" "Password123" None None in
  let dev := AuthService.mkDeviceInfo None None in
  let w := Scenario.world (Scenario.database 5 Upcoming) (Scenario.fault_at 2) 1000 in
  exists row w',
    AuthService.register (H := Scenario.libraries) data dev w =
      (Throw Scenario.connection_lost, w') /\
    users (db w') = users (db w) ++ [row] /\
    u_email row = AuthService.r_email data /\
    u_role row = RoleUser /\ u_is_active row = true /\
    sessions (db w') = sessions (db w) /\
    forall dev2 w2, db w2 = db w' -> faults w2 (queries w2) = None ->
      fst (AuthService.register (H := Scenario.libraries) data dev2 w2) =
      Throw (Error "User with this email already exists").
Proof.
  apply (registration_is_not_atomic (H := Scenario.libraries)
           (AuthService.mkRegisterDto "bob@example.com" "Password123" None None)
           (AuthService.mkDeviceInfo None None)
           (Scenario.world (Scenario.database 5 Upcoming) (Scenario.fault_at 2) 1000)
           Scenario.connection_lost); try reflexivity.
  unfold fits_users. simpl. repeat split; try lia; eauto.
Defined.

(** ** Privileges of the routes *)

Lemma same_records_refl d : same_records d d.
Proof. by unfold same_records. Qed.

Lemma same_records_sessions d ss : same_records d (set_sessions ss d).
Proof. by destruct d. Qed.

Lemma same_records_trans d1 d2 d3 :
  same_records d1 d2 -> same_records d2 d3 -> same_records d1 d3.
Proof.
  unfold same_records. intros (-> & -> & -> & -> & ->) (-> & -> & -> & -> & ->). done.
Qed.

(** What the gate does with a request: it answers 401 or 500, or it passes
    the request on with the identity of a token that the library verified;
    of the database it writes the ledger only. *)
Lemma authenticate_outcome `{Libraries} {B} (req : Request B) w :
  same_records (db w) (db (snd (Middleware.authenticate req w))) /\
  match fst (Middleware.authenticate req w) with
  | Respond r => status r = 401 \/ status r = 500
  | Next req' =>
      exists header decoded,
        authorization req = Some header /\
        jwt_verify (Middleware.extract_token header) (now w) = Ok decoded /\
        req' = Middleware.attach req (identity decoded)
  end.
Proof.
  destruct (authorization req) as [header|] eqn:Hauth.
  - destruct (truthy header) eqn:Hh.
    + destruct (truthy (Middleware.extract_token header)) eqn:Ht.
      * rewrite (authenticate_with_token req w header Hauth Hh Ht). cbn zeta.
        destruct (jwt_verify _ (now w)) as [decoded|error] eqn:Hv.
        -- destruct (faults w (queries w)).
           { cbn [fst snd]. split; [by destruct w|]. by right. }
           destruct (honoured _ _).
           ++ destruct (faults w (S (queries w))).
              { cbn [fst snd]. split; [by destruct w|]. by right. }
              cbn [fst snd]. split; [destruct w; apply same_records_sessions|].
              exists header, decoded. done.
           ++ cbn [fst snd]. split; [by destruct w|]. by left.
        -- repeat case_bool_decide; cbn [fst snd];
             (split; [apply same_records_refl|]); auto.
      * destruct (authenticate_without_token req w) as [msg Hmsg].
        { rewrite Hauth. by right. }
        rewrite Hmsg. cbn [fst snd]. split; [apply same_records_refl|]. by left.
    + destruct (authenticate_without_token req w) as [msg Hmsg].
      { rewrite Hauth. by left. }
      rewrite Hmsg. cbn [fst snd]. split; [apply same_records_refl|]. by left.
  - destruct (authenticate_without_token req w) as [msg Hmsg].
    { by rewrite Hauth. }
    rewrite Hmsg. cbn [fst snd]. split; [apply same_records_refl|]. by left.
Qed.

(** The gate leaves the clock and the open transaction as they are. *)
Lemma authenticate_frame `{Libraries} {B} (req : Request B) w :
  txn (snd (Middleware.authenticate req w)) = txn w /\
  now (snd (Middleware.authenticate req w)) = now w /\
  faults (snd (Middleware.authenticate req w)) = faults w.
Proof.
  destruct (authorization req) as [header|] eqn:Hauth.
  - destruct (truthy header) eqn:Hh.
    + destruct (truthy (Middleware.extract_token header)) eqn:Ht.
      * rewrite (authenticate_with_token req w header Hauth Hh Ht). cbn zeta.
        destruct (jwt_verify _ (now w)) as [decoded|error] eqn:Hv.
        -- destruct (faults w (queries w)); [done|].
           destruct (honoured _ _); [|done].
           by destruct (faults w (S (queries w))).
        -- by repeat case_bool_decide.
      * destruct (authenticate_without_token req w) as [msg Hmsg].
        { rewrite Hauth. by right. }
        by rewrite Hmsg.
    + destruct (authenticate_without_token req w) as [msg Hmsg].
      { rewrite Hauth. by left. }
      by rewrite Hmsg.
  - destruct (authenticate_without_token req w) as [msg Hmsg].
    { by rewrite Hauth. }
    by rewrite Hmsg.
Qed.

(** A route behind the gate and [authorize("admin")] turns away every
    request without the token of an admin, whatever its handler is. *)
Lemma admin_route_turns_away `{Libraries} {B} (handler : Routes.Handler B) (req : Request B) w :
  no_admin_token (authorization req) w ->
  turned_away
    (status (fst (Routes.route [Middleware.authenticate; Middleware.authorize ["admin"]]
                    handler req w))) /\
  same_records (db w)
    (db (snd (Routes.route [Middleware.authenticate; Middleware.authorize ["admin"]]
                handler req w))).
Proof.
  intros Hno. cbn [Routes.route].
  destruct (authenticate_outcome req w) as [Hdb Hg].
  destruct (Middleware.authenticate req w) as [[r|req'] w1]; cbn [fst snd] in *.
  - split; [|done]. unfold turned_away. destruct Hg; auto.
  - destruct Hg as (header & decoded & Hauth & Hv & ->).
    pose proof (Hno header decoded Hauth Hv) as Hrole.
    unfold Middleware.authorize, Middleware.attach, identity. cbn [user role].
    rewrite Hrole. cbn [role_name].
    rewrite bool_decide_eq_false_2.
    + cbn [negb fst snd status]. split; [|done]. unfold turned_away. auto.
    + intros Hin. apply list_elem_of_singleton in Hin. done.
Qed.

(** X10. The events are changed by admins only: a request that carries
    no token that the library verifies for an admin is turned away from the
    creation, the update and the deletion of an event with 401, 403 or 500,
    and leaves the events, the tickets and the users as they are. *)
Theorem events_are_changed_by_admins_only `{Libraries} (auth : option string) w :
  no_admin_token auth w ->
  (forall req, authorization req = auth ->
     turned_away (status (fst (Routes.post_event req w))) /\
     same_records (db w) (db (snd (Routes.post_event req w)))) /\
  (forall req, authorization req = auth ->
     turned_away (status (fst (Routes.put_event req w))) /\
     same_records (db w) (db (snd (Routes.put_event req w)))) /\
  (forall req, authorization req = auth ->
     turned_away (status (fst (Routes.delete_event req w))) /\
     same_records (db w) (db (snd (Routes.delete_event req w)))).
Proof.
  intros Hno. split; [|split]; intros req Hauth; rewrite <- Hauth in Hno.
  - by apply (admin_route_turns_away EventController.createEvent).
  - by apply (admin_route_turns_away EventController.updateEvent).
  - by apply (admin_route_turns_away EventController.deleteEvent).
Qed.

Lemma events_are_changed_by_admins_only_witness :
  let auth := Some ("Bearer " +:+ Scenario.alice_token) in
  let w := Scenario.later Scenario.logged_in Scenario.no_faults 2000 in
  (forall req, authorization req = auth ->
     turned_away (status (fst (Routes.post_event (H := Scenario.libraries) req w))) /\
     same_records (db w) (db (snd (Routes.post_event (H := Scenario.libraries) req w)))) /\
  (forall req, authorization req = auth ->
     turned_away (status (fst (Routes.put_event (H := Scenario.libraries) req w))) /\
     same_records (db w) (db (snd (Routes.put_event (H := Scenario.libraries) req w)))) /\
  (forall req, authorization req = auth ->
     turned_away (status (fst (Routes.delete_event (H := Scenario.libraries) req w))) /\
     same_records (db w) (db (snd (Routes.delete_event (H := Scenario.libraries) req w)))).
Proof.
  apply (events_are_changed_by_admins_only (H := Scenario.libraries)
           (Some ("Bearer " +:+ Scenario.alice_token))
           (Scenario.later Scenario.logged_in Scenario.no_faults 2000)).
  intros header decoded [= <-]. vm_compute. intros [= <-]. reflexivity.
Defined.

Lemma updateUser_effect `{Libraries} id data w :
  events (db (snd (UserService.updateUser id data w))) = events (db w) /\
  events_seq (db (snd (UserService.updateUser id data w))) = events_seq (db w) /\
  users_seq (db (snd (UserService.updateUser id data w))) = users_seq (db w) /\
  tickets (db (snd (UserService.updateUser id data w))) = tickets (db w) /\
  sessions (db (snd (UserService.updateUser id data w))) = sessions (db w) /\
  (users (db (snd (UserService.updateUser id data w))) = users (db w) \/
   exists t,
     users (db (snd (UserService.updateUser id data w))) =
     map (fun u => if UserService.has_id id u then UserService.apply_update data t u else u)
       (users (db w))).
Proof.
  unfold UserService.updateUser, bind.
  assert (forall w1, db w1 = db w ->
    let w' := snd
      ((if UserService.no_updates data then UserService.getUserById id
        else query (fun d t =>
          (Ok (AuthService.public <$>
                 head (map (UserService.apply_update data t)
                         (List.filter (UserService.has_id id) (users d)))),
           set_users (map (fun u => if UserService.has_id id u
                                    then UserService.apply_update data t u else u)
                        (users d)) d))) w1) in
    events (db w') = events (db w) /\ events_seq (db w') = events_seq (db w) /\
    users_seq (db w') = users_seq (db w) /\ tickets (db w') = tickets (db w) /\
    sessions (db w') = sessions (db w) /\
    (users (db w') = users (db w) \/
     exists t, users (db w') =
       map (fun u => if UserService.has_id id u then UserService.apply_update data t u else u)
         (users (db w)))) as Hrest.
  { intros w1 Hdb. cbn zeta. destruct (UserService.no_updates data).
    - unfold UserService.getUserById.
      destruct (query _ w1) as [r w2] eqn:Hq. apply query_read_db in Hq.
      cbn [snd]. rewrite Hq, Hdb. repeat (split; [done|]). by left.
    - unfold query. destruct (faults w1 (queries w1)).
      { cbn [snd tick db]. rewrite Hdb. repeat (split; [done|]). by left. }
      cbn [snd]. destruct w1 as [d1 tx q f t]. cbn [db with_db tick now] in *. subst d1.
      destruct (db w) as [us useq evs eseq tks ss]. cbn.
      repeat (split; [done|]). right. by exists t. }
  destruct (UserService.up_email data) as [e|].
  - destruct (query _ w) as [[rows|err] w1] eqn:Hq; apply query_read_db in Hq.
    + destruct (0 <? length rows)%nat.
      * unfold throw. cbn [snd]. rewrite Hq. repeat (split; [done|]). by left.
      * unfold ret. by apply Hrest.
    + cbn [snd]. rewrite Hq. repeat (split; [done|]). by left.
  - unfold ret. by apply Hrest.
Qed.

Lemma Forall2_map_same {A} (R : A -> A -> Prop) (g : A -> A) (l : list A) :
  (forall x, R x (g x)) -> Forall2 R l (map g l).
Proof. intros Hg. induction l; simpl; constructor; auto. Qed.

Lemma Forall2_same {A} (R : A -> A -> Prop) (l : list A) :
  (forall x, R x x) -> Forall2 R l l.
Proof. intros Hr. induction l; constructor; auto. Qed.

(** A user route behind the gate and [authorize("admin")] turns away every
    request without the token of an admin. *)
Lemma admin_user_route_turns_away `{Libraries} {B} (handler : UserRoutes.Handler B)
    (req : Request B) w :
  no_admin_token (authorization req) w ->
  turned_away
    (UserController.code_of
       (fst (UserRoutes.route [Middleware.authenticate; Middleware.authorize ["admin"]]
               handler req w))) /\
  same_records (db w)
    (db (snd (UserRoutes.route [Middleware.authenticate; Middleware.authorize ["admin"]]
                handler req w))).
Proof.
  intros Hno. cbn [UserRoutes.route].
  destruct (authenticate_outcome req w) as [Hdb Hg].
  destruct (Middleware.authenticate req w) as [[r|req'] w1]; cbn [fst snd] in *.
  - split; [|done]. unfold turned_away. cbn. destruct Hg; auto.
  - destruct Hg as (header & decoded & Hauth & Hv & ->).
    pose proof (Hno header decoded Hauth Hv) as Hrole.
    unfold Middleware.authorize, Middleware.attach, identity. cbn [user role].
    rewrite Hrole. cbn [role_name].
    rewrite bool_decide_eq_false_2.
    + cbn [negb fst snd status UserController.code_of]. split; [|done].
      unfold turned_away. auto.
    + intros Hin. apply list_elem_of_singleton in Hin. done.
Qed.

(** X11. Without the token of an admin a request changes no role and no
    active flag, and no profile but the one of the user of its token: the
    update of a user leaves every row in place with its id, its role and
    its flag, and the rows of the other users as they are; the creation and
    the deletion of a user are turned away; the events and the tickets are
    left as they are. *)
Theorem users_change_their_own_profile_only `{Libraries} (auth : option string) w :
  no_admin_token auth w ->
  (forall req, authorization req = auth ->
     Forall2 (fun u u' =>
                u_id u' = u_id u /\ u_role u' = u_role u /\ u_is_active u' = u_is_active u /\
                (forall header decoded,
                   auth = Some header ->
                   jwt_verify (Middleware.extract_token header) (now w) = Ok decoded ->
                   u_id u <> jwt_userId decoded -> u' = u))
       (users (db w)) (users (db (snd (UserRoutes.put_user req w)))) /\
     events (db (snd (UserRoutes.put_user req w))) = events (db w) /\
     tickets (db (snd (UserRoutes.put_user req w))) = tickets (db w)) /\
  (forall req, authorization req = auth ->
     turned_away (UserController.code_of (fst (UserRoutes.post_user req w))) /\
     same_records (db w) (db (snd (UserRoutes.post_user req w)))) /\
  (forall req, authorization req = auth ->
     turned_away (UserController.code_of (fst (UserRoutes.delete_user req w))) /\
     same_records (db w) (db (snd (UserRoutes.delete_user req w)))).
Proof.
  intros Hno. split; [|split]; intros req Hauth.
  - unfold UserRoutes.put_user. cbn [UserRoutes.route].
    assert (forall d', same_records (db w) d' ->
              Forall2 (fun u u' =>
                u_id u' = u_id u /\ u_role u' = u_role u /\ u_is_active u' = u_is_active u /\
                (forall header decoded,
                   auth = Some header ->
                   jwt_verify (Middleware.extract_token header) (now w) = Ok decoded ->
                   u_id u <> jwt_userId decoded -> u' = u))
                (users (db w)) (users d') /\
              events d' = events (db w) /\ tickets d' = tickets (db w)) as Hsame.
    { intros d' (-> & _ & -> & _ & ->). split; [|done]. by apply Forall2_same. }
    destruct (authenticate_outcome req w) as [Hdb Hg].
    destruct (Middleware.authenticate req w) as [[r|req'] w1]; cbn [fst snd] in *.
    { by apply Hsame. }
    destruct Hg as (header & decoded & Hh & Hv & ->).
    rewrite Hauth in Hh.
    pose proof (Hno header decoded Hh Hv) as Hrole.
    unfold UserRoutes.own_profile, UserController.not_admin.
    cbn [Middleware.attach user param identity fmap option_fmap option_map role userId].
    rewrite Hrole. rewrite bool_decide_eq_false_2 by done. cbn [negb andb].
    destruct (parseInt (param req)) as [id|] eqn:Hid; cbn [UserRoutes.same_user];
      [|cbn [negb snd]; by apply Hsame].
    case_bool_decide as Hown; cbn [negb snd]; [|by apply Hsame]. subst id.
    unfold UserController.updateUser, UserController.not_admin.
    cbn [Middleware.attach user param body identity fmap option_fmap option_map role].
    rewrite Hid, Hrole. rewrite bool_decide_eq_false_2 by done. cbn [negb andb].
    destruct (UserService.up_role (body req)) as [r|] eqn:Hr;
      [rewrite bool_decide_eq_false_2 by done; cbn [negb snd]; by apply Hsame|].
    rewrite bool_decide_eq_true_2 by done. cbn [negb].
    destruct (UserService.up_is_active (body req)) as [a|] eqn:Ha;
      [rewrite bool_decide_eq_false_2 by done; cbn [negb snd]; by apply Hsame|].
    rewrite bool_decide_eq_true_2 by done. cbn [negb].
    pose proof (updateUser_effect (jwt_userId decoded) (body req) w1)
      as (Hev & _ & _ & Htk & _ & Hus).
    destruct Hdb as (Hu1 & _ & He1 & _ & Ht1).
    assert (db (snd (let (r, w') := UserService.updateUser (jwt_userId decoded) (body req) w1 in
                     match r with
                     | Ok (Some u) => (UserController.WithUser 200 "User updated successfully" u, w')
                     | Ok None => (UserController.not_found, w')
                     | Throw error =>
                         (UserController.failure "taken" "Failed to update user" error, w')
                     end)) =
            db (snd (UserService.updateUser (jwt_userId decoded) (body req) w1))) as ->.
    { by destruct (UserService.updateUser _ _ w1) as [[[u|]|e] w2]. }
    rewrite Hev, Htk, He1, Ht1. split; [|done].
    destruct Hus as [-> | [t ->]]; rewrite Hu1.
    + by apply Forall2_same.
    + apply Forall2_map_same. intros u. unfold UserService.has_id.
      case_bool_decide as Hu.
      * unfold UserService.apply_update. cbn. rewrite Hr, Ha. cbn.
        repeat (split; [done|]). intros header' decoded' Hh' Hv' Hne.
        rewrite Hh in Hh'. injection Hh' as <-. rewrite Hv in Hv'. injection Hv' as <-. done.
      * done.
  - rewrite <- Hauth in Hno.
    by apply (admin_user_route_turns_away UserController.createUser).
  - rewrite <- Hauth in Hno.
    by apply (admin_user_route_turns_away UserController.deleteUser).
Qed.

Lemma users_change_their_own_profile_only_witness :
  let auth := Some ("Bearer " +:+ Scenario.alice_token) in
  let w := Scenario.later Scenario.logged_in Scenario.no_faults 2000 in
  (forall req, authorization req = auth ->
     Forall2 (fun u u' =>
                u_id u' = u_id u /\ u_role u' = u_role u /\ u_is_active u' = u_is_active u /\
                (forall header decoded,
                   auth = Some header ->
                   jwt_verify (Libraries := Scenario.libraries)
                     (Middleware.extract_token header) (now w) = Ok decoded ->
                   u_id u <> jwt_userId decoded -> u' = u))
       (users (db w))
       (users (db (snd (UserRoutes.put_user (H := Scenario.libraries) req w)))) /\
     events (db (snd (UserRoutes.put_user (H := Scenario.libraries) req w))) = events (db w) /\
     tickets (db (snd (UserRoutes.put_user (H := Scenario.libraries) req w))) = tickets (db w)) /\
  (forall req, authorization req = auth ->
     turned_away (UserController.code_of
                    (fst (UserRoutes.post_user (H := Scenario.libraries) req w))) /\
     same_records (db w) (db (snd (UserRoutes.post_user (H := Scenario.libraries) req w)))) /\
  (forall req, authorization req = auth ->
     turned_away (UserController.code_of
                    (fst (UserRoutes.delete_user (H := Scenario.libraries) req w))) /\
     same_records (db w) (db (snd (UserRoutes.delete_user (H := Scenario.libraries) req w)))).
Proof.
  apply (users_change_their_own_profile_only (H := Scenario.libraries)
           (Some ("Bearer " +:+ Scenario.alice_token))
           (Scenario.later Scenario.logged_in Scenario.no_faults 2000)).
  intros header decoded [= <-]. vm_compute. intros [= <-]. reflexivity.
Defined.

Lemma scenario_profile :
  let w := Scenario.later Scenario.logged_in Scenario.no_faults 2000 in
  let rename := UserService.mkUpdateUserDto None None (Some "Al") None None None in
  let promote := UserService.mkUpdateUserDto None None None None (Some RoleAdmin) None in
  let own (b : UserService.UpdateUserDto) :=
    mkRequest (Some ("Bearer " +:+ Scenario.alice_token)) None "7" None b Scenario.browser in
  let other (b : UserService.UpdateUserDto) :=
    mkRequest (Some ("Bearer " +:+ Scenario.alice_token)) None "8" None b Scenario.browser in
  UserController.code_of (fst (UserRoutes.put_user (H := Scenario.libraries) (own rename) w))
    = 200 /\
  map u_first_name
    (users (db (snd (UserRoutes.put_user (H := Scenario.libraries) (own rename) w))))
    = [Some "Al"] /\
  UserController.code_of (fst (UserRoutes.put_user (H := Scenario.libraries) (own promote) w))
    = 403 /\
  UserController.code_of (fst (UserRoutes.put_user (H := Scenario.libraries) (other rename) w))
    = 403.
Proof. vm_compute. done. Qed.

(** ** Deletion of a user and of an event *)

Lemma filter_has_hash_nil h id ss :
  Forall (fun s => token_hash s = h -> s_user_id s = id) ss ->
  List.filter (SessionService.has_hash h)
    (List.filter (fun s => negb (bool_decide (s_user_id s = id))) ss) = [].
Proof.
  induction 1 as [|s ss Hs _ IH]; simpl; [done|].
  case_bool_decide as Hu; simpl; [done|].
  unfold SessionService.has_hash at 1. case_bool_decide as Hh; [by apply Hs in Hh|done].
Qed.

Lemma existsb_has_id_false id us :
  existsb (UserService.has_id id) us = false -> Forall (fun u => u_id u <> id) us.
Proof.
  induction us as [|u us IH]; simpl; [constructor|].
  intros Hx. apply orb_false_iff in Hx as [Hu Hx].
  constructor; [|auto]. unfold UserService.has_id in Hu. by apply bool_decide_eq_false in Hu.
Qed.

Lemma filter_negb_Forall {A} (f : A -> bool) (l : list A) :
  Forall (fun x => f x = false) (List.filter (fun x => negb (f x)) l).
Proof.
  apply Forall_forall. intros x Hx. apply list_elem_of_In, filter_In in Hx as [_ Hx].
  by apply negb_true_iff.
Qed.

(** X12. The deletion of a user leaves no reference to the user: when it
    answers [true] the user existed and had created no event, no user, no
    session and no ticket names the id any more, the tickets are all kept
    (without their purchaser), the other users and the other sessions are
    kept as they were, the events are untouched, and no token whose ledger
    rows belonged to the user is honoured; when it answers [false] or
    throws, nothing is changed. *)
Theorem deleted_user_leaves_no_reference id w r w' :
  UserService.deleteUser id w = (r, w') ->
  match r with
  | Ok true =>
      Exists (fun u => u_id u = id) (users (db w)) /\
      map_Forall (fun _ e => e_created_by e <> Some id) (events (db w)) /\
      Forall (fun u => u_id u <> id) (users (db w')) /\
      Forall (fun s => s_user_id s <> id) (sessions (db w')) /\
      Forall (fun t => t_user_id t <> Some id) (tickets (db w')) /\
      Forall2 (fun t t' =>
                 t_event_id t' = t_event_id t /\ t_title t' = t_title t /\
                 quantity t' = quantity t /\ purchase_price t' = purchase_price t /\
                 (t_user_id t <> Some id -> t' = t))
        (tickets (db w)) (tickets (db w')) /\
      users (db w') = List.filter (fun u => negb (bool_decide (u_id u = id))) (users (db w)) /\
      sessions (db w') =
        List.filter (fun s => negb (bool_decide (s_user_id s = id))) (sessions (db w)) /\
      events (db w') = events (db w) /\
      (forall h t,
         Forall (fun s => token_hash s = h -> s_user_id s = id) (sessions (db w)) ->
         honoured t (head (List.filter (SessionService.has_hash h) (sessions (db w')))) = false)
  | Ok false => db w' = db w /\ Forall (fun u => u_id u <> id) (users (db w))
  | Throw e => db w' = db w
  end.
Proof.
  unfold UserService.deleteUser, query.
  destruct (faults w (queries w)) as [e|]; [by intros [= <- <-]|].
  unfold UserService.delete_user.
  destruct (existsb (UserService.has_id id) (users (db w))) eqn:Hex; cbn [negb].
  - case_bool_decide as Hev.
    + intros [= <- <-]. by destruct w.
    + intros [= <- <-]. destruct w as [d tx q f t]. cbn [db with_db tick].
      cbn [users sessions tickets events].
      split; [|split; [|split; [|split; [|split; [|split; [|split; [|split; [|split]]]]]]]].
      * apply existsb_exists in Hex as (u & Hin & Hu). apply Exists_exists. exists u.
        split; [by apply list_elem_of_In|]. unfold UserService.has_id in Hu.
        by apply bool_decide_eq_true in Hu.
      * intros k ev Hk Hc. apply Hev. by exists k, ev.
      * eapply Forall_impl; [apply (filter_negb_Forall (UserService.has_id id))|].
        intros u Hu. simpl in Hu. unfold UserService.has_id in Hu.
        by apply bool_decide_eq_false in Hu.
      * eapply Forall_impl;
          [apply (filter_negb_Forall (fun s => bool_decide (s_user_id s = id)))|].
        intros s Hs. simpl in Hs. by apply bool_decide_eq_false in Hs.
      * apply Forall_forall. intros tk Htk.
        apply list_elem_of_In, in_map_iff in Htk as (tk0 & <- & _).
        unfold UserService.orphan. case_bool_decide; [done|done].
      * apply Forall2_map_same. intros tk. unfold UserService.orphan.
        case_bool_decide; [|done]. cbn. repeat (split; [done|]). done.
      * done.
      * done.
      * done.
      * intros h t' Hown. by rewrite filter_has_hash_nil.
  - intros [= <- <-]. split; [by destruct w|]. by apply existsb_has_id_false.
Qed.

Lemma deleted_user_leaves_no_reference_witness :
  let w := Scenario.later Scenario.logged_in Scenario.no_faults 2000 in
  let w' := snd (UserService.deleteUser 7 w) in
  Exists (fun u => u_id u = 7) (users (db w)) /\
  map_Forall (fun _ e => e_created_by e <> Some 7) (events (db w)) /\
  Forall (fun u => u_id u <> 7) (users (db w')) /\
  Forall (fun s => s_user_id s <> 7) (sessions (db w')) /\
  Forall (fun t => t_user_id t <> Some 7) (tickets (db w')) /\
  Forall2 (fun t t' =>
             t_event_id t' = t_event_id t /\ t_title t' = t_title t /\
             quantity t' = quantity t /\ purchase_price t' = purchase_price t /\
             (t_user_id t <> Some 7 -> t' = t))
    (tickets (db w)) (tickets (db w')) /\
  users (db w') = List.filter (fun u => negb (bool_decide (u_id u = 7))) (users (db w)) /\
  sessions (db w') =
    List.filter (fun s => negb (bool_decide (s_user_id s = 7))) (sessions (db w)) /\
  events (db w') = events (db w) /\
  (forall h t,
     Forall (fun s => token_hash s = h -> s_user_id s = 7) (sessions (db w)) ->
     honoured t (head (List.filter (SessionService.has_hash h) (sessions (db w')))) = false).
Proof.
  apply (deleted_user_leaves_no_reference 7
           (Scenario.later Scenario.logged_in Scenario.no_faults 2000)
           (Ok true)
           (snd (UserService.deleteUser 7
                   (Scenario.later Scenario.logged_in Scenario.no_faults 2000)))).
  vm_compute. reflexivity.
Defined.

(** X13. The deletion of an event removes the event and its tickets and
    nothing else: when it answers [true] the event existed, it is gone, the
    other events are as they were, the tickets of the other events are kept
    in their order and no ticket names the event, the users and the sessions
    are untouched, the inventory stays in order, the event is answered 404
    when it is asked for, and a purchase on the event is refused as not
    found; when it answers [false] there was no such event, and then or when
    it throws nothing is changed. *)
Theorem deleted_event_takes_its_tickets id w r w' :
  EventService.deleteEvent id w = (r, w') ->
  match r with
  | Ok true =>
      is_Some (events (db w) !! id) /\
      events (db w') !! id = None /\
      (forall j, j <> id -> events (db w') !! j = events (db w) !! j) /\
      tickets (db w') =
        List.filter (fun t => negb (bool_decide (t_event_id t = Some id))) (tickets (db w)) /\
      Forall (fun t => t_event_id t <> Some id) (tickets (db w')) /\
      users (db w') = users (db w) /\ sessions (db w') = sessions (db w) /\
      (inventory_ok (db w) -> inventory_ok (db w')) /\
      (forall (req : Request unit) w2,
         parseInt (param req) = Some id -> db w2 = db w' ->
         faults w2 (queries w2) = None ->
         fst (EventController.getEvent req w2) =
         mkResponse 404 (ErrorBody "Not found" "Event not found")) /\
      (forall q uid w2,
         db w2 = db w' -> txn w2 = None ->
         faults w2 (queries w2) = None -> faults w2 (S (queries w2)) = None ->
         exists w3,
           EventService.purchaseTickets id q uid w2 = (Throw (Error "Event not found"), w3) /\
           db w3 = db w2)
  | Ok false => db w' = db w /\ events (db w) !! id = None
  | Throw e => db w' = db w
  end.
Proof.
  unfold EventService.deleteEvent, query.
  destruct (faults w (queries w)) as [e|]; [by intros [= <- <-]|].
  unfold EventService.delete_event.
  destruct (events (db w) !! id) as [ev|] eqn:Hev.
  - intros [= <- <-]. destruct w as [d tx q f t]. cbn [db with_db tick] in *.
    destruct d as [us useq evs eseq tks ss].
    cbn [events tickets users sessions set_tickets set_events] in *.
    split; [by eexists|]. split; [apply lookup_delete_eq|].
    split; [intros j Hj; by apply lookup_delete_ne|].
    split; [done|]. split.
    { eapply Forall_impl;
        [apply (filter_negb_Forall (fun t => bool_decide (t_event_id t = Some id)))|].
      intros tk Htk. simpl in Htk. by apply bool_decide_eq_false in Htk. }
    split; [done|]. split; [done|]. split.
    { unfold inventory_ok. cbn [events]. intros Hok k e Hk.
      cbn [events set_tickets set_events] in Hk.
      apply lookup_delete_Some in Hk as [_ Hk]. by apply (Hok k). }
    split.
    { intros req w2 Hid Hdb Hf. unfold EventController.getEvent, EventService.getEventById.
      rewrite Hid, query_run by done. cbn [fst snd]. rewrite Hdb.
      cbn [db events set_tickets set_events]. by rewrite lookup_delete_eq. }
    intros q' uid w2 Hdb Htx Hf0 Hf1.
    pose proof (purchase_refusal id q' uid w2 Htx Hf0 Hf1) as Href.
    rewrite Hdb in Href. cbn [db events set_tickets set_events] in Href.
    rewrite lookup_delete_eq in Href.
    by rewrite Hdb.
  - intros [= <- <-]. split; [by destruct w|done].
Qed.

Lemma deleted_event_takes_its_tickets_witness :
  let w := Scenario.world (Scenario.database 5 Upcoming) Scenario.no_faults 1000 in
  let w' := snd (EventService.deleteEvent 1 w) in
  is_Some (events (db w) !! 1) /\
  events (db w') !! 1 = None /\
  (forall j, j <> 1 -> events (db w') !! j = events (db w) !! j) /\
  tickets (db w') =
    List.filter (fun t => negb (bool_decide (t_event_id t = Some 1))) (tickets (db w)) /\
  Forall (fun t => t_event_id t <> Some 1) (tickets (db w')) /\
  users (db w') = users (db w) /\ sessions (db w') = sessions (db w) /\
  (inventory_ok (db w) -> inventory_ok (db w')) /\
  (forall (req : Request unit) w2,
     parseInt (param req) = Some 1 -> db w2 = db w' ->
     faults w2 (queries w2) = None ->
     fst (EventController.getEvent req w2) =
     mkResponse 404 (ErrorBody "Not found" "Event not found")) /\
  (forall q uid w2,
     db w2 = db w' -> txn w2 = None ->
     faults w2 (queries w2) = None -> faults w2 (S (queries w2)) = None ->
     exists w3,
       EventService.purchaseTickets 1 q uid w2 = (Throw (Error "Event not found"), w3) /\
       db w3 = db w2).
Proof.
  apply (deleted_event_takes_its_tickets 1
           (Scenario.world (Scenario.database 5 Upcoming) Scenario.no_faults 1000)
           (Ok true)
           (snd (EventService.deleteEvent 1
                   (Scenario.world (Scenario.database 5 Upcoming) Scenario.no_faults 1000)))).
  vm_compute. reflexivity.
Defined.

(** ** The listing of the events *)

Lemma earlier_total : Total EventService.earlier.
Proof. intros a b. unfold EventService.earlier. lia. Qed.

Lemma earlier_trans : Transitive EventService.earlier.
Proof. intros a b c. unfold EventService.earlier. lia. Qed.

Lemma sorted_page {A} (R : relation A) (l : list A) (n m : nat) :
  StronglySorted R l -> StronglySorted R (take n (skipn m l)).
Proof.
  intros Hl. rewrite <- (take_drop m l) in Hl. apply StronglySorted_app_1_r in Hl.
  rewrite <- (take_drop n (skipn m l)) in Hl. by apply StronglySorted_app_1_l in Hl.
Qed.

Lemma page_sublist {A} (l : list A) (n m : nat) : take n (skipn m l) `sublist_of` l.
Proof. etrans; [apply sublist_take|apply sublist_drop]. Qed.

(** The listing reads: the database is left as it is. *)
Lemma listEvents_reads params w r w' :
  EventService.listEvents params w = (r, w') -> db w' = db w.
Proof.
  unfold EventService.listEvents, bind.
  destruct (query _ w) as [[total|e] w1] eqn:Hq; apply query_read_db in Hq.
  - destruct (query _ w1) as [[rows|e] w2] eqn:Hq2.
    + intros [= <- <-]. unfold query in Hq2. destruct (faults w1 (queries w1)); [done|].
      unfold EventService.select_page in Hq2.
      repeat destruct (_ <? 0) in Hq2; injection Hq2 as _ <-; by destruct w1.
    + intros [= <- <-]. unfold query in Hq2. destruct (faults w1 (queries w1)).
      { injection Hq2 as _ <-. done. }
      unfold EventService.select_page in Hq2.
      repeat destruct (_ <? 0) in Hq2; injection Hq2 as _ <-; by destruct w1.
  - by intros [= <- <-].
Qed.

Lemma listEvents_rows params w rows total w' :
  EventService.listEvents params w = (Ok (rows, total), w') ->
  0 <= EventService.number_or (EventService.q_limit params) 50 /\
  0 <= EventService.number_or (EventService.q_offset params) 0 /\
  total = Z.of_nat (length (List.filter (EventService.matches params)
                              (EventService.all_events (db w)))) /\
  rows = take (Z.to_nat (EventService.number_or (EventService.q_limit params) 50))
           (skipn (Z.to_nat (EventService.number_or (EventService.q_offset params) 0))
              (merge_sort EventService.earlier
                 (List.filter (EventService.matches params)
                    (EventService.all_events (db w))))).
Proof.
  unfold EventService.listEvents, bind.
  destruct (query _ w) as [[n|e] w1] eqn:Hq; [|done].
  pose proof Hq as Hdb. apply query_read_db in Hdb.
  unfold query in Hq. destruct (faults w (queries w)); [done|]. injection Hq as <- _.
  unfold query. destruct (faults w1 (queries w1)); [done|].
  unfold EventService.select_page.
  destruct (Z.ltb_spec (EventService.number_or (EventService.q_limit params) 50) 0); [done|].
  destruct (Z.ltb_spec (EventService.number_or (EventService.q_offset params) 0) 0); [done|].
  unfold ret. intros [= <- <- _]. by rewrite Hdb.
Qed.

Lemma matches_Forall (P : Event -> Prop) params l :
  (forall e, EventService.matches params e = true -> P e) ->
  Forall P (List.filter (EventService.matches params) l).
Proof.
  intros HP. apply Forall_forall. intros e He.
  apply list_elem_of_In, filter_In in He as [_ He]. auto.
Qed.

(** X14. A page of the listing of the events: the rows are rows of the
    table, each satisfies every filter that was given, they come by
    ascending date, there are no more of them than the limit (50 when no
    limit or the limit 0 is given) nor than the total, the total counts the
    events that satisfy the filters whatever the page is, and a first page
    whose limit reaches the total holds each of these events once.  The
    table is left as it is. *)
Theorem listEvents_page_is_filtered_and_sorted params w rows total w' :
  EventService.listEvents params w = (Ok (rows, total), w') ->
  db w' = db w /\
  total = Z.of_nat (length (List.filter (EventService.matches params)
                              (EventService.all_events (db w)))) /\
  Z.of_nat (length rows) <= EventService.number_or (EventService.q_limit params) 50 /\
  Z.of_nat (length rows) <= total /\
  (EventService.q_limit params = None \/ EventService.q_limit params = Some 0 ->
   (length rows <= 50)%nat) /\
  StronglySorted (fun a b => e_event_date a <= e_event_date b) rows /\
  Forall (fun e => exists k, events (db w) !! k = Some e) rows /\
  (forall s, EventService.q_status params = Some s -> s <> "" ->
     Forall (fun e => status_name (e_status e) = s) rows) /\
  (forall v, EventService.q_venue params = Some v -> v <> "" ->
     Forall (fun e => e_venue e = Some v) rows) /\
  (forall t, EventService.q_from_date params = Some t ->
     Forall (fun e => t <= e_event_date e) rows) /\
  (forall t, EventService.q_to_date params = Some t ->
     Forall (fun e => e_event_date e <= t) rows) /\
  (EventService.number_or (EventService.q_offset params) 0 = 0 ->
   total <= EventService.number_or (EventService.q_limit params) 50 ->
   rows ≡ₚ List.filter (EventService.matches params) (EventService.all_events (db w))).
Proof.
  intros Hlist. pose proof (listEvents_reads _ _ _ _ Hlist) as Hdb.
  apply listEvents_rows in Hlist as (Hlimit & Hoffset & Htotal & Hrows).
  set (F := List.filter (EventService.matches params) (EventService.all_events (db w))) in *.
  set (L := merge_sort EventService.earlier F) in *.
  assert (L ≡ₚ F) as Hperm by apply merge_sort_Permutation.
  assert (rows `sublist_of` L) as Hsub by (rewrite Hrows; apply page_sublist).
  assert (forall P : Event -> Prop, Forall P F -> Forall P rows) as Hall.
  { intros P HF. rewrite <- Hperm in HF. rewrite Forall_forall in HF.
    apply Forall_forall. intros e He. apply HF. by apply (elem_of_sublist rows). }
  assert (length L = length F) as Hlen by by rewrite Hperm.
  split; [done|]. split; [done|].
  split. { rewrite Hrows, length_take. lia. }
  split. { apply sublist_length in Hsub. lia. }
  split.
  { intros Hl. rewrite Hrows, length_take.
    assert (EventService.number_or (EventService.q_limit params) 50 = 50) as ->
      by (by destruct Hl as [-> | ->]).
    lia. }
  split.
  { rewrite Hrows. apply sorted_page.
    pose proof earlier_trans. pose proof earlier_total.
    apply (StronglySorted_merge_sort EventService.earlier). }
  split.
  { apply Hall. apply Forall_forall. intros e He.
    apply list_elem_of_In, filter_In in He as [He _].
    unfold EventService.all_events in He. apply list_elem_of_In in He.
    apply list_elem_of_fmap in He as ([k e'] & -> & He).
    apply elem_of_map_to_list in He. by exists k. }
  split.
  { intros s Hs Hne. apply Hall, matches_Forall. intros e He.
    unfold EventService.matches in He. rewrite Hs in He. cbn [or_null] in He.
    rewrite (proj2 (truthy_true s) Hne) in He.
    apply andb_true_iff in He as [He _]. apply andb_true_iff in He as [He _].
    apply andb_true_iff in He as [He _]. by apply bool_decide_eq_true in He. }
  split.
  { intros v Hv Hne. apply Hall, matches_Forall. intros e He.
    unfold EventService.matches in He. rewrite Hv in He. cbn [or_null] in He.
    rewrite (proj2 (truthy_true v) Hne) in He.
    apply andb_true_iff in He as [He _]. apply andb_true_iff in He as [He _].
    apply andb_true_iff in He as [_ He]. by apply bool_decide_eq_true in He. }
  split.
  { intros t Ht. apply Hall, matches_Forall. intros e He.
    unfold EventService.matches in He. rewrite Ht in He.
    apply andb_true_iff in He as [He _]. apply andb_true_iff in He as [_ He]. lia. }
  split.
  { intros t Ht. apply Hall, matches_Forall. intros e He.
    unfold EventService.matches in He. rewrite Ht in He.
    apply andb_true_iff in He as [_ He]. lia. }
  intros Hoff Hle. rewrite Hrows, Hoff. change (skipn (Z.to_nat 0) L) with L.
  rewrite take_ge by lia. done.
Qed.

Lemma listEvents_page_is_filtered_and_sorted_witness :
  let params := EventService.mkEventQueryParams (Some "upcoming") None None None None None in
  let w := Scenario.world (Scenario.database 5 Upcoming) Scenario.no_faults 1000 in
  let rows := [Scenario.concert 5 Upcoming] in
  let total := 1 in
  let w' := snd (EventService.listEvents params w) in
  db w' = db w /\
  total = Z.of_nat (length (List.filter (EventService.matches params)
                              (EventService.all_events (db w)))) /\
  Z.of_nat (length rows) <= EventService.number_or (EventService.q_limit params) 50 /\
  Z.of_nat (length rows) <= total /\
  (EventService.q_limit params = None \/ EventService.q_limit params = Some 0 ->
   (length rows <= 50)%nat) /\
  StronglySorted (fun a b => e_event_date a <= e_event_date b) rows /\
  Forall (fun e => exists k, events (db w) !! k = Some e) rows /\
  (forall s, EventService.q_status params = Some s -> s <> "" ->
     Forall (fun e => status_name (e_status e) = s) rows) /\
  (forall v, EventService.q_venue params = Some v -> v <> "" ->
     Forall (fun e => e_venue e = Some v) rows) /\
  (forall t, EventService.q_from_date params = Some t ->
     Forall (fun e => t <= e_event_date e) rows) /\
  (forall t, EventService.q_to_date params = Some t ->
     Forall (fun e => e_event_date e <= t) rows) /\
  (EventService.number_or (EventService.q_offset params) 0 = 0 ->
   total <= EventService.number_or (EventService.q_limit params) 50 ->
   rows ≡ₚ List.filter (EventService.matches params) (EventService.all_events (db w))).
Proof.
  apply (listEvents_page_is_filtered_and_sorted
           (EventService.mkEventQueryParams (Some "upcoming") None None None None None)
           (Scenario.world (Scenario.database 5 Upcoming) Scenario.no_faults 1000)
           [Scenario.concert 5 Upcoming] 1
           (snd (EventService.listEvents
                   (EventService.mkEventQueryParams (Some "upcoming") None None None None None)
                   (Scenario.world (Scenario.database 5 Upcoming) Scenario.no_faults 1000)))).
  vm_compute. reflexivity.
Defined.

Lemma listEvents_ok params w :
  faults w (queries w) = None ->
  faults w (S (queries w)) = None ->
  0 <= EventService.number_or (EventService.q_limit params) 50 ->
  0 <= EventService.number_or (EventService.q_offset params) 0 ->
  fst (EventService.listEvents params w) =
  Ok (take (Z.to_nat (EventService.number_or (EventService.q_limit params) 50))
        (skipn (Z.to_nat (EventService.number_or (EventService.q_offset params) 0))
           (merge_sort EventService.earlier
              (List.filter (EventService.matches params)
                 (EventService.all_events (db w))))),
      Z.of_nat (length (List.filter (EventService.matches params)
                          (EventService.all_events (db w))))).
Proof.
  intros Hf0 Hf1 Hl Ho. unfold EventService.listEvents, bind.
  rewrite query_run by done. cbn [fst snd].
  rewrite query_run by done. cbn [fst snd db with_db tick].
  unfold EventService.select_page.
  destruct (Z.ltb_spec (EventService.number_or (EventService.q_limit params) 50) 0); [lia|].
  destruct (Z.ltb_spec (EventService.number_or (EventService.q_offset params) 0) 0); [lia|].
  done.
Qed.

Lemma number_or_positive n fallback : 1 <= n -> EventService.number_or (Some n) fallback = n.
Proof. intros Hn. unfold EventService.number_or. destruct (Z.eqb_spec n 0); [lia|done]. Qed.

Lemma number_or_offset n : 0 <= n -> EventService.number_or (Some n) 0 = n.
Proof. intros Hn. unfold EventService.number_or. destruct (Z.eqb_spec n 0); [lia|done]. Qed.

(** X15. The pages of a listing adjoin: over the same table, when no two
    of the listed events have the same date (the order of such rows is left
    open by the [ORDER BY]), the page of [l1] rows after [o] rows followed
    by the page of [l2] rows after [o + l1] rows is the page of [l1 + l2]
    rows after [o] rows, and the three report the same total. *)
Theorem listEvents_pages_adjoin params o l1 l2 w1 w2 w3 :
  0 <= o -> 1 <= l1 -> 1 <= l2 ->
  NoDup (map e_event_date
           (List.filter (EventService.matches params) (EventService.all_events (db w1)))) ->
  db w2 = db w1 -> db w3 = db w1 ->
  faults w1 (queries w1) = None -> faults w1 (S (queries w1)) = None ->
  faults w2 (queries w2) = None -> faults w2 (S (queries w2)) = None ->
  faults w3 (queries w3) = None -> faults w3 (S (queries w3)) = None ->
  exists p1 p2 total,
    fst (EventService.listEvents (page_of params l1 o) w1) = Ok (p1, total) /\
    fst (EventService.listEvents (page_of params l2 (o + l1)) w2) = Ok (p2, total) /\
    fst (EventService.listEvents (page_of params (l1 + l2) o) w3) = Ok (p1 ++ p2, total).
Proof.
  intros Ho Hl1 Hl2 _ Hdb2 Hdb3 Hf1 Hf1' Hf2 Hf2' Hf3 Hf3'.
  eexists _, _, _.
  rewrite !listEvents_ok; try done;
    cbn [page_of EventService.q_limit EventService.q_offset];
    rewrite ?number_or_positive, ?number_or_offset by lia; try lia.
  rewrite Hdb2, Hdb3.
  change (EventService.matches (page_of params _ _)) with (EventService.matches params).
  split; [reflexivity|]. split; [reflexivity|].
  do 2 f_equal.
  rewrite !number_or_positive by lia.
  rewrite !Z2Nat.inj_add by lia.
  rewrite <- take_take_drop. f_equal. f_equal.
  by rewrite drop_drop.
Qed.

Lemma listEvents_pages_adjoin_witness :
  let params := EventService.mkEventQueryParams None None None None None None in
  let w := Scenario.world (Scenario.database 5 Upcoming) Scenario.no_faults 1000 in
  exists p1 p2 total,
    fst (EventService.listEvents (page_of params 1 0) w) = Ok (p1, total) /\
    fst (EventService.listEvents (page_of params 1 (0 + 1)) w) = Ok (p2, total) /\
    fst (EventService.listEvents (page_of params (1 + 1) 0) w) = Ok (p1 ++ p2, total).
Proof.
  apply (listEvents_pages_adjoin
           (EventService.mkEventQueryParams None None None None None None) 0 1 1
           (Scenario.world (Scenario.database 5 Upcoming) Scenario.no_faults 1000)
           (Scenario.world (Scenario.database 5 Upcoming) Scenario.no_faults 1000)
           (Scenario.world (Scenario.database 5 Upcoming) Scenario.no_faults 1000));
    first [lia | reflexivity | (vm_compute; apply NoDup_singleton)].
Defined.

(** ** Updates of an event *)

(** What an update that returns a row has done. *)
Lemma updateEvent_ok id data w e' w' :
  EventService.updateEvent id data w = (Ok (Some e'), w') ->
  exists e,
    events (db w) !! id = Some e /\
    ((updates_of data (Some e) = [] /\ e' = e /\ db w' = db w) \/
     (e' = EventService.touch (now w)
             (foldl (fun e a => EventService.assign a e) e (updates_of data (Some e))) /\
      NoDup (map EventService.column (updates_of data (Some e))) /\
      EventService.checks e' = true /\
      db w' = set_events (<[id := e']> (events (db w))) (db w))).
Proof.
  unfold EventService.updateEvent, updates_of, leading, trailing, adjustment, bind,
    EventService.getEventById, query, ret, throw.
  destruct (EventService.up_total_tickets data) as [newTotal|].
  - destruct (faults w (queries w)); [done|].
    destruct (events (db w) !! id) as [currentEvent|] eqn:Hev; [|done].
    match goal with
    | |- context [(length ?l =? 0)%nat] => destruct (length l =? 0)%nat eqn:Hlen
    end; cbn [faults queries with_db tick db now txn];
      (destruct (faults w (S (queries w))); [done|]).
    + apply Nat.eqb_eq, length_zero_iff_nil in Hlen.
      rewrite Hev. intros [= <- <-]. exists currentEvent. split; [done|]. left.
      split; [done|]. split; [done|]. by destruct w.
    + statement_is_bound; [done|]. unfold EventService.update_event.
      case_bool_decide as Hnd; cbn [negb]; [|done].
      rewrite Hev.
      match goal with
      | |- context [EventService.checks ?row] => destruct (EventService.checks row) eqn:Hck
      end; [|done].
      intros [= <- <-]. exists currentEvent. split; [done|]. right.
      split; [done|]. split; [done|]. split; [done|]. by destruct w.
  - rewrite app_nil_r.
    match goal with
    | |- context [(length ?l =? 0)%nat] => destruct (length l =? 0)%nat eqn:Hlen
    end; (destruct (faults w (queries w)); [done|]).
    + apply Nat.eqb_eq, length_zero_iff_nil in Hlen.
      destruct (events (db w) !! id) as [e|] eqn:Hev; [|done].
      intros [= <- <-]. exists e. split; [done|]. left.
      split; [done|]. split; [done|]. by destruct w.
    + statement_is_bound; [done|]. unfold EventService.update_event.
      case_bool_decide as Hnd; cbn [negb]; [|done].
      destruct (events (db w) !! id) as [e|] eqn:Hev; [|done].
      match goal with
      | |- context [EventService.checks ?row] => destruct (EventService.checks row) eqn:Hck
      end; [|done].
      intros [= <- <-]. exists e. split; [done|]. right.
      split; [done|]. split; [done|]. split; [done|]. by destruct w.
Qed.

(** X16. A change of the capacity keeps the number of tickets sold: an
    update that gives [total_tickets] and not [available_tickets], and
    returns a row, has set the total to the new value, which is not
    negative, and the available count to the old one moved by the same
    amount, or to 0 when the new total is below the number sold; the
    other events and the tickets are as they were. *)
Theorem total_change_keeps_the_sold_count id data w e' w' newTotal :
  EventService.updateEvent id data w = (Ok (Some e'), w') ->
  EventService.up_total_tickets data = Some newTotal ->
  EventService.up_available_tickets data = None ->
  exists e,
    events (db w) !! id = Some e /\
    events (db w') = <[id := e']> (events (db w)) /\
    tickets (db w') = tickets (db w) /\
    total_tickets e' = newTotal /\ 0 <= newTotal /\
    available_tickets e' = Z.max 0 (available_tickets e + (newTotal - total_tickets e)) /\
    (total_tickets e - available_tickets e <= newTotal ->
     total_tickets e' - available_tickets e' = total_tickets e - available_tickets e) /\
    (newTotal < total_tickets e - available_tickets e -> available_tickets e' = 0).
Proof.
  intros Hup Htot Hav.
  apply updateEvent_ok in Hup as (e & Hev & Hcase). exists e. split; [done|].
  destruct Hcase as [(Hnil & _ & _) | (He' & _ & Hck & Hdb)].
  { unfold updates_of, adjustment in Hnil. rewrite Htot in Hnil.
    apply app_eq_nil in Hnil as [Hnil _]. apply app_eq_nil in Hnil as [_ Hnil]. done. }
  pose proof (updates_of_counts data e Hav) as Hcounts. cbv zeta in Hcounts.
  rewrite Htot in Hcounts. destruct Hcounts as [Ht Ha].
  assert (total_tickets e' = newTotal) as Ht' by (by rewrite He').
  assert (available_tickets e' =
          Z.max 0 (available_tickets e + (newTotal - total_tickets e))) as Ha'
    by (by rewrite He').
  apply checks_nonneg in Hck as [Hck _].
  rewrite Hdb. split; [by destruct (db w)|]. split; [by destruct (db w)|].
  split; [done|]. split; [lia|]. split; [done|]. split; lia.
Qed.

Lemma total_change_keeps_the_sold_count_witness :
  let data := EventService.mkUpdateEventDto None None None None (Some 8) None None None None in
  let w := Scenario.world (Scenario.database 2 Upcoming) Scenario.no_faults 1000 in
  let e' := EventService.touch 1000
              (EventService.assign (EventService.SetAvailableTickets 5)
                 (EventService.assign (EventService.SetTotalTickets 8)
                    (Scenario.concert 2 Upcoming))) in
  let w' := snd (EventService.updateEvent 1 data w) in
  exists e,
    events (db w) !! 1 = Some e /\
    events (db w') = <[1 := e']> (events (db w)) /\
    tickets (db w') = tickets (db w) /\
    total_tickets e' = 8 /\ 0 <= 8 /\
    available_tickets e' = Z.max 0 (available_tickets e + (8 - total_tickets e)) /\
    (total_tickets e - available_tickets e <= 8 ->
     total_tickets e' - available_tickets e' = total_tickets e - available_tickets e) /\
    (8 < total_tickets e - available_tickets e -> available_tickets e' = 0).
Proof.
  apply (total_change_keeps_the_sold_count 1
           (EventService.mkUpdateEventDto None None None None (Some 8) None None None None)
           (Scenario.world (Scenario.database 2 Upcoming) Scenario.no_faults 1000)
           (EventService.touch 1000
              (EventService.assign (EventService.SetAvailableTickets 5)
                 (EventService.assign (EventService.SetTotalTickets 8)
                    (Scenario.concert 2 Upcoming))))
           (snd (EventService.updateEvent 1
                   (EventService.mkUpdateEventDto None None None None (Some 8) None None
                      None None)
                   (Scenario.world (Scenario.database 2 Upcoming) Scenario.no_faults 1000)))
           8).
  - vm_compute. reflexivity.
  - reflexivity.
  - reflexivity.
Defined.

Lemma both_counts_repeat_a_column data e newTotal v :
  EventService.up_total_tickets data = Some newTotal ->
  EventService.up_available_tickets data = Some v ->
  ~ NoDup (map EventService.column (updates_of data (Some e))).
Proof.
  intros Htot Hav. unfold updates_of, adjustment. rewrite Htot, Hav.
  cbn [EventService.pushed]. rewrite !map_app. cbn [map EventService.column].
  intros Hnd. apply NoDup_app in Hnd as (_ & Hdisj & _).
  apply (Hdisj "available_tickets").
  - apply elem_of_app. right. apply list_elem_of_In. simpl. auto.
  - apply elem_of_app. left. apply list_elem_of_In. simpl. auto.
Qed.

Lemma updateEvent_throws_same id data w e w' :
  EventService.updateEvent id data w = (Throw e, w') -> db w' = db w.
Proof.
  intros Hup. pose proof Hup as Hrun. apply updateEvent_run in Hrun as [Hdb | [t Hdb]]; [done|].
  revert Hup Hdb.
  unfold EventService.updateEvent, updates_of, leading, trailing, adjustment, bind,
    EventService.getEventById, query, ret, throw.
  destruct (EventService.up_total_tickets data) as [newTotal|].
  - destruct (faults w (queries w)); [by intros [= <- <-]|].
    destruct (events (db w) !! id) as [currentEvent|] eqn:Hev; [|by intros [= <- <-]].
    match goal with
    | |- context [(length ?l =? 0)%nat] => destruct (length l =? 0)%nat eqn:Hlen
    end; cbn [faults queries with_db tick db now txn];
      (destruct (faults w (S (queries w))); [by intros [= <- <-]|]).
    + by intros [= <- <-].
    + statement_is_bound; [intros [= <- <-]; by destruct w|].
      unfold EventService.update_event.
      case_bool_decide as Hnd; cbn [negb]; [|intros [= <- <-]; by destruct w].
      rewrite Hev.
      match goal with
      | |- context [EventService.checks ?row] => destruct (EventService.checks row) eqn:Hck
      end; [done|intros [= <- <-]; by destruct w].
  - rewrite app_nil_r.
    match goal with
    | |- context [(length ?l =? 0)%nat] => destruct (length l =? 0)%nat eqn:Hlen
    end; (destruct (faults w (queries w)); [by intros [= <- <-]|]).
    + by intros [= <- <-].
    + statement_is_bound; [intros [= <- <-]; by destruct w|].
      unfold EventService.update_event.
      case_bool_decide as Hnd; cbn [negb]; [|intros [= <- <-]; by destruct w].
      destruct (events (db w) !! id) as [e0|] eqn:Hev; [|done].
      match goal with
      | |- context [EventService.checks ?row] => destruct (EventService.checks row) eqn:Hck
      end; [done|intros [= <- <-]; by destruct w].
Qed.

(** X17. An update that gives both [total_tickets] and
    [available_tickets] never succeeds: the statement would assign
    [available_tickets] twice, so the call throws and the database is left
    as it is, and the controller answers 500. *)
Theorem update_of_both_counts_is_refused id data w newTotal v :
  EventService.up_total_tickets data = Some newTotal ->
  EventService.up_available_tickets data = Some v ->
  (exists e w', EventService.updateEvent id data w = (Throw e, w') /\ db w' = db w) /\
  (forall req, body req = data ->
     match parseInt (param req) with
     | Some _ => status (fst (EventController.updateEvent req w)) = 500
     | None => status (fst (EventController.updateEvent req w)) = 400
     end /\
     db (snd (EventController.updateEvent req w)) = db w).
Proof.
  intros Htot Hav.
  assert (forall id, exists e w',
            EventService.updateEvent id data w = (Throw e, w') /\ db w' = db w) as Hthrows.
  { clear id. intros id.
    destruct (EventService.updateEvent id data w) as [[[e'|]|e] w'] eqn:Hup.
    - apply updateEvent_ok in Hup as (e & Hev & [(Hnil & _) | (_ & Hnd & _)]).
      + unfold updates_of, adjustment in Hnil. rewrite Htot in Hnil.
        apply app_eq_nil in Hnil as [Hnil _]. apply app_eq_nil in Hnil as [_ Hnil]. done.
      + by apply (both_counts_repeat_a_column data e newTotal v) in Hnd.
    - exfalso. revert Hup.
      unfold EventService.updateEvent, bind, EventService.getEventById, query, ret, throw.
      rewrite Htot, Hav.
      destruct (faults w (queries w)); [done|].
      destruct (events (db w) !! id) as [currentEvent|] eqn:Hev; [|done].
      match goal with
      | |- context [(length ?l =? 0)%nat] => destruct (length l =? 0)%nat eqn:Hlen
      end.
      { apply Nat.eqb_eq, length_zero_iff_nil in Hlen.
        apply app_eq_nil in Hlen as [Hlen _]. apply app_eq_nil in Hlen as [_ Hlen]. done. }
      cbn [faults queries with_db tick db now txn].
      destruct (faults w (S (queries w))); [done|].
      statement_is_bound; [done|]. unfold EventService.update_event.
      case_bool_decide as Hnd; cbn [negb]; [|done].
      rewrite Hev. by destruct (EventService.checks _).
    - exists e, w'. split; [done|]. by apply updateEvent_throws_same in Hup. }
  split; [apply Hthrows|].
  intros req Hbody. unfold EventController.updateEvent.
  destruct (parseInt (param req)) as [i|]; [|done].
  rewrite Hbody. destruct (Hthrows i) as (e & w' & -> & Hdb). done.
Qed.

Lemma update_of_both_counts_is_refused_witness :
  let data := EventService.mkUpdateEventDto None None None None (Some 8) (Some 8) None None None in
  let w := Scenario.world (Scenario.database 2 Upcoming) Scenario.no_faults 1000 in
  (exists e w', EventService.updateEvent 1 data w = (Throw e, w') /\ db w' = db w) /\
  (forall req, body req = data ->
     match parseInt (param req) with
     | Some _ => status (fst (EventController.updateEvent req w)) = 500
     | None => status (fst (EventController.updateEvent req w)) = 400
     end /\
     db (snd (EventController.updateEvent req w)) = db w).
Proof.
  apply (update_of_both_counts_is_refused 1
           (EventService.mkUpdateEventDto None None None None (Some 8) (Some 8) None None None)
           (Scenario.world (Scenario.database 2 Upcoming) Scenario.no_faults 1000) 8 8);
    reflexivity.
Defined.

(** X18. An update of an event that does not exist, under an id that is
    an [INTEGER], is answered 404 unless it gives [total_tickets]: then the
    service throws while it looks the event up, and the answer is 500.  The
    404 supposes that the values of the request fit the columns they are
    bound to, for the statement is refused otherwise.  Nothing is written in
    either case. *)
Theorem update_of_missing_event (req : Request EventService.UpdateEventDto) w id :
  parseInt (param req) = Some id ->
  EventService.int4 id = true ->
  events (db w) !! id = None ->
  faults w (queries w) = None ->
  (EventService.up_total_tickets (body req) = None ->
   forallb EventService.fits (updates_of (body req) None) = true) ->
  fst (EventController.updateEvent req w) =
    match EventService.up_total_tickets (body req) with
    | Some _ => mkResponse 500 (ErrorBody "Internal server error" "Event not found")
    | None => mkResponse 404 (ErrorBody "Not found" "Event not found")
    end /\
  db (snd (EventController.updateEvent req w)) = db w.
Proof.
  intros Hid _ Hev Hf Hfits. unfold EventController.updateEvent. rewrite Hid.
  revert Hfits. unfold updates_of, leading, trailing, adjustment.
  unfold EventService.updateEvent, bind, EventService.getEventById, query, ret, throw.
  destruct (EventService.up_total_tickets (body req)) as [newTotal|].
  - intros _. rewrite Hf, Hev. cbn. split; [done|]. by destruct w.
  - rewrite app_nil_r. intros Hfits. specialize (Hfits eq_refl).
    match goal with
    | |- context [(length ?l =? 0)%nat] => destruct (length l =? 0)%nat eqn:Hlen
    end; cbv beta; rewrite Hf.
    + rewrite Hev. cbn. split; [done|]. by destruct w.
    + unfold EventService.update_bound. rewrite Hfits. cbn [negb].
      unfold EventService.update_event.
      case_bool_decide as Hnd; cbn [negb].
      * rewrite Hev. cbn. split; [done|]. by destruct w.
      * exfalso. apply Hnd.
        destruct (body req) as [t d v dt tot av pr im st]. cbn.
        destruct t, d, v, dt, av, pr, im, st;
          apply (bool_decide_unpack _); vm_compute; exact I.
Qed.

Lemma update_of_missing_event_witness :
  let w := Scenario.world (Scenario.database 2 Upcoming) Scenario.no_faults 1000 in
  let req :=
    mkRequest None None "2" None
      (EventService.mkUpdateEventDto (Some "Gala") None None None None None None None None)
      Scenario.browser in
  fst (EventController.updateEvent req w) =
    match EventService.up_total_tickets (body req) with
    | Some _ => mkResponse 500 (ErrorBody "Internal server error" "Event not found")
    | None => mkResponse 404 (ErrorBody "Not found" "Event not found")
    end /\
  db (snd (EventController.updateEvent req w)) = db w.
Proof.
  apply (update_of_missing_event
           (mkRequest None None "2" None
              (EventService.mkUpdateEventDto (Some "Gala") None None None None None None
                 None None) Scenario.browser)
           (Scenario.world (Scenario.database 2 Upcoming) Scenario.no_faults 1000) 2);
    reflexivity.
Defined.

(** ** The normal form of an address *)

Lemma lower_idem c : Validation.lower (Validation.lower c) = Validation.lower c.
Proof. destruct c as [[] [] [] [] [] [] [] []]; reflexivity. Qed.

Lemma chars_str l : Validation.chars (Validation.str l) = l.
Proof. apply String.list_ascii_of_string_of_list_ascii. Qed.

Lemma str_chars s : Validation.str (Validation.chars s) = s.
Proof. apply String.string_of_list_ascii_of_string. Qed.

Lemma trim_start_Forall (P : ascii -> Prop) l :
  Forall P l -> Forall P (Validation.trim_start l).
Proof.
  induction 1 as [|c l Hc Hl IH]; simpl; [constructor|].
  destruct (Validation.is_space c); [done|by constructor].
Qed.

Lemma trim_start_plain l :
  Forall (fun c => Validation.is_space c = false) l -> Validation.trim_start l = l.
Proof. destruct 1 as [|c l Hc Hl]; simpl; [done|]. by rewrite Hc. Qed.

Lemma chars_trim_Forall (P : ascii -> Prop) s :
  Forall P (Validation.chars s) -> Forall P (Validation.chars (Validation.trim s)).
Proof.
  intros Hs. unfold Validation.trim. rewrite chars_str.
  apply Forall_rev, trim_start_Forall, Forall_rev, trim_start_Forall, Hs.
Qed.

Lemma trim_plain s :
  Forall (fun c => Validation.is_space c = false) (Validation.chars s) ->
  Validation.trim s = s.
Proof.
  intros Hs. unfold Validation.trim.
  rewrite (trim_start_plain _ Hs).
  rewrite trim_start_plain by by apply Forall_rev.
  rewrite rev_involutive. apply str_chars.
Qed.

Lemma filter_all {A} (f : A -> bool) (l : list A) :
  Forall (fun x => f x = true) l -> List.filter f l = l.
Proof. induction 1 as [|x l Hx _ IH]; simpl; [done|]. by rewrite Hx, IH. Qed.

Lemma map_fixed {A} (f : A -> A) (l : list A) :
  Forall (fun x => f x = x) l -> map f l = l.
Proof. induction 1 as [|x l Hx _ IH]; simpl; [done|]. by rewrite Hx, IH. Qed.

Lemma split_at_sign_spec l loc dom :
  Validation.split_at_sign l = Some (loc, dom) ->
  l = loc ++ "@"%char :: dom /\ Forall (fun c => c <> "@"%char) loc.
Proof.
  revert loc. induction l as [|c l IH]; intros loc; simpl; [done|].
  case_bool_decide as Hc.
  - intros [= <- <-]. subst c. done.
  - destruct (Validation.split_at_sign l) as [[a b]|]; [|done].
    intros [= <- <-]. destruct (IH a eq_refl) as [-> Ha]. split; [done|]. by constructor.
Qed.

Lemma forallb_plain l :
  forallb Validation.plain l = true ->
  Forall (fun c => Validation.is_space c = false /\ c <> "@"%char) l.
Proof.
  intros Hl. apply Forall_forall. intros c Hc.
  rewrite forallb_forall in Hl. apply list_elem_of_In, Hl in Hc.
  unfold Validation.plain in Hc. apply andb_true_iff in Hc as [Hs Ha].
  apply negb_true_iff in Hs. apply negb_true_iff, bool_decide_eq_false in Ha. done.
Qed.

Lemma valid_email_shape e :
  Validation.isValidEmail e = true ->
  Forall (fun c => Validation.is_space c = false) (Validation.chars e) /\
  length (List.filter (fun c => bool_decide (c = "@"%char)) (Validation.chars e)) = 1%nat.
Proof.
  unfold Validation.isValidEmail.
  destruct (Validation.split_at_sign (Validation.chars e)) as [[loc dom]|] eqn:Hsplit; [|done].
  intros Hv. apply andb_true_iff in Hv as [Hv _]. apply andb_true_iff in Hv as [Hv Hdom].
  apply andb_true_iff in Hv as [_ Hloc].
  apply forallb_plain in Hloc, Hdom.
  apply split_at_sign_spec in Hsplit as [-> _]. split.
  - apply Forall_app. split; [by eapply Forall_impl; [exact Hloc|]; intros ? []|].
    constructor; [done|]. by eapply Forall_impl; [exact Hdom|]; intros ? [].
  - rewrite List.filter_app. simpl. rewrite length_app. simpl.
    assert (forall l, Forall (fun c => Validation.is_space c = false /\ c <> "@"%char) l ->
              List.filter (fun c => bool_decide (c = "@"%char)) l = []) as Hnone.
    { induction 1 as [|c l [_ Hc] _ IH]; simpl; [done|].
      by rewrite bool_decide_eq_false_2. }
    by rewrite !Hnone.
Qed.

(** What the validation has checked of the address it lets through. *)
Lemma sanitized_checked email e :
  Validation.sanitized (Validation.validateAndSanitizeEmail email) = Some e ->
  truthy e = true /\ (255 <? String.length e)%nat = false /\
  Validation.isValidEmail e = true /\
  Forall (fun c => Validation.is_control c = false /\ Validation.lower c = c)
    (Validation.chars e).
Proof.
  unfold Validation.validateAndSanitizeEmail.
  destruct email as [x|]; [|done].
  destruct (truthy x); [|done]. cbn [negb].
  destruct (truthy (Validation.sanitizeInput (Validation.toLowerCase x))) eqn:Htruthy; [|done].
  cbn [negb].
  destruct (255 <? String.length _)%nat eqn:Hlen; [done|].
  destruct (Validation.isValidEmail _) eqn:Hvalid; [|done].
  cbn [negb Validation.sanitized]. intros [= <-].
  repeat (split; [done|]).
  unfold Validation.sanitizeInput, Validation.toLowerCase.
  apply chars_trim_Forall. rewrite !chars_str.
  apply Forall_forall. intros c Hc.
  apply list_elem_of_In, filter_In in Hc as [Hc Hnc].
  apply in_map_iff in Hc as (c0 & <- & _).
  split; [by apply negb_true_iff in Hnc|apply lower_idem].
Qed.

(** An address that passes the checks is left as it is by the validation. *)
Lemma normal_is_fixed e :
  truthy e = true -> (255 <? String.length e)%nat = false ->
  Validation.isValidEmail e = true ->
  Forall (fun c => Validation.is_control c = false /\ Validation.lower c = c)
    (Validation.chars e) ->
  Validation.validateAndSanitizeEmail (Some e) = Validation.mkValidity true (Some e) None.
Proof.
  intros Htruthy Hlen Hvalid Hclean.
  destruct (valid_email_shape e Hvalid) as [Hspace _].
  assert (Validation.toLowerCase e = e) as Hlower.
  { unfold Validation.toLowerCase. rewrite map_fixed; [apply str_chars|].
    eapply Forall_impl; [exact Hclean|]. by intros ? []. }
  assert (Validation.sanitizeInput e = e) as Hsan.
  { unfold Validation.sanitizeInput. rewrite filter_all.
    - rewrite str_chars. by apply trim_plain.
    - eapply Forall_impl; [exact Hclean|]. intros c [Hc _]. by rewrite Hc. }
  unfold Validation.validateAndSanitizeEmail.
  rewrite Hlower, Hsan, Htruthy. cbn [negb]. by rewrite Hlen, Hvalid.
Qed.

(** X19. The address that the validation lets through is in normal form:
    it has no upper-case letter, no control character and no white space,
    exactly one [@], at most 255 characters, and validating it again returns
    it unchanged. *)
Theorem sanitized_email_is_normal email e :
  Validation.sanitized (Validation.validateAndSanitizeEmail email) = Some e ->
  Validation.validateAndSanitizeEmail (Some e) = Validation.mkValidity true (Some e) None /\
  Forall (fun c => Validation.is_space c = false /\ Validation.is_control c = false /\
                   Validation.lower c = c) (Validation.chars e) /\
  length (List.filter (fun c => bool_decide (c = "@"%char)) (Validation.chars e)) = 1%nat /\
  (String.length e <= 255)%nat /\
  Validation.isValidEmail e = true.
Proof.
  intros He. apply sanitized_checked in He as (Htruthy & Hlen & Hvalid & Hclean).
  destruct (valid_email_shape e Hvalid) as [Hspace Hat].
  split; [by apply normal_is_fixed|]. split; [|split; [done|split; [|done]]].
  - apply Forall_forall. intros c Hc.
    rewrite Forall_forall in Hspace, Hclean.
    destruct (Hclean c Hc). auto.
  - by apply Nat.ltb_ge in Hlen.
Qed.

Lemma sanitized_email_is_normal_witness :
  let e := "alice@example.com" in
  Validation.validateAndSanitizeEmail (Some e) = Validation.mkValidity true (Some e) None /\
  Forall (fun c => Validation.is_space c = false /\ Validation.is_control c = false /\
                   Validation.lower c = c) (Validation.chars e) /\
  length (List.filter (fun c => bool_decide (c = "@"%char)) (Validation.chars e)) = 1%nat /\
  (String.length e <= 255)%nat /\
  Validation.isValidEmail e = true.
Proof.
  apply (sanitized_email_is_normal (Some "  Alice@Example.COM ") "alice@example.com").
  vm_compute. reflexivity.
Defined.

(** ** From registration to login *)

(** What a registration that succeeds has done. *)
Lemma register_ok `{Libraries} data dev w u token w1 :
  AuthService.register data dev w = (Ok (u, token), w1) ->
  exists row,
    List.filter (Pg.has_email (AuthService.r_email data)) (users (db w)) = [] /\
    users (db w1) = users (db w) ++ [row] /\
    Pg.varchar 255 (AuthService.r_email data) = Some (u_email row) /\
    Pg.varchar 255 (bcrypt_hash (AuthService.r_password data) 10) =
      Some (u_password_hash row) /\
    u_role row = RoleUser /\ u_is_active row = true /\
    u = AuthService.public row.
Proof.
  unfold AuthService.register, bind.
  destruct (query _ w) as [[rows|e] w0] eqn:Hq; [|done].
  pose proof Hq as Hdb. apply query_read_db in Hdb.
  unfold query in Hq. destruct (faults w (queries w)); [done|]. injection Hq as <- Hw0.
  destruct (List.filter _ (users (db w))) as [|x rest] eqn:Hrows; [|done].
  change (0 <? length (@nil User))%nat with false. cbv iota beta.
  destruct (Pg.insert_user _ _ w0) as [[row|e] w2] eqn:Hins; [|done].
  apply insert_user_outcome in Hins
    as (_ & _ & _ & _ & _ & _ & _ & _ & _ & Hu & _ & _ & _ & Hact & _ & _ &
        e & h & fn & ln & rest & [= <- <- <- <- <-] & He & Hh & _ & _ & Hrole).
  intros Hissue. apply issue_run in Hissue. cbn zeta in Hissue.
  destruct Hissue as (-> & _ & _ & expiry & _ & -> & _).
  exists row. split; [done|].
  assert (users (db (with_db (set_sessions
            (sessions (db w2) ++
             [mkSession (u_id row)
                (SessionService.hashToken
                   (jwt_sign (mkAuthPayload (u_id row) (u_email row) (u_role row))
                      JWT_EXPIRES_IN (now w2)))
                expiry false None (or_null (AuthService.di_device_info dev))
                (or_null (AuthService.di_ip_address dev)) (now w2) (now w2)])
            (db w2)) (tick w2))) = users (db w2)) as -> by by destruct w2, db0.
  rewrite Hu, Hdb.
  cbn [Pg.role_of_values] in Hrole. injection Hrole as <-. done.
Qed.

(** [issue] records the session of a user of the table when the expiry is
    a timestamp, the address fits its column and the store answers. *)
Lemma issue_ok `{Libraries} u dev w expiry :
  faults w (queries w) = None ->
  fst (AuthService.getExpirationDate w) = Ok (Some expiry) ->
  timestamp_fits expiry = true ->
  SessionService.ip_fits (or_null (AuthService.di_ip_address dev)) = true ->
  SessionService.user_known (u_id u) (db w) = true ->
  exists token w', AuthService.issue u dev w = (Ok (AuthService.public u, token), w').
Proof.
  intros Hf Hexp Hts Hip Hknown. unfold AuthService.issue, bind. cbn [Date_now].
  destruct (getExpirationDate_reads w) as [r Hr].
  rewrite (Hr w eq_refl) in *. cbn [fst] in Hexp. injection Hexp as ->.
  unfold SessionService.createSession. rewrite query_run by done.
  cbn [SessionService.dto_expires_at SessionService.dto_ip_address
       SessionService.dto_user_id fst snd].
  rewrite Hts, Hip, Hknown. unfold ret. eauto.
Qed.

Lemma user_known_last us row d :
  users d = us ++ [row] -> SessionService.user_known (u_id row) d = true.
Proof.
  intros Hu. unfold SessionService.user_known. rewrite Hu, existsb_app. simpl.
  rewrite bool_decide_eq_true_2 by done. by rewrite orb_true_r.
Qed.

Lemma valid_has_sanitized email :
  Validation.valid (Validation.validateAndSanitizeEmail email) = true ->
  exists e, Validation.sanitized (Validation.validateAndSanitizeEmail email) = Some e.
Proof.
  unfold Validation.validateAndSanitizeEmail.
  destruct email as [x|]; [|done].
  destruct (negb (truthy x)); [done|].
  destruct (negb (truthy _)); [done|].
  destruct (255 <? _)%nat; [done|].
  destruct (negb (Validation.isValidEmail _)); [done|]. eauto.
Qed.

Lemma valid_password_is_some p :
  Validation.valid (Validation.isValidPassword p) = true -> exists x, p = Some x.
Proof. destruct p; [eauto|done]. Qed.

(** X20. Who has registered can log in: after a registration that was
    answered 201, a login with an address that is sanitized to the same
    address and with the same password is answered 200 for the new user,
    who has the role [user], provided the password is not made of white
    space only, the library accepts a password against its own hash, which
    fits its column, the users are as the registration left them, the two
    queries of the login succeed, the lifetime of the configuration gives
    the session an expiry that a [TIMESTAMP] holds, and the address of the
    client, as [getDeviceInfo] reads it in the login request, has 45
    characters at most. *)
Theorem registered_user_can_log_in `{Libraries}
    (req req2 : Request AuthController.Credentials) w w2 password expiry :
  status (fst (Routes.post_register req w)) = 201 ->
  AuthController.c_password (body req) = Some password ->
  AuthController.c_password (body req2) = Some password ->
  Validation.sanitized
    (Validation.validateAndSanitizeEmail (AuthController.c_email (body req2))) =
  Validation.sanitized
    (Validation.validateAndSanitizeEmail (AuthController.c_email (body req))) ->
  Validation.trim password <> "" ->
  bcrypt_compare password (bcrypt_hash password 10) = true ->
  (String.length (bcrypt_hash password 10) <= 255)%nat ->
  users (db w2) = users (db (snd (Routes.post_register req w))) ->
  faults w2 (queries w2) = None ->
  faults w2 (S (queries w2)) = None ->
  fst (AuthService.getExpirationDate w2) = Ok (Some expiry) ->
  timestamp_fits expiry = true ->
  SessionService.ip_fits
    (or_null (AuthService.di_ip_address (AuthService.getDeviceInfo req2))) = true ->
  exists u token,
    fst (Routes.post_login req2 w2) = mkResponse 200 (AuthBody "Login successful" u token) /\
    Validation.sanitized
      (Validation.validateAndSanitizeEmail (AuthController.c_email (body req))) =
      Some (pu_email u) /\
    pu_role u = RoleUser /\ pu_is_active u = true.
Proof.
  intros H201 Hp Hp2 Hemail Htrim Hbcrypt Hhash Husers Hf0 Hf1 Hexp Hts Hip.
  revert H201 Husers.
  unfold Routes.post_register. cbn [Routes.route].
  unfold AuthController.register, AuthController.registration.
  destruct (Validation.valid (Validation.validateAndSanitizeEmail
              (AuthController.c_email (body req)))) eqn:Hvalid; [|done].
  cbn [negb].
  destruct (Validation.valid (Validation.isValidPassword _)); [|done]. cbn [negb].
  destruct (Validation.valid (Validation.validateStringLength
              (AuthController.c_first_name (body req)) _ _ _)); [|done]. cbn [negb].
  destruct (Validation.valid (Validation.validateStringLength
              (AuthController.c_last_name (body req)) _ _ _)); [|done]. cbn [negb].
  destruct (valid_has_sanitized _ Hvalid) as [e He]. rewrite He, Hp. cbn [default].
  destruct (AuthService.register _ _ w) as [[[u token]|err] w1] eqn:Hreg.
  2:{ cbn [fst]. intros H201.
      destruct (registration_failure_status "Failed to register user" err) as [Hs | Hs];
        rewrite Hs in H201; done. }
  cbn [fst snd]. intros _ Husers.
  apply register_ok in Hreg
    as (row & Hfree & Hw1 & Hrow_email & Hrow_hash & Hrow_role & Hrow_active & ->).
  cbn [AuthService.r_email AuthService.r_password] in *. unfold id in *.
  destruct (sanitized_checked _ _ He) as (_ & Hshort & _).
  apply Nat.ltb_ge in Hshort.
  rewrite varchar_fits in Hrow_email, Hrow_hash by done.
  injection Hrow_email as Hrow_email. injection Hrow_hash as Hrow_hash.
  unfold Routes.post_login. cbn [Routes.route]. unfold AuthController.login.
  rewrite He in Hemail. rewrite (sanitized_valid _ _ Hemail), Hemail, Hp2.
  cbn [negb]. rewrite (trim_nonempty_truthy _ Htrim). cbn [default].
  unfold AuthService.login, bind. rewrite query_run by done. cbn [fst snd].
  cbn [AuthService.l_email AuthService.l_password]. unfold id.
  rewrite Husers, Hw1, List.filter_app, Hfree. cbn [app List.filter].
  unfold Pg.has_email at 1. rewrite bool_decide_eq_true_2 by done.
  rewrite Hrow_active, <- Hrow_hash, Hbcrypt. cbn [negb].
  destruct (getExpirationDate_reads w2) as [r Hr].
  rewrite (Hr w2 eq_refl) in Hexp. cbn [fst] in Hexp. injection Hexp as ->.
  destruct (issue_ok row (AuthController.device req2) (with_db (db w2) (tick w2)) expiry)
    as (token' & w3 & ->); try done.
  { by rewrite Hr. }
  { cbn [db with_db]. apply (user_known_last (users (db w))). by rewrite Husers. }
  exists (AuthService.public row), token'. split; [done|].
  cbn [AuthService.public pu_email pu_role pu_is_active]. by rewrite <- Hrow_email.
Qed.

Lemma registered_user_can_log_in_witness :
  let bob := AuthController.mkCredentials (Some " Bob@Example.com") (Some "Password123")
               (Some "Bob") (Some "Builder") None in
  let bob2 := AuthController.mkCredentials (Some "bob@example.com") (Some "Password123")
                None None None in
  let w := Scenario.world (Scenario.database 5 Upcoming) Scenario.no_faults 1000 in
  let w2 := Scenario.later (snd (Routes.post_register (H := Scenario.libraries)
                                   (Scenario.anonymous bob) w))
              Scenario.no_faults 2000 in
  exists u token,
    fst (Routes.post_login (H := Scenario.libraries) (Scenario.anonymous bob2) w2) =
      mkResponse 200 (AuthBody "Login successful" u token) /\
    Validation.sanitized
      (Validation.validateAndSanitizeEmail (AuthController.c_email bob)) =
      Some (pu_email u) /\
    pu_role u = RoleUser /\ pu_is_active u = true.
Proof.
  apply (registered_user_can_log_in (H := Scenario.libraries)
           (Scenario.anonymous
              (AuthController.mkCredentials (Some " Bob@Example.com") (Some "Password123")
                 (Some "Bob") (Some "Builder") None))
           (Scenario.anonymous
              (AuthController.mkCredentials (Some "bob@example.com") (Some "Password123")
                 None None None))
           (Scenario.world (Scenario.database 5 Upcoming) Scenario.no_faults 1000)
           (Scenario.later
              (snd (Routes.post_register (H := Scenario.libraries)
                      (Scenario.anonymous
                         (AuthController.mkCredentials (Some " Bob@Example.com")
                            (Some "Password123") (Some "Bob") (Some "Builder") None))
                      (Scenario.world (Scenario.database 5 Upcoming) Scenario.no_faults 1000)))
              Scenario.no_faults 2000)
           "Password123" (2000 + 7 * 86400000)).
  - vm_compute. reflexivity.
  - reflexivity.
  - reflexivity.
  - vm_compute. reflexivity.
  - vm_compute. discriminate.
  - vm_compute. reflexivity.
  - simpl. lia.
  - reflexivity.
  - reflexivity.
  - reflexivity.
  - vm_compute. reflexivity.
  - vm_compute. reflexivity.
  - vm_compute. reflexivity.
Defined.

(** X21. A password made of white space only is accepted by the
    registration when it has 8 to 128 characters, and refused by the login
    whatever the address is: the login answers 400 [Password is required]
    before it looks the user up, so such a user cannot log in. *)
Theorem blank_password_cannot_log_in `{Libraries} (p : string) :
  Validation.trim p = "" ->
  (8 <= String.length p <= 128)%nat ->
  Validation.isValidPassword (Some p) = Validation.mkValidity true None None /\
  forall (req : Request AuthController.Credentials) w,
    AuthController.c_password (body req) = Some p ->
    Validation.valid
      (Validation.validateAndSanitizeEmail (AuthController.c_email (body req))) = true ->
    Routes.post_login req w =
    (mkResponse 400 (ErrorBody "Validation error" "Password is required"), w).
Proof.
  intros Htrim [Hmin Hmax]. split.
  - unfold Validation.isValidPassword.
    destruct (Nat.ltb_spec (String.length p) 8); [lia|].
    destruct (Nat.ltb_spec 128 (String.length p)); [lia|]. done.
  - intros req w Hp Hvalid. unfold Routes.post_login. cbn [Routes.route].
    unfold AuthController.login. rewrite Hvalid, Hp, Htrim. cbn [negb].
    by rewrite orb_true_r.
Qed.

Lemma blank_password_cannot_log_in_witness :
  let p := "         " in
  Validation.isValidPassword (Some p) = Validation.mkValidity true None None /\
  forall (req : Request AuthController.Credentials) w,
    AuthController.c_password (body req) = Some p ->
    Validation.valid
      (Validation.validateAndSanitizeEmail (AuthController.c_email (body req))) = true ->
    Routes.post_login (H := Scenario.libraries) req w =
    (mkResponse 400 (ErrorBody "Validation error" "Password is required"), w).
Proof.
  apply (blank_password_cannot_log_in (H := Scenario.libraries) "         ").
  - reflexivity.
  - simpl. lia.
Defined.

(** ** The buyer of a purchase *)

Lemma new_tickets_buyer eventId userId event t i n :
  Forall (fun tk => t_user_id tk = Some userId /\ t_event_id tk = Some eventId /\
                    t_status tk = TPurchased /\ quantity tk = 1)
    (new_tickets eventId userId event t i n).
Proof.
  unfold new_tickets. apply Forall_forall. intros tk Htk.
  apply list_elem_of_In, in_map_iff in Htk as (j & <- & _). done.
Qed.

(** X22. A purchase is recorded for the user of the token and for nobody
    else: whatever the request says, the tickets that [POST
    /events/:eventId/purchase] adds carry the user id of the token that the
    gate verified and the event id of the route, one unit each; the users
    are left as they are. *)
Theorem purchase_is_recorded_for_the_token_user `{Libraries}
    (req : Request EventController.PurchaseTicketDto) w :
  txn w = None ->
  users (db (snd (Routes.post_purchase req w))) = users (db w) /\
  exists new,
    tickets (db (snd (Routes.post_purchase req w))) = tickets (db w) ++ new /\
    Forall (fun tk =>
              exists header decoded,
                authorization req = Some header /\
                jwt_verify (Middleware.extract_token header) (now w) = Ok decoded /\
                t_user_id tk = Some (jwt_userId decoded) /\
                t_event_id tk = parseInt (param req) /\
                t_status tk = TPurchased /\ quantity tk = 1) new.
Proof.
  intros Htxn. unfold Routes.post_purchase. cbn [Routes.route].
  destruct (authenticate_outcome req w) as [Hdb Hg].
  destruct (authenticate_frame req w) as (Htx1 & Hnow1 & _).
  destruct (Middleware.authenticate req w) as [[r|req'] w1]; cbn [fst snd] in *.
  { destruct Hdb as (-> & _ & _ & _ & ->). split; [done|]. exists []. by rewrite app_nil_r. }
  destruct Hg as (header & decoded & Hauth & Hv & ->).
  destruct Hdb as (Hu1 & _ & _ & _ & Ht1).
  assert (forall w', db w' = db w1 ->
            users (db w') = users (db w) /\
            exists new, tickets (db w') = tickets (db w) ++ new /\
              Forall (fun tk =>
                exists header decoded,
                  authorization req = Some header /\
                  jwt_verify (Middleware.extract_token header) (now w) = Ok decoded /\
                  t_user_id tk = Some (jwt_userId decoded) /\
                  t_event_id tk = parseInt (param req) /\
                  t_status tk = TPurchased /\ quantity tk = 1) new) as Hsame.
  { intros w' ->. split; [done|]. exists []. by rewrite app_nil_r. }
  unfold EventController.purchaseTickets.
  cbn [Middleware.attach user param body identity fmap option_fmap option_map userId].
  destruct (jwt_userId decoded =? 0); [by apply Hsame|].
  destruct (parseInt (param req)) as [eventId|] eqn:Hid; [|by apply Hsame].
  destruct (EventController.p_quantity (body req)) as [q|]; [|by apply Hsame].
  destruct (q <? 1); [by apply Hsame|].
  rewrite Htxn in Htx1.
  destruct (EventService.purchaseTickets eventId q (jwt_userId decoded) w1)
    as [r w2] eqn:Hbuy.
  pose proof (purchase_outcome _ _ _ _ _ _ Htx1 Hbuy)
    as (_ & _ & _ & [(e & -> & Hdb2) | (event & _ & _ & _ & Hdb2 & Hr)]).
  { cbn [snd]. by apply Hsame. }
  assert (db (snd (match r with
                   | Ok event0 =>
                       (mkResponse 200
                          (EventBody ("Successfully purchased " +:+ show q +:+ " ticket(s)")
                             event0), w2)
                   | Throw error => (EventController.purchase_failure error, w2)
                   end)) = db w2) as -> by by destruct r.
  rewrite Hdb2. unfold purchased.
  destruct (db w1) as [us useq evs eseq tks ss] eqn:Hd1. cbn in *. subst us tks.
  split; [done|].
  exists (new_tickets eventId (jwt_userId decoded) event (now w1) 0 q). split; [done|].
  eapply Forall_impl; [apply new_tickets_buyer|].
  intros tk (Hu & He & Hs & Hq). exists header, decoded. rewrite He. done.
Qed.

Lemma purchase_is_recorded_for_the_token_user_witness :
  let w := Scenario.later Scenario.logged_in Scenario.no_faults 2000 in
  let req :=
    mkRequest (Some ("Bearer " +:+ Scenario.alice_token)) None "1"
      (Some (mkAuthPayload 8 "mallory@example.com" RoleAdmin))
      (EventController.mkPurchaseTicketDto (Some 2)) Scenario.browser in
  users (db (snd (Routes.post_purchase (H := Scenario.libraries) req w))) = users (db w) /\
  exists new,
    tickets (db (snd (Routes.post_purchase (H := Scenario.libraries) req w))) =
      tickets (db w) ++ new /\
    Forall (fun tk =>
              exists header decoded,
                authorization req = Some header /\
                jwt_verify (Libraries := Scenario.libraries)
                  (Middleware.extract_token header) (now w) = Ok decoded /\
                t_user_id tk = Some (jwt_userId decoded) /\
                t_event_id tk = parseInt (param req) /\
                t_status tk = TPurchased /\ quantity tk = 1) new.
Proof.
  apply (purchase_is_recorded_for_the_token_user (H := Scenario.libraries)
           (mkRequest (Some ("Bearer " +:+ Scenario.alice_token)) None "1"
              (Some (mkAuthPayload 8 "mallory@example.com" RoleAdmin))
              (EventController.mkPurchaseTicketDto (Some 2)) Scenario.browser)
           (Scenario.later Scenario.logged_in Scenario.no_faults 2000)).
  reflexivity.
Defined.

(** ** Logout through the API *)

Lemma replace_prefix (h pat : string) :
  startsWith h pat = true -> replace h pat "" = drop (String.length pat) h.
Proof. unfold startsWith. intros Hp. destruct h; cbn [replace]; by rewrite Hp. Qed.

Lemma replace_absent (h pat : string) :
  includes h pat = false -> replace h pat "" = h.
Proof.
  induction h as [|c h IH]; cbn [replace includes].
  - intros Hp. apply orb_false_iff in Hp as [-> _]. done.
  - intros Hp. apply orb_false_iff in Hp as [Hp Hrest]. rewrite Hp. by rewrite IH.
Qed.

Lemma includes_prefix (h pat : string) : startsWith h pat = true -> includes h pat = true.
Proof. unfold startsWith. intros Hp. destruct h; cbn [includes]; by rewrite Hp. Qed.

(** The token that the logout revokes is the token that the gate reads,
    when [Bearer ] starts the header or does not occur in it. *)
Lemma logout_token_is_gate_token {B} (req : Request B) header :
  authorization req = Some header ->
  startsWith header "Bearer " = true \/ includes header "Bearer " = false ->
  AuthController.logout_token req = Middleware.extract_token header.
Proof.
  intros Hauth Hcase. unfold AuthController.logout_token, Middleware.extract_token.
  rewrite Hauth. destruct Hcase as [Hp | Hn].
  - rewrite Hp. by apply replace_prefix.
  - destruct (startsWith header "Bearer ") eqn:Hp.
    + apply includes_prefix in Hp. congruence.
    + by apply replace_absent.
Qed.

(** X23. After a logout through the API the same header is turned away:
    when [POST /logout] has answered 200 for a header that starts with
    [Bearer ] (or does not contain it), no request with this header is
    passed on by the gate afterwards, whatever happens to the ledger in
    between short of recording the same token again. *)
Theorem logged_out_header_is_turned_away `{Libraries} {B}
    (req : Request unit) w0 header (req2 : Request B) w :
  authorization req = Some header ->
  startsWith header "Bearer " = true \/ includes header "Bearer " = false ->
  status (fst (Routes.post_logout req w0)) = 200 ->
  rtc (ledger_step (SessionService.hashToken (Middleware.extract_token header)))
    (snd (Routes.post_logout req w0)) w ->
  authorization req2 = Some header ->
  forall req', fst (Middleware.authenticate req2 w) <> Next req'.
Proof.
  intros Hauth Hcase H200 Hsteps Hauth2 req' Hnext.
  pose proof (logout_token_is_gate_token req header Hauth Hcase) as Htoken.
  revert H200 Hsteps. unfold Routes.post_logout. cbn [Routes.route].
  unfold AuthController.logout, AuthService.logout, bind. rewrite Htoken.
  destruct (SessionService.revokeToken (Middleware.extract_token header) w0)
    as [[b|e] w1] eqn:Hrev; [|done].
  cbn [fst snd ret]. intros _ Hsteps.
  assert (all_revoked (SessionService.hashToken (Middleware.extract_token header))
            (sessions (db w))) as Hall.
  { eapply ledger_steps_all_revoked; [done|]. by eapply revokeToken_all_revoked. }
  apply gate_needs_both_checks in Hnext as (header' & decoded & Hh' & _ & Hv).
  assert (header' = header) as -> by congruence.
  destruct (faults w (queries w)) as [e|] eqn:Hf.
  - by rewrite isTokenValid_fault with (e := e) in Hv.
  - rewrite isTokenValid_run in Hv by done. cbn [fst] in Hv.
    by rewrite all_revoked_not_honoured in Hv.
Qed.

Lemma logged_out_header_is_turned_away_witness :
  let out := Routes.post_logout (H := Scenario.libraries)
               (Scenario.bearer Scenario.alice_token tt) Scenario.logged_in in
  status (fst out) = 200 /\
  forall req',
    fst (Middleware.authenticate (H := Scenario.libraries)
           (Scenario.bearer Scenario.alice_token tt) (snd out)) <> Next req'.
Proof.
  split; [reflexivity|].
  apply (logged_out_header_is_turned_away (H := Scenario.libraries)
           (Scenario.bearer Scenario.alice_token tt) Scenario.logged_in
           ("Bearer " +:+ Scenario.alice_token)
           (Scenario.bearer Scenario.alice_token tt)
           (snd (Routes.post_logout (H := Scenario.libraries)
                   (Scenario.bearer Scenario.alice_token tt) Scenario.logged_in))).
  - reflexivity.
  - left. reflexivity.
  - reflexivity.
  - apply rtc_refl.
  - reflexivity.
Defined.

(** ** Creation of an event *)

Lemma trim_start_nil l :
  Validation.trim_start l = [] <-> forallb Validation.is_space l = true.
Proof.
  induction l as [|c l IH]; simpl; [done|].
  destruct (Validation.is_space c); simpl; [done|]. split; done.
Qed.

Lemma forallb_rev {A} (f : A -> bool) (l : list A) : forallb f (rev l) = forallb f l.
Proof.
  induction l as [|x l IH]; simpl; [done|].
  rewrite forallb_app, IH. simpl. rewrite andb_true_r. apply andb_comm.
Qed.

Lemma trim_start_keeps l :
  forallb Validation.is_space l = false ->
  forallb Validation.is_space (Validation.trim_start l) = false.
Proof.
  induction l as [|c l IH]; simpl; [done|].
  destruct (Validation.is_space c) eqn:Hc; simpl; [done|]. by rewrite Hc.
Qed.

(** A string is blank when every character of it is white space. *)
Lemma trim_empty s :
  Validation.trim s = "" <-> forallb Validation.is_space (Validation.chars s) = true.
Proof.
  unfold Validation.trim. split.
  - intros Ht.
    destruct (forallb Validation.is_space (Validation.chars s)) eqn:Hall; [done|].
    apply trim_start_keeps in Hall. rewrite <- forallb_rev in Hall.
    apply trim_start_keeps in Hall. rewrite <- forallb_rev in Hall.
    apply (f_equal Validation.chars) in Ht. rewrite chars_str in Ht.
    rewrite Ht in Hall. done.
  - intros Hall. apply trim_start_nil in Hall. by rewrite Hall.
Qed.

(** What [VARCHAR(n)] keeps of a string that is not blank is not blank. *)
Lemma varchar_not_blank n s t :
  Pg.varchar n s = Some t -> Validation.trim s <> "" -> Validation.trim t <> "".
Proof.
  unfold Pg.varchar. destruct (String.length s <=? n)%nat; [by intros [= ->]|].
  destruct (forallb _ (skipn n _)) eqn:Hrest; [|done]. intros [= <-] Hs Ht.
  apply Hs. apply trim_empty. apply trim_empty in Ht.
  change (String.list_ascii_of_string s) with (Validation.chars s) in *.
  change (String.string_of_list_ascii (firstn n (Validation.chars s)))
    with (Validation.str (firstn n (Validation.chars s))) in Ht.
  rewrite chars_str in Ht.
  rewrite <- (firstn_skipn n (Validation.chars s)), forallb_app, Ht. simpl.
  apply forallb_forall. intros c Hin. rewrite forallb_forall in Hrest.
  specialize (Hrest c Hin). apply bool_decide_eq_true in Hrest. by subst c.
Qed.

(** X24. An event that is created is fully available: when the creation
    is answered 201, the new row is stored under an id that no event had,
    with as many available tickets as tickets in total, at least one, a
    price that is not negative, the title as its column holds it, which is
    not blank, the status given or [upcoming], and as its creator the
    requester, who is a user of the table; the other rows and the other
    tables are as they were.  With any other answer no row is written or
    changed, and one id of the sequence is lost at most. *)
Theorem created_event_is_fully_available (req : Request EventService.CreateEventDto) w :
  (status (fst (EventController.createEvent req w)) = 201 ->
   exists e,
     json (fst (EventController.createEvent req w)) =
       EventBody "Event created successfully" (Some e) /\
     events (db w) !! e_id e = None /\
     events (db (snd (EventController.createEvent req w))) =
       <[e_id e := e]> (events (db w)) /\
     available_tickets e = total_tickets e /\ 1 <= total_tickets e /\ 0 <= price e /\
     total_tickets e = EventService.c_total_tickets (body req) /\
     price e = EventService.c_price (body req) /\
     Pg.varchar 255 (EventService.c_title (body req)) = Some (e_title e) /\
     Validation.trim (e_title e) <> "" /\
     e_status e = default Upcoming (EventService.c_status (body req)) /\
     e_created_by e = EventService.id_or_null (userId <$> user req) /\
     EventService.creator_known (e_created_by e) (db w) = true /\
     users (db (snd (EventController.createEvent req w))) = users (db w) /\
     tickets (db (snd (EventController.createEvent req w))) = tickets (db w) /\
     sessions (db (snd (EventController.createEvent req w))) = sessions (db w)) /\
  (status (fst (EventController.createEvent req w)) <> 201 ->
   events (db (snd (EventController.createEvent req w))) = events (db w) /\
   users (db (snd (EventController.createEvent req w))) = users (db w) /\
   tickets (db (snd (EventController.createEvent req w))) = tickets (db w) /\
   sessions (db (snd (EventController.createEvent req w))) = sessions (db w) /\
   events_seq (db w) <= events_seq (db (snd (EventController.createEvent req w)))
     <= events_seq (db w) + 1).
Proof.
  destruct (EventController.createEvent req w) as [resp w'] eqn:Hrun. cbn [fst snd].
  revert Hrun. unfold EventController.createEvent. cbv zeta.
  destruct (negb (truthy (EventService.c_title (body req))) ||
            negb (truthy (Validation.trim (EventService.c_title (body req))))) eqn:Htitle.
  { intros [= <- <-]. split; [done|]. intros _. repeat split; first [reflexivity|lia]. }
  apply orb_false_iff in Htitle as [_ Htitle]. apply negb_false_iff, truthy_true in Htitle.
  case_bool_decide as Hdate.
  { intros [= <- <-]. split; [done|]. intros _. repeat split; first [reflexivity|lia]. }
  destruct (Z.ltb_spec (EventService.c_total_tickets (body req)) 1).
  { intros [= <- <-]. split; [done|]. intros _. repeat split; first [reflexivity|lia]. }
  destruct (Z.ltb_spec (EventService.c_price (body req)) 0).
  { intros [= <- <-]. split; [done|]. intros _. repeat split; first [reflexivity|lia]. }
  unfold EventService.createEvent, query.
  destruct (faults w (queries w)).
  { intros [= <- <-]. split; [done|]. intros _. cbn. repeat split; first [reflexivity|lia]. }
  destruct (EventService.insert_event _ _ (db w) (now w)) as [[row|e] d'] eqn:Hins;
    apply insert_event_outcome in Hins as (Hu & _ & Ht & Hs & Hcase);
    intros [= <- <-]; cbn [status json db with_db tick].
  - destruct Hcase as (Hnew & Hev & _ & Hid & Htit & Htot & Hav & Hpr & Hst & Hby & Hknown & _).
    split; [|done]. intros _. exists row. rewrite Hid, Hby.
    split; [done|]. split; [done|]. split; [done|].
    split; [by rewrite Hav, Htot|]. split; [lia|]. split; [lia|].
    repeat (split; [done|]).
    split; [by apply (varchar_not_blank _ _ _ Htit)|]. done.
  - destruct Hcase as [Hev Hseq]. split; [done|]. intros _.
    repeat (split; [done|]). lia.
Qed.

(** ** Reading a profile *)

Lemma getUserById_id id w u w' :
  UserService.getUserById id w = (Ok (Some u), w') -> pu_id u = id /\ db w' = db w.
Proof.
  unfold UserService.getUserById. intros Hq. pose proof Hq as Hdb.
  apply query_read_db in Hdb. split; [|done].
  unfold query in Hq. destruct (faults w (queries w)); [done|].
  injection Hq as Hu _.
  destruct (List.filter (UserService.has_id id) (users (db w))) as [|row rest] eqn:Hrows;
    [done|].
  assert (In row (List.filter (UserService.has_id id) (users (db w)))) as Hin
    by (rewrite Hrows; by left).
  apply filter_In in Hin as [_ Hid]. unfold UserService.has_id in Hid.
  apply bool_decide_eq_true in Hid. cbn in Hu. injection Hu as <-. done.
Qed.

Lemma getUser_reads {B} (req : Request B) w :
  db (snd (UserController.getUser req w)) = db w.
Proof.
  unfold UserController.getUser. destruct (parseInt (param req)) as [id|]; [|done].
  unfold UserService.getUserById.
  destruct (query _ w) as [[[u|]|e] w'] eqn:Hq; apply query_read_db in Hq; done.
Qed.

(** X25. A profile is read by its owner: without the token of an admin,
    [GET /users/:id] returns a user only if it is the user of the token; the
    users, events and tickets are left as they are. *)
Theorem profile_is_read_by_its_owner `{Libraries} (req : Request unit) w :
  no_admin_token (authorization req) w ->
  same_records (db w) (db (snd (UserRoutes.get_user req w))) /\
  forall code msg data,
    fst (UserRoutes.get_user req w) = UserController.WithUser code msg data ->
    exists header decoded,
      authorization req = Some header /\
      jwt_verify (Middleware.extract_token header) (now w) = Ok decoded /\
      pu_id data = jwt_userId decoded.
Proof.
  intros Hno. unfold UserRoutes.get_user. cbn [UserRoutes.route].
  destruct (authenticate_outcome req w) as [Hdb Hg].
  destruct (Middleware.authenticate req w) as [[r|req'] w1]; cbn [fst snd] in *.
  { split; [done|]. intros code msg data [=]. }
  destruct Hg as (header & decoded & Hauth & Hv & ->).
  pose proof (Hno header decoded Hauth Hv) as Hrole.
  unfold UserRoutes.own_profile, UserController.not_admin.
  cbn [Middleware.attach user param identity fmap option_fmap option_map role userId].
  rewrite Hrole. rewrite bool_decide_eq_false_2 by done. cbn [negb andb].
  destruct (parseInt (param req)) as [id|] eqn:Hid; cbn [UserRoutes.same_user];
    [|cbn [negb fst snd]; split; [done|]; intros code msg data [=]].
  case_bool_decide as Hown; cbn [negb fst snd];
    [|split; [done|]; intros code msg data [=]].
  subst id. split.
  - rewrite getUser_reads. done.
  - intros code msg data. unfold UserController.getUser.
    cbn [Middleware.attach param]. rewrite Hid.
    destruct (UserService.getUserById (jwt_userId decoded) w1) as [[[u|]|e] w2] eqn:Hget;
      cbn [fst]; intros [=]. subst.
    apply getUserById_id in Hget as [Hu _]. eauto.
Qed.

Lemma profile_is_read_by_its_owner_witness :
  let req : Request unit := Scenario.bearer Scenario.alice_token tt in
  let w := Scenario.later Scenario.logged_in Scenario.no_faults 2000 in
  same_records (db w) (db (snd (UserRoutes.get_user (H := Scenario.libraries) req w))) /\
  forall code msg data,
    fst (UserRoutes.get_user (H := Scenario.libraries) req w) =
      UserController.WithUser code msg data ->
    exists header decoded,
      authorization req = Some header /\
      jwt_verify (Libraries := Scenario.libraries)
        (Middleware.extract_token header) (now w) = Ok decoded /\
      pu_id data = jwt_userId decoded.
Proof.
  apply (profile_is_read_by_its_owner (H := Scenario.libraries)
           (Scenario.bearer Scenario.alice_token tt)
           (Scenario.later Scenario.logged_in Scenario.no_faults 2000)).
  intros header decoded [= <-]. vm_compute. intros [= <-]. reflexivity.
Defined.

(** ** Concurrent purchases: serializability *)

Lemma serial_snoc d log d' p ev t :
  serial d log d' ->
  events d' !! on_event p = Some ev ->
  units p <= available_tickets ev ->
  EventService.purchasable (e_status ev) = true ->
  serial d (log ++ [(p, ev, t)]) (purchased (on_event p) (units p) (buyer p) ev t d').
Proof.
  induction 1 as [d|d p0 ev0 t0 log d' Hev0 Hcap0 Hst0 _ IH]; intros Hev Hcap Hst; simpl.
  - econstructor; [done|done|done|constructor].
  - econstructor; [done|done|done|]. by apply IH.
Qed.

Lemma succeeded_middle l1 c l2 :
  succeeded (l1 ++ c :: l2) =
  succeeded l1 ++ option_list (succeeded_call c) ++ succeeded l2.
Proof. unfold succeeded. rewrite omap_app. simpl. by destruct (succeeded_call c). Qed.

Lemma succeeded_same l1 p st st' l2 :
  st <> Succeeded -> st' <> Succeeded ->
  succeeded (l1 ++ mkCall p st' :: l2) = succeeded (l1 ++ mkCall p st :: l2).
Proof.
  intros Hs Hs'. rewrite !succeeded_middle. unfold succeeded_call. cbn [stage].
  by destruct st, st'.
Qed.

Lemma written_checked_middle l1 c c' l2 :
  Forall written_checked (l1 ++ c :: l2) ->
  written_checked c' ->
  Forall written_checked (l1 ++ c' :: l2).
Proof.
  intros Hall Hc. apply Forall_app in Hall as [H1 H2]. apply Forall_cons in H2 as [_ H2].
  apply Forall_app. split; [done|]. by constructor.
Qed.

Lemma serializable_step d0 s s' :
  step s s' ->
  invariant d0 s ->
  Forall written_checked (calls s) ->
  (exists log, serial d0 log (store s) /\ log.*1.*1 ≡ₚ succeeded (calls s)) ->
  Forall written_checked (calls s') /\
  exists log, serial d0 log (store s') /\ log.*1.*1 ≡ₚ succeeded (calls s').
Proof.
  intros Hstep Hinv Hchecked (log & Hserial & Hperm).
  destruct Hstep as
    [d l1 l2 p event Hev Hfree|d l1 l2 p Hev|d l1 l2 p event Hcap
    |d l1 l2 p event Hcap Hst|d l1 l2 p event Hcap Hst|d l1 l2 p event t
    |d l1 l2 p st error Hs Hf]; cbn [calls store] in *.
  - split; [by eapply written_checked_middle|].
    exists log. split; [done|]. by rewrite (succeeded_same l1 p Waiting).
  - split; [by eapply written_checked_middle|].
    exists log. split; [done|]. by rewrite (succeeded_same l1 p Waiting).
  - split; [by eapply written_checked_middle|].
    exists log. split; [done|]. by rewrite (succeeded_same l1 p (Locked event)).
  - split; [by eapply written_checked_middle|].
    exists log. split; [done|]. by rewrite (succeeded_same l1 p (Locked event)).
  - split; [by eapply written_checked_middle|].
    exists log. split; [done|]. by rewrite (succeeded_same l1 p (Locked event)).
  - split; [by eapply written_checked_middle|].
    destruct Hinv as [_ Hcalls _ _]. cbn [calls store] in Hcalls.
    apply Forall_app in Hcalls as [_ Hmine]. apply Forall_cons in Hmine as [Hmine _].
    destruct Hmine as (_ & Hev & Hcap). cbn [request stage] in *.
    pose proof Hchecked as Hst. apply Forall_app in Hst as [_ Hst].
    apply Forall_cons in Hst as [Hst _]. unfold written_checked in Hst. cbn [stage] in Hst.
    exists (log ++ [(p, event, t)]). split.
    + rewrite (committed_purchased _ _ _ _ Hev). by apply serial_snoc.
    + rewrite !fmap_app. cbn. rewrite Hperm, !succeeded_middle.
      unfold succeeded_call, option_list. cbn [stage request app].
      rewrite <- app_assoc. apply Permutation_app_head.
      symmetry. apply Permutation_cons_append.
  - split; [by eapply written_checked_middle|].
    exists log. split; [done|]. by rewrite (succeeded_same l1 p st).
Qed.

Lemma succeeded_initial cs : initial cs -> succeeded cs = [].
Proof.
  induction 1 as [|c cs [Hc _] _ IH]; [done|].
  unfold succeeded in *. simpl. unfold succeeded_call at 1. by rewrite Hc.
Qed.

Lemma written_checked_initial cs : initial cs -> Forall written_checked cs.
Proof.
  intros Hinit. eapply Forall_impl; [exact Hinit|].
  intros c [Hc _]. unfold written_checked. by rewrite Hc.
Qed.

Lemma serializable_run d0 s s' :
  rtc step s s' ->
  invariant d0 s ->
  Forall written_checked (calls s) ->
  (exists log, serial d0 log (store s) /\ log.*1.*1 ≡ₚ succeeded (calls s)) ->
  exists log, serial d0 log (store s') /\ log.*1.*1 ≡ₚ succeeded (calls s').
Proof.
  induction 1 as [s|s s1 s2 Hstep _ IH]; intros Hinv Hchecked Hlog; [done|].
  destruct (serializable_step d0 s s1 Hstep Hinv Hchecked Hlog) as [Hchecked1 Hlog1].
  apply IH; [by eapply invariant_step|done|done].
Qed.

(** X27. Concurrent purchases are serializable: in every state that calls
    which start together can reach, the database is the one that the
    purchases which succeeded leave when they run one after the other in
    the order of their commits, each alone on the database left by those
    before it, where it finds its event with enough tickets and a status
    that allows the purchase. *)
Theorem purchases_are_serializable d0 cs s :
  initial cs ->
  rtc step (mkSystem d0 cs) s ->
  exists log, serial d0 log (store s) /\ log.*1.*1 ≡ₚ succeeded (calls s).
Proof.
  intros Hinit Hrun.
  apply (serializable_run d0 (mkSystem d0 cs) s Hrun).
  - by apply invariant_initial.
  - by apply written_checked_initial.
  - exists []. split; [constructor|]. cbn [calls]. by rewrite succeeded_initial.
Qed.

Lemma purchases_are_serializable_witness :
  let d0 := Scenario.database 2 Upcoming in
  let ev0 := Scenario.concert 2 Upcoming in
  let two := mkPurchase 1 2 7 in
  let one := mkPurchase 1 1 7 in
  let s := mkSystem (committed two ev0 1000 d0)
             [mkCall two Succeeded; mkCall one (Failed (EventService.not_enough 0 1))] in
  exists log, serial d0 log (store s) /\ log.*1.*1 ≡ₚ succeeded (calls s).
Proof.
  apply (purchases_are_serializable (Scenario.database 2 Upcoming)
           [mkCall (mkPurchase 1 2 7) Waiting; mkCall (mkPurchase 1 1 7) Waiting]).
  - repeat constructor; simpl; lia.
  - eapply rtc_l; [apply (select_found _ [] _ (mkPurchase 1 2 7)); [reflexivity|]|].
    { simpl. apply not_elem_of_nil. }
    eapply rtc_l; [apply (write _ [] _ (mkPurchase 1 2 7)); [simpl; lia|reflexivity]|].
    eapply rtc_l; [apply (commit _ [] _ (mkPurchase 1 2 7) _ 1000)|].
    eapply rtc_l.
    { apply (select_found _ [mkCall (mkPurchase 1 2 7) Succeeded] [] (mkPurchase 1 1 7)
               (decremented (Scenario.concert 2 Upcoming) 2 1000)); [reflexivity|].
      simpl. apply not_elem_of_nil. }
    eapply rtc_l.
    { apply (refuse_capacity _ [mkCall (mkPurchase 1 2 7) Succeeded] [] (mkPurchase 1 1 7)).
      simpl. lia. }
    apply rtc_refl.
Defined.

(** ** Addresses that a login can find *)

(** X28. A login succeeds only for a stored address in normal form: when
    [POST /login] answers with a user, the address of that user is one that
    the validation returns unchanged, without upper-case letters, and the
    user is an active user of the table. *)
Theorem login_needs_a_normal_address `{Libraries}
    (req : Request AuthController.Credentials) w code msg u token :
  fst (Routes.post_login req w) = mkResponse code (AuthBody msg u token) ->
  Validation.validateAndSanitizeEmail (Some (pu_email u)) =
    Validation.mkValidity true (Some (pu_email u)) None /\
  Forall (fun c => Validation.lower c = c) (Validation.chars (pu_email u)) /\
  pu_is_active u = true /\
  Exists (fun row => AuthService.public row = u) (users (db w)).
Proof.
  unfold Routes.post_login. cbn [Routes.route]. unfold AuthController.login.
  destruct (Validation.valid _) eqn:Hvalid; [|done]. cbn [negb].
  destruct (valid_has_sanitized _ Hvalid) as [e He]. rewrite He. cbn [default].
  destruct (AuthController.c_password (body req)) as [password|]; [|done].
  destruct (negb (truthy password) || _); [done|].
  destruct (AuthService.login _ _ w) as [[[u0 token0]|err] w1] eqn:Hlogin; [|done].
  cbn [fst]. intros [= _ _ -> ->].
  apply login_ok in Hlogin as (row & expiry & Hrow & -> & Hact & _).
  cbn [AuthService.l_email] in Hrow. unfold id in Hrow.
  destruct (List.filter (Pg.has_email e) (users (db w))) as [|row0 rest] eqn:Hrows; [done|].
  injection Hrow as ->.
  assert (In row (List.filter (Pg.has_email e) (users (db w)))) as Hin
    by (rewrite Hrows; by left).
  apply filter_In in Hin as [Hin Hemail]. unfold Pg.has_email in Hemail.
  apply bool_decide_eq_true in Hemail.
  apply sanitized_checked in He as (Htruthy & Hlen & Hvalid' & Hclean).
  cbn [AuthService.public pu_email pu_is_active]. rewrite Hemail.
  split; [by apply normal_is_fixed|]. split.
  - eapply Forall_impl; [exact Hclean|]. by intros c [].
  - split; [done|]. apply Exists_exists. exists row. split; [by apply list_elem_of_In|done].
Qed.

Lemma login_needs_a_normal_address_witness :
  let w := Scenario.world (Scenario.database 5 Upcoming) Scenario.no_faults 1000 in
  let u := AuthService.public Scenario.alice in
  Validation.validateAndSanitizeEmail (Some (pu_email u)) =
    Validation.mkValidity true (Some (pu_email u)) None /\
  Forall (fun c => Validation.lower c = c) (Validation.chars (pu_email u)) /\
  pu_is_active u = true /\
  Exists (fun row => AuthService.public row = u) (users (db w)).
Proof.
  apply (login_needs_a_normal_address (H := Scenario.libraries)
           (Scenario.anonymous Scenario.alice_login)
           (Scenario.world (Scenario.database 5 Upcoming) Scenario.no_faults 1000)
           200 "Login successful" (AuthService.public Scenario.alice) Scenario.alice_token).
  vm_compute. reflexivity.
Defined.

(** A user that an admin creates as [Bob@Example.com] is stored under this
    address and is not found by a login, which looks for
    [bob@example.com]. *)
Lemma scenario_mixed_case_address :
  let w := Scenario.world (Scenario.database 5 Upcoming) Scenario.no_faults 1000 in
  let create : Request UserController.CreateUserBody :=
    Scenario.anonymous
      (UserController.mkCreateUserBody (Some "Bob@Example.com") (Some "Password123")
         None None None) in
  let created := UserController.createUser (H := Scenario.libraries) create w in
  let login := Scenario.anonymous
      (AuthController.mkCredentials (Some "Bob@Example.com") (Some "Password123")
         None None None) in
  UserController.code_of (fst created) = 201 /\
  map u_email (users (db (snd created))) = ["alice@example.com"; "Bob@Example.com"] /\
  fst (Routes.post_login (H := Scenario.libraries) login
         (Scenario.later (snd created) Scenario.no_faults 2000)) =
  mkResponse 401 (ErrorBody "Unauthorized" "Invalid email or password").
Proof. vm_compute. done. Qed.

(** ** The validation of the frontend *)

Lemma lower_control c : Validation.is_control (Validation.lower c) = Validation.is_control c.
Proof. destruct c as [[] [] [] [] [] [] [] []]; reflexivity. Qed.

Lemma lower_space c : Validation.is_space (Validation.lower c) = Validation.is_space c.
Proof. destruct c as [[] [] [] [] [] [] [] []]; reflexivity. Qed.

Lemma lower_at c :
  bool_decide (Validation.lower c = "@"%char) = bool_decide (c = "@"%char).
Proof. destruct c as [[] [] [] [] [] [] [] []]; reflexivity. Qed.

Lemma lower_dot c :
  bool_decide (Validation.lower c = "."%char) = bool_decide (c = "."%char).
Proof. destruct c as [[] [] [] [] [] [] [] []]; reflexivity. Qed.

Lemma lower_plain c : Validation.plain (Validation.lower c) = Validation.plain c.
Proof. unfold Validation.plain. by rewrite lower_space, lower_at. Qed.

Lemma split_at_sign_lower l :
  Validation.split_at_sign (map Validation.lower l) =
  (fun '(a, b) => (map Validation.lower a, map Validation.lower b)) <$>
    Validation.split_at_sign l.
Proof.
  induction l as [|c l IH]; simpl; [done|].
  rewrite lower_at. case_bool_decide; [done|].
  rewrite IH. by destruct (Validation.split_at_sign l) as [[a b]|].
Qed.

Lemma removelast_map {A B} (f : A -> B) (l : list A) :
  removelast (map f l) = map f (removelast l).
Proof.
  induction l as [|x l IH]; simpl; [done|].
  destruct l as [|y l]; simpl in *; [done|]. by rewrite IH.
Qed.

Lemma inner_lower l :
  Validation.inner (map Validation.lower l) = map Validation.lower (Validation.inner l).
Proof. destruct l as [|c l]; simpl; [done|]. apply removelast_map. Qed.

Lemma forallb_map_same {A} (f : A -> bool) (g : A -> A) (l : list A) :
  (forall x, f (g x) = f x) -> forallb f (map g l) = forallb f l.
Proof. intros Hf. induction l as [|x l IH]; simpl; [done|]. by rewrite Hf, IH. Qed.

Lemma existsb_map_same {A} (f : A -> bool) (g : A -> A) (l : list A) :
  (forall x, f (g x) = f x) -> existsb f (map g l) = existsb f l.
Proof. intros Hf. induction l as [|x l IH]; simpl; [done|]. by rewrite Hf, IH. Qed.

Lemma map_nil_iff {A B} (f : A -> B) (l : list A) :
  bool_decide (map f l = []) = bool_decide (l = []).
Proof. by destruct l. Qed.

Lemma isValidEmail_lower e :
  Validation.isValidEmail (Validation.toLowerCase e) = Validation.isValidEmail e.
Proof.
  unfold Validation.isValidEmail, Validation.toLowerCase. rewrite chars_str.
  rewrite split_at_sign_lower.
  destruct (Validation.split_at_sign (Validation.chars e)) as [[loc dom]|]; [|done].
  cbn. rewrite map_nil_iff, inner_lower.
  rewrite !(forallb_map_same _ _ _ lower_plain).
  by rewrite (existsb_map_same _ _ _ lower_dot).
Qed.

Lemma length_str l : String.length (Validation.str l) = length l.
Proof. induction l as [|c l IH]; simpl; [done|]. by rewrite IH. Qed.

Lemma length_chars s : length (Validation.chars s) = String.length s.
Proof. induction s as [|c s IH]; simpl; [done|]. by rewrite IH. Qed.

Lemma length_toLowerCase e : String.length (Validation.toLowerCase e) = String.length e.
Proof. unfold Validation.toLowerCase. by rewrite length_str, length_map, length_chars. Qed.

(** X29. An address of ASCII characters that the form of the frontend
    accepts is accepted by the backend, which stores it in lower case,
    provided it has no control character: on such addresses the only way in
    which the two validations of the same expression differ is that the
    backend first removes the control characters. *)
Theorem frontend_address_is_accepted_by_the_backend e :
  is_ascii e ->
  Validation.valid (FrontendValidation.validateEmail (Some e)) = true ->
  Forall (fun c => Validation.is_control c = false) (Validation.chars e) ->
  Validation.validateAndSanitizeEmail (Some e) =
  Validation.mkValidity true (Some (Validation.toLowerCase e)) None.
Proof.
  intros _. unfold FrontendValidation.validateEmail, FrontendValidation.isValidEmail.
  destruct (negb (truthy e) || _) eqn:Hblank; [done|].
  apply orb_false_iff in Hblank as [Htruthy _]. apply negb_false_iff in Htruthy.
  destruct (255 <? String.length e)%nat eqn:Hlen; [done|].
  destruct (Validation.isValidEmail e) eqn:Hvalid; [|done].
  intros _ Hclean.
  destruct (valid_email_shape e Hvalid) as [Hspace _].
  assert (Validation.sanitizeInput (Validation.toLowerCase e) = Validation.toLowerCase e)
    as Hsan.
  { unfold Validation.sanitizeInput. rewrite filter_all.
    - rewrite str_chars. apply trim_plain.
      unfold Validation.toLowerCase. rewrite chars_str.
      apply Forall_forall. intros c Hc. apply list_elem_of_In, in_map_iff in Hc as (c0 & <- & Hc).
      rewrite lower_space. rewrite Forall_forall in Hspace. by apply Hspace, list_elem_of_In.
    - unfold Validation.toLowerCase. rewrite chars_str.
      apply Forall_forall. intros c Hc. apply list_elem_of_In, in_map_iff in Hc as (c0 & <- & Hc).
      rewrite lower_control. rewrite Forall_forall in Hclean.
      by rewrite (Hclean c0 (proj2 (list_elem_of_In _ _) Hc)). }
  unfold Validation.validateAndSanitizeEmail.
  rewrite Htruthy, Hsan. cbn [negb].
  assert (truthy (Validation.toLowerCase e) = true) as ->.
  { apply truthy_true. intros Hnil. apply truthy_true in Htruthy. apply Htruthy.
    pose proof (length_toLowerCase e) as Hl. rewrite Hnil in Hl. by destruct e. }
  cbn [negb]. by rewrite length_toLowerCase, Hlen, isValidEmail_lower, Hvalid.
Qed.

Lemma frontend_address_is_accepted_by_the_backend_witness :
  Validation.validateAndSanitizeEmail (Some "Bob@Example.com") =
  Validation.mkValidity true (Some (Validation.toLowerCase "Bob@Example.com")) None.
Proof.
  apply (frontend_address_is_accepted_by_the_backend "Bob@Example.com").
  - unfold is_ascii. vm_compute. repeat constructor.
  - reflexivity.
  - vm_compute. repeat constructor.
Defined.

(** With a control character the two differ: the frontend accepts an
    address that the backend, which removes the character first, refuses. *)
Lemma scenario_control_character :
  let e := String.append "a@b." (String (ascii_of_nat 1) EmptyString) in
  Validation.valid (FrontendValidation.validateEmail (Some e)) = true /\
  Validation.validateAndSanitizeEmail (Some e) = Validation.invalid "Invalid email format".
Proof. vm_compute. done. Qed.

(** ** The token storage of the frontend *)

Lemma access_items {A} (run : gmap string string -> A * gmap string string) b :
  TokenStorage.items (snd (TokenStorage.access run b)) = TokenStorage.items b \/
  TokenStorage.items (snd (TokenStorage.access run b)) = snd (run (TokenStorage.items b)).
Proof.
  unfold TokenStorage.access. destruct (TokenStorage.failing b _); [by left|].
  destruct (run (TokenStorage.items b)). by right.
Qed.

Lemma access_ok {A} (run : gmap string string -> A * gmap string string) b :
  (forall n, TokenStorage.failing b n = false) ->
  TokenStorage.access run b =
  (Ok (fst (run (TokenStorage.items b))),
   TokenStorage.mkBrowser (snd (run (TokenStorage.items b))) (S (TokenStorage.accesses b))
     (TokenStorage.failing b)).
Proof.
  intros Hok. unfold TokenStorage.access. rewrite Hok.
  by destruct (run (TokenStorage.items b)).
Qed.

Lemma clear_ok b :
  (forall n, TokenStorage.failing b n = false) ->
  TokenStorage.clear b =
  TokenStorage.mkBrowser
    (delete TokenStorage.USER_KEY (delete TokenStorage.TOKEN_KEY (TokenStorage.items b)))
    (S (S (TokenStorage.accesses b))) (TokenStorage.failing b).
Proof.
  intros Hok. unfold TokenStorage.clear, TokenStorage.removeItem.
  rewrite access_ok by done. cbn [fst snd]. by rewrite access_ok.
Qed.

(** What is under a key after some accesses, each of which has kept or
    changed it. *)
Ltac storage_cases :=
  repeat match goal with H : _ \/ _ |- _ => destruct H end;
  first [ left; congruence
        | right; left; congruence
        | right; right; split; [congruence|reflexivity] ].

(** A token that has the format has three parts of the URL-safe alphabet. *)
Lemma valid_token_parts t :
  TokenStorage.isValidTokenFormat t = true ->
  exists a b c,
    TokenStorage.split_dots (String.list_ascii_of_string t) = [a; b; c] /\
    Forall (fun part => part <> [] /\
                        Forall (fun ch => TokenStorage.is_base64url ch = true) part)
      [a; b; c].
Proof.
  unfold TokenStorage.isValidTokenFormat.
  destruct (negb (truthy t)); [done|].
  destruct (TokenStorage.split_dots _) as [|a [|b [|c [|d parts]]]]; try done.
  cbn [length Nat.eqb negb]. intros Hparts. exists a, b, c. split; [done|].
  apply Forall_forall. intros part Hin.
  rewrite forallb_forall in Hparts. apply list_elem_of_In, Hparts in Hin.
  unfold TokenStorage.valid_part in Hin. apply andb_true_iff in Hin as [Hne Hall].
  split; [by destruct part|].
  apply Forall_forall. intros ch Hch. rewrite forallb_forall in Hall.
  by apply Hall, list_elem_of_In.
Qed.

(** X30. The token storage of the frontend hands out well-formed tokens
    only: a token that [getToken] returns is the one stored under the key,
    has three non-empty parts of the URL-safe alphabet separated by dots,
    and the storage is left as it is; [setToken] leaves under the key what
    was there, or nothing, or the token, which is then well formed; and
    while the storage does not fail, [getToken] after [setToken] returns the
    token if it is well formed, a token that is stored but not well formed
    is removed together with the user, and after [removeToken] neither is
    left. *)
Theorem token_storage_hands_out_well_formed_tokens b :
  (forall t b',
     TokenStorage.getToken b = (Some t, b') ->
     TokenStorage.items b !! TokenStorage.TOKEN_KEY = Some t /\
     TokenStorage.items b' = TokenStorage.items b /\
     exists p1 p2 p3,
       TokenStorage.split_dots (String.list_ascii_of_string t) = [p1; p2; p3] /\
       Forall (fun part => part <> [] /\
                           Forall (fun ch => TokenStorage.is_base64url ch = true) part)
         [p1; p2; p3]) /\
  (forall t,
     TokenStorage.items (TokenStorage.setToken t b) !! TokenStorage.TOKEN_KEY =
       TokenStorage.items b !! TokenStorage.TOKEN_KEY \/
     TokenStorage.items (TokenStorage.setToken t b) !! TokenStorage.TOKEN_KEY = None \/
     (TokenStorage.items (TokenStorage.setToken t b) !! TokenStorage.TOKEN_KEY = Some t /\
      TokenStorage.isValidTokenFormat t = true)) /\
  ((forall n, TokenStorage.failing b n = false) ->
   (forall t, TokenStorage.isValidTokenFormat t = true ->
      fst (TokenStorage.getToken (TokenStorage.setToken t b)) = Some t) /\
   (forall t, TokenStorage.items b !! TokenStorage.TOKEN_KEY = Some t ->
      t <> "" -> TokenStorage.isValidTokenFormat t = false ->
      fst (TokenStorage.getToken b) = None /\
      TokenStorage.items (snd (TokenStorage.getToken b)) !! TokenStorage.TOKEN_KEY = None /\
      TokenStorage.items (snd (TokenStorage.getToken b)) !! TokenStorage.USER_KEY = None) /\
   fst (TokenStorage.getToken (TokenStorage.removeToken b)) = None /\
   TokenStorage.items (TokenStorage.removeToken b) !! TokenStorage.TOKEN_KEY = None /\
   TokenStorage.items (TokenStorage.removeToken b) !! TokenStorage.USER_KEY = None).
Proof.
  split; [|split].
  - intros t b'. unfold TokenStorage.getToken, TokenStorage.getItem.
    unfold TokenStorage.access at 1.
    destruct (TokenStorage.failing b (TokenStorage.accesses b)); [done|].
    destruct (TokenStorage.items b !! TokenStorage.TOKEN_KEY) as [token|] eqn:Hitem; [|done].
    destruct (truthy token && TokenStorage.isValidTokenFormat token) eqn:Hvalid.
    + intros [= <- <-]. apply andb_true_iff in Hvalid as [_ Hvalid].
      split; [done|]. split; [done|]. by apply valid_token_parts.
    + destruct (truthy token); [|done].
      destruct (TokenStorage.removeItem _ _) as [[?|?] b2]; [|done].
      by destruct (TokenStorage.removeItem _ b2) as [[?|?] b3].
  - intros t. unfold TokenStorage.setToken.
    destruct (TokenStorage.isValidTokenFormat t) eqn:Hvalid; cbn [negb]; [|by left].
    assert (forall b0,
      TokenStorage.items (snd (TokenStorage.setItem TokenStorage.TOKEN_KEY t b0))
        !! TokenStorage.TOKEN_KEY = TokenStorage.items b0 !! TokenStorage.TOKEN_KEY \/
      TokenStorage.items (snd (TokenStorage.setItem TokenStorage.TOKEN_KEY t b0))
        !! TokenStorage.TOKEN_KEY = Some t) as Hset.
    { intros b0. unfold TokenStorage.setItem.
      destruct (access_items (fun m => (tt, <[TokenStorage.TOKEN_KEY := t]> m)) b0) as [-> | ->];
        [by left|right]. cbn [snd]. apply lookup_insert_eq. }
    assert (forall k b0,
      TokenStorage.items (snd (TokenStorage.removeItem k b0)) !! TokenStorage.TOKEN_KEY =
        TokenStorage.items b0 !! TokenStorage.TOKEN_KEY \/
      TokenStorage.items (snd (TokenStorage.removeItem k b0)) !! TokenStorage.TOKEN_KEY = None)
      as Hremove.
    { intros k b0. unfold TokenStorage.removeItem.
      destruct (access_items (fun m => (tt, delete k m)) b0) as [-> | ->]; [by left|].
      cbn [snd]. destruct (decide (k = TokenStorage.TOKEN_KEY)) as [->|Hne].
      - right. apply lookup_delete_eq.
      - left. by apply lookup_delete_ne. }
    pose proof (Hset b) as Hset0.
    destruct (TokenStorage.setItem TokenStorage.TOKEN_KEY t b) as [[?|?] b1]; cbn [snd] in Hset0.
    { storage_cases. }
    pose proof (Hremove TokenStorage.TOKEN_KEY b1) as Hr1.
    destruct (TokenStorage.removeItem TokenStorage.TOKEN_KEY b1) as [[?|?] b2]; cbn [snd] in Hr1.
    2:{ storage_cases. }
    pose proof (Hremove TokenStorage.USER_KEY b2) as Hr2.
    destruct (TokenStorage.removeItem TokenStorage.USER_KEY b2) as [[?|?] b3]; cbn [snd] in Hr2.
    2:{ storage_cases. }
    pose proof (Hset b3) as Hset3. storage_cases.
  - intros Hok. split; [|split; [|split; [|split]]].
    + intros t Hvalid. unfold TokenStorage.setToken. rewrite Hvalid. cbn [negb].
      unfold TokenStorage.setItem. rewrite access_ok by done. cbn [fst snd].
      unfold TokenStorage.getToken, TokenStorage.getItem. rewrite access_ok by done.
      cbn [fst snd TokenStorage.items]. rewrite lookup_insert_eq, Hvalid.
      assert (truthy t = true) as ->; [|done].
      unfold TokenStorage.isValidTokenFormat in Hvalid. by destruct (truthy t).
    + intros t Hitem Hne Hinvalid. unfold TokenStorage.getToken, TokenStorage.getItem.
      rewrite access_ok by done. cbn [fst snd]. rewrite Hitem, Hinvalid.
      rewrite (proj2 (truthy_true t) Hne). cbn [andb].
      unfold TokenStorage.removeItem. rewrite access_ok by done. cbn [fst snd].
      rewrite access_ok by done. cbn [fst snd TokenStorage.items].
      split; [done|]. split.
      * rewrite lookup_delete_ne by done. apply lookup_delete_eq.
      * apply lookup_delete_eq.
    + unfold TokenStorage.removeToken. rewrite clear_ok by done.
      unfold TokenStorage.getToken, TokenStorage.getItem. rewrite access_ok by done.
      cbn [fst snd TokenStorage.items].
      rewrite lookup_delete_ne by done. by rewrite lookup_delete_eq.
    + unfold TokenStorage.removeToken. rewrite clear_ok by done. cbn [TokenStorage.items].
      rewrite lookup_delete_ne by done. apply lookup_delete_eq.
    + unfold TokenStorage.removeToken. rewrite clear_ok by done. cbn [TokenStorage.items].
      apply lookup_delete_eq.
Qed.

(** ** Runs *)

(** Three events are listed by date; the second page of two starts at the
    second of them. *)
Lemma scenario_listing :
  let event (id date : Z) (s : EventStatus) :=
    mkEvent id "Show" None None date 5 5 2500 None s None 0 0 in
  let d := mkDb [Scenario.alice] 7
             (<[1 := event 1 5000 Upcoming]>
                (<[2 := event 2 3000 Live]> {[ 3 := event 3 4000 Upcoming ]})) 3 [] [] in
  let w := Scenario.world d Scenario.no_faults 1000 in
  let all := EventService.mkEventQueryParams None None None None None None in
  let upcoming := EventService.mkEventQueryParams (Some "upcoming") None None None None None in
  let ids (r : Result (list Event * Z)) :=
    match r with
    | Ok (rows, total) => Some (map e_id rows, total)
    | Throw _ => None
    end in
  ids (fst (EventService.listEvents all w)) = Some ([2; 3; 1], 3) /\
  ids (fst (EventService.listEvents (page_of all 2 1) w)) = Some ([3; 1], 3) /\
  ids (fst (EventService.listEvents upcoming w)) = Some ([3; 1], 2).
Proof. vm_compute. done. Qed.

(** An event is created with all its tickets available. *)
Lemma scenario_created_event :
  let data := EventService.mkCreateEventDto "Gala" None (Some "Hall") (Some 9000) 40 1500
                None None in
  let req := mkRequest None None "" (Some (mkAuthPayload 7 "alice@example.com" RoleAdmin))
               data Scenario.browser in
  let r := EventController.createEvent req
             (Scenario.world (Scenario.database 5 Upcoming) Scenario.no_faults 1000) in
  status (fst r) = 201 /\
  (fun e => (e_id e, total_tickets e, available_tickets e, e_status e, e_created_by e)) <$>
    events (db (snd r)) !! 2 = Some (2, 40, 40, Upcoming, Some 7).
Proof. vm_compute. done. Qed.

(** A well-formed token is stored and read back; a token that is not is
    not stored, and one found in the storage is removed with the user. *)
Lemma scenario_token_storage :
  let empty := TokenStorage.mkBrowser ∅ 0 (fun _ => false) in
  let tampered :=
    TokenStorage.mkBrowser
      (<[TokenStorage.TOKEN_KEY := "not a token"]> {[ TokenStorage.USER_KEY := "{}" ]})
      0 (fun _ => false) in
  fst (TokenStorage.getToken (TokenStorage.setToken "eyJh.eyJ1.c2ln" empty))
    = Some "eyJh.eyJ1.c2ln" /\
  fst (TokenStorage.getToken (TokenStorage.setToken "eyJh.eyJ1" empty)) = None /\
  fst (TokenStorage.getToken tampered) = None /\
  TokenStorage.items (snd (TokenStorage.getToken tampered)) = ∅.
Proof. vm_compute. done. Qed.
